(* ===== verification/_CoqProject ===== *)
-Q . S2P
Prelude.v
GoSem.v
Utf8.v
Numbers.v
Json.v
SliceLoop.v
Framing.v
Frame.v
SubNode.v
SubGroups.v
Interleave.v
SubClient.v
SubService.v
SubStart.v
EventPath.v
Watch.v
Consul.v
Registration.v
Codec.v
AgentRecv.v
Link.v
AgentServer.v
Announcing.v
AgentClient.v
Answers.v
SyncClient.v
AgentOptions.v
Echo.v
Replica.v
AgentService.v
PosCodec.v
FieldDecode.v
Binlog.v
RowTypes.v
Documents.v
Cluster.v
LogPath.v
Streaming.v
Delivery.v
Config.v
Context.v
App.v
Settings.v
Leader.v
Examples.v
Discovery.v
Members.v
OneReader.v
Main.v
Services.v
Program.v
