(* ===== verification/Prelude.v ===== *)
(** * copycat: a verification of the binlog distribution service

    copycat reads the binlog of a MySQL master and publishes every changed row
    as a JSON document to the subscribers whose topics match the row's table.
    Several copies form a cluster: one is elected leader through Consul and
    reads the binlog; the others connect to it, mirror its events to their own
    subscribers and its position into their own cache files, and one of them
    takes over when the leader goes away.

    ** The parts and how they interact

<<
      MySQL --> binlog.Binlog --notify--> services.TCPService --> tcpGroups
                  |   |   ^                 (CMD_EVENT packets)       |
        cache file+   |   |                                           v
                      |   | OnLeader / SaveBinlogPosition      tcpClientNode
              Sync    v   |                                           |
                 agent.Server ==TCP==> agent.Client (a follower)      TCP
                                                                      v
      Consul lock --> consul.Leader      client.Client <== events, ticks
      Consul services --> WatchService, client.ConsulWatcher --> server choice
>>

    ** The files

    Foundations.
    - [Prelude.v]: bytes, machine integers with their wrap-around, little-endian
      words.
    - [GoSem.v]: what the program uses of Go.  A call is a function [M S A]
      from a state to a state and an [outcome]: [Ret], [Panic], [Block] (a
      channel operation or a wait nobody will ever end) or [OutOfFuel] (which
      only the model has).  Writes made before a panic survive it, as
      [recover] sees them.  Slices carry a length and a backing array.  The
      judgements [preserves] (an invariant is kept whatever the outcome) and
      [terminates] (never [OutOfFuel]) are closed under the program's
      combinators; the hint database [go] applies them.
    - [Utf8.v]: the runes of a byte string, ill-formed bytes included.
      [Numbers.v]: number literals and their values, [strconv]'s rounding to
      the nearest [float64] and its shortest decimals.  [Json.v]: printing and
      reading of [encoding/json], and decoding into [interface{}].
    - [SliceLoop.v]: deleting an element from a slice while [range] runs over
      it, on the backing array, as both servers' close methods do.
    - [Framing.v]: reassembling frames from a byte stream, proved once from the
      interface [FrameReceiver] with its laws [FrameReceiverLaws].  The
      receivers of [SubNode.v], [SubClient.v] and [AgentRecv.v] are instances.

    The subscription service ([src/services], [src/client]).
    - [Frame.v]: [service_util.go], the packets and the filters.
    - [SubNode.v]: [service_tcpnode.go], one subscriber's connection.  Its
      methods run on any state that implements [NodeHost].
    - [SubGroups.v]: [service_tcpgroups.go] and the connection counter of
      [service.go]; the record [world] (heap of nodes, slice of members,
      remove hooks, counter) is the [NodeHost].  [Interleave.v]: publishing
      step by step, with the other goroutines' handlers in between.
    - [SubService.v]: [service_tcp.go]; the record [TCPService] holds the
      callbacks its options set.  [Registration.v]: [service.go], registering
      with Consul and the loop that publishes the load, and the client's side
      of both ([watcher.go]).
    - [SubClient.v]: [client/tcp.go], the subscriber's side.  Discovered servers
      are pointers into the heap [servers].  [SubStart.v]: its options,
      [NewClient] and the loop of [start] until [NewClient] returns.
    - [Watch.v]: [consul/watch_service.go] and [client/watcher.go].
    - [EventPath.v]: the three composed, from [SendAll] to a callback of the
      subscriber.

    Consul ([src/consul]).
    - [Consul.v]: [kv.go], [kv_entity.go], [session.go], [session_entity.go],
      [lock.go], [lock_entity.go], [watch_kv.go] on the interface [ConsulAPI]
      of the client library.  [ConsulView] is what can be seen of a cluster,
      [ConsulLaws] what the library documents of each call; [OneConsul] is an
      instance of all three.
    - [Leader.v]: the election as [leader.go] and [service.go] make it, over
      the answers of the lock and of the registration alone.  [Discovery.v]:
      the same two files with every call of Consul; its [agent_refines] is the
      simulation between the two.

    The cluster ([src/agent], [src/binlog], [src/main.go]).
    - [Codec.v]: [agent/codec.go].  [AgentRecv.v]: the receive loop that
      [agent/node.go] and [agent/client.go] share, over [PacketHost].
      [Link.v]: one direction of a connection, for any such receiver: what was
      written, how much of it was read, and the packets that stand for the
      rest.
    - [AgentServer.v]: [agent/server.go], [node.go], [group.go], on the record
      [server], for any list of callbacks that keep its invariant
      ([callbacks_ok]); [Announcing.v]: its broadcast step by step, with the
      other goroutines' handlers in between.  [AgentClient.v]: [agent/client.go], on the record
      [Client] with its table of waiters; [Answers.v] is the relation between
      waiters, requests and the packets underway.  [SyncClient.v]: [agent/client_sync.go], with
      the deadlines of its connection.  [AgentOptions.v]: the options of the
      client and the server, the size of the read buffer, and what one
      connection leaves to the next.  [AgentService.v]: [agent/agent.go].
      [Members.v]: its queries of Consul - finding the leader, [Close],
      [ShowMembers].
    - [Echo.v]: the echo server and client of [agent/examples] and the network
      between them as one system of steps.  [Replica.v]: a server that
      announces and one of its clients, in the same way.
    - [PosCodec.v], [FieldDecode.v]: [binlog/binlog_util.go].  [Binlog.v]:
      [binlog.go] and [binlog_handler.go], on the record [Binlog] with its
      cache file.  [RowTypes.v]: the types of column values, and that rows of
      a table are published with them.  [Documents.v]: the JSON documents of
      the rows, and what a reader makes of them.
    - [Cluster.v]: the wiring of [main.go].  [outlets] is the state of the
      reader's callbacks, [reader] the reader on it, [process] one copy.
      [LogPath.v]: the master's log, rows and positions in one order, through
      the leader, the connection, the follower and its subscribers, for any
      documents.  [Delivery.v]: the same with the documents of [Documents.v],
      read by the agents and the subscribers' clients, and the log under two
      leaders one after the other.  [Streaming.v]: the leader's reader and the
      connection of [Replica.v] as one system of steps.
    - [OneReader.v]: the election of [Discovery.v] driving the readers of
      [Binlog.v]; [nodes] is a cluster of both.
    - [Main.v]: [setup] is [main] from the loaded configuration on, and the
      two modes it starts in.  [Services.v]: the interface of the services
      and the reader's registry of them.  [Program.v]: [main] from its command
      line, with its deferred [recover] and the routes of the admin server.
    - [Examples.v]: [scripts/clients/client.go] and the examples of
      [src/consul] over the models of the packages they call.

    Start and end ([src/g]).
    - [Config.v]: [cfg.go], on the interface [Files] with its laws
      [FilesLaws]; paths are cleaned and joined as [path/filepath] does it.
    - [Settings.v]: [json.Unmarshal] of the file's text into the structs of
      [cfg.go], and the shipped [cfg.json].
    - [App.v]: [app.go].  [Context.v]: [context.go] and the end of [main], as
      a step relation.

    ** What the theorems show

    End to end.  [event_reaches_subscriber]: a subscriber's callbacks get
    exactly the published documents its topics match, in order and once,
    however TCP cuts the bytes.  [log_survives]: a follower publishes what reached
    it of the rows the leader reads, and when elected reads on at the last
    position with the leader's event index, so that the two leaders publish
    all rows of the log, numbered one after another; [log_reaches_subscriber]
    follows the rows on to the maps a follower's subscriber gets.
    [resubscription]: after connecting, the server filters by the client's
    topics.  [one_reader]: of the nodes in touch with Consul at most one reads
    the log, but for nodes whose [RunFrom] failed after its stop had been
    handled ([late_error_two_readers]).  [shipped_runs_alone]: what [main] does with the shipped
    configuration.

    The theorems over the agents' connections ask that the first read of a
    connection brings at least the four bytes of a packet header: the codec
    drops a shorter one ([header_split_drops], [split_header_loses],
    [split_request_lost]).  [log_survives], [log_reaches_subscriber] and
    [agent_reassembly] ask it of the first piece, the theorems on runs of
    [Replica.v], [Streaming.v] and [Echo.v] by [headed_run] and [headed_all]:
    the runs themselves ([may], [can], [allowed]) include shorter first reads.
    The stream behind the first header is cut anywhere.

    Over the network.  [follower_trails]: while the leader reads the log, at
    every moment what a follower has published, and the position it would go
    on from as the next leader, are those of one prefix of the leader's
    messages; [follower_keeps_up]: it can always be brought to all of them;
    [follower_hears] and [follower_catches_up]: the same for any callbacks.  [answers_are_own] and
    [every_request_answered]: a request gets its own answer, and gets one;
    [round_passes] and [main_turn_passes]: the example's client runs on.

    Invariants of every run, for any order of the handlers.
    [program_invariant] (a whole program: its subscription service and its
    agent's server together), [service_invariant] (the published connection
    count is the number of online subscribers, members are online and listed
    once), [server_invariant], [client_invariant], [sync_invariant],
    [node_life_cycle], [agents_exclusive] and [leader_unique] (two leaders only
    while one has not heard from Consul since its lock was taken away),
    [client_tracks_service], [exit_once].

    Refinement.  [agent_refines] (an agent with its calls of Consul is the
    abstract agent, over a lock whose calls may fail or go unheard),
    [selected_answers].

    Types.  [OnRow_typed] (typed rows give typed documents),
    [fieldDecode_panics] (when a value has no name in its column's list),
    [fieldDecode_int].

    Functional behaviour.  [groups_sendAll_delivers], [broadcast_delivers],
    [request_response], [OnRow_publishes], [restart_resumes],
    [reelection_restarts], [standalone_starts], [clustered_waits],
    [NewClient_returns_online],
    [follower_dials_leader], [ShowMembers_marks_leader], [Close_resigns],
    [getServer_least_loaded] (for every iteration order of the map, panics of
    its hook included),
    [watch_follows], [watch_example], [published_load], [registered_is_listed],
    [Send_deadlines], [ParseConfig_first], [Reload_same_file], [GetKey_stable],
    [sweep_wakes_expired], [Select_reports_changes], [main_wiring] and
    [RegisterService_replaces] (the reader's services), [ServiceIp_publishes],
    [raw_exchange], [subscriber_serves], [one_of_two].

    Round trips and streams.  [Decode_Encode], [Unpack_Pack],
    [position_cache_roundtrip], [node_serves_stream], [agent_reassembly];
    [parse_print] (printed JSON is read back), [rows_roundtrip] (a row as a
    subscriber sees it), [config_roundtrip].

    Safety and termination.  [publish_calm] and [announce_calm] (publishing
    and broadcasting without a lock, as long as nobody leaves: who is looked
    at, and who gets the packet), [agent_onMessage_safe], [onMessage_terminates],
    [exit_completes].

    What the program does in the cases it does not handle, stated exactly:
    [groups_close_leaks] and [server_close_leaks] (closing reaches every second
    member only), [short_packet_crashes], [reconnect_mixes_streams],
    [offline_forever], [full_queue_blocks_broadcast], [close_never_saves],
    [stop_overtakes_start], [stale_leader_breaks_lock],
    [first_error_isolates], [header_split_drops], [Decode_reads_past_length],
    [eof_spins], [nonpositive_id_stuck], [callback_panic_drops_rest],
    [duplicate_response_blocks], [bad_position_wipes], [Send_answer],
    [Send_split_answer], [discovery_finds_nothing], [load_outlives_session],
    [unpublished_load_panics] (a client meets a server without a load),
    [stale_leader_dialled], [handlerInit_fails],
    [GetKey_short_write], [setup_ignores_position], [unreachable_starves] (a
    server that cannot be dialled is tried for ever), [small_buffer_deaf],
    [reconnect_mixes_leaders] (a packet glued from two connections),
    [seen_int_collides] (integers beyond 2^53), [main_outcome],
    [missing_section_succeeds] (a failed start has the exit status of success),
    [leave_skips], [leave_panics] and [leaving_panics_leader] (somebody leaves
    during a publication),
    [daemon_ignored], [shipped_switch], [bad_value_fatal],
    [lost_connection_stops].

    ** Fuel

    Four loops are not structural.  [SubNode.onMessage], [SubClient.onMessage]
    and [AgentRecv.onMessage] take a packet off a buffer per round; a round
    removes at least six (sixteen) bytes, and the fuel is one round per buffered
    byte and one more.  [onMessage_terminates], [client_onMessage_terminates]
    and [agent_onMessage_safe] prove that it never runs out, the latter two
    under the hypothesis that the callbacks do not.  [Json.parse] recurs into
    values, arrays and objects with two rounds per rune and two more;
    [parse_answers] proves that they are enough for every text.  The printing
    of floats tries at most seventeen digits.  Every other loop is over a
    list, the bytes of a string, or a given number of rounds.

    ** What the model leaves out

    - Goroutines are turns: a run is a list of handler calls and loop turns in
      any order, each of which runs to its end; only the
      loops of the publisher and of the broadcast to followers are also taken
      apart into their steps ([Interleave.v], [Announcing.v]).  The memory model and
      locks as such are not modelled; channels are queues with their capacity.
    - Parameters, since their code is not in the repository: regular expression
      matching, Unicode lower-casing beyond ASCII, what [json.Marshal] prints
      for values of other types than canal's usual ones ([other] in
      [Documents.v]), the growth of a slice's capacity, the Consul client
      library (an interface with laws), the file system (an interface with
      laws), what [net.Dial] and single calls on sockets return - in [Echo.v],
      [Replica.v] and [Streaming.v] what was written arrives in order, in pieces
      of any size -, random numbers and the clock,
      and MySQL's replication protocol.  The theorems on the reader and the
      agents alone take the functions in the place of [json.Marshal] and
      [json.Unmarshal] as arguments; [Delivery.v] has the real ones.
    - That a float column keeps its value through JSON is not proved: the
      theorems on documents are for tables without float columns.
    - Logging and profiling; the deadlines of connections but for those of
      the synchronous client; closing of listeners.
    - Not modelled, since there is no logic in them: the usage text and
      banner, constructors of the Consul wrappers, handlers that only log
      ([OnRotate], [OnXID], [OnGTID]), and of the examples the waiting for
      signals, the profiling server and the printing.
    - In [Echo.v] and [Replica.v] the connection they watch stands: what a
      lost one leaves behind is in [AgentOptions.v] and [LogPath.v]; the
      followers' elections and their connections are in one system only at
      the grain of [OneReader.v]. *)
From stdpp Require Export base gmap sets list countable strings.
From Stdlib Require Export ZArith Lia ZifyBool.
From Stdlib Require Strings.Byte.
#[global] Open Scope Z_scope.

(** ** Bytes: Go's [byte] is Rocq's 256-constructor [Byte.byte]. *)
Abbreviation byte := Init.Byte.byte.
Abbreviation bytes := (list Init.Byte.byte).

(** [int(b)] for a byte, and the truncating conversion [byte(z)]. *)
Definition byte_Z (b : byte) : Z := Z.of_N (Byte.to_N b).
Definition Z_byte (z : Z) : byte :=
  match Byte.of_N (Z.to_N (z mod 256)) with Some b => b | None => Byte.x00 end.

Lemma byte_Z_range b : 0 <= byte_Z b < 256.
Proof.
  unfold byte_Z. pose proof (Byte.to_N_bounded b). lia.
Qed.

Lemma byte_Z_inj b1 b2 : byte_Z b1 = byte_Z b2 -> b1 = b2.
Proof.
  intros H%N2Z.inj. apply (f_equal Byte.of_N) in H.
  rewrite !Byte.of_to_N in H. by simplify_eq.
Qed.

Lemma byte_Z_Z_byte z : byte_Z (Z_byte z) = z mod 256.
Proof.
  unfold Z_byte, byte_Z. pose proof (Z.mod_pos_bound z 256 ltac:(lia)) as Hb.
  destruct (Byte.of_N _) as [b|] eqn:E.
  - apply Byte.to_of_N in E. lia.
  - apply Byte.of_N_None_iff in E. lia.
Qed.

Lemma Z_byte_byte_Z b : Z_byte (byte_Z b) = b.
Proof.
  apply byte_Z_inj. rewrite byte_Z_Z_byte. apply Z.mod_small, byte_Z_range.
Qed.

#[global] Instance byte_eq_dec : EqDecision byte.
Proof.
  intros b1 b2. destruct (decide (byte_Z b1 = byte_Z b2)) as [H|H].
  - left. by apply byte_Z_inj.
  - right. congruence.
Defined.

#[global] Instance byte_countable : Countable byte.
Proof.
  refine (inj_countable' Byte.to_N (fun n => default Byte.x00 (Byte.of_N n)) _).
  intros b. by rewrite Byte.of_to_N.
Defined.

(** A Go string constant as the bytes it denotes. *)
Definition gostr (s : String.string) : bytes := String.list_byte_of_string s.

(** ** Machine integers: values are [Z], wrapped explicitly at their width. *)
Definition u_wrap (w : Z) (z : Z) : Z := z mod 2 ^ w.
Definition s_wrap (w : Z) (z : Z) : Z := (z + 2 ^ (w - 1)) mod 2 ^ w - 2 ^ (w - 1).
Abbreviation u32 := (u_wrap 32).
Abbreviation u64 := (u_wrap 64).
Abbreviation s64 := (s_wrap 64).
Abbreviation MaxInt64 := (2 ^ 63 - 1).

Lemma u_wrap_small w z : 0 <= z < 2 ^ w -> u_wrap w z = z.
Proof. apply Z.mod_small. Qed.

Lemma s_wrap_range w z : 0 < w -> - 2 ^ (w - 1) <= s_wrap w z < 2 ^ (w - 1).
Proof.
  intros Hw. unfold s_wrap.
  pose proof (Z.mod_pos_bound (z + 2 ^ (w - 1)) (2 ^ w) ltac:(lia)).
  assert (2 ^ w = 2 * 2 ^ (w - 1)) by (rewrite <- Z.pow_succ_r by lia; f_equal; lia).
  lia.
Qed.

Lemma s_wrap_small w z :
  0 < w -> - 2 ^ (w - 1) <= z < 2 ^ (w - 1) -> s_wrap w z = z.
Proof.
  intros Hw Hz. unfold s_wrap.
  assert (2 ^ w = 2 * 2 ^ (w - 1)) by (rewrite <- Z.pow_succ_r by lia; f_equal; lia).
  rewrite Z.mod_small by lia. lia.
Qed.

(** The signed reading of an unsigned residue, and back. *)
Lemma s_wrap_u_wrap w z : 0 < w -> s_wrap w (u_wrap w z) = s_wrap w z.
Proof.
  intros Hw. unfold s_wrap, u_wrap. rewrite Zplus_mod_idemp_l. done.
Qed.

Lemma u_wrap_mod_small w z m : 0 <= w -> (2 ^ w | m) -> 0 < m -> u_wrap w (z mod m) = u_wrap w z.
Proof.
  intros Hw Hd Hm. unfold u_wrap. by rewrite Z.mod_mod_divide.
Qed.

(** ** Little-endian words *)

(** [n] bytes of [z], least significant first, as a chain of Go's
    [byte(z >> 8*i)]. *)
Fixpoint le_bytes (n : nat) (z : Z) : bytes :=
  match n with
  | O => []
  | S n => Z_byte z :: le_bytes n (Z.shiftr z 8)
  end.

Fixpoint le_val (l : bytes) : Z :=
  match l with
  | [] => 0
  | b :: l => byte_Z b + 256 * le_val l
  end.

Lemma le_bytes_length n z : length (le_bytes n z) = n.
Proof. revert z. induction n; intros; simpl; auto. Qed.

Lemma le_val_le_bytes n z : le_val (le_bytes n z) = z mod 2 ^ (8 * Z.of_nat n).
Proof.
  revert z. induction n as [|n IH]; intros z.
  - simpl. by rewrite Z.mod_1_r.
  - cbn [le_bytes le_val]. rewrite IH, byte_Z_Z_byte, Z.shiftr_div_pow2 by lia.
    replace (8 * Z.of_nat (S n)) with (8 + 8 * Z.of_nat n) by lia.
    rewrite Z.pow_add_r by lia. change (2 ^ 8) with 256.
    rewrite (Z.rem_mul_r z 256) by lia. lia.
Qed.

Lemma le_val_range l : 0 <= le_val l < 2 ^ (8 * Z.of_nat (length l)).
Proof.
  induction l as [|b l IH]; cbn [le_val length]; [by simpl; lia|].
  replace (8 * Z.of_nat (S (length l))) with (8 + 8 * Z.of_nat (length l)) by lia.
  rewrite Z.pow_add_r by lia. change (2 ^ 8) with 256.
  pose proof (byte_Z_range b). lia.
Qed.

Lemma le_val_app l1 l2 :
  le_val (l1 ++ l2) = le_val l1 + 2 ^ (8 * Z.of_nat (length l1)) * le_val l2.
Proof.
  induction l1 as [|b l IH]; cbn [le_val length app].
  - rewrite Z.mul_0_r, Z.pow_0_r. lia.
  - rewrite IH. replace (8 * Z.of_nat (S (length l))) with (8 + 8 * Z.of_nat (length l)) by lia.
    rewrite (Z.pow_add_r 2 8) by lia. change (2 ^ 8) with 256. lia.
Qed.

(** [a | b << n] is addition when [a] fits below bit [n]; [b] may be negative. *)
Lemma lor_shiftl_add a b n :
  0 <= n -> 0 <= a < 2 ^ n -> Z.lor a (Z.shiftl b n) = a + b * 2 ^ n.
Proof.
  intros Hn Ha. rewrite <- Z.shiftl_mul_pow2 by done.
  pose proof (Z.add_lor_land a (Z.shiftl b n)) as E.
  enough (Z.land a (Z.shiftl b n) = 0) by lia.
  apply Z.bits_inj'. intros i Hi. rewrite Z.land_spec, Z.bits_0.
  destruct (Z.lt_ge_cases i n) as [Hlt|Hge].
  - rewrite Z.shiftl_spec_low by done. apply andb_false_r.
  - rewrite <- (Z.mod_small a (2 ^ n)) by done.
    rewrite Z.mod_pow2_bits_high by lia. done.
Qed.

(** Closes the small arithmetic side conditions of a concrete instance. *)
Ltac small := vm_compute; intuition (lia || congruence).

(** A pair by its second component, when only that one is cheap to compute. *)
Lemma pair_snd {A B} (p : A * B) b : p.2 = b -> p = (p.1, b).
Proof. intros <-. apply surjective_pairing. Qed.
Lemma pair_snd3 {A1 A2 B} (p : A1 * A2 * B) b : p.2 = b -> p = ((p.1.1, p.1.2), b).
Proof. intros <-. by destruct p as [[a1 a2] x]. Qed.
