(* ===== verification/GoSem.v ===== *)
(** * The parts of Go's semantics the program relies on

    Outcomes of a call (return, panic, block), a state monad in which the
    writes made before a panic survive it (as [recover] observes them),
    loops over ranges, and slices with a length, a capacity and a backing
    array.  The errors are those of [src/g/errors.go]. *)
From S2P Require Import Prelude.

(** ** Errors *)
Inductive goerr :=
  | ErrFileNotFound | ErrFileParse | ErrOutOfRange | ErrKvDoesNotExists
  | ErrMembersEmpty | ErrLeaderNotFound | ErrNotRegister | ErrDataLenError
  | ErrNotConnect | ErrIsConnected | ErrWaitTimeout | ErrChanIsClosed
  | ErrUnknownError | ErrMaxPackError | ErrInvalidPackage | ErrNetW
  | ErrExternal (** an error made by the network, the file system or a library *).

#[global] Instance goerr_eq_dec : EqDecision goerr.
Proof. solve_decision. Defined.

(** ** Outcomes *)
Inductive outcome (A : Type) :=
  | Ret (a : A)
  | Panic
  | Block
  | OutOfFuel.
Arguments Ret {A} a.
Arguments Panic {A}.
Arguments Block {A}.
Arguments OutOfFuel {A}.

Definition obind {A B} (m : outcome A) (k : A -> outcome B) : outcome B :=
  match m with
  | Ret a => k a
  | Panic => Panic
  | Block => Block
  | OutOfFuel => OutOfFuel
  end.

(** ** The state monad *)
Definition M (S A : Type) : Type := S -> S * outcome A.

Section Monad.
Context {S : Type}.

Definition ret {A} (a : A) : M S A := fun s => (s, Ret a).
Definition bind {A B} (m : M S A) (k : A -> M S B) : M S B := fun s =>
  match m s with
  | (s', Ret a) => k a s'
  | (s', Panic) => (s', Panic)
  | (s', Block) => (s', Block)
  | (s', OutOfFuel) => (s', OutOfFuel)
  end.
Definition gets {A} (f : S -> A) : M S A := fun s => (s, Ret (f s)).
Definition modify (f : S -> S) : M S unit := fun s => (f s, Ret tt).
Definition lift {A} (o : outcome A) : M S A := fun s => (s, o).
Definition recover {A} (m h : M S A) : M S A := fun s =>
  match m s with
  | (s', Panic) => h s'
  | r => r
  end.

(** [for _, x := range l { f(x) }] over a list nobody changes meanwhile. *)
Fixpoint range {A} (l : list A) (f : A -> M S unit) : M S unit :=
  match l with
  | [] => ret tt
  | x :: l => bind (f x) (fun _ => range l f)
  end.

Lemma bind_ret {A B} (m : M S A) (k : A -> M S B) s s' a :
  m s = (s', Ret a) -> bind m k s = k a s'.
Proof. intros E. unfold bind. by rewrite E. Qed.

Lemma bind_panic {A B} (m : M S A) (k : A -> M S B) s s' :
  m s = (s', Panic) -> bind m k s = (s', Panic).
Proof. intros E. unfold bind. by rewrite E. Qed.

Lemma range_app {A} (l1 l2 : list A) (f : A -> M S unit) s s' :
  range l1 f s = (s', Ret tt) -> range (l1 ++ l2) f s = range l2 f s'.
Proof.
  revert s. induction l1 as [|x l1 IH]; intros s E; simpl in *.
  - unfold ret in E. by simplify_eq.
  - unfold bind in *. destruct (f x s) as [s1 [u| | |]]; simplify_eq. by apply IH.
Qed.

(** A range whose body always returns is a left fold. *)
Lemma range_fold {A} (l : list A) (f : A -> M S unit) (g : A -> S -> S) s :
  (forall x s, x ∈ l -> f x s = (g x s, Ret tt)) ->
  range l f s = (foldl (fun s x => g x s) s l, Ret tt).
Proof.
  revert s. induction l as [|x l IH]; intros s H; simpl; [done|].
  rewrite (bind_ret _ _ _ _ _ (H x s ltac:(left))).
  apply IH. intros y s' Hy. apply H. by right.
Qed.
End Monad.

(** A run of the program: calls started one after another, each from the state
    the previous one left.  A call that panics or waits for ever leaves the
    writes it made; the goroutines that issue the later calls go on. *)
Definition run {S A B} (f : A -> M S B) (evs : list A) (s : S) : S :=
  foldl (fun s e => fst (f e s)) s evs.

Lemma run_app {S A B} (f : A -> M S B) l1 l2 (s : S) : run f (l1 ++ l2) s = run f l2 (run f l1 s).
Proof. apply foldl_app. Qed.

(** ** Two judgements that are closed under composition

    [preserves I m]: the call keeps [I], whatever its outcome;
    [terminates m]: it never runs out of the fuel of the loops inside it. *)
Definition preserves {S A} (I : S -> Prop) (m : M S A) : Prop :=
  forall s, I s -> I (fst (m s)).
Definition terminates {S A} (m : M S A) : Prop :=
  forall s, snd (m s) <> OutOfFuel.

Section Judgements.
Context {S : Type} (I : S -> Prop).

Lemma preserves_bind {A B} (m : M S A) (k : A -> M S B) :
  preserves I m -> (forall a, preserves I (k a)) -> preserves I (bind m k).
Proof.
  intros Hm Hk s Hs. specialize (Hm s Hs). unfold bind.
  destruct (m s) as [s' [a| | |]]; simpl in *; try done. by apply Hk.
Qed.
Lemma preserves_ret {A} (a : A) : preserves I (ret a).
Proof. by intros s. Qed.
Lemma preserves_lift {A} (o : outcome A) : preserves I (lift o).
Proof. by intros s. Qed.
Lemma preserves_gets {A} (f : S -> A) : preserves I (gets f).
Proof. by intros s. Qed.
Lemma preserves_modify f : (forall s, I s -> I (f s)) -> preserves I (modify f).
Proof. by intros Hf s Hs; apply Hf. Qed.
Lemma preserves_if {A} (b : bool) (m1 m2 : M S A) :
  preserves I m1 -> preserves I m2 -> preserves I (if b then m1 else m2).
Proof. by destruct b. Qed.
Lemma preserves_range {A} (l : list A) f :
  (forall x, preserves I (f x)) -> preserves I (range l f).
Proof. intros Hf. induction l; simpl; auto using preserves_ret, preserves_bind. Qed.
Lemma preserves_recover {A} (m h : M S A) :
  preserves I m -> preserves I h -> preserves I (recover m h).
Proof.
  intros Hm Hh s Hs. specialize (Hm s Hs). unfold recover.
  destruct (m s) as [s' []]; simpl in *; auto.
Qed.

Lemma preserves_run {A B} (f : A -> M S B) evs s :
  (forall e, preserves I (f e)) -> I s -> I (run f evs s).
Proof.
  intros Hf. revert s. induction evs as [|e evs IH]; intros s Hs; [done|]. by apply IH, Hf.
Qed.

Lemma terminates_bind {A B} (m : M S A) (k : A -> M S B) :
  terminates m -> (forall a, terminates (k a)) -> terminates (bind m k).
Proof.
  intros Hm Hk s. specialize (Hm s). unfold bind.
  destruct (m s) as [s' [a| | |]]; simpl in *; try done. by apply Hk.
Qed.
Lemma terminates_ret {A} (a : A) : terminates (S:=S) (ret a).
Proof. by intros s. Qed.
Lemma terminates_lift {A} (o : outcome A) : o <> OutOfFuel -> terminates (S:=S) (lift o).
Proof. by intros ? s. Qed.
Lemma terminates_gets {A} (f : S -> A) : terminates (gets f).
Proof. by intros s. Qed.
Lemma terminates_modify (f : S -> S) : terminates (modify f).
Proof. by intros s. Qed.
Lemma terminates_if {A} (b : bool) (m1 m2 : M S A) :
  terminates m1 -> terminates m2 -> terminates (if b then m1 else m2).
Proof. by destruct b. Qed.
Lemma terminates_range {A} (l : list A) (f : A -> M S unit) :
  (forall x, terminates (f x)) -> terminates (range l f).
Proof. intros Hf. induction l; simpl; auto using terminates_ret, terminates_bind. Qed.
End Judgements.

Create HintDb go.
#[export] Hint Resolve preserves_bind preserves_ret preserves_lift preserves_gets
  preserves_if preserves_range preserves_recover
  terminates_bind terminates_ret terminates_gets terminates_modify terminates_if
  terminates_range : go.

Declare Scope go_scope.
Delimit Scope go_scope with go.
Notation "'let!' x := m 'in' k" := (bind m (fun x => k))
  (at level 10, x binder, m at level 100, k at level 200) : go_scope.
Notation "m ;; k" := (bind m (fun _ => k))
  (at level 100, k at level 200, right associativity) : go_scope.
#[global] Open Scope go_scope.

(** ** Indexing and slicing of a Go slice whose capacity does not matter *)
Definition index {A} (l : list A) (i : Z) : outcome A :=
  if (i <? 0) then Panic
  else match l !! Z.to_nat i with Some x => Ret x | None => Panic end.

(** [l[i:j]] for [j] within the length. *)
Definition sub {A} (l : list A) (i j : Z) : outcome (list A) :=
  if (0 <=? i) && (i <=? j) && (j <=? Z.of_nat (length l))
  then Ret (take (Z.to_nat (j - i)) (drop (Z.to_nat i) l))
  else Panic.

Lemma index_fuel {A} (l : list A) i : index l i <> OutOfFuel.
Proof. unfold index. destruct (_ <? _); [done|]. by destruct (_ !! _). Qed.
Lemma sub_fuel {A} (l : list A) i j : sub l i j <> OutOfFuel.
Proof. unfold sub. by destruct (_ && _ && _). Qed.
Lemma obind_fuel {A B} (m : outcome A) (k : A -> outcome B) :
  m <> OutOfFuel -> (forall a, k a <> OutOfFuel) -> obind m k <> OutOfFuel.
Proof. destruct m; simpl; auto. Qed.
#[export] Hint Resolve index_fuel sub_fuel obind_fuel terminates_lift : go.
#[export] Hint Extern 1 (Ret _ <> OutOfFuel) => discriminate : go.
#[export] Hint Extern 1 (Panic <> OutOfFuel) => discriminate : go.
#[export] Hint Extern 1 (Block <> OutOfFuel) => discriminate : go.

Definition len {A} (l : list A) : Z := Z.of_nat (length l).

(** ** Slices with their backing array *)
Record slice (A : Type) := mkSlice { sl_arr : list A; sl_len : nat }.
Arguments mkSlice {A}.
Arguments sl_arr {A}.
Arguments sl_len {A}.

Section Slice.
Context {A : Type} (zero : A).
(** The runtime's growth policy: any function, since the new capacity is
    the larger of its answer and the room needed. *)
Variable growcap : nat -> nat -> nat.

Definition elems (s : slice A) : list A := take (sl_len s) (sl_arr s).
Definition slen (s : slice A) : Z := Z.of_nat (sl_len s).
Definition scap (s : slice A) : Z := Z.of_nat (length (sl_arr s)).
Definition swf (s : slice A) : Prop := (sl_len s <= length (sl_arr s))%nat.
Definition empty_slice : slice A := mkSlice [] 0.

(** [s[i:j]]: the bound is the capacity, not the length. *)
Definition reslice (s : slice A) (i j : Z) : outcome (slice A) :=
  if (0 <=? i) && (i <=? j) && (j <=? scap s)
  then Ret (mkSlice (drop (Z.to_nat i) (sl_arr s)) (Z.to_nat (j - i)))
  else Panic.

(** [append(s, xs...)]: in place when the capacity allows it. *)
Definition sappend (s : slice A) (xs : list A) : slice A :=
  let n := (sl_len s + length xs)%nat in
  if (n <=? length (sl_arr s))%nat
  then mkSlice (elems s ++ xs ++ drop n (sl_arr s)) n
  else mkSlice (elems s ++ xs ++
                replicate (growcap (length (sl_arr s)) n - n) zero) n.

Lemma elems_length s : swf s -> length (elems s) = sl_len s.
Proof. unfold swf, elems. rewrite length_take. lia. Qed.

Lemma sappend_elems s xs : swf s -> elems (sappend s xs) = elems s ++ xs.
Proof.
  intros Hw. pose proof (elems_length s Hw) as Hl. unfold sappend.
  case_match; unfold elems at 1; simpl;
    rewrite app_assoc, take_app_length'; rewrite ?length_app; auto; lia.
Qed.

Lemma sappend_wf s xs : swf s -> swf (sappend s xs).
Proof.
  intros Hw. pose proof (elems_length s Hw) as Hl. unfold swf, sappend.
  case_match; simpl; rewrite !length_app; lia.
Qed.

Lemma sappend_len s xs : sl_len (sappend s xs) = (sl_len s + length xs)%nat.
Proof. unfold sappend. by case_match. Qed.
End Slice.
