(* ===== verification/Utf8.v ===== *)
(** * UTF-8

    Go's decoding of a string into runes ([unicode/utf8]): a byte that starts
    no valid sequence is a rune of its own, U+FFFD.  A rune is kept as the
    bytes it is encoded with. *)
From S2P Require Import Prelude.
From S2P Require Import GoSem.

(** One step of [utf8.DecodeRune]: an ASCII byte, a valid sequence, or an
    invalid byte. *)
Inductive token :=
  | T1 (a : byte)
  | T2 (a b : byte)
  | T3 (a b c : byte)
  | T4 (a b c d : byte)
  | TBad (a : byte).

#[export] Instance token_eq_dec : EqDecision token.
Proof. solve_decision. Defined.

(** The number of bytes a first byte announces, 0 when it announces nothing,
    and the range of the second byte. *)
Definition rune_width (a : byte) : Z :=
  let a := byte_Z a in
  if a <? 128 then 1
  else if a <? 194 then 0
  else if a <? 224 then 2
  else if a <? 240 then 3
  else if a <? 245 then 4 else 0.
Definition second_ok (a b : byte) : bool :=
  let a := byte_Z a in
  let lo := if a =? 224 then 160 else if a =? 240 then 144 else 128 in
  let hi := if a =? 237 then 159 else if a =? 244 then 143 else 191 in
  (lo <=? byte_Z b) && (byte_Z b <=? hi).
Definition cont (b : byte) : bool := (128 <=? byte_Z b) && (byte_Z b <=? 191).

Definition token_ok (t : token) : bool :=
  match t with
  | T1 a => rune_width a =? 1
  | T2 a b => (rune_width a =? 2) && second_ok a b
  | T3 a b c => (rune_width a =? 3) && second_ok a b && cont c
  | T4 a b c d => (rune_width a =? 4) && second_ok a b && cont c && cont d
  | TBad a => false
  end.

Fixpoint tokens (s : bytes) : list token :=
  match s with
  | [] => []
  | a :: s1 =>
      if token_ok (T1 a) then T1 a :: tokens s1 else
      match s1 with
      | [] => [TBad a]
      | b :: s2 =>
          if token_ok (T2 a b) then T2 a b :: tokens s2 else
          match s2 with
          | [] => TBad a :: tokens s1
          | c :: s3 =>
              if token_ok (T3 a b c) then T3 a b c :: tokens s3 else
              match s3 with
              | [] => TBad a :: tokens s1
              | d :: s4 =>
                  if token_ok (T4 a b c d) then T4 a b c d :: tokens s4
                  else TBad a :: tokens s1
              end
          end
      end
  end.

Definition RuneCount (s : bytes) : Z := len (tokens s).

(** The bytes of a rune; an invalid byte is written as U+FFFD. *)
Definition RuneError : token := T3 (Z_byte 239) (Z_byte 191) (Z_byte 189).
Definition spell (t : token) : bytes :=
  match t with
  | T1 a => [a]
  | T2 a b => [a; b]
  | T3 a b c => [a; b; c]
  | T4 a b c d => [a; b; c; d]
  | TBad a => [a]
  end.
Definition clean (t : token) : token := match t with TBad _ => RuneError | _ => t end.
Definition text (ts : list token) : bytes := ts ≫= spell.

(** [string([]rune(s))] *)
Definition valid_string (s : bytes) : bytes := text (map clean (tokens s)).
(** [utf8.ValidString] *)
Definition ValidString (s : bytes) : Prop := Forall (fun t => token_ok t = true) (tokens s).

Lemma token_width t : token_ok t = true ->
  match t with
  | T1 a => rune_width a = 1 | T2 a _ => rune_width a = 2 | T3 a _ _ => rune_width a = 3
  | T4 a _ _ _ => rune_width a = 4 | TBad _ => False
  end.
Proof. destruct t; cbn [token_ok]; lia. Qed.

Lemma tokens_spell t s : token_ok t = true -> tokens (spell t ++ s) = t :: tokens s.
Proof.
  intros Ht. pose proof (token_width t Ht) as Hw. destruct t as [a|a b|a b c|a b c d|a]; [..|done];
    cbn [spell app tokens]; cbn [token_ok] in *; rewrite Hw in *; cbn [Z.eqb andb Pos.eqb] in *; [done|by rewrite Ht..].
Qed.

(** Decoding is the inverse of writing valid runes one after the other. *)
Lemma tokens_text ts s : Forall (fun t => token_ok t = true) ts -> tokens (text ts ++ s) = ts ++ tokens s.
Proof.
  induction 1 as [|t ts Ht _ IH]; [done|]. unfold text in *. cbn [mbind list_bind app]. rewrite <- app_assoc.
  by rewrite tokens_spell, IH.
Qed.

Lemma tokens_cons a s1 : tokens (a :: s1) =
  if token_ok (T1 a) then T1 a :: tokens s1 else
  match s1 with
  | [] => [TBad a]
  | b :: s2 =>
      if token_ok (T2 a b) then T2 a b :: tokens s2 else
      match s2 with
      | [] => TBad a :: tokens s1
      | c :: s3 =>
          if token_ok (T3 a b c) then T3 a b c :: tokens s3 else
          match s3 with
          | [] => TBad a :: tokens s1
          | d :: s4 =>
              if token_ok (T4 a b c d) then T4 a b c d :: tokens s4 else TBad a :: tokens s1
          end
      end
  end.
Proof. done. Qed.

(** What [tokens] makes of a string: valid runes, and bytes beyond ASCII that
    belong to none. *)
Definition plausible (t : token) : Prop :=
  token_ok t = true \/ exists a, t = TBad a /\ rune_width a <> 1.

Lemma tokens_plausible s : Forall plausible (tokens s) /\ text (tokens s) = s.
Proof.
  assert (H : forall n s, (length s <= n)%nat -> Forall plausible (tokens s) /\ text (tokens s) = s); [|by apply (H (length s))].
  clear s. induction n as [|n IH]; intros [|a s] Hn; try done; [cbn in Hn; lia|].
  assert (Hok : forall t s', token_ok t = true -> (length s' <= n)%nat ->
    Forall plausible (t :: tokens s') /\ text (t :: tokens s') = spell t ++ s').
  { intros t s' Ht Hs. destruct (IH s' Hs) as [H1 H2]. split; [by constructor; [left|]|].
    unfold text. cbn [mbind list_bind]. by fold (text (tokens s')); rewrite H2. }
  assert (Hbad : forall s', token_ok (T1 a) = false -> (length s' <= n)%nat ->
    Forall plausible (TBad a :: tokens s') /\ text (TBad a :: tokens s') = a :: s').
  { intros s' Ha Hs. destruct (IH s' Hs) as [H1 H2]. split.
    - constructor; [right|done]. exists a. split; [done|]. by apply Z.eqb_neq.
    - unfold text. cbn [mbind list_bind]. by fold (text (tokens s')); rewrite H2. }
  cbn [length] in Hn. rewrite tokens_cons. destruct (token_ok (T1 a)) eqn:E1; [apply Hok; [done|lia]|].
  destruct s as [|b s]; [apply (Hbad []); [done|cbn; lia]|]. cbn [length] in Hn.
  destruct (token_ok (T2 a b)) eqn:E2; [apply Hok; [done|lia]|].
  destruct s as [|c s]; [apply Hbad; [done|cbn; lia]|]. cbn [length] in Hn.
  destruct (token_ok (T3 a b c)) eqn:E3; [apply Hok; [done|lia]|].
  destruct s as [|d s]; [apply Hbad; [done|cbn; lia]|]. cbn [length] in Hn.
  destruct (token_ok (T4 a b c d)) eqn:E4; [apply Hok; [done|lia]|]. apply Hbad; [done|cbn; lia].
Qed.

Lemma clean_ok t : plausible t -> token_ok (clean t) = true.
Proof. intros [Ht|(a & -> & _)]; [|by vm_compute]. by destruct t. Qed.

(** A valid string is its own clean copy. *)
Lemma valid_string_id s : ValidString s -> valid_string s = s.
Proof.
  intros Hs. unfold valid_string. rewrite <- (proj2 (tokens_plausible s)) at 2. f_equal.
  unfold ValidString in Hs. induction Hs as [|t ts Ht _ IH]; [done|]. cbn [map]. rewrite IH. f_equal. by destruct t.
Qed.

Lemma ascii_valid s : Forall (fun b => byte_Z b < 128) s -> ValidString s.
Proof.
  unfold ValidString. induction 1 as [|b s Hb _ IH]; [constructor|].
  assert (E : token_ok (T1 b) = true).
  { cbn [token_ok]. unfold rune_width. by rewrite (proj2 (Z.ltb_lt _ _) Hb). }
  cbn [tokens]. rewrite E. by constructor.
Qed.
