(* ===== verification/Numbers.v ===== *)
(** * Numbers as text

    What [encoding/json] uses of [strconv]: integers in decimal, floating
    point numbers by their shortest decimal, and the correctly rounded
    reading of a decimal literal.  A floating point number is its bit pattern;
    all of the arithmetic is on integers and exact. *)
From S2P Require Import Prelude.
From S2P Require Import GoSem.
From S2P Require Import Utf8.

(** ** Digits *)
Definition digit (z : Z) : byte := Z_byte (48 + z).
Definition digit_val (b : byte) : Z := byte_Z b - 48.
Definition is_digit (b : byte) : bool := (48 <=? byte_Z b) && (byte_Z b <=? 57).
Definition dec_val (l : bytes) : Z := foldl (fun a d => 10 * a + digit_val d) 0 l.

Fixpoint dec_loop (n : nat) (z : Z) (acc : bytes) : bytes :=
  match n with
  | O => acc
  | S n => let acc := digit (z mod 10) :: acc in if z <? 10 then acc else dec_loop n (z / 10) acc
  end.
(** [strconv.FormatInt] of a number that is not negative. *)
Definition decimal (z : Z) : bytes := dec_loop (S (Z.to_nat (Z.log2 z))) z [].
(** The last [w] digits. *)
Fixpoint padded (w : nat) (z : Z) (acc : bytes) : bytes :=
  match w with O => acc | S w => padded w (z / 10) (digit (z mod 10) :: acc) end.

(** ** Literals *)
Record numlit := mkNum {
  negative : bool;
  int_part : bytes;
  frac_part : bytes;                  (* empty: no point *)
  exp_part : option (bool * bytes)    (* negative?, digits *)
}.

Definition minus : byte := Z_byte 45.
Definition plus : byte := Z_byte 43.
Definition point : byte := Z_byte 46.
Definition zero : byte := Z_byte 48.
Definition small_e : byte := Z_byte 101.
Definition big_e : byte := Z_byte 69.

Definition print_num (x : numlit) : bytes :=
  (if negative x then [minus] else []) ++ int_part x ++
  (match frac_part x with [] => [] | d => point :: d end) ++
  (match exp_part x with None => [] | Some (n, d) => small_e :: (if n then minus else plus) :: d end).

Definition canonical (l : bytes) : Prop :=
  l = [zero] \/ exists b l', l = b :: l' /\ b <> zero /\ Forall (fun b => is_digit b = true) l.
Record num_ok (x : numlit) : Prop := {
  no_int : canonical (int_part x);
  no_frac : Forall (fun b => is_digit b = true) (frac_part x);
  no_exp n d : exp_part x = Some (n, d) -> d <> [] /\ Forall (fun b => is_digit b = true) d
}.

(** *** Reading a literal off a text, as far as it goes *)
Fixpoint span_digits (s : list token) : bytes * list token :=
  match s with
  | T1 b :: s' => if is_digit b then let r := span_digits s' in (b :: r.1, r.2) else ([], s)
  | _ => ([], s)
  end.
Definition head_is (b : byte) (s : list token) : bool := bool_decide (head s = Some (T1 b)).

Definition read_int (s : list token) : option (bytes * list token) :=
  if head_is zero s then Some ([zero], tail s)
  else let r := span_digits s in if bool_decide (r.1 = []) then None else Some r.
Definition read_frac (s : list token) : option (bytes * list token) :=
  if head_is point s
  then let r := span_digits (tail s) in if bool_decide (r.1 = []) then None else Some r
  else Some ([], s).
Definition read_exp (s : list token) : option (option (bool * bytes) * list token) :=
  if head_is small_e s || head_is big_e s then
    let s := tail s in
    let '(n, s) := if head_is minus s then (true, tail s) else if head_is plus s then (false, tail s) else (false, s) in
    let r := span_digits s in
    if bool_decide (r.1 = []) then None else Some (Some (n, r.1), r.2)
  else Some (None, s).
Definition read_number (s : list token) : option (numlit * list token) :=
  let '(n, s) := if head_is minus s then (true, tail s) else (false, s) in
  match read_int s with
  | None => None
  | Some (i, s) =>
      match read_frac s with
      | None => None
      | Some (f, s) =>
          match read_exp s with
          | None => None
          | Some (e, s) => Some (mkNum n i f e, s)
          end
      end
  end.

(** ** Floating point formats: bits of the significand, of the smallest
    exponent, and the pattern of infinity *)
Record format := mkFormat { prec : Z; emin : Z; inf_bits : Z }.
Definition f64 : format := mkFormat 53 (-1074) (2047 * 2 ^ 52).
Definition f32 : format := mkFormat 24 (-149) (255 * 2 ^ 23).

(** A pattern's significand and exponent, without its sign. *)
Definition significand (f : format) (bits : Z) : Z :=
  let m := bits mod 2 ^ (prec f - 1) in if bits <? 2 ^ (prec f - 1) then m else m + 2 ^ (prec f - 1).
Definition exponent (f : format) (bits : Z) : Z :=
  let e := bits / 2 ^ (prec f - 1) in if e =? 0 then emin f else e - 1 + emin f.

(** The value as a fraction; as an integer, when it is one. *)
Definition ratio (m e : Z) : Z * Z := if 0 <=? e then (m * 2 ^ e, 1) else (m, 2 ^ (- e)).
Definition float_ratio (f : format) (bits : Z) : Z * Z := ratio (significand f bits) (exponent f bits).
Definition float_Z (f : format) (bits : Z) : option Z :=
  let '(n, d) := float_ratio f bits in if n mod d =? 0 then Some (n / d) else None.

(** The pattern nearest to [num / den], ties to even; [None] beyond the
    largest number. *)
Definition scaled (num den e : Z) : Z * Z := if 0 <=? e then (num, den * 2 ^ e) else (num * 2 ^ (- e), den).
Definition round_ratio (f : format) (num den : Z) : option Z :=
  if num =? 0 then Some 0 else
  let e0 := Z.log2 num - Z.log2 den - (prec f - 1) in
  let e1 := (let '(n, d) := scaled num den e0 in if n / d <? 2 ^ (prec f - 1) then e0 - 1 else e0) in
  let e := Z.max e1 (emin f) in
  let '(n, d) := scaled num den e in
  let q := n / d in
  let r := n mod d in
  let q := if (d <? 2 * r) || ((2 * r =? d) && Z.odd q) then q + 1 else q in
  let bits := (e - emin f) * 2 ^ (prec f - 1) + q in
  if bits <? inf_bits f then Some bits else None.

(** [n * 10^k] *)
Definition ten_pow (n k : Z) : Z * Z := if 0 <=? k then (n * 10 ^ k, 1) else (n, 10 ^ (- k)).
Definition round_dec (f : format) (n k : Z) : option Z := let '(a, b) := ten_pow n k in round_ratio f a b.

Definition sign_bit : Z := 2 ^ 63.
(** [strconv.ParseFloat(s, 64)]; [None]: the value is out of range. *)
Definition ParseFloat (x : numlit) : option Z :=
  let e := match exp_part x with None => 0 | Some (n, d) => if n then - dec_val d else dec_val d end in
  (fun b => if negative x then sign_bit + b else b) <$>
    round_dec f64 (dec_val (int_part x ++ frac_part x)) (e - len (frac_part x)).

(** ** Printing *)
Definition int_lit (z : Z) : numlit := mkNum (z <? 0) (decimal (Z.abs z)) [] None.

(** How many digits the integer part of [num / den] has; not positive when
    there are zeros behind the point: the estimate from the binary logarithms
    is one off at most. *)
Definition at_least (num den k : Z) : bool := if 0 <=? k then den * 10 ^ k <=? num else den <=? num * 10 ^ (- k).
Definition magnitude (num den : Z) : Z :=
  let t := (Z.log2 num - Z.log2 den) * 30103 / 100000 in
  if at_least num den (t + 1) then t + 2 else if at_least num den t then t + 1 else t.

(** The decimals of [p] digits on both sides of the value, the exponent of
    their last digit, and the one that is chosen, if either reads back. *)
Definition with_digits (f : format) (bits : Z) (p : Z) : option (Z * Z) :=
  let '(num, den) := float_ratio f bits in
  let k := magnitude num den - p in
  let '(a, b) := if 0 <=? k then (num, den * 10 ^ k) else (num * 10 ^ (- k), den) in
  let lo := a / b in
  let r := a mod b in
  let down := bool_decide (round_dec f lo k = Some bits) in
  let up := bool_decide (round_dec f (lo + 1) k = Some bits) in
  if r =? 0 then Some (lo, k)
  else if down && up then Some ((if (b <? 2 * r) || ((2 * r =? b) && Z.odd lo) then lo + 1 else lo), k)
  else if down then Some (lo, k)
  else if up then Some (lo + 1, k)
  else None.
(** The shortest one; seventeen digits are always enough. *)
Fixpoint shortest_from (f : format) (bits : Z) (n : nat) (p : Z) : Z * Z :=
  match with_digits f bits p with
  | Some r => r
  | None => match n with O => (0, 0) | S n => shortest_from f bits n (p + 1) end
  end.
Fixpoint strip_zeros (n : nat) (d : Z * Z) : Z * Z :=
  match n with
  | O => d
  | S n => if negb (d.1 =? 0) && (d.1 mod 10 =? 0) then strip_zeros n (d.1 / 10, d.2 + 1) else d
  end.
Definition shortest (f : format) (bits : Z) : Z * Z := strip_zeros 20 (shortest_from f bits 16 1).

(** The formats [%f] and [%e] of [n * 10^k]. *)
Definition fixed_lit (sg : bool) (n k : Z) : numlit :=
  if 0 <=? k then mkNum sg (decimal (n * 10 ^ k)) [] None
  else mkNum sg (decimal (n / 10 ^ (- k))) (padded (Z.to_nat (- k)) n []) None.
Definition exp_lit (sg : bool) (n k : Z) : numlit :=
  let w := len (decimal n) - 1 in
  let x := k + w in
  mkNum sg (decimal (n / 10 ^ w)) (padded (Z.to_nat w) n []) (Some (x <? 0, decimal (Z.abs x))).

(** [floatEncoder.encode]: infinities and not-a-number are errors. *)
Definition encode_float (f : format) (sg : bool) (bits : Z) : option numlit :=
  if inf_bits f <=? bits then None
  else if bits =? 0 then Some (mkNum sg [zero] [] None)
  else let '(n, k) := shortest f bits in
       let small := match round_ratio f 1 (10 ^ 6) with Some b => bits <? b | None => false end in
       let large := match round_ratio f (10 ^ 21) 1 with Some b => b <=? bits | None => false end in
       Some (if small || large then exp_lit sg n k else fixed_lit sg n k).

(** ** Digits *)
Lemma digit_ok z : 0 <= z < 10 -> is_digit (digit z) = true /\ digit_val (digit z) = z /\ (digit z = zero -> z = 0).
Proof.
  intros Hz. assert (E : byte_Z (digit z) = 48 + z).
  { unfold digit. rewrite byte_Z_Z_byte. rewrite Z.mod_small by lia. done. }
  unfold is_digit, digit_val. rewrite E. split_and!; [lia|lia|]. intros H. apply (f_equal byte_Z) in H.
  rewrite E in H. change (byte_Z zero) with 48 in H. lia.
Qed.

Lemma dec_val_app l1 l2 : dec_val (l1 ++ l2) = dec_val l1 * 10 ^ len l2 + dec_val l2.
Proof.
  unfold dec_val. rewrite foldl_app. generalize (foldl (fun a d => 10 * a + digit_val d) 0 l1) as a.
  assert (H : forall l a, foldl (fun a d => 10 * a + digit_val d) a l =
    a * 10 ^ len l + foldl (fun a d => 10 * a + digit_val d) 0 l).
  { clear. induction l as [|d l IH]; intros a; [change (a = a * 1 + 0); lia|]. cbn [foldl]. rewrite IH, (IH (10 * 0 + digit_val d)).
    unfold len. cbn [length]. rewrite Nat2Z.inj_succ, Z.pow_succ_r by lia. ring. }
  intros a. apply H.
Qed.

(** What the loop puts in front. *)
Lemma dec_loop_spec n : forall z acc, 0 <= z < 2 ^ Z.of_nat n -> (0 < n)%nat ->
  exists l, dec_loop n z acc = l ++ acc /\ dec_val l = z /\ Forall (fun b => is_digit b = true) l /\
    exists b l', l = b :: l' /\ (b = zero -> z = 0 /\ l' = []).
Proof.
  induction n as [|n IH]; intros z acc Hz Hn; [lia|]. cbn [dec_loop].
  pose proof (Z.mod_pos_bound z 10 ltac:(lia)) as Hm. destruct (digit_ok (z mod 10) Hm) as (Hd & Hv & H0).
  destruct (Z.ltb_spec z 10) as [Hlt|Hge].
  - rewrite Z.mod_small in * by lia. exists [digit z]. split_and!; [done| |by constructor|].
    { unfold dec_val. cbn [foldl]. lia. }
    exists (digit z), []. split; [done|]. intros Hb. split; [by apply H0|done].
  - rewrite Nat2Z.inj_succ, Z.pow_succ_r in Hz by lia.
    assert (Hz' : 0 <= z / 10 < 2 ^ Z.of_nat n).
    { split; [by apply Z.div_pos; lia|]. apply Z.div_lt_upper_bound; lia. }
    destruct n as [|n]; [cbn in Hz; lia|].
    destruct (IH (z / 10) (digit (z mod 10) :: acc) Hz' ltac:(lia)) as (l & E & Hl & Hds & b & l' & -> & Hb).
    exists ((b :: l') ++ [digit (z mod 10)]). rewrite E, <- app_assoc. split_and!; [done| | |].
    + rewrite dec_val_app, Hl. unfold dec_val, len. cbn [foldl length]. rewrite Hv.
      change (10 ^ Z.of_nat 1) with 10. pose proof (Z.div_mod z 10 ltac:(lia)). lia.
    + apply Forall_app_2; [done|by constructor].
    + exists b, (l' ++ [digit (z mod 10)]). split; [done|]. intros Hb0. destruct (Hb Hb0) as [Hz0 _].
      assert (10 / 10 <= z / 10) by (apply Z.div_le_mono; lia). change (10 / 10) with 1 in *. lia.
Qed.

Lemma decimal_spec z : 0 <= z -> dec_val (decimal z) = z /\ canonical (decimal z).
Proof.
  intros Hz. unfold decimal.
  destruct (dec_loop_spec (S (Z.to_nat (Z.log2 z))) z []) as (l & E & Hv & Hd & b & l' & -> & Hb); [|lia|].
  { rewrite Nat2Z.inj_succ, Z2Nat.id by apply Z.log2_nonneg. split; [done|].
    destruct (decide (z = 0)) as [->|]; [done|]. apply Z.log2_spec. lia. }
  rewrite E, app_nil_r. split; [done|]. destruct (decide (b = zero)) as [->|Hne].
  - left. by destruct (Hb eq_refl) as [_ ->].
  - right. by exists b, l'.
Qed.

Lemma canonical_digits l : canonical l -> Forall (fun b => is_digit b = true) l /\ l <> [].
Proof. intros [->|(b & l' & -> & _ & H)]; [|done]. split; [|done]. by repeat constructor. Qed.

Lemma padded_digits w : forall z acc, 0 <= z -> Forall (fun b => is_digit b = true) acc ->
  Forall (fun b => is_digit b = true) (padded w z acc).
Proof.
  induction w as [|w IH]; intros z acc Hz Ha; [done|]. cbn [padded]. apply IH; [by apply Z.div_pos; lia|].
  constructor; [|done]. apply digit_ok, Z.mod_pos_bound. lia.
Qed.

(** ** What is printed is a literal *)
Lemma int_lit_ok z : num_ok (int_lit z).
Proof. split; cbn; [apply decimal_spec; lia|constructor|done]. Qed.

Lemma int_lit_val z : ParseFloat (int_lit z) =
  (fun b => if z <? 0 then sign_bit + b else b) <$> round_dec f64 (Z.abs z) 0.
Proof.
  unfold ParseFloat, int_lit. cbn [negative int_part frac_part exp_part]. rewrite app_nil_r.
  by rewrite (proj1 (decimal_spec (Z.abs z) ltac:(lia))).
Qed.

Lemma with_digits_nonneg f bits p r : 0 <= bits -> 0 < prec f -> with_digits f bits p = Some r -> 0 <= r.1.
Proof.
  intros Hb Hp. unfold with_digits, float_ratio, ratio.
  assert (Hs : 0 <= significand f bits).
  { unfold significand. pose proof (Z.pow_pos_nonneg 2 (prec f - 1) ltac:(lia) ltac:(lia)).
    pose proof (Z.mod_pos_bound bits (2 ^ (prec f - 1)) ltac:(lia)). case_match; lia. }
  assert (Hpow : forall a k, 0 < a -> 0 <= a ^ k) by (intros; apply Z.pow_nonneg; lia).
  set (q := if 0 <=? exponent f bits then _ else _).
  assert (Hq : 0 <= q.1 /\ 0 <= q.2) by (unfold q; case_match; cbn [fst snd]; split; try apply Z.mul_nonneg_nonneg; try apply Hpow; lia).
  destruct q as [num den]. cbn [fst snd] in Hq. set (k := magnitude num den - p).
  set (ab := if 0 <=? k then _ else _).
  assert (Hab : 0 <= ab.1 /\ 0 <= ab.2) by (unfold ab; case_match; cbn [fst snd]; split; try apply Z.mul_nonneg_nonneg; try apply Hpow; lia).
  destruct ab as [a b]. cbn [fst snd] in Hab.
  assert (Hlo : 0 <= a / b).
  { destruct (decide (b = 0)) as [->|]; [by rewrite Zdiv_0_r|]. apply Z.div_pos; lia. }
  intros H. repeat case_match; simplify_eq; cbn [fst]; lia.
Qed.

Lemma shortest_nonneg f bits : 0 <= bits -> 0 < prec f -> 0 <= (shortest f bits).1.
Proof.
  intros Hb Hp. unfold shortest.
  assert (H1 : forall n p, 0 <= (shortest_from f bits n p).1).
  { induction n as [|n IH]; intros p; cbn [shortest_from];
      (destruct (with_digits f bits p) eqn:E; [by apply (with_digits_nonneg f bits p)|]); [done|apply IH]. }
  generalize (shortest_from f bits 16 1) (H1 16%nat 1). generalize 20%nat as n.
  induction n as [|n IH]; intros d Hd; [done|]. cbn [strip_zeros]. case_match; [|done]. apply IH. cbn [fst].
  apply Z.div_pos; lia.
Qed.

Lemma fixed_lit_ok sg n k : 0 <= n -> num_ok (fixed_lit sg n k).
Proof.
  intros Hn. unfold fixed_lit. case_match.
  - split; cbn; [|constructor|done]. apply decimal_spec, Z.mul_nonneg_nonneg; [done|apply Z.pow_nonneg; lia].
  - split; cbn; [|by apply padded_digits|done]. apply decimal_spec.
    apply Z.div_pos; [done|]. apply Z.pow_pos_nonneg; lia.
Qed.
Lemma exp_lit_ok sg n k : 0 <= n -> num_ok (exp_lit sg n k).
Proof.
  intros Hn. unfold exp_lit. split; cbn; [|by apply padded_digits|].
  - apply decimal_spec. set (w := len _ - 1). destruct (decide (10 ^ w = 0)) as [->|]; [by rewrite Zdiv_0_r|].
    apply Z.div_pos; [done|]. pose proof (Z.pow_nonneg 10 w ltac:(lia)). lia.
  - intros sx d [= _ <-]. split; apply canonical_digits, decimal_spec; lia.
Qed.

Lemma encode_float_ok f sg bits x : 0 <= bits -> 0 < prec f -> encode_float f sg bits = Some x -> num_ok x.
Proof.
  intros Hb Hp. unfold encode_float. case_match; [done|]. case_match.
  { intros [= <-]. split; cbn; [by left|constructor|done]. }
  pose proof (shortest_nonneg f bits Hb Hp) as Hn. destruct (shortest f bits) as [n k]. cbn [fst] in Hn.
  intros [= <-]. case_match; [by apply exp_lit_ok|by apply fixed_lit_ok].
Qed.

(** ** Reading what was printed *)
Definition asc (s : bytes) : list token := map T1 s.
(** Nothing that could belong to a literal. *)
Definition stops (s : list token) : Prop :=
  match s with
  | T1 b :: _ => is_digit b = false /\ b <> point /\ b <> small_e /\ b <> big_e
  | _ => True
  end.

Lemma stops_head s b : stops s -> b = point \/ b = small_e \/ b = big_e -> head_is b s = false.
Proof.
  intros Hs Hb. unfold head_is. apply bool_decide_eq_false. destruct s as [|[] s]; try done. cbn in Hs.
  intros [= ->]. naive_solver.
Qed.

Lemma span_digits_app d s : Forall (fun b => is_digit b = true) d ->
  match s with T1 b :: _ => is_digit b = false | _ => True end -> span_digits (asc d ++ s) = (d, s).
Proof.
  intros Hd Hs. induction Hd as [|b d Hb _ IH].
  - destruct s as [|[] s]; try done. cbn. by rewrite Hs.
  - change (asc (b :: d) ++ s) with (T1 b :: (asc d ++ s)). cbn [span_digits]. by rewrite Hb, IH.
Qed.

(** A part of a literal starts with a byte that is no digit. *)
Definition no_digit (s : list token) : Prop := match s with T1 b :: _ => is_digit b = false | _ => True end.
Lemma stops_no_digit s : stops s -> no_digit s.
Proof. destruct s as [|[] s]; try done. by intros []. Qed.

Definition frac_text (x : numlit) : bytes := match frac_part x with [] => [] | d => point :: d end.
Definition exp_text (x : numlit) : bytes :=
  match exp_part x with None => [] | Some (n, d) => small_e :: (if n then minus else plus) :: d end.

Lemma exp_starts x s : stops s -> no_digit (asc (exp_text x) ++ s) /\ head_is point (asc (exp_text x) ++ s) = false.
Proof.
  intros Hs. unfold exp_text. destruct (exp_part x) as [[n d]|]; [by vm_compute|].
  split; [by apply stops_no_digit|apply stops_head; auto].
Qed.

Lemma read_exp_app x s : num_ok x -> stops s -> read_exp (asc (exp_text x) ++ s) = Some (exp_part x, s).
Proof.
  intros [_ _ He] Hs. unfold exp_text. destruct (exp_part x) as [[n d]|].
  - destruct (He n d eq_refl) as [Hd0 Hd]. unfold read_exp. cbn [asc map app].
    change (head_is small_e (T1 small_e :: _)) with true. cbn [orb tail].
    assert (Hsg : head_is minus (T1 (if n then minus else plus) :: map T1 d ++ s) = n /\
      head_is plus (T1 (if n then minus else plus) :: map T1 d ++ s) = negb n) by (by destruct n).
    destruct Hsg as [-> ->]. change (map T1 d) with (asc d). destruct n; cbn [negb tail];
      rewrite (span_digits_app d s Hd (stops_no_digit s Hs)); cbn [fst snd]; by rewrite bool_decide_false.
  - unfold read_exp. cbn [asc map app]. rewrite !(stops_head s) by auto. done.
Qed.

Lemma read_frac_app x s : num_ok x -> stops s ->
  read_frac (asc (frac_text x) ++ asc (exp_text x) ++ s) = Some (frac_part x, asc (exp_text x) ++ s).
Proof.
  intros [_ Hf _] Hs. destruct (exp_starts x s Hs) as [Hn Hp]. unfold frac_text.
  destruct (frac_part x) as [|b d] eqn:E.
  - unfold read_frac. cbn [asc map app] in *. by rewrite Hp.
  - unfold read_frac. cbn [asc map app]. change (head_is point (T1 point :: _)) with true. cbn [tail].
    change (T1 b :: map T1 d ++ ?r) with (asc (b :: d) ++ r). rewrite span_digits_app by done. done.
Qed.

Lemma read_int_app l s : canonical l -> no_digit s -> read_int (asc l ++ s) = Some (l, s).
Proof.
  intros Hl Hs. unfold read_int. destruct Hl as [->|(b & l' & -> & Hb & Hd)]; [done|].
  assert (head_is zero (asc (b :: l') ++ s) = false) as ->.
  { unfold head_is. apply bool_decide_eq_false. cbn. congruence. }
  rewrite span_digits_app by done. done.
Qed.

(** Every literal is read back, with nothing more than itself. *)
Lemma read_print_num x s : num_ok x -> stops s -> read_number (asc (print_num x) ++ s) = Some (x, s).
Proof.
  intros Hx Hs. assert (E : print_num x = (if negative x then [minus] else []) ++ int_part x ++ frac_text x ++ exp_text x) by done.
  rewrite E. unfold asc. rewrite !map_app, <- !app_assoc. fold asc.
  change (map T1 (int_part x)) with (asc (int_part x)). change (map T1 (frac_text x)) with (asc (frac_text x)).
  change (map T1 (exp_text x)) with (asc (exp_text x)).
  set (r := asc (int_part x) ++ asc (frac_text x) ++ asc (exp_text x) ++ s).
  assert (Hr : read_int r = Some (int_part x, asc (frac_text x) ++ asc (exp_text x) ++ s)).
  { apply read_int_app; [apply Hx|]. unfold frac_text. destruct (frac_part x); [|by vm_compute]. by apply exp_starts. }
  assert (Hm : head_is minus r = false).
  { unfold r, head_is. apply bool_decide_eq_false. destruct (no_int _ Hx) as [->|(b & l' & -> & _ & Hd)]; [done|].
    apply Forall_cons in Hd as [Hd _]. cbn. intros [= ->]. by vm_compute in Hd. }
  unfold read_number. destruct (negative x) eqn:En; cbn [map app].
  - change (head_is minus (T1 minus :: r)) with true. cbn [tail]. rewrite Hr, read_frac_app, read_exp_app by done.
    destruct x; cbn in *. by subst.
  - rewrite Hm, Hr, read_frac_app, read_exp_app by done. destruct x; cbn in *. by subst.
Qed.

(** Reading consumes. *)
Lemma span_digits_length s : (length (span_digits s).2 + length (span_digits s).1 = length s)%nat.
Proof. induction s as [|[b| | | |] s IH]; try done. cbn. destruct (is_digit b); cbn; lia. Qed.
Lemma head_is_cons b s : head_is b s = true -> s = T1 b :: tail s.
Proof. unfold head_is. intros H%bool_decide_eq_true. destruct s as [|t s]; [done|]. cbn in *. by injection H as ->. Qed.
Lemma read_int_length s i r : read_int s = Some (i, r) -> (length r < length s)%nat.
Proof.
  unfold read_int. destruct (head_is zero s) eqn:E.
  - apply head_is_cons in E. rewrite E. cbn. intros [= _ <-]. lia.
  - pose proof (span_digits_length s) as H. case_bool_decide as Hne; [done|]. intros [= Hir].
    rewrite Hir in *. cbn [fst snd] in *. destruct i; [done|]. cbn in H. lia.
Qed.
Lemma read_frac_length s i r : read_frac s = Some (i, r) -> (length r <= length s)%nat.
Proof.
  unfold read_frac. destruct (head_is point s) eqn:E; [|by intros [= _ <-]].
  apply head_is_cons in E. pose proof (span_digits_length (tail s)) as H. case_bool_decide; [done|].
  intros [= Hir]. rewrite Hir in H. rewrite E. cbn [length fst snd] in *. lia.
Qed.
Lemma read_exp_length s i r : read_exp s = Some (i, r) -> (length r <= length s)%nat.
Proof.
  unfold read_exp. destruct (_ || _) eqn:E; [|by intros [= _ <-]].
  assert (Ht : (length (tail s) <= length s)%nat) by (destruct s; cbn; lia). generalize dependent (tail s). intros s' Ht.
  assert (Hs : forall (n : bool) (u : list token), (length u <= length s')%nat ->
    (let r0 := span_digits u in if bool_decide (r0.1 = []) then None else Some (Some (n, r0.1), r0.2)) = Some (i, r) ->
    (length r <= length s)%nat).
  { intros n u Hu. cbv zeta. pose proof (span_digits_length u). case_bool_decide; [done|]. intros [= _ <-]. lia. }
  assert (Ht' : (length (tail s') <= length s')%nat) by (destruct s'; cbn; lia).
  destruct (head_is minus s'); [by apply Hs|]. destruct (head_is plus s'); by apply Hs.
Qed.
Lemma read_number_length s x r : read_number s = Some (x, r) -> (length r < length s)%nat.
Proof.
  unfold read_number. assert (Ht : (length (tail s) <= length s)%nat) by (destruct s; cbn; lia).
  assert (H : forall (n : bool) u, (length u <= length s)%nat ->
    match read_int u with
    | None => None
    | Some (i, s) => match read_frac s with None => None | Some (f, s) =>
        match read_exp s with None => None | Some (e, s) => Some (mkNum n i f e, s) end end
    end = Some (x, r) -> (length r < length s)%nat).
  { intros n u Hu. destruct (read_int u) as [[i u1]|] eqn:E1; [|done]. apply read_int_length in E1.
    destruct (read_frac u1) as [[f u2]|] eqn:E2; [|done]. apply read_frac_length in E2.
    destruct (read_exp u2) as [[e u3]|] eqn:E3; [|done]. apply read_exp_length in E3. intros [= _ <-]. lia. }
  destruct (head_is minus s); by apply H.
Qed.

(** ** Integers up to 2^53 are read exactly *)
Lemma round_int z : 0 < z < 2 ^ 53 ->
  exists b, round_ratio f64 z 1 = Some b /\ float_Z f64 b = Some z /\ 0 <= b < sign_bit.
Proof.
  intros Hz. pose proof (Z.log2_spec z ltac:(lia)) as HL. pose proof (Z.log2_nonneg z) as HL0.
  assert (HL1 : Z.log2 z <= 52) by (enough (Z.log2 z < 53) by lia; apply Z.log2_lt_pow2; lia).
  set (L := Z.log2 z) in *. set (k := 52 - L). set (q := z * 2 ^ k).
  assert (Hq : 2 ^ 52 <= q < 2 ^ 53).
  { unfold q. replace (2 ^ 52) with (2 ^ L * 2 ^ k) by (rewrite <- Z.pow_add_r by lia; f_equal; lia).
    replace (2 ^ 53) with (2 ^ Z.succ L * 2 ^ k) by (rewrite <- Z.pow_add_r by lia; f_equal; lia).
    assert (0 < 2 ^ k) by (apply Z.pow_pos_nonneg; lia). nia. }
  assert (Es : scaled z 1 (- k) = (q, 1)).
  { unfold scaled. destruct (Z.leb_spec 0 (- k)).
    - assert (Hk0 : k = 0) by lia. unfold q. rewrite Hk0. change (- 0) with 0. by rewrite Z.pow_0_r, !Z.mul_1_r.
    - by rewrite Z.opp_involutive. }
  set (b := (- k + 1074) * 2 ^ 52 + q).
  assert (Hk : 0 <= k <= 52) by lia.
  assert (Er : round_ratio f64 z 1 = Some b).
  { unfold round_ratio. rewrite (proj2 (Z.eqb_neq z 0)) by lia. fold L. cbn [prec emin inf_bits f64].
    change (Z.log2 1) with 0. replace (L - 0 - (53 - 1)) with (- k) by lia. rewrite Es. rewrite Z.div_1_r.
    rewrite (proj2 (Z.ltb_ge q (2 ^ (53 - 1)))) by (cbn; lia). rewrite Z.max_l by lia. rewrite Es.
    rewrite Z.div_1_r, Z.mod_1_r. cbn [Z.mul]. change (1 <? 0) with false. change (0 =? 1) with false. cbn [orb andb].
    change (53 - 1) with 52. replace (- k - -1074) with (- k + 1074) by lia. fold b.
    rewrite (proj2 (Z.ltb_lt b _)); [done|]. unfold b. lia. }
  exists b. split; [done|]. unfold float_Z, float_ratio, significand, exponent. cbn [prec emin f64].
  change (53 - 1) with 52. assert (Hb : b = (- k + 1075) * 2 ^ 52 + (q - 2 ^ 52)) by (unfold b; lia).
  assert (Ed : b / 2 ^ 52 = - k + 1075) by (rewrite Hb, Z.div_add_l by lia; rewrite Z.div_small by lia; lia).
  assert (Em : b mod 2 ^ 52 = q - 2 ^ 52).
  { rewrite Hb, Z.add_comm, Z.mod_add by lia. apply Z.mod_small. lia. }
  rewrite Ed, Em. rewrite (proj2 (Z.eqb_neq _ 0)) by lia. rewrite (proj2 (Z.ltb_ge b _)) by lia.
  replace (q - 2 ^ 52 + 2 ^ 52) with q by lia. replace (- k + 1075 - 1 + -1074) with (- k) by lia.
  split; [|unfold sign_bit; lia]. unfold ratio. destruct (Z.leb_spec 0 (- k)).
  - assert (Hk0 : k = 0) by lia. unfold q. rewrite Hk0. change (- 0) with 0. rewrite Z.pow_0_r, !Z.mul_1_r, Z.mod_1_r, Z.div_1_r. done.
  - rewrite Z.opp_involutive. unfold q. assert (0 < 2 ^ k) by (apply Z.pow_pos_nonneg; lia).
    rewrite Z.mod_mul by lia. change (0 =? 0) with true. by rewrite Z.div_mul by lia.
Qed.

(** The integer a decoded number stands for. *)
Definition float_int (bits : Z) : option Z :=
  if bits <? sign_bit then float_Z f64 bits else Z.opp <$> float_Z f64 (bits - sign_bit).

Lemma ParseFloat_int z : - 2 ^ 53 <= z <= 2 ^ 53 -> exists b, ParseFloat (int_lit z) = Some b /\ float_int b = Some z.
Proof.
  intros Hz. rewrite int_lit_val. destruct (decide (z = 0)) as [->|H0]; [by exists 0|].
  destruct (decide (Z.abs z = 2 ^ 53)) as [Ha|Ha].
  { destruct (Z.abs_eq_cases z (2 ^ 53)) as [->| ->]; [done| |].
    - exists (1076 * 2 ^ 52). split; vm_compute; reflexivity.
    - exists (sign_bit + 1076 * 2 ^ 52). split; vm_compute; reflexivity. }
  destruct (round_int (Z.abs z)) as (b & E & Ef & Hb); [lia|]. unfold round_dec, ten_pow.
  change (0 <=? 0) with true. rewrite Z.pow_0_r, Z.mul_1_r, E. destruct (Z.ltb_spec z 0).
  - exists (sign_bit + b). split; [done|]. unfold float_int. rewrite (proj2 (Z.ltb_ge (sign_bit + b) sign_bit)) by lia.
    replace (sign_bit + b - sign_bit) with b by lia. rewrite Ef. cbn. f_equal. lia.
  - exists b. split; [done|]. unfold float_int. rewrite (proj2 (Z.ltb_lt b sign_bit)) by lia. rewrite Ef. f_equal. lia.
Qed.

(** Larger ones are in range, too. *)
Lemma round_int_some z : 0 <= z < 2 ^ 1000 -> exists b, round_ratio f64 z 1 = Some b.
Proof.
  intros Hz. destruct (decide (z = 0)) as [->|H0]; [by eexists|].
  destruct (decide (z < 2 ^ 53)) as [H53|H53]; [destruct (round_int z) as (b & -> & _); [lia|by eexists]|].
  pose proof (Z.log2_spec z ltac:(lia)) as HL.
  assert (HL1 : 53 <= Z.log2 z < 1000).
  { split; [apply Z.log2_le_pow2; lia|apply Z.log2_lt_pow2; lia]. }
  unfold round_ratio. rewrite (proj2 (Z.eqb_neq z 0)) by done. cbn [prec emin inf_bits f64]. change (Z.log2 1) with 0.
  set (L := Z.log2 z) in *. replace (L - 0 - (53 - 1)) with (L - 52) by lia.
  assert (Es : scaled z 1 (L - 52) = (z, 2 ^ (L - 52))).
  { unfold scaled. rewrite (proj2 (Z.leb_le 0 (L - 52))) by lia. by rewrite Z.mul_1_l. }
  assert (Hp : 0 < 2 ^ (L - 52)) by (apply Z.pow_pos_nonneg; lia).
  assert (Hq : 2 ^ 52 <= z / 2 ^ (L - 52) < 2 ^ 53).
  { split; [apply Z.div_le_lower_bound|apply Z.div_lt_upper_bound]; try lia; rewrite <- Z.pow_add_r by lia.
    - replace (L - 52 + 52) with L by lia. lia.
    - replace (L - 52 + 53) with (Z.succ L) by lia. lia. }
  rewrite Es. rewrite (proj2 (Z.ltb_ge _ _)) by (cbn; lia). rewrite Z.max_l by lia. rewrite Es.
  set (q := z / 2 ^ (L - 52)) in *. set (up := (_ <? _) || _). set (q' := if up then q + 1 else q).
  assert (Hq' : q' <= 2 ^ 53) by (unfold q'; destruct up; lia).
  change (53 - 1) with 52. rewrite (proj2 (Z.ltb_lt _ _)); [by eexists|]. lia.
Qed.
Lemma ParseFloat_int_some z : Z.abs z < 2 ^ 1000 -> exists b, ParseFloat (int_lit z) = Some b.
Proof.
  intros Hz. rewrite int_lit_val. unfold round_dec, ten_pow. change (0 <=? 0) with true. rewrite Z.pow_0_r, Z.mul_1_r.
  destruct (round_int_some (Z.abs z)) as [b ->]; [lia|]. by eexists.
Qed.

(** ... and beyond, neighbours fall together. *)
Example ParseFloat_collides : ParseFloat (int_lit (2 ^ 53)) = ParseFloat (int_lit (2 ^ 53 + 1)).
Proof. vm_compute. reflexivity. Qed.

(** ** Examples *)
#[local] Definition lit_string (x : option numlit) : option bytes := print_num <$> x.
Example float_examples :
  lit_string (encode_float f64 false (4602678819172646912 + 2476979795053773)) = Some (gostr "0.775") /\
  lit_string (encode_float f64 true 4591870180066957722) = Some (gostr "-0.1") /\
  lit_string (encode_float f64 false 1) = Some (gostr "5e-324") /\
  lit_string (encode_float f64 false 4921056587992461136) = Some (gostr "1e+21") /\
  lit_string (encode_float f64 false 9218868437227405311) = Some (gostr "1.7976931348623157e+308") /\
  lit_string (encode_float f32 false 1036831949) = Some (gostr "0.1") /\
  lit_string (encode_float f64 false 4681608360884174848) = Some (gostr "100000").
Proof. vm_compute. repeat split; reflexivity. Qed.
