(* ===== verification/Json.v ===== *)
(** * JSON

    Go's [encoding/json] as far as the program uses it: printing a value with
    the HTML-safe escapes, and reading a document into the values
    [interface{}] holds.  Texts are lists of the runes of [Utf8.v].  The
    recursion on nested values has fuel; [parse] has enough of it. *)
From S2P Require Import Prelude.
From S2P Require Import GoSem.
From S2P Require Import Utf8.
From S2P Require Import Numbers.

(** ** Values *)
Inductive json :=
  | JNull
  | JBool (b : bool)
  | JNumber (x : numlit)
  | JString (s : bytes)
  | JArray (l : list json)
  | JObject (l : list (bytes * json)).

(** Induction through the lists. *)
Lemma json_rec_ind (P : json -> Prop) :
  P JNull -> (forall b, P (JBool b)) -> (forall x, P (JNumber x)) -> (forall s, P (JString s)) ->
  (forall l, Forall P l -> P (JArray l)) -> (forall l, Forall (fun kv => P kv.2) l -> P (JObject l)) ->
  forall v, P v.
Proof.
  intros H0 Hb Hx Hs Ha Ho. refine (fix F v := _). destruct v as [|b|x|s|l|l]; [done|done|done|done| |].
  - apply Ha. exact ((fix G l : Forall P l :=
      match l with [] => Forall_nil_2 _ | v :: l => Forall_cons_2 _ _ _ (F v) (G l) end) l).
  - apply Ho. exact ((fix G l : Forall (fun kv : bytes * json => P kv.2) l :=
      match l with [] => Forall_nil_2 _ | kv :: l => Forall_cons_2 (fun kv => P kv.2) _ _ (F kv.2) (G l) end) l).
Qed.

(** ** Printing ([encodeState]) *)
Definition ch (z : Z) : token := T1 (Z_byte z).
Definition quote : token := ch 34.
Definition backslash : token := ch 92.
Definition hex_digit (z : Z) : token := ch (if z <? 10 then 48 + z else 87 + z).
(** [\u00xx] *)
Definition u00 (z : Z) : list token := [backslash; ch 117; ch 48; ch 48; hex_digit (z / 16); hex_digit (z mod 16)].

(** [htmlSafeSet] *)
Definition html_safe (b : byte) : bool :=
  let z := byte_Z b in
  (32 <=? z) && negb (existsb (fun x => x =? z) [34; 38; 60; 62; 92]).
Definition escape (t : token) : list token :=
  match t with
  | T1 b =>
      let z := byte_Z b in
      if html_safe b then [t]
      else if (z =? 92) || (z =? 34) then [backslash; t]
      else if z =? 10 then [backslash; ch 110]
      else if z =? 13 then [backslash; ch 114]
      else if z =? 9 then [backslash; ch 116]
      else u00 z
  | T3 a b c =>                                      (* U+2028, U+2029 *)
      if (byte_Z a =? 226) && (byte_Z b =? 128) && ((byte_Z c =? 168) || (byte_Z c =? 169))
      then [backslash; ch 117; ch 50; ch 48; ch 50; hex_digit (byte_Z c - 160)]
      else [t]
  | TBad _ => [backslash; ch 117; ch 102; ch 102; ch 102; ch 100]
  | _ => [t]
  end.
Definition print_string (s : bytes) : list token := quote :: (tokens s ≫= escape) ++ [quote].

Fixpoint separated (l : list (list token)) : list token :=
  match l with
  | [] => []
  | [x] => x
  | x :: l => x ++ ch 44 :: separated l
  end.
Fixpoint print (v : json) : list token :=
  match v with
  | JNull => asc (gostr "null")
  | JBool true => asc (gostr "true")
  | JBool false => asc (gostr "false")
  | JNumber x => asc (print_num x)
  | JString s => print_string s
  | JArray l => ch 91 :: separated (map print l) ++ [ch 93]
  | JObject l => ch 123 :: separated (map (fun kv => print_string kv.1 ++ ch 58 :: print kv.2) l) ++ [ch 125]
  end.

(** ** Strings ([scanner], [unquote]) *)
Definition hex_val (t : token) : option Z :=
  match t with
  | T1 b =>
      let z := byte_Z b in
      if (48 <=? z) && (z <=? 57) then Some (z - 48)
      else if (97 <=? z) && (z <=? 102) then Some (z - 87)
      else if (65 <=? z) && (z <=? 70) then Some (z - 55) else None
  | _ => None
  end.
Definition hex4 (a b c d : token) : option Z :=
  match hex_val a, hex_val b, hex_val c, hex_val d with
  | Some a, Some b, Some c, Some d => Some (((a * 16 + b) * 16 + c) * 16 + d)
  | _, _, _, _ => None
  end.
(** [utf8.EncodeRune]; a surrogate is encoded as U+FFFD. *)
Definition is_surrogate (r : Z) : bool := (55296 <=? r) && (r <? 57344).
Definition encode_rune (r : Z) : token :=
  if r <? 128 then ch r
  else if r <? 2048 then T2 (Z_byte (192 + r / 64)) (Z_byte (128 + r mod 64))
  else if is_surrogate r then RuneError
  else if r <? 65536 then T3 (Z_byte (224 + r / 4096)) (Z_byte (128 + r / 64 mod 64)) (Z_byte (128 + r mod 64))
  else T4 (Z_byte (240 + r / 262144)) (Z_byte (128 + r / 4096 mod 64)) (Z_byte (128 + r / 64 mod 64))
         (Z_byte (128 + r mod 64)).
(** [utf16.DecodeRune] of two code units. *)
Definition surrogate_pair (r1 r2 : Z) : option Z :=
  if (55296 <=? r1) && (r1 <? 56320) && (56320 <=? r2) && (r2 <? 57344)
  then Some ((r1 - 55296) * 1024 + (r2 - 56320) + 65536) else None.

Definition simple_escape (z : Z) : option Z :=
  if (z =? 34) || (z =? 92) || (z =? 47) then Some z
  else if z =? 98 then Some 8 else if z =? 102 then Some 12 else if z =? 110 then Some 10
  else if z =? 114 then Some 13 else if z =? 116 then Some 9 else None.

Definition push (t : token) (r : option (list token * list token)) : option (list token * list token) :=
  (fun r => (t :: r.1, r.2)) <$> r.

(** The rest of a string behind its opening quote: its runes, and what
    follows the closing one. *)
Fixpoint read_chars (s : list token) : option (list token * list token) :=
  match s with
  | [] => None
  | T1 b :: s1 =>
      let z := byte_Z b in
      if z =? 34 then Some ([], s1)
      else if z =? 92 then
        match s1 with
        | T1 e :: s2 =>
            if byte_Z e =? 117 then
              match s2 with
              | h1 :: h2 :: h3 :: h4 :: s3 =>
                  match hex4 h1 h2 h3 h4 with
                  | None => None
                  | Some r =>
                      if is_surrogate r then
                        match s3 with
                        | T1 b' :: T1 e' :: g1 :: g2 :: g3 :: g4 :: s4 =>
                            if (byte_Z b' =? 92) && (byte_Z e' =? 117) then
                              match hex4 g1 g2 g3 g4 with
                              | None => None
                              | Some r' =>
                                  match surrogate_pair r r' with
                                  | Some x => push (encode_rune x) (read_chars s4)
                                  | None => push RuneError (read_chars s3)
                                  end
                              end
                            else push RuneError (read_chars s3)
                        | _ => push RuneError (read_chars s3)
                        end
                      else push (encode_rune r) (read_chars s3)
                  end
              | _ => None
              end
            else match simple_escape (byte_Z e) with
                 | Some c => push (ch c) (read_chars s2)
                 | None => None
                 end
        | _ => None
        end
      else if z <? 32 then None
      else push (T1 b) (read_chars s1)
  | t :: s1 => push (clean t) (read_chars s1)
  end.

(** ** Values ([literalStore], [objectInterface], [arrayInterface])

    [Ret None] is a syntax error. *)
Definition is_space (t : token) : bool :=
  match t with T1 b => existsb (fun x => x =? byte_Z b) [32; 9; 10; 13] | _ => false end.
Fixpoint skip_ws (s : list token) : list token :=
  match s with
  | t :: s' => if is_space t then skip_ws s' else s
  | [] => []
  end.
(** A keyword. *)
Fixpoint expect (w : bytes) (s : list token) : option (list token) :=
  match w, s with
  | [], _ => Some s
  | b :: w, T1 c :: s => if decide (b = c) then expect w s else None
  | _, _ => None
  end.
Definition parsed (A : Type) : Type := outcome (option (A * list token)).
Definition wrap {A B} (f : A -> B) (r : parsed A) : parsed B :=
  match r with
  | Ret (Some (a, s)) => Ret (Some (f a, s))
  | Ret None => Ret None
  | Panic => Panic | Block => Block | OutOfFuel => OutOfFuel
  end.
Definition pbind {A B} (r : parsed A) (k : A -> list token -> parsed B) : parsed B :=
  match r with
  | Ret (Some (a, s)) => k a s
  | Ret None => Ret None
  | Panic => Panic | Block => Block | OutOfFuel => OutOfFuel
  end.
Definition head_z (s : list token) : Z := match s with T1 b :: _ => byte_Z b | _ => -1 end.
Definition keyword (w : bytes) (v : json) (s : list token) : parsed json := Ret ((fun s => (v, s)) <$> expect w s).

Fixpoint read_value (n : nat) (s0 : list token) : parsed json :=
  match n with
  | O => OutOfFuel
  | S n =>
      let s := skip_ws s0 in
      let z := head_z s in
      if z =? 34 then Ret ((fun r => (JString (text r.1), r.2)) <$> read_chars (tail s))
      else if z =? 91 then
        if head_z (skip_ws (tail s)) =? 93 then Ret (Some (JArray [], tail (skip_ws (tail s))))
        else wrap JArray (read_elements n (tail s))
      else if z =? 123 then
        if head_z (skip_ws (tail s)) =? 125 then Ret (Some (JObject [], tail (skip_ws (tail s))))
        else wrap JObject (read_members n (tail s))
      else if z =? 110 then keyword (gostr "null") JNull s
      else if z =? 116 then keyword (gostr "true") (JBool true) s
      else if z =? 102 then keyword (gostr "false") (JBool false) s
      else Ret ((fun r => (JNumber r.1, r.2)) <$> read_number s)
  end
with read_elements (n : nat) (s : list token) : parsed (list json) :=
  match n with
  | O => OutOfFuel
  | S n =>
      pbind (read_value n s) (fun v s1 =>
      let s := skip_ws s1 in
      if head_z s =? 44 then wrap (cons v) (read_elements n (tail s))
      else if head_z s =? 93 then Ret (Some ([v], tail s)) else Ret None)
  end
with read_members (n : nat) (s0 : list token) : parsed (list (bytes * json)) :=
  match n with
  | O => OutOfFuel
  | S n =>
      let s := skip_ws s0 in
      if negb (head_z s =? 34) then Ret None else
      match read_chars (tail s) with
      | None => Ret None
      | Some (k, s1) =>
          let s := skip_ws s1 in
          if negb (head_z s =? 58) then Ret None else
          pbind (read_value n (tail s)) (fun v s2 =>
          let s := skip_ws s2 in
          if head_z s =? 44 then wrap (cons (text k, v)) (read_members n (tail s))
          else if head_z s =? 125 then Ret (Some ([(text k, v)], tail s)) else Ret None)
      end
  end.

(** A whole document: one value, and nothing behind it. *)
Definition parse (s : bytes) : outcome (option json) :=
  let ts := tokens s in
  match read_value (2 * length ts + 2) ts with
  | Ret (Some (v, rest)) => Ret (if bool_decide (skip_ws rest = []) then Some v else None)
  | Ret None => Ret None
  | Panic => Panic | Block => Block | OutOfFuel => OutOfFuel
  end.

(** ** Reading never runs out of fuel *)
Lemma skip_ws_length s : (length (skip_ws s) <= length s)%nat.
Proof. induction s as [|t s IH]; [done|]. cbn. case_match; cbn; lia. Qed.
Lemma tail_length {A} (s : list A) : (length (tail s) <= length s)%nat.
Proof. destruct s; cbn; lia. Qed.
Lemma head_z_tail s z : head_z s = z -> 0 <= z -> (length (tail s) < length s)%nat.
Proof. destruct s as [|t s]; cbn; lia. Qed.
Lemma push_length t r a s : push t r = Some (a, s) -> exists a', r = Some (a', s).
Proof. destruct r as [[a' s']|]; [|done]. cbn. intros [= _ <-]. by exists a'. Qed.

Lemma read_chars_length s : forall a r, read_chars s = Some (a, r) -> (length r < length s)%nat.
Proof.
  assert (H : forall n s, (length s <= n)%nat -> forall a r, read_chars s = Some (a, r) -> (length r < length s)%nat);
    [|by apply (H (length s))].
  clear s. induction n as [|n IH]; intros s Hn a r E; [by destruct s; cbn in Hn; [|lia]|].
  destruct s as [|t s]; [done|]. cbn [length] in Hn.
  assert (Hpush : forall t' s', (length s' <= length s)%nat -> push t' (read_chars s') = Some (a, r) ->
    (length r < S (length s))%nat).
  { intros t' s' Hs Ep. apply push_length in Ep as [a' Ep]. apply IH in Ep; lia. }
  cbn [length]. destruct t as [b| | | |]; cbn [read_chars] in E; try (eapply Hpush; [|exact E]; lia).
  destruct (byte_Z b =? 34); [injection E as _ <-; cbn; lia|].
  destruct (byte_Z b =? 92); [|destruct (byte_Z b <? 32); [done|by eapply Hpush; [|exact E]]].
  destruct s as [|[e| | | |] s]; try done. destruct (byte_Z e =? 117).
  - destruct s as [|h1 [|h2 [|h3 [|h4 s]]]]; try done.
    destruct (hex4 h1 h2 h3 h4) as [x|]; [|done].
    assert (Hs : forall t s', (length s' <= length s)%nat -> push t (read_chars s') = Some (a, r) ->
      (length r < S (length (T1 e :: h1 :: h2 :: h3 :: h4 :: s)))%nat).
    { intros t' s' Hs Ep. apply (Hpush t' s'); [cbn; lia|done]. }
    destruct (is_surrogate x); [|by eapply Hs; [|exact E]].
    repeat (match type of E with
            | match ?l with _ => _ end = _ => destruct l eqn:?; try done; subst
            end; try (eapply Hs; [|exact E]; cbn [length]; lia)).
  - destruct (simple_escape (byte_Z e)); [|done]. eapply Hpush; [|exact E]. cbn. lia.
Qed.

Lemma expect_length w : forall s r, expect w s = Some r -> (length r <= length s)%nat.
Proof.
  induction w as [|b w IH]; intros s r E; [by injection E as <-|]. destruct s as [|[c| | | |] s]; try done.
  cbn [expect] in E. case_decide; [|done]. apply IH in E. cbn. lia.
Qed.
Lemma read_string_length (s s' : list token) k : (length s' <= length s)%nat -> head_z s' = 34 ->
  read_chars (tail s') = Some k -> (length k.2 < length s)%nat.
Proof.
  intros Hs Hz E. destruct k as [a r]. apply read_chars_length in E. cbn [snd].
  pose proof (head_z_tail _ _ Hz ltac:(lia)). lia.
Qed.

(** What a reader leaves is shorter than what it was given. *)
Definition shorter {A} (s : list token) (r : parsed A) : Prop :=
  match r with Ret (Some (_, s')) => (length s' < length s)%nat | _ => True end.
Lemma shorter_wrap {A B} (f : A -> B) s s' r : (length s' <= length s)%nat -> shorter s' r -> shorter s (wrap f r).
Proof. intros Hs. destruct r as [[[a t]|]| | |]; cbn; lia. Qed.

Lemma readers_shorter n :
  (forall s, shorter s (read_value n s)) /\ (forall s, shorter s (read_elements n s)) /\
  (forall s, shorter s (read_members n s)).
Proof.
  induction n as [|n (IHv & IHe & IHm)]; [done|]. split_and!.
  - intros s0. cbn [read_value]. pose proof (skip_ws_length s0) as H0. set (s := skip_ws s0) in *.
    destruct (Z.eqb_spec (head_z s) 34) as [Hz|_].
    { destruct (read_chars (tail s)) as [k|] eqn:E; [|done]. cbn. by apply (read_string_length s0 s k). }
    destruct (Z.eqb_spec (head_z s) 91) as [Hz|_].
    { pose proof (head_z_tail _ _ Hz ltac:(lia)) as Ht. pose proof (skip_ws_length (tail s)).
      destruct (_ =? 93); [pose proof (tail_length (skip_ws (tail s))); cbn; lia|].
      eapply shorter_wrap; [|apply IHe]. lia. }
    destruct (Z.eqb_spec (head_z s) 123) as [Hz|_].
    { pose proof (head_z_tail _ _ Hz ltac:(lia)) as Ht. pose proof (skip_ws_length (tail s)).
      destruct (_ =? 125); [pose proof (tail_length (skip_ws (tail s))); cbn; lia|].
      eapply shorter_wrap; [|apply IHm]. lia. }
    assert (Hkw : forall c w v, head_z s = c -> 0 <= c -> Z_byte c = hd Byte.x00 w -> 0 <= c < 256 -> w <> [] ->
      shorter s0 (keyword w v s)).
    { intros c w v Hc H1 H2 H3 Hw. unfold keyword. destruct w as [|b w]; [done|]. cbn [hd] in H2. subst b.
      destruct s as [|[a| | | |] s1]; cbn [head_z] in Hc; try lia; try done. cbn [expect].
      case_decide; [|done]. destruct (expect w s1) as [r|] eqn:E; [|done]. apply expect_length in E.
      cbn [fmap option_fmap option_map shorter]. cbn [length] in H0. lia. }
    destruct (Z.eqb_spec (head_z s) 110) as [Hz|_]; [by eapply Hkw; [exact Hz|..]|].
    destruct (Z.eqb_spec (head_z s) 116) as [Hz|_]; [by eapply Hkw; [exact Hz|..]|].
    destruct (Z.eqb_spec (head_z s) 102) as [Hz|_]; [by eapply Hkw; [exact Hz|..]|].
    destruct (read_number s) as [[x r]|] eqn:E; [|done]. apply read_number_length in E. cbn. lia.
  - intros s. cbn [read_elements]. specialize (IHv s) as Hv.
    destruct (read_value n s) as [[[v s1]|]| | |]; try done. cbn [pbind shorter] in *.
    pose proof (skip_ws_length s1). pose proof (tail_length (skip_ws s1)).
    destruct (_ =? 44); [eapply shorter_wrap; [|apply IHe]; lia|]. destruct (_ =? 93); cbn; [lia|done].
  - intros s0. cbn [read_members]. pose proof (skip_ws_length s0) as H0. set (s := skip_ws s0) in *.
    destruct (Z.eqb_spec (head_z s) 34) as [Hz|_]; [|done]. cbn [negb].
    destruct (read_chars (tail s)) as [[k s1]|] eqn:E; [|done].
    pose proof (read_string_length s0 s (k, s1) H0 Hz E) as Hk. cbn [snd] in Hk.
    destruct (_ =? 58); [|done]. cbn [negb]. pose proof (skip_ws_length s1). pose proof (tail_length (skip_ws s1)).
    specialize (IHv (tail (skip_ws s1))) as Hv. destruct (read_value n _) as [[[v s2]|]| | |]; try done.
    cbn [pbind shorter] in *. pose proof (skip_ws_length s2). pose proof (tail_length (skip_ws s2)).
    destruct (_ =? 44); [eapply shorter_wrap; [|apply IHm]; lia|]. destruct (_ =? 125); cbn; [lia|done].
Qed.

(** The outcome of a reader is an answer. *)
Definition answered {A} (r : parsed A) : Prop := exists a, r = Ret a.
Lemma answered_ret {A} (a : option (A * list token)) : answered (Ret a).
Proof. by eexists. Qed.
Lemma answered_wrap {A B} (f : A -> B) r : answered r -> answered (wrap f r).
Proof. intros [[[a s]|] ->]; apply answered_ret. Qed.
#[local] Hint Resolve answered_ret answered_wrap : core.

Lemma readers_answer n :
  (forall s, (2 * length s < n)%nat -> answered (read_value n s)) /\
  (forall s, (2 * length s + 1 < n)%nat -> answered (read_elements n s)) /\
  (forall s, (2 * length s + 1 < n)%nat -> answered (read_members n s)).
Proof.
  induction n as [|n (IHv & IHe & IHm)]; [by split_and!; intros; lia|]. split_and!.
  - intros s0 Hn. cbn [read_value]. pose proof (skip_ws_length s0) as H0. set (s := skip_ws s0) in *.
    destruct (Z.eqb_spec (head_z s) 34) as [Hz|_]; [by eexists|].
    destruct (Z.eqb_spec (head_z s) 91) as [Hz|_].
    { pose proof (head_z_tail _ _ Hz ltac:(lia)) as Ht. destruct (_ =? 93); [by eexists|]. apply answered_wrap, IHe. lia. }
    destruct (Z.eqb_spec (head_z s) 123) as [Hz|_].
    { pose proof (head_z_tail _ _ Hz ltac:(lia)) as Ht. destruct (_ =? 125); [by eexists|]. apply answered_wrap, IHm. lia. }
    unfold keyword. repeat (destruct (_ =? _); [by eexists|]). by eexists.
  - intros s Hn. cbn [read_elements]. destruct (IHv s ltac:(lia)) as [[[v s1]|] E]; rewrite E; [|by eexists].
    pose proof (proj1 (readers_shorter n) s) as Hs. rewrite E in Hs. cbn [pbind shorter] in *.
    pose proof (skip_ws_length s1). pose proof (tail_length (skip_ws s1)).
    destruct (_ =? 44); [apply answered_wrap, IHe; lia|]. destruct (_ =? 93); by eexists.
  - intros s0 Hn. cbn [read_members]. pose proof (skip_ws_length s0) as H0. set (s := skip_ws s0) in *.
    destruct (Z.eqb_spec (head_z s) 34) as [Hz|_]; [|by eexists]. cbn [negb].
    destruct (read_chars (tail s)) as [[k s1]|] eqn:E; [|by eexists].
    pose proof (read_string_length s0 s (k, s1) H0 Hz E) as Hk. cbn [snd] in Hk.
    destruct (_ =? 58); [|by eexists]. cbn [negb]. pose proof (skip_ws_length s1). pose proof (tail_length (skip_ws s1)).
    destruct (IHv (tail (skip_ws s1)) ltac:(lia)) as [[[v s2]|] Ev]; rewrite Ev; [|by eexists].
    pose proof (proj1 (readers_shorter n) (tail (skip_ws s1))) as Hs. rewrite Ev in Hs. cbn [pbind shorter] in *.
    pose proof (skip_ws_length s2). pose proof (tail_length (skip_ws s2)).
    destruct (_ =? 44); [apply answered_wrap, IHm; lia|]. destruct (_ =? 125); by eexists.
Qed.

(** More fuel changes no answer. *)
Lemma wrap_answered {A B} (f : A -> B) r : answered (wrap f r) -> answered r.
Proof. destruct r as [a| | |]; [auto|by intros []..]. Qed.
Lemma readers_fuel n :
  (forall s, answered (read_value n s) -> read_value (S n) s = read_value n s) /\
  (forall s, answered (read_elements n s) -> read_elements (S n) s = read_elements n s) /\
  (forall s, answered (read_members n s) -> read_members (S n) s = read_members n s).
Proof.
  induction n as [|n (IHv & IHe & IHm)]; [by split_and!; intros s []|].
  split_and!; intros s Ha.
  - cbn [read_value] in Ha |- *. cbn [read_value]. set (s' := skip_ws s) in *.
    destruct (_ =? 34); [done|]. destruct (_ =? 91).
    { destruct (_ =? 93); [done|]. apply wrap_answered in Ha. by rewrite <- (IHe _ Ha). }
    destruct (_ =? 123); [|done].
    destruct (_ =? 125); [done|]. apply wrap_answered in Ha. by rewrite <- (IHm _ Ha).
  - cbn [read_elements] in Ha |- *.
    assert (Hv : answered (read_value n s)) by (destruct (read_value n s) as [?| | |]; [auto|by destruct Ha..]).
    rewrite <- (IHv _ Hv) in Ha |- *.
    destruct (read_value (S n) s) as [[[v s1]|]| | |]; try done. cbn [pbind] in *.
    destruct (_ =? 44); [|done]. apply wrap_answered in Ha. by rewrite <- (IHe _ Ha).
  - cbn [read_members] in Ha |- *. destruct (negb _); [done|]. destruct (read_chars _) as [[k s1]|]; [|done].
    destruct (negb _); [done|]. set (u := tail _) in *.
    assert (Hv : answered (read_value n u)) by (destruct (read_value n u) as [?| | |]; [auto|by destruct Ha..]).
    rewrite <- (IHv _ Hv) in Ha |- *.
    destruct (read_value (S n) u) as [[[v s2]|]| | |]; try done. cbn [pbind] in *.
    destruct (_ =? 44); [|done]. apply wrap_answered in Ha. by rewrite <- (IHm _ Ha).
Qed.

(** With the fuel [parse] has, a document is read or refused. *)
Lemma parse_answers s : exists r, parse s = Ret r.
Proof.
  unfold parse. destruct (proj1 (readers_answer (2 * length (tokens s) + 2)) (tokens s) ltac:(lia)) as [[[v r]|] E];
    rewrite E; by eexists.
Qed.
Lemma read_value_fuel n m s : (n <= m)%nat -> answered (read_value n s) -> read_value m s = read_value n s.
Proof.
  intros Hm Ha. induction Hm as [|m Hm IH]; [done|]. rewrite <- IH. apply readers_fuel. by rewrite IH.
Qed.

(** ** Printing and reading *)

(** Strings and keys become valid UTF-8. *)
Fixpoint normal (v : json) : json :=
  match v with
  | JString s => JString (valid_string s)
  | JArray l => JArray (map normal l)
  | JObject l => JObject (map (fun kv => (valid_string kv.1, normal kv.2)) l)
  | _ => v
  end.
Fixpoint value_ok (v : json) : Prop :=
  match v with
  | JNumber x => num_ok x
  | JArray l => (fix all l := match l with [] => True | v :: l => value_ok v /\ all l end) l
  | JObject l => (fix all (l : list (bytes * json)) := match l with [] => True | kv :: l => value_ok kv.2 /\ all l end) l
  | _ => True
  end.
Lemma value_ok_array l : value_ok (JArray l) <-> Forall value_ok l.
Proof. induction l as [|v l IH]; cbn; [by split|]. rewrite Forall_cons. by rewrite <- IH. Qed.
Lemma value_ok_object l : value_ok (JObject l) <-> Forall (fun kv : bytes * json => value_ok kv.2) l.
Proof. induction l as [|v l IH]; cbn; [by split|]. rewrite Forall_cons. by rewrite <- IH. Qed.

(** One rune of a string. *)
Lemma read_escaped t r : plausible t -> read_chars (escape t ++ r) = push (clean t) (read_chars r).
Proof.
  intros Ht. destruct t as [a|a b|a b c|a b c d|a].
  - destruct Ht as [Ht|(? & ? & _)]; [|done]. destruct a; first [discriminate Ht|reflexivity].
  - done.
  - cbn [escape]. destruct (_ && _) eqn:E; [|done]. apply andb_prop in E as [E E3]. apply andb_prop in E as [E1 E2].
    assert (a = Z_byte 226) as -> by (apply byte_Z_inj; by apply Z.eqb_eq in E1).
    assert (b = Z_byte 128) as -> by (apply byte_Z_inj; by apply Z.eqb_eq in E2).
    apply orb_prop in E3 as [E3|E3]; apply Z.eqb_eq in E3.
    + assert (c = Z_byte 168) as -> by (by apply byte_Z_inj). reflexivity.
    + assert (c = Z_byte 169) as -> by (by apply byte_Z_inj). reflexivity.
  - done.
  - reflexivity.
Qed.
Lemma read_escaped_all ts r : Forall plausible ts ->
  read_chars ((ts ≫= escape) ++ quote :: r) = Some (map clean ts, r).
Proof.
  induction 1 as [|t ts Ht _ IH]; [done|]. rewrite bind_cons, <- app_assoc, read_escaped by done.
  by rewrite IH.
Qed.
Lemma read_string s r : read_chars (tail (print_string s ++ r)) = Some (map clean (tokens s), r).
Proof.
  unfold print_string. cbn [app tail]. rewrite <- app_assoc. apply read_escaped_all, tokens_plausible.
Qed.

Lemma skip_ws_head s : (forall t s', s = t :: s' -> is_space t = false) -> skip_ws s = s.
Proof. destruct s as [|t s]; [done|]. intros H. cbn. by rewrite (H t s eq_refl). Qed.

(** The first rune of what is printed is no space, and no bracket or comma. *)
Definition starts (z : Z) : bool :=
  (z =? 34) || (z =? 91) || (z =? 123) || (z =? 110) || (z =? 116) || (z =? 102) || (z =? 45) || ((48 <=? z) && (z <=? 57)).
Lemma print_starts v r : value_ok v -> exists b s, print v ++ r = T1 b :: s /\ starts (byte_Z b) = true.
Proof.
  intros Hv. destruct v as [|[]|x|s|l|l]; try (by eexists _, _).
  destruct Hv as [Hi _ _]. cbn [print]. unfold print_num. destruct (negative x); [by eexists _, _|].
  destruct Hi as [->|(b & l' & -> & _ & Hd)]; [by eexists _, _|]. apply Forall_cons in Hd as [Hd _].
  eexists _, _. split; [reflexivity|]. unfold is_digit in Hd. unfold starts. by rewrite Hd, !orb_true_r.
Qed.
Lemma starts_space b s : starts (byte_Z b) = true -> skip_ws (T1 b :: s) = T1 b :: s.
Proof.
  intros Hb. cbn [skip_ws is_space existsb]. destruct (_ || _) eqn:E; [|done]. exfalso. unfold starts in Hb. lia.
Qed.

(** With enough fuel, [v] is read off its text. *)
Definition reads (v : json) : Prop := exists n0, forall n s, (n0 <= n)%nat -> stops s ->
  read_value n (print v ++ s) = Ret (Some (normal v, s)).

Lemma stops_comma s : stops (ch 44 :: s).
Proof. by vm_compute. Qed.
Lemma stops_close z s : z = 93 \/ z = 125 -> stops (ch z :: s).
Proof. by intros [->| ->]; vm_compute. Qed.

(** Reading when the first rune is known. *)
Lemma value_at v s : value_ok v -> exists b r, print v ++ s = T1 b :: r /\
  skip_ws (print v ++ s) = print v ++ s /\ head_z (print v ++ s) = byte_Z b /\ starts (byte_Z b) = true.
Proof.
  intros Hv. destruct (print_starts v s Hv) as (b & r & E & Hb). exists b, r. rewrite E.
  split_and!; [done|by apply starts_space|done|done].
Qed.

Lemma reads_scalar v : value_ok v -> match v with JArray _ | JObject _ => False | _ => True end -> reads v.
Proof.
  intros Hv Hs. exists 1%nat. intros [|n] s Hn Hst; [lia|]. destruct v as [|[]|x|k|l|l]; try done.
  - cbn [print read_value]. change (asc (print_num x)) with (print (JNumber x)).
    destruct (value_at (JNumber x) s Hv) as (b & r & E & -> & -> & Hb). cbn [print] in *.
    assert (Hz : byte_Z b <> 34 /\ byte_Z b <> 91 /\ byte_Z b <> 123 /\ byte_Z b <> 110 /\ byte_Z b <> 116 /\ byte_Z b <> 102).
    { destruct Hv as [Hi _ _]. unfold print_num in E. destruct (negative x).
      - injection E as <- _. by vm_compute.
      - destruct Hi as [Ei|(b' & l' & Ei & _ & Hd)]; rewrite Ei in E; injection E as <- _; [by vm_compute|].
        rewrite ?Ei in Hd. apply Forall_cons in Hd as [Hd _]. unfold is_digit in Hd. lia. }
    rewrite !(proj2 (Z.eqb_neq _ _)) by lia. cbn [normal]. by rewrite read_print_num.
  - cbn [print read_value]. change (skip_ws (print_string k ++ s)) with (print_string k ++ s).
    change (head_z (print_string k ++ s)) with 34. cbn [Z.eqb Pos.eqb]. rewrite read_string. done.
Qed.

Lemma reads_elements v l : Forall value_ok (v :: l) -> Forall reads (v :: l) -> exists n0, forall n s, (n0 <= n)%nat ->
  read_elements n (separated (map print (v :: l)) ++ ch 93 :: s) = Ret (Some (map normal (v :: l), s)).
Proof.
  revert v. induction l as [|w l IH]; intros v Hok Hr; apply Forall_cons in Hr as [[n1 Hv] Hr].
  - exists (S n1). intros [|n] s Hn; [lia|]. cbn [map separated read_elements].
    rewrite Hv by (lia || by apply stops_close; left). done.
  - apply Forall_cons in Hok as [_ Hok]. destruct (IH w Hok Hr) as [n2 Hl]. exists (S (n1 + n2)). intros [|n] s Hn; [lia|].
    change (separated (map print (v :: w :: l))) with (print v ++ ch 44 :: separated (map print (w :: l))).
    cbn [read_elements]. rewrite <- app_assoc. cbn [app]. rewrite Hv by (lia || apply stops_comma). cbn [pbind].
    change (skip_ws (ch 44 :: ?u)) with (ch 44 :: u). change (head_z (ch 44 :: ?u)) with 44. cbn [tail].
    rewrite Hl by lia. done.
Qed.

Definition print_member (kv : bytes * json) : list token := print_string kv.1 ++ ch 58 :: print kv.2.
Definition normal_member (kv : bytes * json) : bytes * json := (valid_string kv.1, normal kv.2).
Lemma reads_member kv n0 n s :
  (forall n s, (n0 <= n)%nat -> stops s -> read_value n (print kv.2 ++ s) = Ret (Some (normal kv.2, s))) ->
  (n0 <= n)%nat -> stops s ->
  read_members (S n) (print_member kv ++ s) =
    let s := skip_ws s in
    if head_z s =? 44 then wrap (cons (normal_member kv)) (read_members n (tail s))
    else if head_z s =? 125 then Ret (Some ([normal_member kv], tail s)) else Ret None.
Proof.
  intros Hv Hn Hs. unfold print_member. rewrite <- app_assoc. cbn [app read_members].
  change (skip_ws (print_string kv.1 ++ ?u)) with (print_string kv.1 ++ u).
  change (head_z (print_string kv.1 ++ ?u)) with 34. cbn [Z.eqb Pos.eqb negb]. rewrite read_string.
  change (skip_ws (ch 58 :: ?u)) with (ch 58 :: u). change (head_z (ch 58 :: ?u)) with 58. cbn [Z.eqb Pos.eqb negb tail].
  rewrite Hv by done. done.
Qed.
Lemma reads_members kv l : Forall (fun kv => value_ok kv.2) (kv :: l) -> Forall (fun kv => reads kv.2) (kv :: l) ->
  exists n0, forall n s, (n0 <= n)%nat ->
  read_members n (separated (map print_member (kv :: l)) ++ ch 125 :: s) = Ret (Some (map normal_member (kv :: l), s)).
Proof.
  revert kv. induction l as [|w l IH]; intros v Hok Hr; apply Forall_cons in Hr as [[n1 Hv] Hr].
  - exists (S n1). intros [|n] s Hn; [lia|]. cbn [map separated].
    rewrite (reads_member v n1) by (done || lia || by apply stops_close; right). done.
  - apply Forall_cons in Hok as [_ Hok]. destruct (IH w Hok Hr) as [n2 Hl]. exists (S (n1 + n2)). intros [|n] s Hn; [lia|].
    change (separated (map print_member (v :: w :: l))) with (print_member v ++ ch 44 :: separated (map print_member (w :: l))).
    rewrite <- app_assoc. cbn [app]. rewrite (reads_member v n1) by (done || lia || apply stops_comma).
    change (skip_ws (ch 44 :: ?u)) with (ch 44 :: u). cbv zeta. change (head_z (ch 44 :: ?u)) with 44. cbn [tail].
    rewrite Hl by lia. done.
Qed.

Lemma all_read v : value_ok v -> reads v.
Proof.
  induction v as [|b|x|k|l IH|l IH] using json_rec_ind; intros Hv; try by apply reads_scalar.
  - destruct l as [|v l].
    { exists 1%nat. intros [|n] s Hn _; [lia|]. done. }
    pose proof (proj1 (value_ok_array _) Hv) as Hok.
    destruct (reads_elements v l Hok) as [n1 Hl].
    { rewrite Forall_forall in IH, Hok |- *. auto. }
    exists (S n1). intros [|n] s Hn _; [lia|]. cbn [print read_value].
    change (ch 91 :: separated (map print (v :: l)) ++ [ch 93]) with ([ch 91] ++ separated (map print (v :: l)) ++ [ch 93]).
    rewrite <- !app_assoc. cbn [app]. set (u := separated (map print (v :: l)) ++ ch 93 :: s).
    change (skip_ws (ch 91 :: u)) with (ch 91 :: u). change (head_z (ch 91 :: u)) with 91. cbn [Z.eqb Pos.eqb tail].
    assert (Hu : head_z (skip_ws u) <> 93).
    { apply Forall_cons in Hok as [Hv1 _]. assert (exists r, u = print v ++ r) as [r ->].
      { unfold u. destruct l as [|w l]; [by eexists|]. eexists. cbn [map separated]. rewrite <- app_assoc. reflexivity. }
      destruct (value_at v r Hv1) as (b & r' & _ & -> & -> & Hb). intros H. by rewrite H in Hb. }
    rewrite (proj2 (Z.eqb_neq _ _)) by done. unfold u. by rewrite Hl by lia.
  - destruct l as [|v l].
    { exists 1%nat. intros [|n] s Hn _; [lia|]. done. }
    pose proof (proj1 (value_ok_object _) Hv) as Hok.
    destruct (reads_members v l Hok) as [n1 Hl].
    { rewrite Forall_forall in IH, Hok |- *. auto. }
    exists (S n1). intros [|n] s Hn _; [lia|]. cbn [print read_value]. fold print_member.
    change (fun kv : bytes * json => print_string kv.1 ++ ch 58 :: print kv.2) with print_member.
    change (ch 123 :: separated (map print_member (v :: l)) ++ [ch 125]) with
      ([ch 123] ++ separated (map print_member (v :: l)) ++ [ch 125]).
    rewrite <- !app_assoc. cbn [app]. set (u := separated (map print_member (v :: l)) ++ ch 125 :: s).
    change (skip_ws (ch 123 :: u)) with (ch 123 :: u). change (head_z (ch 123 :: u)) with 123. cbn [Z.eqb Pos.eqb tail].
    assert (Hu : exists r, u = quote :: r).
    { unfold u. destruct l as [|w l]; eexists; cbn [map separated print_member print_string app]; reflexivity. }
    destruct Hu as [r Hu]. change (head_z (skip_ws u) =? 125) with (head_z (skip_ws u) =? 125). rewrite Hu at 1.
    change (head_z (skip_ws (quote :: r)) =? 125) with false. unfold u. by rewrite Hl by lia.
Qed.

(** What is printed is valid UTF-8. *)
#[local] Abbreviation all_valid := (Forall (fun t => token_ok t = true)).
Lemma ch_ok z : 0 <= z < 128 -> token_ok (ch z) = true.
Proof.
  intros Hz. unfold ch. cbn [token_ok]. unfold rune_width. rewrite byte_Z_Z_byte, Z.mod_small by lia.
  by rewrite (proj2 (Z.ltb_lt _ _) (proj2 Hz)).
Qed.
Lemma hex_digit_ok z : 0 <= z < 16 -> token_ok (hex_digit z) = true.
Proof. intros Hz. apply ch_ok. case_match; lia. Qed.
Lemma asc_ok l : Forall (fun b => byte_Z b < 128) l -> all_valid (asc l).
Proof.
  intros Hl. apply Forall_map. eapply Forall_impl; [exact Hl|]. intros b Hb. cbn [token_ok]. unfold rune_width.
  by rewrite (proj2 (Z.ltb_lt _ _) Hb).
Qed.
Lemma digits_ascii l : Forall (fun b => is_digit b = true) l -> Forall (fun b => byte_Z b < 128) l.
Proof. intros Hl. eapply Forall_impl; [exact Hl|]. intros b. unfold is_digit. lia. Qed.
Lemma print_num_ascii x : num_ok x -> Forall (fun b => byte_Z b < 128) (print_num x).
Proof.
  intros [Hi Hf He]. apply canonical_digits in Hi as [Hi _]. apply digits_ascii in Hi, Hf. unfold print_num.
  repeat apply Forall_app_2; [by destruct (negative x); repeat constructor|done| |].
  - destruct (frac_part x); [done|]. by constructor.
  - destruct (exp_part x) as [[n d]|]; [|done]. destruct (He n d eq_refl) as [_ Hd]. apply digits_ascii in Hd.
    by destruct n; repeat constructor.
Qed.
Lemma escape_ok t : plausible t -> all_valid (escape t).
Proof.
  intros Ht. destruct t as [b|a b|a b c|a b c d|a]; cbn [escape].
  - assert (Hb : token_ok (T1 b) = true) by (by destruct Ht as [Ht|(? & ? & _)]).
    repeat (case_match; [by repeat constructor|]).
    assert (byte_Z b < 128).
    { apply Z.eqb_eq in Hb. unfold rune_width in Hb. destruct (Z.ltb_spec (byte_Z b) 128); [done|]. repeat case_match; lia. }
    pose proof (byte_Z_range b).
    assert (H16 : token_ok (hex_digit (byte_Z b / 16)) = true /\ token_ok (hex_digit (byte_Z b mod 16)) = true).
    { split; apply hex_digit_ok; [split; [apply Z.div_pos; lia|apply Z.div_lt_upper_bound; lia]|apply Z.mod_pos_bound; lia]. }
    destruct H16. by repeat constructor.
  - destruct Ht as [Ht|(? & ? & _)]; by repeat constructor.
  - destruct Ht as [Ht|(? & ? & _)]; [|done]. destruct (_ && _) eqn:E; [|by repeat constructor].
    repeat constructor. apply hex_digit_ok. lia.
  - destruct Ht as [Ht|(? & ? & _)]; by repeat constructor.
  - by repeat constructor.
Qed.
Lemma print_string_ok s : all_valid (print_string s).
Proof.
  unfold print_string. constructor; [done|]. apply Forall_app_2; [|by repeat constructor].
  apply Forall_bind. eapply Forall_impl; [apply tokens_plausible|]. apply escape_ok.
Qed.
Lemma separated_ok l : Forall all_valid l -> all_valid (separated l).
Proof.
  induction 1 as [|x [|y l] Hx Hl IH]; [done..|]. change (separated (x :: y :: l)) with (x ++ ch 44 :: separated (y :: l)).
  apply Forall_app_2; [done|]. by constructor.
Qed.
Lemma print_ok v : value_ok v -> all_valid (print v).
Proof.
  induction v as [|[]|x|k|l IH|l IH] using json_rec_ind; intros Hv; try (by repeat constructor).
  - apply asc_ok. by apply print_num_ascii.
  - apply print_string_ok.
  - apply value_ok_array in Hv. cbn [print]. constructor; [done|]. apply Forall_app_2; [|by repeat constructor].
    apply separated_ok, Forall_map. rewrite Forall_forall in IH, Hv |- *. auto.
  - apply value_ok_object in Hv. cbn [print]. constructor; [done|]. apply Forall_app_2; [|by repeat constructor].
    apply separated_ok, Forall_map. rewrite Forall_forall in IH, Hv |- *. intros kv Hkv.
    change (all_valid (print_string kv.1 ++ ch 58 :: print kv.2)). apply Forall_app_2; [apply print_string_ok|]. constructor; [done|auto].
Qed.

(** Reading back what was printed gives the value, with its strings made
    valid UTF-8. *)
Lemma parse_print v : value_ok v -> parse (text (print v)) = Ret (Some (normal v)).
Proof.
  intros Hv. unfold parse. pose proof (tokens_text (print v) [] (print_ok v Hv)) as Et.
  rewrite !app_nil_r in Et. rewrite Et. clear Et. set (n := (2 * _ + 2)%nat).
  destruct (all_read v Hv) as [n0 H]. specialize (H (Nat.max n0 n) [] ltac:(lia) I). rewrite app_nil_r in H.
  rewrite <- (read_value_fuel n (Nat.max n0 n)), H; [done|lia|]. apply readers_answer. unfold n. lia.
Qed.

(** ** [json.Unmarshal] into a [map[string]interface{}] *)

(** What an [interface{}] holds; a float is its bits. *)
Inductive iface :=
  | INil
  | IBool (b : bool)
  | IFloat (bits : Z)
  | IString (s : bytes)
  | ISlice (l : list iface)
  | IMap (m : gmap bytes iface).

(** Of two members with one name the later one stays. *)
Definition members {A} (l : list (bytes * A)) : gmap bytes A := foldl (fun m kv => <[kv.1 := kv.2]> m) ∅ l.

(** [valueInterface]; a number out of range is [nil] (and an error). *)
Fixpoint interface (v : json) : iface :=
  match v with
  | JNull => INil
  | JBool b => IBool b
  | JNumber x => match ParseFloat x with Some b => IFloat b | None => INil end
  | JString s => IString s
  | JArray l => ISlice (map interface l)
  | JObject l => IMap (members (map (fun kv => (kv.1, interface kv.2)) l))
  end.
Fixpoint overflows (v : json) : bool :=
  match v with
  | JNumber x => bool_decide (ParseFloat x = None)
  | JArray l => existsb overflows l
  | JObject l => existsb (fun kv => overflows kv.2) l
  | _ => false
  end.

Inductive unmarshal_error := SyntaxError | TypeError.
(** [var m map[string]interface{}; err := json.Unmarshal(s, &m)]: the map, if
    one was made, and the error. *)
Definition Unmarshal (s : bytes) : outcome (option (gmap bytes iface) * option unmarshal_error) :=
  obind (parse s) (fun r => Ret
    match r with
    | None => (None, Some SyntaxError)
    | Some JNull => (None, None)
    | Some (JObject l) =>
        (Some (members (map (fun kv => (kv.1, interface kv.2)) l)),
         if overflows (JObject l) then Some TypeError else None)
    | Some _ => (None, Some TypeError)
    end).

Lemma Unmarshal_answers s : exists r, Unmarshal s = Ret r.
Proof. destruct (parse_answers s) as [r E]. unfold Unmarshal. rewrite E. by eexists. Qed.

Lemma overflows_normal v : overflows (normal v) = overflows v.
Proof.
  induction v as [|b|x|k|l IH|l IH] using json_rec_ind; try done; cbn [normal overflows]; induction IH as [|v l Hv _ IH];
    try done; cbn [map existsb]; by rewrite IH; f_equal.
Qed.

(** A document that was printed is decoded. *)
Lemma Unmarshal_print l : value_ok (JObject l) -> Unmarshal (text (print (JObject l))) =
  Ret (Some (members (map (fun kv => (valid_string kv.1, interface (normal kv.2))) l)),
       if overflows (JObject l) then Some TypeError else None).
Proof.
  intros Hl. unfold Unmarshal. rewrite parse_print by done. cbn [obind]. rewrite <- (overflows_normal (JObject l)).
  cbn [normal]. by rewrite map_map.
Qed.
