(* ===== verification/SliceLoop.v ===== *)
(** * Ranging over a slice whose elements the loop body removes

    Both servers keep their connections in a slice [l], delete one with
    [l = append(l[:i], l[i+1:]...)], and close them all with
    [for _, x := range l { x.close() }], where closing an element deletes it
    from [l].  [range] fixes the slice header when the loop starts, but the
    deletions shift the backing array under it.  [sweep] is that loop on
    plain slices; [sweep_spec] says which elements it reaches. *)
From S2P Require Import Prelude.
From S2P Require Import GoSem.

Section Remove.
Context {A : Type} `{EqDecision A} (zero : A) (growcap : nat -> nat -> nat).

Fixpoint find_index (x : A) (l : list A) : option nat :=
  match l with
  | [] => None
  | y :: l => if decide (y = x) then Some 0%nat else S <$> find_index x l
  end.

(** [for index, n := range s { if n == x { s = append(s[:index], s[index+1:]...); break } }] *)
Definition remove_elem (x : A) (s : slice A) : slice A :=
  match find_index x (elems s) with
  | Some k => sappend zero growcap (mkSlice (sl_arr s) k) (drop (S k) (elems s))
  | None => s
  end.

Lemma find_index_app x l1 l2 :
  x ∉ l1 -> find_index x (l1 ++ x :: l2) = Some (length l1).
Proof.
  induction l1 as [|y l1 IH]; intros Hx; simpl.
  - by rewrite decide_True.
  - apply not_elem_of_cons in Hx as [Hne Hx].
    rewrite decide_False by done. by rewrite IH.
Qed.

Lemma find_index_None x l : x ∉ l -> find_index x l = None.
Proof.
  induction l as [|y l IH]; intros Hx; simpl; [done|].
  apply not_elem_of_cons in Hx as [Hne Hx]. rewrite decide_False by done. by rewrite IH.
Qed.

(** Deleting shifts the elements behind [x] and leaves the last one twice
    in the backing array. *)
Lemma remove_elem_split x l1 l2 spare :
  x ∉ l1 ->
  remove_elem x (mkSlice (l1 ++ x :: l2 ++ spare) (length l1 + S (length l2))) =
  mkSlice (l1 ++ l2 ++ drop (length l2) (x :: l2) ++ spare) (length l1 + length l2).
Proof.
  intros Hx. unfold remove_elem, elems. simpl.
  replace (l1 ++ x :: l2 ++ spare) with ((l1 ++ x :: l2) ++ spare)
    by (by rewrite <- app_assoc).
  rewrite take_app_length' by (rewrite length_app; done).
  rewrite find_index_app by done.
  assert (Hd : drop (S (length l1)) (l1 ++ x :: l2) = l2).
  { replace (S (length l1)) with (length l1 + 1)%nat by lia.
    by rewrite <- drop_drop, drop_app_length. }
  rewrite Hd. unfold sappend, elems. simpl.
  rewrite (proj2 (Nat.leb_le _ _)) by (rewrite !length_app; simpl; lia).
  f_equal. rewrite <- app_assoc. rewrite take_app_length. f_equal. f_equal.
  rewrite <- drop_drop, drop_app_length.
  change ((x :: l2) ++ spare) with ([x] ++ l2 ++ spare).
  rewrite app_assoc, drop_app_le by (simpl; lia). done.
Qed.

Lemma remove_elem_elems x l1 l2 s :
  swf s -> elems s = l1 ++ x :: l2 -> x ∉ l1 -> elems (remove_elem x s) = l1 ++ l2.
Proof.
  intros Hw E Hx. pose proof (elems_length s Hw) as Hl. rewrite E, length_app in Hl.
  unfold remove_elem. rewrite E, find_index_app by done.
  rewrite sappend_elems.
  - f_equal.
    + unfold elems in *. simpl. apply (f_equal (take (length l1))) in E.
      rewrite take_take, take_app_length in E.
      etransitivity; [|exact E]. f_equal. simpl in *. lia.
    + replace (S (length l1)) with (length l1 + 1)%nat by lia.
      by rewrite <- drop_drop, drop_app_length.
  - unfold swf in *. simpl in *. lia.
Qed.

Lemma remove_elem_absent x s : x ∉ elems s -> remove_elem x s = s.
Proof. intros Hx. unfold remove_elem. by rewrite find_index_None. Qed.

(** A slice around its first occurrence of [x]. *)
Lemma slice_split (x : A) (s : slice A) :
  swf s -> x ∈ elems s ->
  exists l1 l2 spare, x ∉ l1 /\ elems s = l1 ++ x :: l2 /\
    s = mkSlice (l1 ++ x :: l2 ++ spare) (length l1 + S (length l2)).
Proof.
  intros Hw Hx. pose proof (elems_length s Hw) as Hl.
  apply list_elem_of_split_l in Hx as (l1 & l2 & E & Hn).
  exists l1, l2, (drop (sl_len s) (sl_arr s)). split_and!; try done.
  destruct s as [arr n]. f_equal.
  - simpl. rewrite <- (take_drop n arr) at 1. unfold elems in E. simpl in E.
    by rewrite E, <- app_assoc.
  - rewrite E, length_app in Hl. by simpl in Hl.
Qed.

(** Deleting brings no new element into a window that covers the slice. *)
Lemma remove_elem_window (x : A) (s : slice A) n (y : A) :
  swf s -> (sl_len s <= n)%nat ->
  y ∈ take n (sl_arr (remove_elem x s)) -> y ∈ take n (sl_arr s).
Proof.
  intros Hw Hn. destruct (decide (x ∈ elems s)) as [Hx|Hx].
  2:{ by rewrite remove_elem_absent. }
  destruct (slice_split x s Hw Hx) as (l1 & l2 & spare & Hx1 & _ & ->). simpl in Hn.
  rewrite remove_elem_split by done. simpl.
  assert (Hlen : length (drop (length l2) (x :: l2)) = 1%nat) by (rewrite length_drop; simpl; lia).
  assert (Hd : forall z, z ∈ drop (length l2) (x :: l2) -> z ∈ x :: l2).
  { intros z Hz. rewrite <- (take_drop (length l2) (x :: l2)). apply elem_of_app. by right. }
  revert Hlen Hd. generalize (drop (length l2) (x :: l2)). intros d Hlen Hd.
  replace n with (length (l1 ++ l2 ++ d) + (n - length (l1 ++ l2 ++ d)))%nat
    by (rewrite !length_app; lia).
  replace (l1 ++ l2 ++ d ++ spare) with ((l1 ++ l2 ++ d) ++ spare)
    by (by rewrite <- !app_assoc).
  rewrite take_app_add.
  replace (l1 ++ x :: l2 ++ spare) with ((l1 ++ x :: l2) ++ spare) by (by rewrite <- app_assoc).
  replace (length (l1 ++ l2 ++ d)) with (length (l1 ++ x :: l2))
    by (rewrite !length_app; simpl; lia).
  rewrite take_app_add, !elem_of_app. intros [[?|[?|Hy%Hd]]|?]; set_solver.
Qed.

(** [sweep i m s closed]: the loop from index [i] for [m] more rounds;
    [closed] are the elements closed so far, whose [close] does nothing. *)
Fixpoint sweep (i m : nat) (s : slice A) (closed : list A) : outcome (slice A * list A) :=
  match m with
  | O => Ret (s, closed)
  | S m =>
      match sl_arr s !! i with
      | None => Panic
      | Some x =>
          if decide (x ∈ closed) then sweep (S i) m s closed
          else sweep (S i) m (remove_elem x s) (x :: closed)
      end
  end.

(** The elements the loop skips: every second one, the last excepted. *)
Fixpoint skipped (l : list A) : list A :=
  match l with
  | _ :: b :: ((_ :: _) as rest) => b :: skipped rest
  | _ => []
  end.

Lemma skipped_cons2 a b c l : skipped (a :: b :: c :: l) = b :: skipped (c :: l).
Proof. done. Qed.

Lemma skipped_sub n l x : (length l <= n)%nat -> x ∈ skipped l -> x ∈ l.
Proof.
  revert l. induction n as [|n IH]; intros [|a [|b [|c l]]] Hl Hx; simpl in Hl; try lia;
    try by apply not_elem_of_nil in Hx.
  rewrite skipped_cons2, elem_of_cons in Hx. destruct Hx as [->|Hx]; [set_solver|].
  apply IH in Hx; [set_solver|simpl; lia].
Qed.

Lemma drop_to_last (l : list A) a x : last l = Some x -> drop (length l) (a :: l) = [x].
Proof.
  revert a. induction l as [|b l IH]; intros a E; [done|]. simpl. destruct l as [|c l].
  - by simplify_eq/=.
  - by apply (IH b).
Qed.

(** Rounds that read an element closed before change nothing. *)
Lemma sweep_idle m : forall i s closed pre x spare,
  sl_arr s = pre ++ replicate m x ++ spare -> length pre = i -> x ∈ closed ->
  sweep i m s closed = Ret (s, closed).
Proof.
  induction m as [|m IH]; intros i s closed pre x spare E Hi Hx; [done|].
  simpl. rewrite E, lookup_app_r by lia. rewrite Hi, Nat.sub_diag. simpl.
  rewrite decide_True by done. eapply (IH _ _ _ (pre ++ [x])); [|rewrite length_app; simpl; lia|done].
  by rewrite E, <- app_assoc.
Qed.

Lemma sweep_idle_end pre read k x spare i n closed (P : list A -> Prop) :
  i = (length pre + length read)%nat -> x ∈ closed -> P closed ->
  exists s' closed', sweep i k (mkSlice (pre ++ read ++ replicate k x ++ spare) n) closed =
    Ret (s', closed') /\ P closed'.
Proof.
  intros Hi Hx HP. do 2 eexists. split; [|exact HP].
  apply (sweep_idle _ _ _ _ (pre ++ read) x spare); simpl; [by rewrite <- app_assoc| |done].
  rewrite length_app. lia.
Qed.

(** The loop from the middle: [pre] are the elements skipped so far, [rest]
    those not reached, [k] rounds have removed an element. *)
Lemma sweep_from rest : forall pre k x spare closed,
  NoDup (pre ++ rest) -> last rest = Some x ->
  (forall y, y ∈ rest -> y ∉ closed) ->
  exists s' closed',
    sweep (length pre) (length rest + k)
      (mkSlice (pre ++ rest ++ replicate k x ++ spare) (length pre + length rest)) closed
      = Ret (s', closed') /\
    (forall y, (y ∈ closed') <-> y ∈ closed \/ (y ∈ rest /\ y ∉ skipped rest)).
Proof.
  induction rest as [rest IH] using (induction_ltof1 _ (@length A)); unfold ltof in IH.
  intros pre k x spare closed Hnd Hlast Hfresh.
  destruct rest as [|a rest]; [done|].
  assert (Ha : a ∉ pre /\ a ∉ closed).
  { split; [|apply Hfresh; by left]. intros Hin.
    apply NoDup_app in Hnd as (_ & Hd & _). apply (Hd a Hin). by left. }
  destruct Ha as [Hap Hac]. cbn [length Nat.add sweep sl_arr app].
  rewrite lookup_app_r, Nat.sub_diag by lia. simpl lookup. cbv iota beta.
  rewrite decide_False by done.
  rewrite remove_elem_split by done.
  destruct rest as [|b rest].
  - simpl in Hlast. simplify_eq. simpl app. simpl drop.
    apply (sweep_idle_end pre [x]); [simpl; lia|by left|]. intros y. simpl. set_solver.
  - assert (Hlast' : last (b :: rest) = Some x) by done.
    rewrite (drop_to_last _ a _ Hlast').
    assert (Hab : a <> b).
    { apply NoDup_app in Hnd as (_ & _ & Hn). apply NoDup_cons in Hn as [Hn _]. set_solver. }
    destruct rest as [|c rest].
    + simpl in Hlast'. simplify_eq. cbn [length Nat.add sweep sl_arr app].
      rewrite lookup_app_r by lia. replace (S (length pre) - length pre)%nat with 1%nat by lia.
      simpl lookup.
      cbv iota beta. rewrite decide_False by set_solver.
      assert (Hxp : x ∉ pre) by (apply NoDup_app in Hnd as (_ & Hd & _);
        intros Hin; apply (Hd x Hin); set_solver).
      pose proof (remove_elem_split x pre [] (x :: replicate k x ++ spare) Hxp) as R.
      simpl in R |- *. rewrite R.
      apply (sweep_idle_end pre [x; x]); [simpl; lia|by left|]. intros y. simpl. set_solver.
    + destruct (IH (c :: rest) ltac:(simpl; lia) (pre ++ [b]) (S k) x spare (a :: closed))
        as (s' & closed' & Es & Hc).
      { rewrite <- app_assoc. apply NoDup_app in Hnd as (H1 & H2 & H3).
        apply NoDup_cons in H3 as [H3 H4]. apply NoDup_app. set_solver. }
      { done. }
      { intros y Hy. apply NoDup_app in Hnd as (_ & _ & H3).
        apply NoDup_cons in H3 as [H3 _]. set_solver. }
      exists s', closed'. split.
      * rewrite <- Es. rewrite length_app. simpl length.
        replace (length pre + 1)%nat with (S (length pre)) by lia.
        replace (S (length rest) + S k)%nat with (S (S (length rest)) + k)%nat by lia.
        f_equal. f_equal; [|lia]. rewrite <- !app_assoc. simpl. done.
      * intros y. rewrite Hc, skipped_cons2.
        apply NoDup_app in Hnd as (_ & _ & H3). apply NoDup_cons in H3 as [Ha3 H3].
        apply NoDup_cons in H3 as [Hb3 _].
        pose proof (skipped_sub _ (c :: rest) a (le_n _)) as Hsa.
        pose proof (skipped_sub _ (c :: rest) b (le_n _)) as Hsb.
        rewrite (elem_of_cons closed y a), (elem_of_cons (b :: c :: rest) y a),
          (elem_of_cons (c :: rest) y b), (elem_of_cons (skipped (c :: rest)) y b).
        assert (a ∉ c :: rest) by (rewrite elem_of_cons in Ha3; tauto).
        destruct (decide (y = a)) as [->|]; [|destruct (decide (y = b)) as [->|]]; tauto.
Qed.

(** The whole loop reaches every element but the skipped ones. *)
Lemma sweep_spec s :
  swf s -> NoDup (elems s) ->
  exists s' closed, sweep 0 (sl_len s) s [] = Ret (s', closed) /\
    forall y, (y ∈ closed) <-> y ∈ elems s /\ y ∉ skipped (elems s).
Proof.
  intros Hw Hnd. pose proof (elems_length s Hw) as Hl.
  destruct (last (elems s)) as [x|] eqn:El.
  - destruct (sweep_from (elems s) [] 0 x (drop (sl_len s) (sl_arr s)) []) as (s' & cl & Es & Hc);
      try done; [set_solver|].
    exists s', cl. split; [|set_solver].
    rewrite <- Es. simpl. rewrite Hl, Nat.add_0_r. f_equal.
    unfold elems. rewrite take_drop. by destruct s.
  - apply last_None in El. rewrite El in *. simpl in Hl. rewrite <- Hl.
    exists s, []. split; [done|]. set_solver.
Qed.

(** Deleting one element of a slice without repetition. *)
Lemma remove_elem_ok x s :
  swf s -> NoDup (elems s) ->
  swf (remove_elem x s) /\ NoDup (elems (remove_elem x s)) /\
  forall y, (y ∈ elems (remove_elem x s)) <-> y ∈ elems s /\ y <> x.
Proof.
  intros Hw Hnd. destruct (decide (x ∈ elems s)) as [Hi|Hi].
  - destruct (slice_split x s Hw Hi) as (l1 & l2 & _ & Hn & E & _).
    rewrite (remove_elem_elems x l1 l2 s) by done. rewrite E in Hnd |- *.
    apply NoDup_app in Hnd as (H1 & H2 & [H3 H4]%NoDup_cons). split_and!.
    + unfold remove_elem. rewrite E, find_index_app by done.
      apply sappend_wf. unfold swf in *. simpl. pose proof (elems_length s Hw) as Hl.
      rewrite E, length_app in Hl. simpl in Hl. lia.
    + apply NoDup_app. split_and!; try done. intros y Hy Hy2. apply (H2 y Hy). by right.
    + intros y. rewrite !elem_of_app, elem_of_cons.
      destruct (decide (y = x)) as [->|]; tauto.
  - rewrite remove_elem_absent by done. split_and!; try done. intros y.
    destruct (decide (y = x)) as [->|]; tauto.
Qed.

(** ** Ranging over a slice that the loop body changes

    [for _, x := range s { f(x) }] from index [k] for [m] more rounds, where
    [s] is a field of the state: the slice header is evaluated once, the
    elements are read from the backing array as it is by then.  This is the
    loop as long as the body does not move the slice to a new array, and
    deleting from it does not. *)
Section Live.
Context {W : Type} (grp : W -> slice A) (f : A -> M W unit).

Fixpoint range_live (k m : nat) : M W unit :=
  match m with
  | O => ret tt
  | S m =>
      let! s := gets grp in
      match sl_arr s !! k with
      | None => lift Panic
      | Some x => f x ;; range_live (S k) m
      end
  end.

Lemma preserves_range_live I m : (forall x, preserves I (f x)) ->
  forall k, preserves I (range_live k m).
Proof.
  intros Hf. induction m as [|m IH]; intros k; simpl; [apply preserves_ret|].
  apply preserves_bind; [apply preserves_gets|]. intros s.
  destruct (sl_arr s !! k); [|apply preserves_lift]. by apply preserves_bind.
Qed.

(** The body closes its element, which takes it out of the slice; an element
    closed before is left alone. *)
Context (Inv : W -> Prop) (is_open : W -> A -> bool).
Context (Inv_slice : forall w, Inv w -> swf (grp w) /\ NoDup (elems (grp w))).
Context (Inv_open : forall w x, Inv w -> x ∈ elems (grp w) -> is_open w x = true).
Context (known : W -> A -> Prop).
Context (Inv_known : forall w x, Inv w -> x ∈ elems (grp w) -> known w x).
Context (f_closed : forall w x, Inv w -> known w x -> is_open w x = false -> f x w = (w, Ret tt)).
Context (f_open : forall w x, Inv w -> known w x -> is_open w x = true ->
  exists w', f x w = (w', Ret tt) /\ Inv w' /\ grp w' = remove_elem x (grp w) /\
    (forall y, known w y -> known w' y) /\
    forall y, is_open w' y = if decide (y = x) then false else is_open w y).

Lemma range_live_sweep (ids : list A) n0 m : forall k w (cl : list A) s' (cl' : list A),
  Inv w -> (forall x, x ∈ ids -> known w x /\ (is_open w x = false <-> x ∈ cl)) ->
  (forall y, y ∈ take n0 (sl_arr (grp w)) -> y ∈ ids) ->
  (sl_len (grp w) <= n0)%nat -> (k + m <= n0)%nat ->
  sweep k m (grp w) cl = Ret (s', cl') ->
  exists w', range_live k m w = (w', Ret tt) /\ Inv w' /\
    forall x, x ∈ ids -> known w' x /\ (is_open w' x = false <-> x ∈ cl').
Proof.
  induction m as [|m IH]; intros k w cl s' cl' Hw Hcl Harr Hlen Hk Hs; simpl in Hs.
  { simplify_eq. by exists w. }
  destruct (sl_arr (grp w) !! k) as [x|] eqn:Ek; [|done].
  assert (Hx : x ∈ ids).
  { apply Harr, (list_elem_of_lookup_2 _ k). rewrite lookup_take. by rewrite decide_True by lia. }
  destruct (Hcl x Hx) as [Hkn Hcx]. simpl. erewrite bind_ret by reflexivity. rewrite Ek.
  destruct (Inv_slice w Hw) as [Hsw Hnd].
  destruct (decide (x ∈ cl)) as [Hin|Hin].
  - rewrite (bind_ret _ _ _ w tt) by (apply f_closed; tauto).
    eapply (IH (S k)); eauto; lia.
  - assert (Ho : is_open w x = true) by (destruct (is_open w x); [done|]; exfalso; tauto).
    destruct (f_open w x Hw Hkn Ho) as (w1 & Ec & Hw1 & Eg & Hkn1 & Hop).
    rewrite (bind_ret _ _ _ _ _ Ec). rewrite <- Eg in Hs.
    eapply (IH (S k) w1 (x :: cl)); eauto; rewrite ?Eg; try lia.
    + intros y Hy. destruct (Hcl y Hy) as [Hky Hcy]. split; [auto|]. rewrite Hop, elem_of_cons.
      destruct (decide (y = x)); naive_solver.
    + intros y Hy%remove_elem_window; auto.
    + destruct (Inv_slice w1 Hw1) as [Hsw1 _]. rewrite <- Eg, <- (elems_length _ Hsw1), Eg.
      pose proof (elems_length _ Hsw) as L. destruct (decide (x ∈ elems (grp w))) as [Hi|Hi].
      * destruct (slice_split x (grp w) Hsw Hi) as (l1 & l2 & sp & H1 & H2 & _).
        rewrite (remove_elem_elems x l1 l2) by done. rewrite H2, length_app in L.
        rewrite length_app. simpl in L. lia.
      * rewrite remove_elem_absent by done. lia.
Qed.

(** Closing everything reaches all members but the skipped ones. *)
Lemma range_live_closes w :
  Inv w -> exists w', range_live 0 (sl_len (grp w)) w = (w', Ret tt) /\ Inv w' /\
    forall x, x ∈ elems (grp w) -> known w' x /\
      is_open w' x = bool_decide (x ∈ skipped (elems (grp w))).
Proof.
  intros Hw. destruct (Inv_slice w Hw) as [Hsw Hnd].
  destruct (sweep_spec (grp w) Hsw Hnd) as (s' & cl & Es & Hcl).
  destruct (range_live_sweep (elems (grp w)) (sl_len (grp w)) (sl_len (grp w)) 0 w [] s' cl)
    as (w1 & Ec & Hw1 & Hcl1); try done.
  - intros x Hx. split; [by apply Inv_known|]. rewrite Inv_open by done.
    split; [done|]. by intros ?%not_elem_of_nil.
  - exists w1. split_and!; try done. intros x Hx. destruct (Hcl1 x Hx) as [Hk Ho]. split; [done|].
    rewrite Hcl in Ho. case_bool_decide; destruct (is_open w1 x); naive_solver.
Qed.
End Live.
End Remove.
