(* ===== verification/Framing.v ===== *)
(** * Stream reassembly, once for every receiver

    The program has three hand-written receivers of length-prefixed frames
    (the subscription node, the subscription client and the agent's two
    [onMessage] loops).  Each appends what it reads to a buffer and takes
    complete frames off its front.  This file states what such a receiver
    promises ([FrameReceiver] and [FrameReceiverLaws]) and proves from the
    promise alone that the way TCP cut the stream into reads does not
    matter. *)
From S2P Require Import Prelude.
From S2P Require Import GoSem.

Section Split.
Context {F : Type} (enc : F -> bytes).

Definition wire (fs : list F) : bytes := concat (map enc fs).

(** What is left of the stream [fs] after its first [n] bytes, counted from
    the start of the frame being received. *)
Fixpoint residue (fs : list F) (n : nat) : nat :=
  match fs with
  | [] => n
  | f :: fs => if (n <? length (enc f))%nat then n
               else residue fs (n - length (enc f))
  end.

(** [t] is a proper beginning of the first frame of [fs]. *)
Definition incomplete (t : bytes) (fs : list F) : Prop :=
  match fs with
  | [] => t = []
  | f :: _ => (length t < length (enc f))%nat
  end.

Lemma wire_cons f fs : wire (f :: fs) = enc f ++ wire fs.
Proof. done. Qed.

Lemma wire_app fs1 fs2 : wire (fs1 ++ fs2) = wire fs1 ++ wire fs2.
Proof. unfold wire. by rewrite map_app, concat_app. Qed.

Lemma residue_skip fs1 fs2 n :
  residue (fs1 ++ fs2) (length (wire fs1) + n) = residue fs2 n.
Proof.
  induction fs1 as [|f fs1 IH]; [done|].
  rewrite wire_cons, length_app. simpl.
  destruct (Nat.ltb_spec (length (enc f) + length (wire fs1) + n) (length (enc f))); [lia|].
  rewrite <- IH. f_equal. lia.
Qed.

(** Any prefix of a stream of frames is some whole frames and the beginning
    of the next one. *)
Lemma frames_split fs buf rest :
  buf ++ rest = wire fs ->
  exists fs1 fs2 t, fs = fs1 ++ fs2 /\ buf = wire fs1 ++ t /\
    t ++ rest = wire fs2 /\ incomplete t fs2 /\ length t = residue fs (length buf).
Proof.
  revert buf. induction fs as [|f fs IH]; intros buf E.
  - apply app_eq_nil in E as [-> ->]. by exists [], [], [].
  - rewrite wire_cons in E. simpl.
    destruct (Nat.ltb_spec (length buf) (length (enc f))) as [Hlt|Hge].
    { exists [], (f :: fs), buf. by rewrite wire_cons. }
    assert (buf = enc f ++ drop (length (enc f)) buf) as Hb.
    { rewrite <- (take_drop (length (enc f)) buf) at 1. f_equal.
      apply (f_equal (take (length (enc f)))) in E.
      rewrite take_app_le in E by done. by rewrite take_app_length in E. }
    rewrite Hb, <- app_assoc in E. apply app_inv_head in E.
    destruct (IH _ E) as (fs1 & fs2 & t & -> & Ht & Hr & Hi & Hl).
    exists (f :: fs1), fs2, t. split_and!; try done.
    + rewrite wire_cons, <- app_assoc, <- Ht. done.
    + rewrite Hl, length_drop. done.
Qed.

(** A buffer without a missing part is empty. *)
Lemma incomplete_none t fs : incomplete t fs -> t = wire fs -> fs = [] /\ t = [].
Proof.
  destruct fs as [|f fs]; [done|]. cbn [incomplete]. intros Hi ->. rewrite wire_cons, length_app in Hi. lia.
Qed.
End Split.

(** What a receiver is made of: the reading handler [feed], its buffer, the
    part of its state the frames act on ([view]), and how a frame acts. *)
Class FrameReceiver (W F A : Type) := {
  enc : F -> bytes;
  feed : bytes -> M W unit;
  buffered : W -> bytes;
  view : W -> A;
  handle : A -> F -> A;
  inv : W -> Prop;
  accepts : A -> list F -> Prop;
  read_ok : bytes -> Prop;
  tail_ok : nat -> Prop
}.

(** What it promises: one read handles exactly the frames it completes and
    keeps the beginning of the next one. *)
Class FrameReceiverLaws W F A `{FrameReceiver W F A} := {
  accepts_handle a f fs : accepts a (f :: fs) -> accepts (handle a f) fs;
  feed_spec w chunk fs1 fs2 t :
    inv w -> read_ok chunk -> accepts (view w) (fs1 ++ fs2) ->
    buffered w ++ chunk = wire enc fs1 ++ t ->
    (exists more, t ++ more = wire enc fs2) ->
    incomplete enc t fs2 -> tail_ok (length t) ->
    exists w', feed chunk w = (w', Ret tt) /\ buffered w' = t /\ inv w' /\
               view w' = foldl handle (view w) fs1
}.

Section Reassembly.
Context `{FrameReceiverLaws W F A}.

Lemma accepts_app fs1 : forall a fs2,
  accepts a (fs1 ++ fs2) -> accepts (foldl handle a fs1) fs2.
Proof. induction fs1 as [|f fs1 IH]; intros a fs2 Ha; [done|]. by apply IH, accepts_handle. Qed.

(** The state after a sequence of reads whose concatenation is the
    beginning of a stream of well-formed frames: all complete frames have
    acted, in order and once, and the rest is in the buffer. *)
Lemma feeds_spec chunks : forall w fs missing,
  inv w -> Forall read_ok chunks -> accepts (view w) fs ->
  buffered w ++ concat chunks ++ missing = wire enc fs ->
  (forall k, (0 < k <= length chunks)%nat ->
     tail_ok (residue enc fs (length (buffered w) + length (concat (take k chunks))))) ->
  incomplete enc (buffered w) fs ->
  exists fs1 fs2 w', fs = fs1 ++ fs2 /\
    range chunks feed w = (w', Ret tt) /\ inv w' /\
    buffered w' ++ missing = wire enc fs2 /\ incomplete enc (buffered w') fs2 /\
    view w' = foldl handle (view w) fs1.
Proof.
  induction chunks as [|c cs IH]; intros w fs missing Hinv Hread Hok E Htail Hinc.
  { exists [], fs, w. simpl in *. split_and!; done. }
  apply Forall_cons in Hread as [Hc Hcs]. simpl in E.
  rewrite <- app_assoc, app_assoc in E.
  destruct (frames_split enc fs _ _ E) as (fs1 & fs2 & t & -> & Hb & Hr & Hi & Hl).
  assert (Ht : tail_ok (length t)).
  { rewrite Hl, length_app. specialize (Htail 1%nat ltac:(simpl; lia)).
    simpl in Htail. by rewrite app_nil_r in Htail. }
  destruct (feed_spec w c fs1 fs2 t) as (w1 & Ef & Hbuf & Hinv1 & Hv); try done.
  { eauto. }
  pose proof (accepts_app _ _ _ Hok) as Hok2. rewrite <- Hv in Hok2.
  rewrite <- Hbuf in Hr, Hi.
  destruct (IH w1 fs2 missing) as (g1 & g2 & w2 & -> & Er & Hinv2 & Hr2 & Hi2 & Hv2); try done.
  { intros k Hk. specialize (Htail (S k) ltac:(simpl; lia)). simpl in Htail.
    rewrite length_app, Nat.add_assoc, <- length_app, Hb, length_app in Htail.
    rewrite <- Nat.add_assoc, residue_skip in Htail. by rewrite Hbuf. }
  exists (fs1 ++ g1), g2, w2. split_and!; try done.
  - by rewrite app_assoc.
  - simpl. by rewrite (bind_ret _ _ _ _ _ Ef).
  - by rewrite Hv2, Hv, foldl_app.
Qed.

(** When the stream has arrived in full, every frame has acted and nothing
    is left in the buffer. *)
Lemma feeds_complete chunks w fs :
  inv w -> Forall read_ok chunks -> accepts (view w) fs ->
  buffered w ++ concat chunks = wire enc fs ->
  (forall k, (0 < k <= length chunks)%nat ->
     tail_ok (residue enc fs (length (buffered w) + length (concat (take k chunks))))) ->
  incomplete enc (buffered w) fs ->
  exists w', range chunks feed w = (w', Ret tt) /\ inv w' /\
    buffered w' = [] /\ view w' = foldl handle (view w) fs.
Proof.
  intros Hinv Hr Hok E Ht Hi. rewrite <- (app_nil_r (concat chunks)) in E.
  destruct (feeds_spec chunks w fs [] Hinv Hr Hok E Ht Hi)
    as (fs1 & fs2 & w' & -> & Er & Hinv' & Hb & Hi' & Hv).
  rewrite app_nil_r in Hb. exists w'.
  destruct fs2 as [|f fs2]; simpl in *; [by rewrite app_nil_r|].
  exfalso. rewrite Hb, wire_cons, length_app in Hi'. lia.
Qed.
End Reassembly.
