(* ===== verification/Frame.v ===== *)
(** * The subscription protocol's packets

    [src/services/service_util.go]: [Pack], [Unpack], [PackPro], [hasCmd] and
    [MatchFilters]; [src/client/tcp.go]: the client's own [pack], [setPro] and
    [hasCmd]; the command and flag constants. *)
From S2P Require Import Prelude.
From S2P Require Import GoSem.

(** ** Constants ([services/service_config.go], repeated in [agent] and [client]) *)
Definition CMD_SET_PRO : Z := 0.
Definition CMD_AUTH : Z := 1.
Definition CMD_ERROR : Z := 2.
Definition CMD_TICK : Z := 3.
Definition CMD_EVENT : Z := 4.
Definition CMD_AGENT : Z := 5.
Definition CMD_STOP : Z := 6.
Definition CMD_RELOAD : Z := 7.
Definition CMD_SHOW_MEMBERS : Z := 8.
Definition CMD_POS : Z := 9.
Definition FlagSetPro : Z := 0.
Definition FlagPing : Z := 1.

Definition hasCmd (cmd : Z) : bool :=
  (cmd =? CMD_SET_PRO) || (cmd =? CMD_AUTH) || (cmd =? CMD_ERROR) ||
  (cmd =? CMD_TICK) || (cmd =? CMD_EVENT) || (cmd =? CMD_AGENT) ||
  (cmd =? CMD_STOP) || (cmd =? CMD_RELOAD) || (cmd =? CMD_SHOW_MEMBERS) ||
  (cmd =? CMD_POS).

(** ** The server's side *)
Definition Pack (cmd : Z) (msg : bytes) : bytes :=
  let cl := len msg + 2 in
  [Z_byte cl; Z_byte (Z.shiftr cl 8); Z_byte (Z.shiftr cl 16); Z_byte (Z.shiftr cl 24);
   Z_byte cmd; Z_byte (Z.shiftr cmd 8)] ++ msg.

(** [int(data[0]) | int(data[1])<<8 | int(data[2])<<16 | int(data[3])<<24] *)
Definition word32 (b0 b1 b2 b3 : byte) : Z :=
  Z.lor (Z.lor (Z.lor (byte_Z b0) (Z.shiftl (byte_Z b1) 8))
               (Z.shiftl (byte_Z b2) 16)) (Z.shiftl (byte_Z b3) 24).
Definition word16 (b0 b1 : byte) : Z := Z.lor (byte_Z b0) (Z.shiftl (byte_Z b1) 8).

(** The two header reads of a packet. *)
Definition read_clen (data : bytes) : outcome Z :=
  obind (index data 0) (fun b0 => obind (index data 1) (fun b1 =>
  obind (index data 2) (fun b2 => obind (index data 3) (fun b3 =>
  Ret (word32 b0 b1 b2 b3))))).
Definition read_cmd (data : bytes) : outcome Z :=
  obind (index data 4) (fun b4 => obind (index data 5) (fun b5 => Ret (word16 b4 b5))).

Definition Unpack (data : bytes) : outcome (Z * bytes * option goerr) :=
  obind (read_clen data) (fun clen =>
  if len data <? clen + 4 then Ret (0, [], Some ErrDataLenError)
  else obind (read_cmd data) (fun cmd =>
       obind (sub data 6 (clen + 4)) (fun content =>
       Ret (cmd, content, None)))).

Definition PackPro (flag : Z) (content : bytes) : bytes :=
  let l := len content + 3 in
  [Z_byte l; Z_byte (Z.shiftr l 8); Z_byte (Z.shiftr l 16); Z_byte (Z.shiftr l 24);
   Z_byte CMD_SET_PRO; Z_byte (Z.shiftr CMD_SET_PRO 8); Z_byte flag] ++ content.

(** [regexp.MatchString(f, table)] is a parameter: [Some m] is [m, nil] and
    [None] an error (the expression does not compile). *)
Section MatchFilters.
Variable MatchString : bytes -> bytes -> option bool.

Definition filter_matches (table f : bytes) : bool :=
  match MatchString f table with Some m => m | None => false end.

Fixpoint match_loop (filters : list bytes) (table : bytes) : bool :=
  match filters with
  | [] => false
  | f :: fs => if filter_matches table f then true else match_loop fs table
  end.

Definition MatchFilters (filters : list bytes) (table : bytes) : bool :=
  if len filters <=? 0 then true else match_loop filters table.
End MatchFilters.

(** ** The client's side *)
Definition client_pack (cmd : Z) (content : bytes) : bytes :=
  let l := len content + 2 in
  [Z_byte l; Z_byte (Z.shiftr l 8); Z_byte (Z.shiftr l 16); Z_byte (Z.shiftr l 32);
   Z_byte cmd; Z_byte (Z.shiftr cmd 8)] ++ content.

Definition client_setPro (content : bytes) : bytes :=
  let l := len content + 3 in
  [Z_byte l; Z_byte (Z.shiftr l 8); Z_byte (Z.shiftr l 16); Z_byte (Z.shiftr l 32);
   Z_byte CMD_SET_PRO; Z_byte (Z.shiftr CMD_SET_PRO 8); Z_byte 0] ++ content.

(** ** Headers as little-endian words *)
Lemma word32_val b0 b1 b2 b3 : word32 b0 b1 b2 b3 = le_val [b0; b1; b2; b3].
Proof.
  pose proof (byte_Z_range b0). pose proof (byte_Z_range b1).
  pose proof (byte_Z_range b2). pose proof (byte_Z_range b3).
  unfold word32. rewrite (lor_shiftl_add (byte_Z b0)) by lia.
  rewrite (lor_shiftl_add (byte_Z b0 + _)) by lia.
  rewrite (lor_shiftl_add (byte_Z b0 + _ + _)) by lia. simpl le_val. lia.
Qed.

Lemma word16_val b0 b1 : word16 b0 b1 = le_val [b0; b1].
Proof.
  pose proof (byte_Z_range b0). pose proof (byte_Z_range b1).
  unfold word16. rewrite lor_shiftl_add; simpl le_val; lia.
Qed.

Lemma word32_range b0 b1 b2 b3 : 0 <= word32 b0 b1 b2 b3 < 2 ^ 32.
Proof. rewrite word32_val. apply (le_val_range [b0; b1; b2; b3]). Qed.

Lemma Pack_le cmd msg : Pack cmd msg = le_bytes 4 (len msg + 2) ++ le_bytes 2 cmd ++ msg.
Proof. unfold Pack. simpl. rewrite !Z.shiftr_shiftr by lia. done. Qed.

Lemma Pack_length cmd msg : length (Pack cmd msg) = (length msg + 6)%nat.
Proof. unfold Pack. rewrite length_app. simpl. lia. Qed.

(** ** Reading a header back *)
Lemma read_clen_cons b0 b1 b2 b3 d :
  read_clen (b0 :: b1 :: b2 :: b3 :: d) = Ret (word32 b0 b1 b2 b3).
Proof. reflexivity. Qed.

Lemma read_cmd_cons b0 b1 b2 b3 b4 b5 d :
  read_cmd (b0 :: b1 :: b2 :: b3 :: b4 :: b5 :: d) = Ret (word16 b4 b5).
Proof. reflexivity. Qed.

Lemma read_clen_le n rest : read_clen (le_bytes 4 n ++ rest) = Ret (n mod 2 ^ 32).
Proof.
  pose proof (le_val_le_bytes 4 n) as E. cbn [le_bytes] in E.
  cbn [le_bytes app]. by rewrite read_clen_cons, word32_val, E.
Qed.

Lemma read_cmd_le h n rest :
  length h = 4%nat -> read_cmd (h ++ le_bytes 2 n ++ rest) = Ret (n mod 2 ^ 16).
Proof.
  intros Hl. destruct h as [|? [|? [|? [|? [|]]]]]; try done.
  pose proof (le_val_le_bytes 2 n) as E. cbn [le_bytes] in E.
  cbn [le_bytes app]. by rewrite read_cmd_cons, word16_val, E.
Qed.

Lemma sub_middle {A} (h m r : list A) i j :
  i = len h -> j = len h + len m -> sub (h ++ m ++ r) i j = Ret m.
Proof.
  intros -> ->. unfold sub, len. rewrite !length_app.
  destruct (_ && _ && _) eqn:E.
  - f_equal. replace (Z.to_nat _) with (length m) by lia. rewrite Nat2Z.id.
    by rewrite drop_app_length, take_app_length.
  - exfalso. lia.
Qed.

Lemma sub_suffix {A} (h r : list A) k : k = len h -> sub (h ++ r) k (len (h ++ r)) = Ret r.
Proof.
  intros ->. rewrite <- (app_nil_r r) at 1. apply sub_middle; [done|].
  unfold len. rewrite length_app. lia.
Qed.

Lemma read_clen_short data : (length data < 4)%nat -> read_clen data = Panic.
Proof. destruct data as [|? [|? [|? [|]]]]; simpl; try done; lia. Qed.

Lemma read_clen_ret data :
  (4 <= length data)%nat -> exists n, read_clen data = Ret n /\ 0 <= n < 2 ^ 32.
Proof.
  destruct data as [|b0 [|b1 [|b2 [|b3 d]]]]; simpl; try lia. intros _.
  rewrite read_clen_cons. eexists. split; [reflexivity|]. apply word32_range.
Qed.

Lemma read_cmd_ret data :
  (6 <= length data)%nat -> exists n, read_cmd data = Ret n /\ 0 <= n < 2 ^ 16.
Proof.
  destruct data as [|b0 [|b1 [|b2 [|b3 [|b4 [|b5 d]]]]]]; simpl; try lia. intros _.
  rewrite read_cmd_cons. eexists. split; [reflexivity|]. rewrite word16_val. apply (le_val_range [b4; b5]).
Qed.

Lemma read_cmd_short data : (length data < 6)%nat -> read_cmd data = Panic.
Proof. destruct data as [|? [|? [|? [|? [|? [|]]]]]]; simpl; try done; lia. Qed.

Lemma read_clen_app data rest :
  (4 <= length data)%nat -> read_clen (data ++ rest) = read_clen data.
Proof. destruct data as [|? [|? [|? [|]]]]; simpl; try lia. done. Qed.

Lemma read_cmd_app data rest :
  (6 <= length data)%nat -> read_cmd (data ++ rest) = read_cmd data.
Proof. destruct data as [|? [|? [|? [|? [|? [|]]]]]]; simpl; try lia. done. Qed.

Lemma PackPro_Pack flag content : PackPro flag content = Pack CMD_SET_PRO (Z_byte flag :: content).
Proof.
  unfold PackPro, Pack. replace (len (Z_byte flag :: content) + 2) with (len content + 3); [done|].
  unfold len. simpl length. lia.
Qed.

Lemma hasCmd_range cmd : hasCmd cmd = true -> 0 <= cmd < 10.
Proof. unfold hasCmd, CMD_SET_PRO, CMD_AUTH, CMD_ERROR, CMD_TICK, CMD_EVENT, CMD_AGENT,
  CMD_STOP, CMD_RELOAD, CMD_SHOW_MEMBERS, CMD_POS. lia. Qed.

(** A packet at the front of a buffer, whatever follows it. *)
Lemma Pack_header cmd msg rest :
  0 <= cmd < 2 ^ 16 -> len msg + 2 < 2 ^ 32 ->
  read_clen (Pack cmd msg ++ rest) = Ret (len msg + 2) /\
  read_cmd (Pack cmd msg ++ rest) = Ret cmd /\
  sub (Pack cmd msg ++ rest) 6 (len msg + 2 + 4) = Ret msg.
Proof.
  intros Hc Hm. rewrite Pack_le. split_and!.
  - rewrite <- app_assoc, read_clen_le. f_equal. apply Z.mod_small. unfold len in *. lia.
  - rewrite <- !app_assoc, read_cmd_le by apply le_bytes_length. f_equal. by apply Z.mod_small.
  - rewrite app_assoc, <- app_assoc. apply sub_middle;
      unfold len; rewrite length_app, !le_bytes_length; lia.
Qed.

(** The beginning of a packet that has not arrived in full: too short for a
    header, or with a length field that asks for more. *)
Lemma Pack_incomplete cmd msg rest t more :
  0 <= cmd < 2 ^ 16 -> len msg + 2 < 2 ^ 32 ->
  t ++ more = Pack cmd msg ++ rest -> (length t < length (Pack cmd msg))%nat ->
  len t < 6 \/ exists clen, read_clen t = Ret clen /\ len t < clen + 4.
Proof.
  intros Hc Hm E Hl. unfold len at 1. destruct (decide (length t < 6)%nat) as [H6|H6]; [left; lia|].
  right. destruct (Pack_header cmd msg rest Hc Hm) as (E1 & _).
  rewrite <- E, read_clen_app in E1 by lia. eexists. split; [exact E1|].
  rewrite Pack_length in Hl. unfold len in *. lia.
Qed.

(** ... and its command, as soon as there is one. *)
Lemma Pack_incomplete_cmd cmd msg rest t more :
  0 <= cmd < 2 ^ 16 -> len msg + 2 < 2 ^ 32 ->
  t ++ more = Pack cmd msg ++ rest -> 6 <= len t -> read_cmd t = Ret cmd.
Proof.
  intros Hc Hm E Hl. destruct (Pack_header cmd msg rest Hc Hm) as (_ & E2 & _).
  rewrite <- E, read_cmd_app in E2; [done|]. unfold len in Hl. lia.
Qed.

(** ** Correctness *)

Lemma Unpack_app cmd msg rest :
  0 <= cmd < 2 ^ 16 -> len msg + 2 < 2 ^ 32 ->
  Unpack (Pack cmd msg ++ rest) = Ret (cmd, msg, None).
Proof.
  intros Hc Hm. destruct (Pack_header cmd msg rest Hc Hm) as (E1 & E2 & E3).
  unfold Unpack. rewrite E1. cbn [obind]. destruct (Z.ltb_spec (len (Pack cmd msg ++ rest)) (len msg + 2 + 4)) as [Hlt|_].
  - unfold len in Hlt. rewrite length_app, Pack_length in Hlt. lia.
  - rewrite E2. cbn [obind]. by rewrite E3.
Qed.

(** [Unpack] inverts [Pack] for every 16-bit command and every payload
    whose length field does not overflow, and ignores whatever bytes follow
    the packet in the same buffer. *)
Theorem Unpack_Pack cmd msg rest :
  0 <= cmd < 2 ^ 16 -> len msg + 2 < 2 ^ 32 ->
  Unpack (Pack cmd msg ++ rest) = Ret (cmd, msg, None).
Proof. apply Unpack_app. Qed.

Lemma Unpack_Pack_witness :
  Unpack (Pack CMD_POS [Byte.x61; Byte.x62] ++ [Byte.xff]) = Ret (CMD_POS, [Byte.x61; Byte.x62], None).
Proof. apply (Unpack_Pack CMD_POS [Byte.x61; Byte.x62] [Byte.xff]); vm_compute; intuition congruence. Defined.

(** [Unpack] crashes the calling goroutine exactly on inputs shorter than
    the length field, and on inputs whose length field is below 2 (it does not
    even cover the command) yet complete; on all other inputs it returns. *)
Theorem Unpack_panics_iff data :
  Unpack data = Panic <->
  (length data < 4)%nat \/
  exists clen, read_clen data = Ret clen /\ clen < 2 /\ clen + 4 <= len data.
Proof.
  destruct (decide (length data < 4)%nat) as [Hs|Hs].
  { unfold Unpack. rewrite read_clen_short by done. simpl. tauto. }
  destruct (read_clen_ret data) as (n & En & Hn); [lia|].
  unfold Unpack. rewrite En. cbn [obind]. unfold len.
  destruct (Z.ltb_spec (Z.of_nat (length data)) (n + 4)) as [Hlt|Hge].
  { split; [done|]. intros [?|(c & Hc & ? & ?)]; [lia|]. simplify_eq. lia. }
  destruct (decide (length data < 6)%nat) as [H6|H6].
  { rewrite read_cmd_short by done. cbn [obind]. split; [|done]. intros _. right. exists n. split_and!; [done|lia..]. }
  destruct (read_cmd_ret data) as (c & Ec & _); [lia|]. rewrite Ec. cbn [obind]. unfold sub.
  destruct (_ && _ && _) eqn:E; simpl.
  - split; [done|]. intros [?|(c' & Hc & ? & ?)]; [lia|]. simplify_eq. lia.
  - split; [|done]. intros _. right. exists n. split_and!; [done|lia..].
Qed.

Lemma match_loop_spec MatchString fs table :
  match_loop MatchString fs table = true <->
  exists f, f ∈ fs /\ MatchString f table = Some true.
Proof.
  induction fs as [|f fs IH]; simpl.
  - split; [done|]. by intros (f & ?%not_elem_of_nil & _).
  - setoid_rewrite elem_of_cons. unfold filter_matches.
    destruct (MatchString f table) as [[]|] eqn:E; rewrite ?IH; clear IH; naive_solver.
Qed.

(** The filter of a subscriber accepts a table when it has no topics at
    all, or when one of its topics compiles and matches. *)
Lemma MatchFilters_spec (MatchString : bytes -> bytes -> option bool) filters table :
  MatchFilters MatchString filters table = true <->
  filters = [] \/ exists f, f ∈ filters /\ MatchString f table = Some true.
Proof.
  unfold MatchFilters, len. destruct filters as [|f0 fs]; [simpl; tauto|].
  destruct (Z.leb_spec (Z.of_nat (length (f0 :: fs))) 0); [simpl in *; lia|].
  rewrite match_loop_spec. split; [by right|]. intros [?|?]; done.
Qed.

(** The client's own packers agree with the server's [Pack] exactly while
    the length fits in three bytes: the fourth length byte is taken from bit
    32 instead of bit 24. *)
Theorem client_pack_agrees cmd content :
  len content + 2 < 2 ^ 32 ->
  client_pack cmd content = Pack cmd content <-> len content + 2 < 2 ^ 24.
Proof.
  intros Hl. unfold client_pack, Pack. set (l := len content + 2) in *.
  assert (0 <= l) by (unfold l, len; lia).
  assert (E32 : Z.shiftr l 32 = 0) by (rewrite Z.shiftr_div_pow2 by lia; apply Z.div_small; lia).
  rewrite E32. split.
  - intros [= E]. apply (f_equal byte_Z) in E. rewrite !byte_Z_Z_byte in E.
    rewrite Z.shiftr_div_pow2 in E by lia.
    assert (0 <= l / 2 ^ 24 < 256)
      by (split; [apply Z.div_pos|apply Z.div_lt_upper_bound]; lia).
    rewrite (Z.mod_small (l / _)), Z.mod_0_l in E by lia.
    symmetry in E. apply Z.div_small_iff in E; lia.
  - intros Hlt. rewrite (Z.shiftr_div_pow2 l 24), Z.div_small by lia. done.
Qed.

Lemma client_pack_agrees_witness :
  client_pack CMD_SET_PRO (gostr "topic") = Pack CMD_SET_PRO (gostr "topic") <->
  len (gostr "topic") + 2 < 2 ^ 24.
Proof. apply (client_pack_agrees CMD_SET_PRO (gostr "topic")). vm_compute. congruence. Defined.
