(* ===== verification/SubNode.v ===== *)
(** * A subscriber's connection on the server

    [src/services/service_tcpnode.go] and the data of
    [src/services/service_config.go]: the node, its receive buffer, its send
    queue, its topics, its life cycle.  The methods act on a host state [W]
    through the interface [NodeHost]: where nodes live and what the close
    callbacks do is the host's business ([SubGroups.v] implements it).

    Methods run to completion one after another; a channel operation that
    cannot proceed is [Block].  Timestamps, deadlines and logging are left
    out. *)
From S2P Require Import Prelude.
From S2P Require Import GoSem.
From S2P Require Import Framing.
From S2P Require Import Frame.

(** ** Data *)
Definition tcpMaxSendQueue : Z := 10000000.
Definition tcpNodeOnline : Z := 1.

Record node := mkNode {
  conn : nat;                (* the accepted connection *)
  sendQueue : list bytes;    (* the channel's buffer *)
  queueClosed : bool;        (* close(sendQueue) was called *)
  sendFailureTimes : Z;
  topics : list bytes;
  recvBuf : bytes;
  connectTime : Z;
  status : Z;
  connClosed : bool;
  writes : list bytes        (* what was written to the connection, in order *)
}.

Definition with_recvBuf (b : bytes) (n : node) : node :=
  mkNode (conn n) (sendQueue n) (queueClosed n) (sendFailureTimes n) (topics n) b
         (connectTime n) (status n) (connClosed n) (writes n).
Definition with_topics (t : list bytes) (n : node) : node :=
  mkNode (conn n) (sendQueue n) (queueClosed n) (sendFailureTimes n) t (recvBuf n)
         (connectTime n) (status n) (connClosed n) (writes n).
Definition with_queue (q : list bytes) (n : node) : node :=
  mkNode (conn n) q (queueClosed n) (sendFailureTimes n) (topics n) (recvBuf n)
         (connectTime n) (status n) (connClosed n) (writes n).
Definition with_failure (n : node) : node :=
  mkNode (conn n) (sendQueue n) (queueClosed n) (s64 (sendFailureTimes n + 1)) (topics n)
         (recvBuf n) (connectTime n) (status n) (connClosed n) (writes n).
Definition with_write (d : bytes) (n : node) : node :=
  mkNode (conn n) (sendQueue n) (queueClosed n) (sendFailureTimes n) (topics n) (recvBuf n)
         (connectTime n) (status n) (connClosed n)
         (if connClosed n then writes n else writes n ++ [d]).
(** [status ^= tcpNodeOnline; conn.Close()] *)
Definition with_offline (n : node) : node :=
  mkNode (conn n) (sendQueue n) (queueClosed n) (sendFailureTimes n) (topics n) (recvBuf n)
         (connectTime n) (Z.lxor (status n) tcpNodeOnline) true (writes n).
(** [close(sendQueue)] *)
Definition with_closed_queue (n : node) : node :=
  mkNode (conn n) (sendQueue n) true (sendFailureTimes n) (topics n) (recvBuf n)
         (connectTime n) (status n) (connClosed n) (writes n).

(** A node as [newNode] builds it. *)
Definition new_node (c : nat) (now : Z) : node :=
  mkNode c [] false 0 [] [] now tcpNodeOnline false [].

(** ** The host of the nodes *)
Class NodeHost (W : Type) := {
  node_of : W -> nat -> option node;
  put_node : nat -> node -> W -> W;
  onclose : nat -> M W unit      (* the callbacks registered with NodeClose *)
}.

Class NodeHostLaws W `{NodeHost W} := {
  node_put_eq w i n : node_of (put_node i n w) i = Some n;
  node_put_ne w i j n : i <> j -> node_of (put_node i n w) j = node_of w j;
  onclose_ret w i : is_Some (node_of w i) ->
    exists w', onclose i w = (w', Ret tt) /\ forall j, node_of w' j = node_of w j;
  onclose_terminates i : terminates (onclose i)
}.

(** ** Topics *)
Definition is_space (b : byte) : bool := byte_Z b =? 32.
Fixpoint trim_left (s : bytes) : bytes :=
  match s with
  | b :: s' => if is_space b then trim_left s' else s
  | [] => []
  end.
(** [strings.Trim(s, " ")] *)
Definition Trim (s : bytes) : bytes := rev (trim_left (rev (trim_left s))).

Definition is_ascii (s : bytes) : bool := forallb (fun b => byte_Z b <? 128) s.
Definition lower_ascii (b : byte) : byte :=
  if (65 <=? byte_Z b) && (byte_Z b <=? 90) then Z_byte (byte_Z b + 32) else b.

Definition packDataTickOk : bytes := Pack CMD_TICK (gostr "ok").
Definition packDataSetPro : bytes := Pack CMD_SET_PRO (gostr "ok").
(** [fmt.Sprintf("tcp service does not support cmd: %d", cmd)] *)
Definition unsupported (cmd : Z) : bytes :=
  gostr ("tcp service does not support cmd: " +:+ pretty.pretty cmd).

Section Node.
Context `{NodeHost W}.
(** [unicode.ToLower] over a string that is not pure ASCII. *)
Variable unicode_lower : bytes -> bytes.

Definition ToLower (s : bytes) : bytes :=
  if is_ascii s then map lower_ascii s else unicode_lower s.

Fixpoint has_topic (ts : list bytes) (topic : bytes) : bool :=
  match ts with
  | [] => false
  | v :: ts => if decide (v = topic) then true else has_topic ts topic
  end.

Definition addTopic (topic : bytes) (n : node) : node :=
  let topic := ToLower (Trim topic) in
  if has_topic (topics n) topic then n else with_topics (topics n ++ [topic]) n.

(** Dereferencing the node. *)
Definition the_node (i : nat) : M W node := fun w =>
  match node_of w i with Some n => (w, Ret n) | None => (w, Panic) end.
Definition upd_node (i : nat) (f : node -> node) : M W unit :=
  let! n := the_node i in modify (put_node i (f n)).

Definition online (n : node) : bool := negb (Z.land (status n) tcpNodeOnline <=? 0).

(** [close(sendQueue)] panics on a channel that is closed already. *)
Definition close_queue (i : nat) : M W unit :=
  let! n := the_node i in
  if queueClosed n then lift Panic else upd_node i with_closed_queue.

Definition close (i : nat) : M W unit :=
  let! n := the_node i in
  if negb (online n) then ret tt
  else
    (if 0 <? Z.land (status n) tcpNodeOnline
     then upd_node i with_offline ;; close_queue i
     else ret tt) ;;
    onclose i.

Definition send (i : nat) (data : bytes) : M W unit := upd_node i (with_write data).

(** [sendQueue <- data] when the buffer has room. *)
Definition chan_send (i : nat) (data : bytes) : M W unit :=
  let! n := the_node i in
  if queueClosed n then lift Panic
  else upd_node i (with_queue (sendQueue n ++ [data])).

(** A full queue is polled for ever. *)
Definition asyncSend (i : nat) (data : bytes) : M W unit :=
  let! n := the_node i in
  if negb (online n) then ret tt
  else if len (sendQueue n) <? tcpMaxSendQueue then chan_send i data
  else lift Block.

Definition onSetPro (i : nat) (groupName : bytes) : M W unit :=
  send i packDataSetPro ;; upd_node i (addTopic groupName).

Definition onSetProEvent (i : nat) (data : bytes) : M W unit :=
  let! flag := lift (index data 0) in
  let! content := lift (sub data 1 (len data)) in
  if byte_Z flag =? FlagSetPro then onSetPro i content
  else if byte_Z flag =? FlagPing then send i packDataSetPro ;; close i
  else close i.

(** [recvBuf = append(recvBuf[:0], recvBuf[k:]...)] *)
Definition consume (i : nat) (k : Z) : M W unit :=
  let! n := the_node i in
  let! rest := lift (sub (recvBuf n) k (len (recvBuf n))) in
  upd_node i (with_recvBuf rest).

Fixpoint onMessage_loop (fuel : nat) (i : nat) : M W unit :=
  match fuel with
  | O => lift OutOfFuel
  | S fuel =>
      let! n := the_node i in
      if len (recvBuf n) <? 6 then ret tt else
      let! clen := lift (read_clen (recvBuf n)) in
      if len (recvBuf n) <? clen + 4 then ret tt else
      let! cmd := lift (read_cmd (recvBuf n)) in
      if negb (hasCmd cmd) then upd_node i (with_recvBuf []) else
      let! content := lift (sub (recvBuf n) 6 (clen + 4)) in
      if cmd =? CMD_SET_PRO then
        onSetProEvent i content ;; consume i (clen + 4) ;; onMessage_loop fuel i
      else if cmd =? CMD_TICK then
        asyncSend i packDataTickOk ;; consume i (clen + 4) ;; onMessage_loop fuel i
      else
        asyncSend i (Pack CMD_ERROR (unsupported cmd)) ;; upd_node i (with_recvBuf [])
  end.

(** Every round removes at least six bytes, so one round per byte is enough. *)
Definition onMessage (i : nat) (msg : bytes) : M W unit :=
  upd_node i (fun n => with_recvBuf (recvBuf n ++ msg) n) ;;
  let! n := the_node i in
  onMessage_loop (S (length (recvBuf n))) i.

(** One turn of [onConnect]'s loop: what [Read] returned ([None] an error);
    [true] when the loop goes on. *)
Definition onConnect_turn (i : nat) (r : option bytes) : M W bool :=
  match r with
  | None => close i ;; ret false
  | Some chunk => onMessage i chunk ;; ret true
  end.

(** One turn of [asyncSendService]'s loop: which case [select] took, and
    what [Write] returned for the message ([None] an error). *)
Inductive select_case := SelMsg (written : option nat) | SelDone.

Definition asyncSendService_turn (i : nat) (c : select_case) : M W bool :=
  let! n := the_node i in
  if negb (online n) then ret false else
  match c with
  | SelMsg wr =>
      match sendQueue n with
      | [] => if queueClosed n then ret false else lift Block
      | msg :: q =>
          upd_node i (with_queue q) ;;
          match wr with
          | None => upd_node i with_failure ;; close i ;; ret false
          | Some size => upd_node i (with_write (take size msg)) ;; ret true
          end
      end
  | SelDone => ret (negb (len (sendQueue n) <=? 0))
  end.
End Node.

(** ** Running a method on a node that exists *)
Section Steps.
Context `{NodeHostLaws W}.
Implicit Types (w : W) (n : node) (i : nat).

Lemma bind_the_node {B} (k : node -> M W B) w i n :
  node_of w i = Some n -> bind (the_node i) k w = k n w.
Proof. intros E. unfold bind, the_node. by rewrite E. Qed.

Lemma upd_node_eq w i n f :
  node_of w i = Some n -> upd_node i f w = (put_node i (f n) w, Ret tt).
Proof. intros E. unfold upd_node. by rewrite (bind_the_node _ _ _ _ E). Qed.

Lemma bind_upd_node {B} (k : unit -> M W B) w i n f :
  node_of w i = Some n -> bind (upd_node i f) k w = k tt (put_node i (f n) w).
Proof. intros E. by rewrite (bind_ret _ _ _ _ _ (upd_node_eq _ _ _ f E)). Qed.

Lemma online_open n : online n = true -> (0 <? Z.land (status n) tcpNodeOnline) = true.
Proof. unfold online. lia. Qed.

(** [close] on an online node whose channel is open. *)
Lemma close_eq w i n :
  node_of w i = Some n -> online n = true -> queueClosed n = false ->
  exists w', close i w = (w', Ret tt) /\
    node_of w' i = Some (with_closed_queue (with_offline n)) /\
    forall j, i <> j -> node_of w' j = node_of w j.
Proof.
  intros En Ho Hq. unfold close. rewrite (bind_the_node _ _ _ _ En), Ho, (online_open _ Ho).
  cbn [negb]. set (w1 := put_node i (with_offline n) w).
  assert (E1 : node_of w1 i = Some (with_offline n)) by apply node_put_eq.
  set (w2 := put_node i (with_closed_queue (with_offline n)) w1).
  assert (E2 : node_of w2 i = Some (with_closed_queue (with_offline n))) by apply node_put_eq.
  destruct (onclose_ret w2 i) as (w3 & Ec & Hs); [by eexists|].
  exists w3. split_and!.
  - erewrite bind_ret; [exact Ec|].
    rewrite (bind_upd_node _ _ _ _ _ En). cbv beta. fold w1. unfold close_queue.
    rewrite (bind_the_node _ _ _ _ E1). simpl. rewrite Hq. by apply upd_node_eq.
  - by rewrite Hs.
  - intros j Hj. rewrite Hs. unfold w2, w1. by rewrite !node_put_ne.
Qed.

Lemma close_offline w i n :
  node_of w i = Some n -> online n = false -> close i w = (w, Ret tt).
Proof. intros En Ho. unfold close. by rewrite (bind_the_node _ _ _ _ En), Ho. Qed.

Lemma asyncSend_online w i n d :
  node_of w i = Some n -> online n = true -> queueClosed n = false ->
  len (sendQueue n) < tcpMaxSendQueue ->
  asyncSend i d w = (put_node i (with_queue (sendQueue n ++ [d]) n) w, Ret tt).
Proof.
  intros En Ho Hq Hl. unfold asyncSend, chan_send.
  rewrite (bind_the_node _ _ _ _ En), Ho. simpl.
  rewrite (proj2 (Z.ltb_lt _ _) Hl), (bind_the_node _ _ _ _ En), Hq.
  by apply upd_node_eq.
Qed.

Lemma consume_eq w i n h r k :
  node_of w i = Some n -> recvBuf n = h ++ r -> k = len h ->
  consume i k w = (put_node i (with_recvBuf r n) w, Ret tt).
Proof.
  intros En Eb ->. unfold consume. rewrite (bind_the_node _ _ _ _ En), Eb.
  rewrite sub_suffix by done. erewrite bind_ret; [|reflexivity]. by apply upd_node_eq.
Qed.
End Steps.

(** ** What the methods preserve *)

(** The elementary writes of the methods to a node, apart from the receive
    buffer's and those of [close]. *)
Inductive node_step : node -> node -> Prop :=
  | step_same n : node_step n n
  | step_topic t n : has_topic (topics n) t = false ->
      node_step n (with_topics (topics n ++ [t]) n)
  | step_write d n : node_step n (with_write d n)
  | step_push d n : online n = true -> queueClosed n = false ->
      node_step n (with_queue (sendQueue n ++ [d]) n)
  | step_pop m q n : online n = true -> sendQueue n = m :: q ->
      node_step n (with_queue q n)
  | step_fail n : node_step n (with_failure n).

(** Invariants of the host state the methods keep. *)
Record kept `{NodeHost W} (I : W -> Prop) : Prop := {
  kept_step w i n n' : I w -> node_of w i = Some n -> node_step n n' -> I (put_node i n' w);
  kept_close i : preserves I (close i)
}.
Definition kept_recv `{NodeHost W} (I : W -> Prop) : Prop :=
  forall w i n b, I w -> node_of w i = Some n -> I (put_node i (with_recvBuf b n) w).

(** What can happen to a node. *)
Inductive node_event :=
  | EvRead (r : option bytes)      (* its reader got these bytes, or an error *)
  | EvSend (data : bytes)          (* the service queues a message for it *)
  | EvService (c : select_case)    (* its sender goroutine makes a turn *)
  | EvClose.                       (* the service closes it *)

Section Events.
Context `{NodeHostLaws W} (unicode_lower : bytes -> bytes).

Definition on_event (i : nat) (e : node_event) : M W unit :=
  match e with
  | EvRead r => onConnect_turn unicode_lower i r ;; ret tt
  | EvSend data => asyncSend i data
  | EvService c => asyncSendService_turn i c ;; ret tt
  | EvClose => close i
  end.

Context (I : W -> Prop) (HI : kept I) (HR : kept_recv I).

Lemma preserves_read i : preserves I (the_node i).
Proof. intros w Hw. unfold the_node. by destruct (node_of w i). Qed.

Lemma preserves_upd i f :
  (forall w n, I w -> node_of w i = Some n -> I (put_node i (f n) w)) ->
  preserves I (upd_node i f).
Proof.
  intros Hf w Hw. destruct (node_of w i) as [n|] eqn:En.
  - rewrite (upd_node_eq _ _ _ _ En). by apply Hf.
  - unfold upd_node, bind, the_node. by rewrite En.
Qed.

(** Reading the node gives its value in the current state. *)
Lemma preserves_the_node {B} i (k : node -> M W B) :
  (forall w n, I w -> node_of w i = Some n -> I (fst (k n w))) ->
  preserves I (bind (the_node i) k).
Proof.
  intros Hk w Hw. destruct (node_of w i) as [n|] eqn:En.
  - rewrite (bind_the_node _ _ _ _ En). by apply Hk.
  - unfold bind, the_node. by rewrite En.
Qed.

Lemma preserves_asyncSend i d : preserves I (asyncSend i d).
Proof.
  apply preserves_the_node. intros w n Hw En.
  destruct (online n) eqn:Ho; simpl; [|done].
  destruct (_ <? _); [|done]. unfold chan_send. rewrite (bind_the_node _ _ _ _ En).
  destruct (queueClosed n) eqn:Hq; [done|].
  rewrite (upd_node_eq _ _ _ _ En). simpl. eapply kept_step; eauto. by constructor.
Qed.

Lemma preserves_recvBuf i b : preserves I (upd_node i (with_recvBuf b)).
Proof. apply preserves_upd. intros w n. apply HR. Qed.

Lemma preserves_send i d : preserves I (send i d).
Proof. apply preserves_upd. intros w n Hw En. eapply kept_step; eauto. constructor. Qed.

Lemma preserves_addTopic i t : preserves I (upd_node i (addTopic unicode_lower t)).
Proof.
  apply preserves_upd. intros w n Hw En. unfold addTopic.
  destruct (has_topic _ _) eqn:E.
  - eapply kept_step; eauto. constructor.
  - eapply kept_step; eauto. by constructor.
Qed.

Lemma preserves_consume i k : preserves I (consume i k).
Proof.
  apply preserves_bind; [apply preserves_read|].
  intros n. apply preserves_bind; auto using preserves_lift, preserves_recvBuf.
Qed.

#[local] Hint Resolve preserves_read preserves_asyncSend preserves_recvBuf
  preserves_send preserves_addTopic preserves_consume kept_close : go.

Lemma preserves_onSetProEvent i data : preserves I (onSetProEvent unicode_lower i data).
Proof. unfold onSetProEvent, onSetPro. eauto 12 with go. Qed.
#[local] Hint Resolve preserves_onSetProEvent : go.

Lemma preserves_onMessage_loop fuel i : preserves I (onMessage_loop unicode_lower fuel i).
Proof.
  induction fuel as [|fuel IH]; simpl; [apply preserves_lift|].
  apply preserves_bind; [apply preserves_read|]. intros n.
  apply preserves_if; [apply preserves_ret|].
  apply preserves_bind; [apply preserves_lift|]. intros clen.
  apply preserves_if; [apply preserves_ret|].
  apply preserves_bind; [apply preserves_lift|]. intros cmd.
  apply preserves_if; [auto with go|].
  apply preserves_bind; [apply preserves_lift|]. intros content.
  repeat apply preserves_if; auto with go.
Qed.

Lemma preserves_onMessage i msg : preserves I (onMessage unicode_lower i msg).
Proof.
  unfold onMessage. apply preserves_bind.
  - apply preserves_upd. intros w n. apply HR.
  - intros _. apply preserves_bind; auto using preserves_read, preserves_onMessage_loop.
Qed.

Lemma preserves_asyncSendService_turn i c : preserves I (asyncSendService_turn i c).
Proof.
  apply preserves_the_node. intros w n Hw En.
  destruct (online n) eqn:Ho; simpl; [|done].
  destruct c as [wr|]; [|done].
  destruct (sendQueue n) as [|m q] eqn:Eq; [by destruct (queueClosed n)|].
  rewrite (bind_upd_node _ _ _ _ _ En).
  assert (Hq : I (put_node i (with_queue q n) w)) by (eapply kept_step; eauto; by econstructor).
  destruct wr as [size|].
  - eapply preserves_bind; [|intros; apply preserves_ret|exact Hq].
    apply preserves_upd. intros. eapply kept_step; eauto. constructor.
  - eapply preserves_bind; [| |exact Hq].
    + apply preserves_upd. intros. eapply kept_step; eauto. constructor.
    + auto with go.
Qed.

(** Whatever happens to a node keeps the invariant, a crash of the handler
    included. *)
Lemma preserves_on_event i e : preserves I (on_event i e).
Proof.
  destruct e as [[chunk|]|d|c|]; simpl;
    auto 6 using preserves_onMessage, preserves_asyncSendService_turn with go.
Qed.
End Events.

(** Invariants of a single node. *)
Definition node_inv `{NodeHost W} (i : nat) (N : node -> Prop) (w : W) : Prop :=
  exists n, node_of w i = Some n /\ N n.

Record stable (N : node -> Prop) : Prop := {
  st_step n n' : N n -> node_step n n' -> N n';
  st_offline n : N n -> online n = true -> queueClosed n = true -> N (with_offline n);
  st_close n : N n -> online n = true -> queueClosed n = false ->
               N (with_closed_queue (with_offline n))
}.

Section NodeInv.
Context {W} {HW : NodeHost W} {HL : NodeHostLaws W}.
Context (N : node -> Prop) (HN : stable N) (i : nat).

Lemma put_inv j w n n' :
  node_inv i N w -> node_of w j = Some n -> (N n -> N n') -> node_inv i N (put_node j n' w).
Proof.
  intros (m & Em & Hm) En Hn. unfold node_inv. destruct (decide (j = i)) as [->|Hne].
  - simplify_eq. exists n'. rewrite node_put_eq. auto.
  - exists m. by rewrite node_put_ne.
Qed.

Lemma kept_node_inv : kept (node_inv i N).
Proof.
  split.
  - intros w j n n' Hw En Hs. eapply put_inv; eauto. intros. by eapply st_step.
  - intros j. unfold close. apply preserves_the_node. intros w n Hw En.
    destruct (online n) eqn:Ho; simpl; [|done]. rewrite (online_open _ Ho).
    destruct (queueClosed n) eqn:Hq.
    + rewrite (bind_panic _ _ _ (put_node j (with_offline n) w)).
      { eapply put_inv; eauto. intros. by apply st_offline. }
      rewrite (bind_upd_node _ _ _ _ _ En). unfold close_queue.
      rewrite (bind_the_node _ _ _ (with_offline n)) by apply node_put_eq. simpl. by rewrite Hq.
    + destruct (close_eq w j n En Ho Hq) as (w' & E & E' & Hrest).
      unfold close in E. rewrite (bind_the_node _ _ _ _ En), Ho, (online_open _ Ho) in E.
      simpl in E. rewrite E. simpl. destruct Hw as (m & Em & Hm).
      destruct (decide (j = i)) as [->|Hne].
      * rewrite En in Em. injection Em as <-.
        exists (with_closed_queue (with_offline n)). split; [done|]. by apply st_close.
      * exists m. by rewrite Hrest.
Qed.

Lemma kept_recv_node_inv : (forall b n, N n -> N (with_recvBuf b n)) -> kept_recv (node_inv i N).
Proof. intros HR w j n b Hw En. eapply put_inv; eauto. Qed.
End NodeInv.

(** ** The life cycle of a node *)

(** Online with its channel and connection open, or offline with both closed. *)
Definition node_ok (n : node) : Prop :=
  (status n = tcpNodeOnline /\ queueClosed n = false /\ connClosed n = false) \/
  (status n = 0 /\ queueClosed n = true /\ connClosed n = true).

Lemma stable_node_ok : stable node_ok.
Proof.
  split; unfold node_ok; simpl.
  - intros n n' Hn Hs. destruct Hs; simpl; tauto.
  - intros n [(?&?&?)|(E&?&?)] Ho Hq; [congruence|].
    unfold online in Ho. by rewrite E in Ho.
  - intros n [(E&?&?)|(E&?&?)] ? ?; [|congruence]. right. by rewrite E.
Qed.

(** The observations on an offline node that can no longer change. *)
Definition silent (q ws : list bytes) (n : node) : Prop :=
  online n = false /\ connClosed n = true /\ sendQueue n = q /\ writes n = ws.

Lemma stable_silent q ws : stable (silent q ws).
Proof.
  unfold silent. split.
  - intros n n' (Ho & Hc & Hq & Hw) Hs. inversion Hs; subst; simpl; try congruence; try done.
    by rewrite Hc.
  - intros n (Ho & _) ?. congruence.
  - intros n (Ho & _) ?. congruence.
Qed.

Lemma has_topic_spec ts t : has_topic ts t = true <-> t ∈ ts.
Proof.
  induction ts as [|v ts IH]; simpl.
  - split; [done|]. by intros ?%not_elem_of_nil.
  - rewrite elem_of_cons. destruct (decide (v = t)); naive_solver.
Qed.

Lemma stable_NoDup_topics : stable (fun n => NoDup (topics n)).
Proof.
  split; try done. intros n n' Hd Hs. destruct Hs as [n|t n E|d n|d n|m q n|n]; simpl; try done.
  apply NoDup_app. split_and!; [done| |].
  - intros x Hx ->%list_elem_of_singleton. apply has_topic_spec in Hx. congruence.
  - apply NoDup_singleton.
Qed.

(** Events anywhere in the service: node [j] and what happens to it. *)
Section Properties.
Context {W} {HW : NodeHost W} {HL : NodeHostLaws W} (unicode_lower : bytes -> bytes).

(** A run of the service: which node, and what happens to it. *)
Definition run_events : list (nat * node_event) -> W -> W :=
  run (fun '(j, e) => on_event unicode_lower j e).

Lemma preserves_run_events I evs w :
  kept I -> kept_recv I -> I w -> I (run_events evs w).
Proof. intros HI HR. apply preserves_run. intros [j e]. by apply preserves_on_event. Qed.

Lemma events_stable N i evs w : stable N -> (forall b n, N n -> N (with_recvBuf b n)) ->
  node_inv i N w -> node_inv i N (run_events evs w).
Proof.
  intros HN HR. apply preserves_run_events; [by apply kept_node_inv|by apply kept_recv_node_inv].
Qed.

Lemma terminates_the_node i : terminates (the_node i).
Proof. intros w. unfold the_node. by destruct (node_of w i). Qed.
Lemma terminates_upd_node i f : terminates (upd_node i f).
Proof. unfold upd_node. apply terminates_bind; auto using terminates_the_node with go. Qed.
#[local] Hint Resolve terminates_the_node terminates_upd_node onclose_terminates : go.

Lemma terminates_close i : terminates (close i).
Proof. unfold close, close_queue. eauto 20 with go. Qed.
Lemma terminates_asyncSend i d : terminates (asyncSend i d).
Proof. unfold asyncSend, chan_send. eauto 20 with go. Qed.
#[local] Hint Resolve terminates_close terminates_asyncSend : go.
Lemma terminates_onSetProEvent i d : terminates (onSetProEvent unicode_lower i d).
Proof. unfold onSetProEvent, onSetPro, send. eauto 20 with go. Qed.

(** The handlers called between two reads of the buffer leave it alone. *)
Lemma stable_recvBuf b : stable (fun n => recvBuf n = b).
Proof. split; try done. intros n n' Hn Hs. by destruct Hs. Qed.

Lemma loop_terminates fuel : forall i w n,
  node_of w i = Some n -> (length (recvBuf n) < fuel)%nat ->
  snd (onMessage_loop unicode_lower fuel i w) <> OutOfFuel.
Proof.
  induction fuel as [|fuel IH]; intros i w n En Hl; [lia|]. simpl.
  rewrite (bind_the_node _ _ _ _ En).
  destruct (len (recvBuf n) <? 6) eqn:H6; [done|].
  assert (Hread : exists clen, read_clen (recvBuf n) = Ret clen /\ 0 <= clen < 2 ^ 32)
    by (apply read_clen_ret; unfold len in H6; lia).
  destruct Hread as (clen & Ec & Hc).
  erewrite bind_ret; [|unfold lift; by rewrite Ec].
  destruct (len (recvBuf n) <? clen + 4) eqn:Hlen; [done|].
  destruct (read_cmd_ret (recvBuf n)) as (cmd & Em & _); [unfold len in H6; lia|].
  erewrite bind_ret; [|unfold lift; by rewrite Em].
  destruct (negb (hasCmd cmd)); [apply terminates_upd_node|].
  unfold bind at 1, lift at 1. destruct (sub (recvBuf n) 6 (clen + 4)) as [content| | |] eqn:Es;
    try done; [|by apply sub_fuel in Es].
  assert (Hrest : forall m : M W unit, terminates m ->
            preserves (node_inv i (fun x => recvBuf x = recvBuf n)) m ->
            snd ((m ;; consume i (clen + 4) ;; onMessage_loop unicode_lower fuel i) w) <> OutOfFuel).
  { intros m Ht Hp. specialize (Ht w). specialize (Hp w ltac:(by exists n)). unfold bind at 1.
    destruct (m w) as [w1 [[]| | |]]; try done. destruct Hp as (n1 & E1 & Hb).
    simpl in E1, Ht. rewrite <- (take_drop (Z.to_nat (clen + 4)) (recvBuf n)) in Hb.
    erewrite bind_ret; [|eapply consume_eq; [exact E1|exact Hb|]].
    - eapply IH; [apply node_put_eq|]. simpl. rewrite length_drop. unfold len in *. lia.
    - unfold len in *. rewrite length_take. lia. }
  destruct (cmd =? CMD_SET_PRO); [|destruct (cmd =? CMD_TICK)].
  - apply Hrest; [apply terminates_onSetProEvent|].
    apply preserves_onSetProEvent, kept_node_inv, stable_recvBuf.
  - apply Hrest; [apply terminates_asyncSend|]. apply preserves_asyncSend, kept_node_inv, stable_recvBuf.
  - apply terminates_bind; auto using terminates_upd_node, terminates_asyncSend.
Qed.

(** C33: The receive loop of a node comes to an end on every input and in
    every state: it returns, panics or blocks, and never needs more rounds
    than the buffer has bytes. *)
Theorem onMessage_terminates i msg : terminates (onMessage unicode_lower i msg).
Proof.
  intros w. unfold onMessage. destruct (node_of w i) as [n|] eqn:En.
  - rewrite (bind_upd_node _ _ _ _ _ En). cbv beta.
    erewrite bind_the_node by apply node_put_eq.
    eapply loop_terminates; [apply node_put_eq|]. lia.
  - unfold upd_node, bind at 1, bind at 1, the_node at 1. by rewrite En.
Qed.

(** Status bit, send channel and connection of a node agree at all
    times: along any sequence of reads, queued messages, sender turns and
    closes of this and other nodes, the node is either online with both open or offline with both
    closed; so its channel is closed at most once and never written to
    after that. *)
Theorem node_life_cycle i n w evs :
  node_of w i = Some n -> node_ok n ->
  exists n', node_of (run_events evs w) i = Some n' /\ node_ok n'.
Proof.
  intros En Hn. apply (events_stable node_ok i evs w stable_node_ok); [by intros b m Hm; exact Hm|]. by exists n.
Qed.

(** A node that went offline stays offline and is silent for ever: no
    event adds to its send queue or writes to its connection. *)
Theorem offline_node_silent i n w evs :
  node_of w i = Some n -> node_ok n -> online n = false ->
  exists n', node_of (run_events evs w) i = Some n' /\
    online n' = false /\ connClosed n' = true /\
    sendQueue n' = sendQueue n /\ writes n' = writes n.
Proof.
  intros En [(E&_)|(_&_&Hc)] Ho; [unfold online in Ho; by rewrite E in Ho|].
  apply (events_stable _ i evs w (stable_silent (sendQueue n) (writes n))); [by intros b m Hm; exact Hm|].
  exists n. by unfold silent.
Qed.

(** A node's topic list never gets a duplicate, however often and in
    whatever spelling its subscriber repeats a topic. *)
Theorem topics_NoDup i n w evs :
  node_of w i = Some n -> NoDup (topics n) ->
  exists n', node_of (run_events evs w) i = Some n' /\
    NoDup (topics n').
Proof.
  intros En Hn. apply (events_stable _ i evs w stable_NoDup_topics); [by intros b m Hm; exact Hm|]. by exists n.
Qed.
End Properties.

(** ** What a well-behaved subscriber's stream does to its node *)

(** The two requests a node serves. *)
Inductive request :=
  | Subscribe (topic : bytes)
  | Tick (payload : bytes).

Definition enc_request (r : request) : bytes :=
  match r with
  | Subscribe topic => PackPro FlagSetPro topic
  | Tick payload => Pack CMD_TICK payload
  end.

(** A request no longer than the length field can say. *)
Definition request_ok (r : request) : Prop :=
  match r with
  | Subscribe topic => len topic + 3 < 2 ^ 32
  | Tick payload => len payload + 2 < 2 ^ 32
  end.

Fixpoint ticks (rs : list request) : Z :=
  match rs with
  | [] => 0
  | Subscribe _ :: rs => ticks rs
  | Tick _ :: rs => 1 + ticks rs
  end.

Definition cmd_of (r : request) : Z :=
  match r with Subscribe _ => CMD_SET_PRO | Tick _ => CMD_TICK end.
Definition payload_of (r : request) : bytes :=
  match r with Subscribe topic => Z_byte FlagSetPro :: topic | Tick payload => payload end.

Lemma enc_request_Pack r : enc_request r = Pack (cmd_of r) (payload_of r).
Proof. destruct r; [apply PackPro_Pack|done]. Qed.

Lemma request_ok_len r : request_ok r -> len (payload_of r) + 2 < 2 ^ 32.
Proof. destruct r; cbn [request_ok payload_of]; unfold len; simpl length; lia. Qed.

Lemma cmd_of_range r : 0 <= cmd_of r < 2 ^ 16.
Proof. by destruct r. Qed.

Lemma ticks_nonneg rs : 0 <= ticks rs.
Proof. induction rs as [|[] rs IH]; simpl; lia. Qed.

Section Requests.
Context {W} {HW : NodeHost W} {HL : NodeHostLaws W} (unicode_lower : bytes -> bytes).

(** The specification: a topic is acknowledged and recorded, a heartbeat is
    answered through the send queue. *)
Definition serve (n : node) (r : request) : node :=
  match r with
  | Subscribe topic => addTopic unicode_lower topic (with_write packDataSetPro n)
  | Tick _ => with_queue (sendQueue n ++ [packDataTickOk]) n
  end.

Definition serviceable (n : node) (rs : list request) : Prop :=
  online n = true /\ queueClosed n = false /\ Forall request_ok rs /\
  len (sendQueue n) + ticks rs <= tcpMaxSendQueue.

Lemma serve_recvBuf n r : recvBuf (serve n r) = recvBuf n.
Proof. destruct r; simpl; unfold addTopic; [by case_match|done]. Qed.

Lemma foldl_serve_recvBuf rs n : recvBuf (foldl serve n rs) = recvBuf n.
Proof. revert n. induction rs as [|r rs IH]; intros n; simpl; [done|]. by rewrite IH, serve_recvBuf. Qed.

Lemma with_recvBuf_id n b : recvBuf n = b -> with_recvBuf b n = n.
Proof. intros <-. by destruct n. Qed.

Lemma serve_with_recvBuf n b r : serve (with_recvBuf b n) r = with_recvBuf b (serve n r).
Proof. destruct r; simpl; unfold addTopic; simpl; [by case_match|done]. Qed.

Lemma foldl_serve_with_recvBuf b rs n :
  foldl serve (with_recvBuf b n) rs = with_recvBuf b (foldl serve n rs).
Proof.
  revert n. induction rs as [|r rs IH]; intros n; [done|].
  cbn [foldl]. by rewrite serve_with_recvBuf.
Qed.

Lemma serviceable_serve n r rs : serviceable n (r :: rs) -> serviceable (serve n r) rs.
Proof.
  intros (Ho & Hq & Hok & Hl). apply Forall_cons in Hok as [_ Hok].
  unfold serviceable. destruct r as [topic|payload]; simpl in *.
  - unfold addTopic. by destruct (has_topic _ _).
  - split_and!; try done. unfold len in *. rewrite length_app. simpl. lia.
Qed.

(** The effect of one request, before the buffer is shifted. *)
Lemma handler_serves i w n r rs :
  node_of w i = Some n -> serviceable n (r :: rs) ->
  exists w', (if cmd_of r =? CMD_SET_PRO then onSetProEvent unicode_lower i (payload_of r)
              else asyncSend i packDataTickOk) w = (w', Ret tt) /\
             node_of w' i = Some (serve n r).
Proof.
  intros En (Ho & Hq & _ & Hl). destruct r as [topic|payload]; simpl in *.
  - unfold onSetProEvent. erewrite bind_ret by reflexivity.
    erewrite bind_ret by exact (f_equal (pair w) (sub_suffix [_] topic 1 eq_refl)).
    unfold onSetPro, send. change (byte_Z _ =? FlagSetPro) with true. cbv iota.
    rewrite (bind_upd_node _ _ _ _ _ En). cbv beta.
    eexists. split; [apply upd_node_eq, node_put_eq|apply node_put_eq].
  - pose proof (ticks_nonneg rs). eexists. split; [|apply node_put_eq].
    apply asyncSend_online; try done. lia.
Qed.

(** Whole requests followed by the beginning of the next one. *)
Lemma loop_serves rs : forall fuel i w n t rs2 more,
  node_of w i = Some n -> recvBuf n = wire enc_request rs ++ t ->
  (length (recvBuf n) < fuel)%nat -> serviceable n (rs ++ rs2) ->
  t ++ more = wire enc_request rs2 -> incomplete enc_request t rs2 ->
  exists w', onMessage_loop unicode_lower fuel i w = (w', Ret tt) /\
    node_of w' i = Some (with_recvBuf t (foldl serve n rs)).
Proof.
  induction rs as [|r rs IH]; intros fuel i w n t rs2 more En Eb Hf Hs Hm Hi;
    (destruct fuel as [|fuel]; [lia|]); simpl; rewrite (bind_the_node _ _ _ _ En).
  - simpl in Eb. rewrite (with_recvBuf_id n t Eb), Eb. clear Eb. destruct rs2 as [|r2 rs2]; simpl in Hi.
    { subst t. exists w. by split. }
    destruct Hs as (_ & _ & Hok & _). apply Forall_cons in Hok as [Hok _].
    rewrite wire_cons, enc_request_Pack in Hm. rewrite enc_request_Pack in Hi.
    destruct (Pack_incomplete _ _ _ _ _ (cmd_of_range r2) (request_ok_len r2 Hok) Hm Hi)
      as [Hlt|(clen & Ec & Hlt)].
    { rewrite (proj2 (Z.ltb_lt _ _) Hlt). by exists w. }
    destruct (len t <? 6); [by exists w|].
    erewrite bind_ret by (unfold lift; by rewrite Ec).
    rewrite (proj2 (Z.ltb_lt _ _) Hlt). by exists w.
  - rewrite wire_cons, enc_request_Pack, <- app_assoc in Eb.
    pose proof Hs as (_ & _ & Hok & _). apply Forall_cons in Hok as [Hok _].
    pose proof (Pack_length (cmd_of r) (payload_of r)) as Hlen.
    destruct (Pack_header (cmd_of r) (payload_of r) (wire enc_request rs ++ t)
                (cmd_of_range r) (request_ok_len r Hok)) as (E1 & E2 & E3).
    rewrite <- Eb in E1, E2, E3.
    assert (Hlen2 : length (recvBuf n) = (length (payload_of r) + 6 +
                   length (wire enc_request rs ++ t))%nat)
      by (rewrite Eb, length_app, Hlen; done).
    destruct (Z.ltb_spec (len (recvBuf n)) 6); [unfold len in *; lia|].
    erewrite bind_ret by (unfold lift; by rewrite E1).
    destruct (Z.ltb_spec (len (recvBuf n)) (len (payload_of r) + 2 + 4)); [unfold len in *; lia|].
    erewrite bind_ret by (unfold lift; by rewrite E2).
    replace (negb (hasCmd (cmd_of r))) with false by (by destruct r).
    erewrite bind_ret by (unfold lift; by rewrite E3).
    destruct (handler_serves i w n r (rs ++ rs2) En Hs) as (w1 & Eh & E4).
    assert (Ecs : consume i (len (payload_of r) + 2 + 4) w1 =
      (put_node i (with_recvBuf (wire enc_request rs ++ t) (serve n r)) w1, Ret tt)).
    { eapply consume_eq; [exact E4|rewrite serve_recvBuf; exact Eb|unfold len; lia]. }
    destruct (IH fuel i (put_node i (with_recvBuf (wire enc_request rs ++ t) (serve n r)) w1)
                (with_recvBuf (wire enc_request rs ++ t) (serve n r)) t rs2 more)
      as (w' & Er & E'); try done.
    { apply node_put_eq. }
    { simpl. lia. }
    { by apply (serviceable_serve n r (rs ++ rs2)). }
    exists w'. split; [|rewrite E'; f_equal].
    + destruct r; simpl in *; by rewrite (bind_ret _ _ _ _ _ Eh), (bind_ret _ _ _ _ _ Ecs).
    + by rewrite foldl_serve_with_recvBuf.
Qed.

(** The node as a receiver of requests. *)
#[export] Instance request_receiver (i : nat) : FrameReceiver W request node := {
  enc := enc_request;
  feed := onMessage unicode_lower i;
  buffered w := match node_of w i with Some n => recvBuf n | None => [] end;
  view w := match node_of w i with Some n => with_recvBuf [] n | None => new_node 0 0 end;
  handle := serve;
  inv w := is_Some (node_of w i);
  accepts := serviceable;
  read_ok _ := True;
  tail_ok _ := True
}.

#[export] Instance request_receiver_laws (i : nat) : @FrameReceiverLaws _ _ _ (request_receiver i).
Proof.
  split; [apply serviceable_serve|].
  intros w chunk fs1 fs2 t [n En] _ Hacc Hb [more Hmore] Hinc _. simpl in *.
  rewrite En in Hacc, Hb |- *.
  destruct (loop_serves fs1 (S (length (recvBuf n ++ chunk))) i
              (put_node i (with_recvBuf (recvBuf n ++ chunk) n) w)
              (with_recvBuf (recvBuf n ++ chunk) n) t fs2 more) as (w' & El & E'); try done.
  { apply node_put_eq. }
  { simpl. lia. }
  rewrite foldl_serve_with_recvBuf in E'.
  exists w'. unfold onMessage. rewrite (bind_upd_node _ _ _ _ _ En). cbv beta.
  erewrite bind_the_node by apply node_put_eq.
  cbn [recvBuf with_recvBuf] in *. rewrite El, E'. split_and!; try done. by rewrite foldl_serve_with_recvBuf.
Qed.

(** C17: However TCP cuts a subscriber's requests into reads, its node
    serves exactly those requests, in order and once each: every topic is
    acknowledged and recorded, every heartbeat answered, and the receive
    buffer ends up empty. *)
Theorem node_serves_stream i n w chunks rs :
  node_of w i = Some n -> recvBuf n = [] -> serviceable n rs ->
  concat chunks = wire enc_request rs ->
  exists w', range chunks (onMessage unicode_lower i) w = (w', Ret tt) /\
    node_of w' i = Some (foldl serve n rs).
Proof.
  intros En Eb Hs Ec.
  destruct (feeds_complete (H:=request_receiver i) chunks w rs) as (w' & Er & [n' E'] & Hb & Hv);
    simpl in *; rewrite ?En, ?Eb in *; try done.
  - by apply Forall_forall.
  - destruct rs; simpl; [done|]. rewrite enc_request_Pack, Pack_length. lia.
  - exists w'. split; [done|]. rewrite E' in *. rewrite foldl_serve_with_recvBuf in Hv.
    f_equal. rewrite <- (with_recvBuf_id n' [] Hb), Hv. apply with_recvBuf_id.
    by rewrite foldl_serve_recvBuf.
Qed.
End Requests.

(** ** What a malformed stream does to its node *)
Section Malformed.
Context {W} {HW : NodeHost W} {HL : NodeHostLaws W} (unicode_lower : bytes -> bytes).

(** A packet whose length field is 0 or 1 with any known command, or an
    empty subscription packet (length 2, command [CMD_SET_PRO]), makes the
    receive handler of an idle node panic; the reader goroutine has no
    [recover], so this ends the process. *)
Theorem short_packet_crashes i n w l cmd :
  node_of w i = Some n -> recvBuf n = [] -> hasCmd cmd = true ->
  0 <= l < 2 \/ (l = 2 /\ cmd = CMD_SET_PRO) ->
  snd (onConnect_turn unicode_lower i (Some (le_bytes 4 l ++ le_bytes 2 cmd)) w) = Panic.
Proof.
  intros En Eb Hcmd Hl. pose proof (hasCmd_range cmd Hcmd) as Hr.
  set (msg := le_bytes 4 l ++ le_bytes 2 cmd).
  assert (E1 : read_clen msg = Ret l).
  { unfold msg. rewrite read_clen_le. f_equal. apply Z.mod_small. lia. }
  assert (E2 : read_cmd msg = Ret cmd).
  { unfold msg. rewrite <- (app_nil_r (le_bytes 2 cmd)), read_cmd_le by done.
    f_equal. apply Z.mod_small. lia. }
  assert (Hlen : len msg = 6) by done. clearbody msg.
  enough (snd (onMessage unicode_lower i msg w) = Panic) as Hp.
  { simpl. unfold bind. by destruct (onMessage _ _ _ _) as [w' []]. }
  unfold onMessage. rewrite (bind_upd_node _ _ _ _ _ En). cbv beta. rewrite Eb.
  set (n1 := with_recvBuf ([] ++ msg) n). set (w1 := put_node i n1 w).
  assert (En1 : node_of w1 i = Some n1) by apply node_put_eq.
  rewrite (bind_the_node _ _ _ _ En1). cbn [onMessage_loop].
  rewrite (bind_the_node _ _ _ _ En1). change (recvBuf n1) with msg. rewrite Hlen.
  cbn [Z.ltb Z.compare Pos.compare Pos.compare_cont].
  erewrite bind_ret by (unfold lift; by rewrite E1).
  destruct (Z.ltb_spec 6 (l + 4)); [lia|].
  erewrite bind_ret by (unfold lift; by rewrite E2). rewrite Hcmd. cbn [negb].
  destruct Hl as [Hl|[-> ->]].
  - erewrite bind_panic; [done|]. unfold lift, sub.
    destruct (Z.leb_spec 6 (l + 4)); [lia|]. by rewrite andb_false_r.
  - destruct msg as [|b0 [|b1 [|b2 [|b3 [|b4 [|b5 [|]]]]]]]; first [reflexivity | unfold len in Hlen; simpl length in Hlen; lia].
Qed.
End Malformed.

(** ** Concrete instances

    A host that holds nodes and does nothing on close, a fresh node, and a
    small run. *)
Section Instances.
#[local] Instance lone_host : NodeHost (gmap nat node) := {
  node_of w i := w !! i;
  put_node i n w := <[i := n]> w;
  onclose _ := ret tt
}.
#[local] Instance lone_host_laws : NodeHostLaws (gmap nat node).
Proof.
  split; simpl.
  - intros. apply lookup_insert_eq.
  - intros. by apply lookup_insert_ne.
  - intros w i _. by exists w.
  - intros i. apply terminates_ret.
Qed.

#[local] Definition lone : gmap nat node := {[ 0%nat := new_node 7 0 ]}.
#[local] Definition orders : bytes := gostr "db\.orders".
#[local] Definition some_run : list (nat * node_event) :=
  [(0%nat, EvRead (Some (PackPro FlagSetPro orders))); (0%nat, EvSend orders);
   (0%nat, EvService (SelMsg (Some 4%nat))); (0%nat, EvRead None)].

Lemma onMessage_terminates_witness :
  snd (onMessage id 0%nat (le_bytes 4 2 ++ le_bytes 2 CMD_TICK) lone) <> OutOfFuel.
Proof. apply (onMessage_terminates id 0%nat (le_bytes 4 2 ++ le_bytes 2 CMD_TICK)). Defined.

Lemma node_life_cycle_witness :
  exists n', node_of (run_events id some_run lone) 0%nat = Some n' /\ node_ok n'.
Proof. apply (node_life_cycle id 0 (new_node 7 0) lone some_run); [reflexivity|by left]. Defined.

Lemma offline_node_silent_witness :
  let n := with_closed_queue (with_offline (new_node 7 0)) in
  exists n', node_of (run_events id some_run {[ 0%nat := n ]}) 0%nat = Some n' /\
    online n' = false /\ connClosed n' = true /\
    sendQueue n' = sendQueue n /\ writes n' = writes n.
Proof.
  intros n. apply (offline_node_silent id 0 n {[ 0%nat := n ]} some_run);
    [reflexivity|by right|reflexivity].
Defined.

Lemma topics_NoDup_witness :
  exists n', node_of (run_events id (some_run ++ some_run) lone) 0%nat = Some n' /\
    NoDup (topics n').
Proof.
  apply (topics_NoDup id 0 (new_node 7 0) lone (some_run ++ some_run));
    [reflexivity|apply NoDup_nil_2].
Defined.

Lemma node_serves_stream_witness :
  let rs := [Subscribe orders; Tick []] in
  exists w', range [take 5 (wire enc_request rs); drop 5 (wire enc_request rs)]
               (onMessage id 0%nat) lone = (w', Ret tt) /\
    node_of w' 0%nat = Some (foldl (serve id) (new_node 7 0) rs).
Proof.
  intros rs. apply (node_serves_stream id 0 (new_node 7 0) lone); try reflexivity.
  split_and!; try reflexivity; [|done]. repeat constructor; vm_compute; intuition congruence.
Defined.

Lemma short_packet_crashes_witness :
  snd (onConnect_turn id 0%nat (Some (le_bytes 4 1 ++ le_bytes 2 CMD_TICK)) lone) = Panic.
Proof.
  apply (short_packet_crashes id 0 (new_node 7 0) lone 1 CMD_TICK); try reflexivity. left. lia.
Defined.
End Instances.
