(* ===== verification/SubGroups.v ===== *)
(** * The set of subscribers

    [src/services/service_tcpgroups.go] and the connection counter of
    [src/services/service.go].  A [world] holds the nodes (the heap, by
    pointer), the slice [groups.g] with its backing array, and the counter.
    It is the host the methods of [SubNode.v] run on: a node's close callback
    is [groups.remove]. *)
From S2P Require Import Prelude.
From S2P Require Import GoSem.
From S2P Require Import SliceLoop.
From S2P Require Import Framing.
From S2P Require Import Frame.
From S2P Require Import SubNode.
Set Default Proof Using "Type".

(** A callback registered with [SetOnRemove]. *)
Inductive remove_hook := ServiceDisconnect.

Record world := mkWorld {
  nodes : gmap nat node;
  next_node : nat;           (* the pointer the next [newNode] returns *)
  grp : slice nat;           (* groups.g *)
  onRemove : list remove_hook;
  connects : Z               (* Service.connects *)
}.

Definition with_nodes (ns : gmap nat node) (w : world) : world :=
  mkWorld ns (next_node w) (grp w) (onRemove w) (connects w).
Definition with_grp (s : slice nat) (w : world) : world :=
  mkWorld (nodes w) (next_node w) s (onRemove w) (connects w).
Definition with_connects (c : Z) (w : world) : world :=
  mkWorld (nodes w) (next_node w) (grp w) (onRemove w) c.

(** [newGroups]: no subscriber. *)
Definition new_groups : world := mkWorld ∅ 0 empty_slice [] 0.

(** [atomic.AddInt64(&s.connects, d)] *)
Definition add_connects (d : Z) : M world unit :=
  modify (fun w => with_connects (s64 (connects w + d)) w).
Definition newConnect : M world unit := add_connects 1.
Definition disconnect : M world unit := add_connects (-1).

Definition run_remove_hook (h : remove_hook) : M world unit :=
  match h with ServiceDisconnect => disconnect end.

Section Groups.
Variable growcap : nat -> nat -> nat.
Variable unicode_lower : bytes -> bytes.
Variable MatchString : bytes -> bytes -> option bool.

Definition groups_remove (i : nat) : M world unit :=
  modify (fun w => with_grp (remove_elem 0%nat growcap i (grp w)) w) ;;
  let! hooks := gets onRemove in
  range hooks run_remove_hook.

#[export] Instance world_host : NodeHost world := {
  node_of w i := nodes w !! i;
  put_node i n w := with_nodes (<[i := n]> (nodes w)) w;
  onclose := groups_remove
}.

Definition groups_sendAll (table data : bytes) : M world bool :=
  let! s := gets grp in
  range (elems s) (fun i =>
    let! n := the_node i in
    if MatchFilters MatchString (topics n) table then asyncSend i data else ret tt) ;;
  ret true.

Definition groups_asyncSend (data : bytes) : M world unit :=
  let! s := gets grp in
  range (elems s) (fun i => asyncSend i data).

(** [for _, group := range groups.g { group.close() }]; the elements are
    read from the backing array, which [groups_remove] shifts meanwhile. *)
Definition groups_close : M world unit :=
  let! s := gets grp in
  range_live grp close 0 (sl_len s) ;;
  modify (with_grp empty_slice).

Definition groups_reload : M world unit := groups_close.

(** [onConnect]: the new node is online and last in the group; its reader
    is started by the caller. *)
Definition groups_onConnect (c : nat) (now : Z) : M world unit :=
  modify (fun w =>
    let i := next_node w in
    mkWorld (<[i := new_node c now]> (nodes w)) (S i)
      (sappend 0%nat growcap (grp w) [i]) (onRemove w) (connects w)).

(** ** The host keeps its promises *)
Lemma run_hooks_eq hooks w :
  exists c, range hooks run_remove_hook w = (with_connects c w, Ret tt).
Proof.
  revert w. induction hooks as [|[] hooks IH]; intros w; simpl.
  - exists (connects w). by destruct w.
  - destruct (IH (with_connects (s64 (connects w + -1)) w)) as [c E]. by exists c.
Qed.

Lemma groups_remove_eq i w :
  exists c, groups_remove i w =
    (with_connects c (with_grp (remove_elem 0%nat growcap i (grp w)) w), Ret tt).
Proof.
  destruct (run_hooks_eq (onRemove w) (with_grp (remove_elem 0%nat growcap i (grp w)) w)) as [c E].
  by exists c.
Qed.

#[export] Instance world_host_laws : NodeHostLaws world.
Proof.
  split; simpl.
  - intros. apply lookup_insert_eq.
  - intros. by apply lookup_insert_ne.
  - intros w i _. destruct (groups_remove_eq i w) as [c E].
    eexists. split; [exact E|]. done.
  - intros i w. destruct (groups_remove_eq i w) as [c ->]. done.
Qed.
End Groups.

(** ** Counting subscribers *)
Definition online_count (ns : gmap nat node) : Z :=
  Z.of_nat (size (filter (fun kv : nat * node => online kv.2 = true) ns)).

Definition weight (n : node) : Z := if online n then 1 else 0.

Lemma online_count_insert i n (m : gmap nat node) :
  online_count (<[i := n]> m) = weight n + online_count (delete i m).
Proof.
  rewrite <- insert_delete_eq. unfold online_count, weight.
  destruct (online n) eqn:Ho.
  - rewrite map_filter_insert_True by done.
    rewrite map_size_insert_None; [lia|].
    apply map_lookup_filter_None_2. left. apply lookup_delete_eq.
  - rewrite map_filter_insert_False by (simpl; congruence).
    rewrite delete_delete_eq. lia.
Qed.

Lemma online_count_delete i n (m : gmap nat node) :
  m !! i = Some n -> online_count (delete i m) = online_count m - weight n.
Proof.
  intros E. rewrite <- (insert_id m i n E) at 2. rewrite online_count_insert. lia.
Qed.

Lemma node_step_online n n' : node_step n n' -> online n' = online n.
Proof. by intros []. Qed.

Section Invariant.
Variable growcap : nat -> nat -> nat.
Variable unicode_lower : bytes -> bytes.
Variable MatchString : bytes -> bytes -> option bool.
#[local] Existing Instance world_host.
#[local] Instance host : NodeHost world := world_host growcap.
#[local] Instance host_laws : NodeHostLaws world := world_host_laws growcap.

(** With service discovery on: every node is consistent and was allocated,
    the group lists online nodes without repetition, and the counter the
    service publishes is the number of online nodes (as an [int64]). *)
Record world_ok (w : world) : Prop := {
  ok_slice : swf (grp w);
  ok_nodup : NoDup (elems (grp w));
  ok_nodes i n : nodes w !! i = Some n -> node_ok n /\ (i < next_node w)%nat;
  ok_group i : i ∈ elems (grp w) -> exists n, nodes w !! i = Some n /\ online n = true;
  ok_hook : onRemove w = [ServiceDisconnect];
  ok_connects : connects w = s64 (online_count (nodes w))
}.

(** [close] on this host, in one step. *)
Lemma close_world i n w :
  nodes w !! i = Some n -> online n = true -> queueClosed n = false ->
  onRemove w = [ServiceDisconnect] ->
  close i w = (with_connects (s64 (connects w - 1))
                (with_grp (remove_elem 0%nat growcap i (grp w))
                  (with_nodes (<[i := with_closed_queue (with_offline n)]> (nodes w)) w)), Ret tt).
Proof.
  intros En Ho Hq Hh. unfold close. rewrite (bind_the_node _ _ _ n) by done.
  rewrite Ho, (online_open _ Ho). cbn [negb].
  erewrite bind_ret; cycle 1.
  { erewrite bind_upd_node by exact En. cbv beta. unfold close_queue.
    rewrite (bind_the_node _ _ _ (with_offline n)) by apply node_put_eq.
    cbn [queueClosed with_offline]. rewrite Hq.
    apply upd_node_eq, node_put_eq. }
  unfold onclose, host, world_host, groups_remove. simpl.
  unfold bind, modify, gets. simpl. rewrite Hh. simpl.
  unfold with_connects, with_grp, with_nodes. simpl. by rewrite insert_insert_eq.
Qed.

Lemma node_ok_open n : node_ok n -> online n = true -> queueClosed n = false.
Proof.
  intros [(_&?&_)|(E&_)] Ho; [done|]. unfold online in Ho. by rewrite E in Ho.
Qed.

Lemma stable_at n n' : node_ok n -> node_step n n' -> node_ok n'.
Proof. apply stable_node_ok. Qed.

(** Writing back a node that differs neither in consistency nor in being
    online. *)
Lemma world_ok_put w i n n' :
  world_ok w -> nodes w !! i = Some n -> node_ok n' -> online n' = online n ->
  world_ok (with_nodes (<[i := n']> (nodes w)) w).
Proof.
  intros [H1 H2 H3 H4 H5 H6] En Hok Ho. split; simpl; try done.
  - intros j m Hj. destruct (decide (i = j)) as [->|Hne].
    + rewrite lookup_insert_eq in Hj. simplify_eq. split; [done|]. by apply (H3 j n).
    + rewrite lookup_insert_ne in Hj by done. eauto.
  - intros j Hj. destruct (H4 j Hj) as (m & Em & Hm). destruct (decide (i = j)) as [->|Hne].
    + exists n'. rewrite lookup_insert_eq. split; [done|congruence].
    + exists m. by rewrite lookup_insert_ne.
  - rewrite H6, online_count_insert, (online_count_delete i n) by done. f_equal.
    unfold weight. rewrite Ho. lia.
Qed.

Lemma world_ok_close w i n :
  world_ok w -> nodes w !! i = Some n -> online n = true ->
  exists w', close i w = (w', Ret tt) /\ world_ok w' /\
    grp w' = remove_elem 0%nat growcap i (grp w) /\
    nodes w' = <[i := with_closed_queue (with_offline n)]> (nodes w).
Proof.
  intros Hw En Ho. pose proof Hw as [H1 H2 H3 H4 H5 H6].
  destruct (H3 i n En) as [Hok Hi].
  eexists. split; [apply (close_world i n w En Ho (node_ok_open n Hok Ho) H5)|].
  split; [|done].
  destruct (remove_elem_ok 0%nat growcap i (grp w) H1 H2) as (R1 & R2 & R3).
  assert (Hok' : node_ok (with_closed_queue (with_offline n))).
  { apply stable_node_ok; auto. by apply node_ok_open. }
  assert (Ho' : online (with_closed_queue (with_offline n)) = false).
  { destruct Hok as [(E&_)|(E&_)]; unfold online in *; simpl; by rewrite E in *. }
  split; simpl; try done.
  - intros j m Hj. destruct (decide (i = j)) as [->|Hne].
    + rewrite lookup_insert_eq in Hj. by simplify_eq.
    + rewrite lookup_insert_ne in Hj by done. eauto.
  - intros j [Hj Hne]%R3. rewrite lookup_insert_ne by done. eauto.
  - rewrite H6, online_count_insert, (online_count_delete i n) by done.
    unfold weight at 1. rewrite Ho'. unfold weight. rewrite Ho.
    unfold s_wrap.
    set (c := online_count (nodes w)). f_equal.
    replace ((c + 2 ^ (64 - 1)) mod 2 ^ 64 - 2 ^ (64 - 1) - 1 + 2 ^ (64 - 1))
      with ((c + 2 ^ (64 - 1)) mod 2 ^ 64 + -1) by lia.
    rewrite Zplus_mod_idemp_l. f_equal. lia.
Qed.

Lemma kept_world_ok : kept world_ok.
Proof.
  split.
  - intros w i n n' Hw En Hs. eapply world_ok_put; eauto using node_step_online.
    eapply stable_at; [|done]. by apply (ok_nodes w Hw i).
  - intros i w Hw. destruct (nodes w !! i) as [n|] eqn:En.
    + destruct (online n) eqn:Ho.
      * destruct (world_ok_close w i n Hw En Ho) as (w' & -> & Hw' & _). done.
      * by rewrite (close_offline w i n).
    + unfold close, bind, the_node. simpl. by rewrite En.
Qed.

Lemma kept_recv_world_ok : kept_recv world_ok.
Proof.
  intros w i n b Hw En. eapply world_ok_put; eauto. by apply (ok_nodes w Hw i n).
Qed.

(** ** Everything that happens to the service *)
Inductive world_event :=
  | WNode (i : nat) (e : node_event)      (* an event at one node *)
  | WConnect (c : nat) (now : Z)          (* a connection is accepted *)
  | WSendAll (table data : bytes)         (* an event is published *)
  | WSendRaw (data : bytes)               (* raw or heartbeat broadcast *)
  | WReload.                              (* the group is closed *)

(** An accepted connection goes through both [onConnect] callbacks. *)
Definition on_world_event (e : world_event) : M world unit :=
  match e with
  | WNode i e => on_event unicode_lower i e
  | WConnect c now => groups_onConnect growcap c now ;; newConnect
  | WSendAll table data => groups_sendAll growcap MatchString table data ;; ret tt
  | WSendRaw data => groups_asyncSend growcap data
  | WReload => groups_reload growcap
  end.

Lemma world_ok_clear w : world_ok w -> world_ok (with_grp empty_slice w).
Proof.
  intros [H1 H2 H3 H4 H5 H6]. split; simpl; try done.
  - unfold swf. simpl. lia.
  - apply NoDup_nil_2.
  - by intros i ?%not_elem_of_nil.
Qed.

Lemma world_ok_connect c now w :
  world_ok w -> world_ok (((groups_onConnect growcap c now ;; newConnect) w).1).
Proof.
  intros [H1 H2 H3 H4 H5 H6]. simpl. set (i := next_node w).
  assert (Hfresh : nodes w !! i = None).
  { destruct (nodes w !! i) as [m|] eqn:E; [|done]. apply H3 in E as [_ E]. unfold i in E. lia. }
  assert (Hni : i ∉ elems (grp w)).
  { intros Hi. apply H4 in Hi as (m & E & _). congruence. }
  split; simpl.
  - by apply sappend_wf.
  - rewrite sappend_elems by done. apply NoDup_app. split_and!; [done| |apply NoDup_singleton].
    intros x Hx ->%list_elem_of_singleton. done.
  - intros j m Hj. destruct (decide (i = j)) as [->|Hne].
    + rewrite lookup_insert_eq in Hj. simplify_eq. split; [by left|lia].
    + rewrite lookup_insert_ne in Hj by done. destruct (H3 j m Hj). split; [done|lia].
  - intros j. rewrite sappend_elems by done. rewrite elem_of_app, list_elem_of_singleton.
    intros [Hj| ->].
    + rewrite lookup_insert_ne by congruence. auto.
    + rewrite lookup_insert_eq. by eexists.
  - done.
  - rewrite H6, online_count_insert, delete_id by done. change (weight (new_node c now)) with 1.
    unfold s_wrap. f_equal.
    replace ((online_count (nodes w) + 2 ^ (64 - 1)) mod 2 ^ 64 - 2 ^ (64 - 1) + 1 + 2 ^ (64 - 1))
      with ((online_count (nodes w) + 2 ^ (64 - 1)) mod 2 ^ 64 + 1) by lia.
    rewrite Zplus_mod_idemp_l. f_equal. lia.
Qed.

Lemma preserves_on_world_event e : preserves world_ok (on_world_event e).
Proof.
  destruct e as [i e|c now|table data|data|].
  - apply preserves_on_event; [apply kept_world_ok|apply kept_recv_world_ok].
  - intros w. apply world_ok_connect.
  - repeat (apply preserves_bind; [|intros ?]); try apply preserves_gets; try apply preserves_ret.
    apply preserves_range. intros i. apply preserves_bind; [apply preserves_read|]. intros n.
    apply preserves_if; [apply preserves_asyncSend, kept_world_ok|apply preserves_ret].
  - apply preserves_bind; [apply preserves_gets|]. intros s.
    apply preserves_range. intros i. apply preserves_asyncSend, kept_world_ok.
  - apply preserves_bind; [apply preserves_gets|]. intros s.
    apply preserves_bind; [apply preserves_range_live, (kept_close _ kept_world_ok)|]. intros _.
    apply preserves_modify, world_ok_clear.
Qed.

(** The service as [NewTCPService] starts it with service discovery on. *)
Definition registered_groups : world := mkWorld ∅ 0 empty_slice [ServiceDisconnect] 0.

Lemma world_ok_init : world_ok registered_groups.
Proof.
  split; simpl; try done.
  - unfold swf. simpl. lia.
  - apply NoDup_nil_2.
  - by intros i ?%not_elem_of_nil.
Qed.

(** C13: Along every run of the service - connections, reads of arbitrary
    bytes, broadcasts, sender turns, failures, closes and reloads, handler
    crashes included - the connection count published to service discovery
    is the number of online nodes, every group member is an online node
    listed once, and every node's status, channel and connection agree. *)
Theorem service_invariant evs :
  world_ok (run on_world_event evs registered_groups).
Proof.
  apply preserves_run; [|apply world_ok_init]. intros e. apply preserves_on_world_event.
Qed.

(** ** Closing the group *)
Definition is_open (w : world) (i : nat) : bool :=
  match nodes w !! i with Some n => online n | None => false end.

Lemma world_slice w : world_ok w -> swf (grp w) /\ NoDup (elems (grp w)).
Proof. by intros []. Qed.
Lemma world_open w i : world_ok w -> i ∈ elems (grp w) -> is_open w i = true.
Proof. intros Hw Hi. destruct (ok_group w Hw i Hi) as (n & En & Ho). unfold is_open. by rewrite En. Qed.
Lemma world_known w i : world_ok w -> i ∈ elems (grp w) -> is_Some (nodes w !! i).
Proof. intros Hw Hi. destruct (ok_group w Hw i Hi) as (n & En & _). by exists n. Qed.

Lemma close_closed w i :
  world_ok w -> is_Some (nodes w !! i) -> is_open w i = false -> close i w = (w, Ret tt).
Proof.
  intros _ [n En] Ho. unfold is_open in Ho. rewrite En in Ho. by apply (close_offline w i n).
Qed.

Lemma close_open w i :
  world_ok w -> is_Some (nodes w !! i) -> is_open w i = true ->
  exists w', close i w = (w', Ret tt) /\ world_ok w' /\
    grp w' = remove_elem 0%nat growcap i (grp w) /\
    (forall j, is_Some (nodes w !! j) -> is_Some (nodes w' !! j)) /\
    forall j, is_open w' j = if decide (j = i) then false else is_open w j.
Proof.
  intros Hw [n En] Ho. unfold is_open in Ho. rewrite En in Ho.
  destruct (world_ok_close w i n Hw En Ho) as (w' & E & Hw' & Eg & Ens).
  exists w'. split_and!; try done; intros j; unfold is_open; rewrite Ens.
  - intros Hj. destruct (decide (i = j)) as [->|]; [rewrite lookup_insert_eq; by eexists|].
    by rewrite lookup_insert_ne.
  - destruct (decide (j = i)) as [->|]; [|by rewrite lookup_insert_ne].
    rewrite lookup_insert_eq. destruct (ok_nodes w Hw i n En) as [[(E'&_)|(E'&_)] _];
      unfold online in *; simpl; by rewrite E' in *.
Qed.

(** Closing or reloading the group empties it but does not close all of
    its members: those that [skipped] lists - every second one, the last
    excepted - stay online, with their connection and sender goroutine, and
    are no longer reachable from the service. *)
Theorem groups_close_leaks w :
  world_ok w ->
  exists w', groups_close growcap w = (w', Ret tt) /\ elems (grp w') = [] /\
    forall i, i ∈ elems (grp w) ->
      exists n, nodes w' !! i = Some n /\
        (online n = true <-> i ∈ skipped (elems (grp w))).
Proof.
  intros Hw.
  destruct (range_live_closes 0%nat growcap grp (close (W:=world)) world_ok is_open world_slice
    world_open (fun w i => is_Some (nodes w !! i)) world_known close_closed close_open w Hw)
    as (w1 & E & _ & Hx).
  exists (with_grp empty_slice w1). unfold groups_close.
  erewrite bind_ret by reflexivity. rewrite (bind_ret _ _ _ _ _ E). split_and!; try done.
  intros i Hi. destruct (Hx i Hi) as [[n En] Ho]. exists n. split; [done|].
  unfold is_open in Ho. rewrite En in Ho. rewrite Ho. by rewrite bool_decide_eq_true.
Qed.

(** ** Publishing an event *)

(** What one member gets. *)
Definition deliver (table data : bytes) (n : node) : node :=
  if online n && MatchFilters MatchString (topics n) table
  then with_queue (sendQueue n ++ [data]) n else n.

Definition has_room (w : world) (i : nat) : Prop :=
  forall n, nodes w !! i = Some n -> len (sendQueue n) < tcpMaxSendQueue.

Lemma send_one w i n table data :
  world_ok w -> nodes w !! i = Some n -> has_room w i ->
  exists w', (let! n := the_node i in
     if MatchFilters MatchString (topics n) table then asyncSend i data else ret tt) w
     = (w', Ret tt) /\ world_ok w' /\ grp w' = grp w /\
    nodes w' = <[i := deliver table data n]> (nodes w).
Proof.
  intros Hw En Hroom. rewrite (bind_the_node _ _ _ n) by exact En. unfold deliver.
  destruct (ok_nodes w Hw i n En) as [Hok _].
  destruct (MatchFilters _ _ _); [|rewrite andb_false_r].
  - destruct (online n) eqn:Ho; simpl.
    + eexists. split; [apply asyncSend_online; [exact En|done|by apply node_ok_open|by apply Hroom]|].
      split; [|done]. eapply world_ok_put; [done|done| |done]. eapply stable_at; [done|].
      constructor; [done|by apply node_ok_open].
    + exists w. split_and!; try done; [|by rewrite insert_id].
      unfold asyncSend. rewrite (bind_the_node _ _ _ n) by exact En. by rewrite Ho.
  - exists w. split_and!; try done. by rewrite insert_id.
Qed.

Lemma range_sendAll table data l : forall w,
  world_ok w -> NoDup l ->
  (forall i, i ∈ l -> is_Some (nodes w !! i) /\ has_room w i) ->
  exists w', range l (fun i => let! n := the_node i in
      if MatchFilters MatchString (topics n) table then asyncSend i data else ret tt) w
      = (w', Ret tt) /\ grp w' = grp w /\
    forall i, nodes w' !! i = if decide (i ∈ l) then deliver table data <$> nodes w !! i
                             else nodes w !! i.
Proof.
  induction l as [|i l IH]; intros w Hw Hnd Hl.
  { exists w. split_and!; try done. }
  apply NoDup_cons in Hnd as [Hi Hnd]. destruct (Hl i) as [[n En] Hroom]; [by left|].
  destruct (send_one w i n table data Hw En Hroom) as (w1 & E1 & Hw1 & Eg1 & Ens).
  destruct (IH w1) as (w2 & E2 & Eg2 & Hn2); try done.
  { intros j Hj. destruct (Hl j) as [Hs Hr]; [by right|]. unfold has_room.
    rewrite Ens, lookup_insert_ne by congruence. done. }
  exists w2. cbn [range]. rewrite (bind_ret _ _ _ _ _ E1). split_and!; try done.
  { congruence. }
  intros j. rewrite Hn2, Ens. destruct (decide (i = j)) as [->|Hne].
  - rewrite decide_False, lookup_insert_eq, decide_True by (done || by left). by rewrite En.
  - rewrite lookup_insert_ne by done.
    destruct (decide (j ∈ l)); [by rewrite decide_True by (by right)|].
    by rewrite decide_False by (by intros [->|?]%elem_of_cons).
Qed.

(** Publishing an event appends its packet once to the send queue of
    exactly those members whose topics match the table (or who have none),
    and changes nothing else. *)
Theorem groups_sendAll_delivers w table data :
  world_ok w -> (forall i, i ∈ elems (grp w) -> has_room w i) ->
  exists w', groups_sendAll growcap MatchString table data w = (w', Ret true) /\
    grp w' = grp w /\
    forall i, nodes w' !! i =
      if decide (i ∈ elems (grp w)) then deliver table data <$> nodes w !! i
      else nodes w !! i.
Proof.
  intros Hw Hroom. pose proof Hw as [Hsw Hnd _ Hg _ _].
  destruct (range_sendAll table data (elems (grp w)) w) as (w' & E & Eg & Hn); try done.
  { intros i Hi. split; [|by apply Hroom]. destruct (Hg i Hi) as (n & En & _). by exists n. }
  exists w'. unfold groups_sendAll. erewrite bind_ret by reflexivity.
  rewrite (bind_ret _ _ _ _ _ E). done.
Qed.
End Invariant.

(** ** Concrete instances: three subscribers, one of them picky *)
Section Instances.
#[local] Definition twice (c n : nat) : nat := (2 * n)%nat.
#[local] Definition same (f t : bytes) : option bool := Some (bool_decide (f = t)).
#[local] Definition three_connects : list world_event :=
  [WConnect 7 0; WConnect 8 0; WConnect 9 0;
   WNode 1 (EvRead (Some (PackPro FlagSetPro (gostr "Db.Orders "))))].
#[local] Definition three : world :=
  run (on_world_event twice id same) three_connects registered_groups.

(** [service_invariant] holds of [three]; this is the same argument,
    for the use of the witnesses below. *)
#[local] Lemma three_ok : world_ok three.
Proof.
  eapply (preserves_run (world_ok)); [|apply world_ok_init].
  intros e. apply preserves_on_world_event.
Qed.

Lemma groups_close_leaks_witness :
  exists w', groups_close twice three = (w', Ret tt) /\ elems (grp w') = [] /\
    forall i, i ∈ elems (grp three) ->
      exists n, nodes w' !! i = Some n /\
        (online n = true <-> i ∈ skipped (elems (grp three))).
Proof. apply (groups_close_leaks twice three three_ok). Defined.

Lemma groups_sendAll_delivers_witness :
  exists w', groups_sendAll twice same (gostr "db.users") (gostr "{}") three = (w', Ret true) /\
    grp w' = grp three /\
    forall i, nodes w' !! i =
      if decide (i ∈ elems (grp three))
      then deliver same (gostr "db.users") (gostr "{}") <$> nodes three !! i
      else nodes three !! i.
Proof.
  apply (groups_sendAll_delivers twice same three (gostr "db.users") (gostr "{}") three_ok).
  assert (E : elems (grp three) = [0; 1; 2]%nat) by reflexivity. rewrite E.
  intros i Hi n En. assert (Hn : (i < 3)%nat).
  { apply list_elem_of_lookup in Hi as [k Hk]. destruct k as [|[|[|]]]; simplify_eq/=; lia. }
  destruct i as [|[|[|]]]; [| | |lia]; vm_compute in En; simplify_eq; vm_compute; done.
Defined.
End Instances.
