(* ===== verification/Interleave.v ===== *)
(** * Publishing while others come and go

    [SubGroups.v] lets [sendAll] run to its end.  Here it is taken apart, since
    it holds no lock: the loop of [src/services/service_tcpgroups.go] fixes the
    slice's header and reads one element after another from the backing array,
    which [remove] shifts and [onConnect] extends meanwhile, and [asyncSend] of
    [src/services/service_tcpnode.go] gives the node's lock back between its
    look at the status and the send on the channel.  The handlers of the other
    goroutines are whole. *)
From S2P Require Import Prelude.
From S2P Require Import GoSem.
From S2P Require Import SliceLoop.
From S2P Require Import Framing.
From S2P Require Import Frame.
From S2P Require Import SubNode.
From S2P Require Import SubGroups.
Set Default Proof Using "Type".

(** Where the publisher is: about to take the next element, or past the status
    check of a node, polling its queue. *)
Inductive phase := Ranging | Polling (i : nat).

Record publication := mkPub {
  pb_next : nat;                   (* the index of the loop *)
  pb_len : nat;                    (* the length in the slice header *)
  pb_arr : option (list nat);      (* the array, once [groups.g] has another one *)
  pb_phase : phase;
  pb_seen : list (nat * bool)      (* members looked at, and whether the packet was for them; no code reads it *)
}.

Section Interleave.
Variable growcap : nat -> nat -> nat.
Variable unicode_lower : bytes -> bytes.
Variable MatchString : bytes -> bytes -> option bool.
#[local] Instance host : NodeHost world := world_host growcap.
#[local] Instance host_laws : NodeHostLaws world := world_host_laws growcap.
Implicit Types (w : world) (p : publication).

Definition begin w : publication := mkPub 0 (sl_len (grp w)) None Ranging [].
Definition array p w : list nat := default (sl_arr (grp w)) (pb_arr p).

Definition look (i : nat) (mine : bool) p : publication :=
  mkPub (if mine then pb_next p else S (pb_next p)) (pb_len p) (pb_arr p)
    (if mine then Polling i else Ranging) (pb_seen p ++ [(i, mine)]).
Definition advance p : publication := mkPub (S (pb_next p)) (pb_len p) (pb_arr p) Ranging (pb_seen p).

(** One move of the publisher. *)
Definition publish_step (table data : bytes) : M (world * publication) unit := fun x =>
  let '(w, p) := x in
  match pb_phase p with
  | Ranging =>
      if (pb_len p <=? pb_next p)%nat then (x, Ret tt)
      else match array p w !! pb_next p with
           | None => (x, Panic)
           | Some i =>
               match nodes w !! i with
               | None => (x, Panic)
               | Some n => ((w, look i (MatchFilters MatchString (topics n) table && online n) p), Ret tt)
               end
           end
  | Polling i =>
      match nodes w !! i with
      | None => (x, Panic)
      | Some n =>
          if len (sendQueue n) <? tcpMaxSendQueue
          then (((chan_send i data w).1, advance p), (chan_send i data w).2)
          else (x, Ret tt)
      end
  end.

(** The array the publisher goes on with, when an event gives [groups.g]
    another one: a connection for which there is no room, or [reload]. *)
Definition left_array (e : world_event) w : option (list nat) :=
  match e with
  | WConnect _ _ => if (sl_len (grp w) <? length (sl_arr (grp w)))%nat then None else Some (sl_arr (grp w))
  | WReload => Some (sl_arr (grp (range_live grp close 0 (sl_len (grp w)) w).1))
  | _ => None
  end.
Definition meanwhile (e : world_event) w p : publication :=
  mkPub (pb_next p) (pb_len p) (match pb_arr p with Some a => Some a | None => left_array e w end) (pb_phase p) (pb_seen p).

Inductive move := Publisher | Other (e : world_event).
#[local] Abbreviation event e := (on_world_event growcap unicode_lower MatchString e).
Definition on_move (table data : bytes) (m : move) : M (world * publication) unit :=
  match m with
  | Publisher => publish_step table data
  | Other e => fun x => (((event e x.1).1, meanwhile e x.1 x.2), (event e x.1).2)
  end.

(** A publisher that nobody interrupts is [sendAll] of one member after the
    other: two moves are [asyncSend]. *)
Lemma alone_is_asyncSend table data i n w p :
  pb_phase p = Ranging -> (pb_next p < pb_len p)%nat -> array p w !! pb_next p = Some i -> nodes w !! i = Some n ->
  len (sendQueue n) < tcpMaxSendQueue -> (online n = true -> queueClosed n = false) ->
  exists p', range (if MatchFilters MatchString (topics n) table && online n then [Publisher; Publisher] else [Publisher])
      (on_move table data) (w, p) =
    (((if MatchFilters MatchString (topics n) table then asyncSend i data else ret tt) w).1, p', Ret tt) /\
    pb_phase p' = Ranging /\ pb_next p' = S (pb_next p) /\ array p' = array p.
Proof.
  intros Hph Hlt Hi En Hroom Hopen.
  assert (E1 : publish_step table data (w, p) =
    ((w, look i (MatchFilters MatchString (topics n) table && online n) p), Ret tt)).
  { unfold publish_step. rewrite Hph, (proj2 (Nat.leb_gt _ _)) by lia. by rewrite Hi, En. }
  destruct (MatchFilters MatchString (topics n) table) eqn:Em; [destruct (online n) eqn:Ho|];
    cbn [andb range on_move] in *; rewrite (bind_ret _ _ _ _ _ E1).
  - unfold bind at 1. unfold publish_step at 1. cbn [look pb_phase]. rewrite En, (proj2 (Z.ltb_lt _ _)) by done.
    rewrite (asyncSend_online (H:=host) w i n data En Ho (Hopen eq_refl) Hroom).
    assert (Ec : chan_send (W:=world) i data w = (put_node i (with_queue (sendQueue n ++ [data]) n) w, Ret tt)).
    { unfold chan_send. rewrite (bind_the_node _ _ _ n) by exact En. rewrite (Hopen eq_refl). by apply upd_node_eq. }
    rewrite Ec. by eexists.
  - unfold asyncSend. rewrite (bind_the_node _ _ _ n) by exact En. rewrite Ho. by eexists.
  - by eexists.
Qed.

(** ** What the publisher goes through *)
Section Publishing.
Variables table data : bytes.
#[local] Abbreviation step := (on_move table data).
#[local] Abbreviation served n := (deliver MatchString table data n).

(** The elements the publisher reads, as long as nobody disturbs them. *)
Definition window p w : list nat := take (pb_len p) (array p w).

(** The publisher goes through [xs], whose elements are members. *)
Record passing (xs : list nat) w p : Prop := {
  pa_world : world_ok w;
  pa_window : window p w = xs;
  pa_length : pb_len p = length xs;
  pa_members i : i ∈ xs -> i ∈ elems (grp w);
  pa_next : (pb_next p <= length xs)%nat;
  pa_polled i : pb_phase p = Polling i -> xs !! pb_next p = Some i
}.
(** The member whose queue is polled still wants the packet. *)
Definition wants (i : nat) w p : Prop :=
  pb_phase p = Polling i -> exists n, nodes w !! i = Some n /\ MatchFilters MatchString (topics n) table = true.

Lemma window_lookup p w k : (k < pb_len p)%nat -> array p w !! k = window p w !! k.
Proof. intros Hk. unfold window. by rewrite lookup_take_lt. Qed.
Lemma passing_member xs w p i : passing xs w p -> i ∈ xs ->
  exists n, nodes w !! i = Some n /\ online n = true /\ queueClosed n = false.
Proof.
  intros Hp Hi. pose proof (pa_world _ _ _ Hp) as Hw. destruct (ok_group w Hw i) as (n & En & Ho); [by apply Hp|].
  exists n. split_and!; [done..|]. apply node_ok_open; [|done]. by apply (ok_nodes w Hw i n En).
Qed.

Lemma served_online n : online (served n) = online n.
Proof. unfold deliver. by destruct (online n && _). Qed.
Lemma queued_ok w i n q : world_ok w -> nodes w !! i = Some n -> online n = true -> queueClosed n = false ->
  world_ok (with_nodes (<[i := with_queue (sendQueue n ++ [q]) n]> (nodes w)) w).
Proof.
  intros Hw En Ho Hq. apply (world_ok_put w i n); [done..| |done]. eapply stable_at; [by apply (ok_nodes w Hw i n En)|].
  by constructor.
Qed.

(** A move of the publisher: it stays where it is, or it is done with a member,
    who has got what it should if it still wanted it. *)
Inductive progress (xs : list nat) w p : world -> publication -> Prop :=
  | pr_stay p' : pb_next p' = pb_next p -> (forall i, wants i w p -> wants i w p') -> progress xs w p w p'
  | pr_done i n n' w' p' : xs !! pb_next p = Some i -> pb_next p' = S (pb_next p) -> pb_phase p' = Ranging ->
      nodes w !! i = Some n -> nodes w' = <[i := n']> (nodes w) -> (wants i w p -> n' = served n) -> progress xs w p w' p'.

Lemma publisher_moves xs w p : passing xs w p -> exists w' p', publish_step table data (w, p) = ((w', p'), Ret tt) /\
  passing xs w' p' /\ grp w' = grp w /\ pb_arr p' = pb_arr p /\ progress xs w p w' p'.
Proof.
  intros Hp. pose proof Hp as [Hw Ewin Elen Hmem Hnext Hpoll]. unfold publish_step. destruct (pb_phase p) as [|i] eqn:Eph.
  - destruct (Nat.leb_spec (pb_len p) (pb_next p)); [exists w, p; split_and!; auto; by constructor|].
    rewrite window_lookup, Ewin by done.
    destruct (lookup_lt_is_Some_2 xs (pb_next p)) as [i Ei]; [lia|]. rewrite Ei.
    destruct (passing_member xs w p i Hp) as (n & En & Ho & _); [by eapply list_elem_of_lookup_2|]. rewrite En.
    exists w. eexists. split; [reflexivity|]. destruct (MatchFilters MatchString (topics n) table) eqn:Em; cbn [andb].
    + rewrite Ho. split_and!; [|done..|]; [split; try done; by intros j [= <-]|]. constructor; [done|].
      intros j _ [= <-]. by exists n.
    + split_and!; [split; try done; cbn; lia|done..|]. apply (pr_done _ _ _ i n n); try done; [by rewrite insert_id|].
      intros _. unfold deliver. by rewrite Em, andb_false_r.
  - pose proof (Hpoll i eq_refl) as Ei.
    destruct (passing_member xs w p i Hp) as (n & En & Ho & Hq); [by eapply list_elem_of_lookup_2|]. rewrite En.
    destruct (Z.ltb_spec (len (sendQueue n)) tcpMaxSendQueue); [|exists w, p; split_and!; auto; by constructor].
    assert (Ec : chan_send (H:=host) i data w = (put_node i (with_queue (sendQueue n ++ [data]) n) w, Ret tt)).
    { unfold chan_send. rewrite (bind_the_node _ _ _ n) by exact En. rewrite Hq. by apply upd_node_eq. }
    rewrite Ec. eexists _, _. split; [reflexivity|]. split_and!; [|done..|].
    + split; try done; [by apply queued_ok|]. cbn. apply lookup_lt_Some in Ei. lia.
    + apply (pr_done _ _ _ i n (with_queue (sendQueue n ++ [data]) n)); try done. intros Hwant.
      destruct (Hwant Eph) as (n0 & E0 & Hm). rewrite En in E0. injection E0 as <-. unfold deliver. by rewrite Ho, Hm.
Qed.

(** The end of the loop. *)
Definition finished p : Prop := pb_phase p = Ranging /\ (pb_len p <= pb_next p)%nat.

(** ** Nobody leaves *)

(** A schedule in which other goroutines run between the publisher's moves:
    members may join, subscribe, be sent to, but nobody leaves; every handler
    of another goroutine returns. *)
Fixpoint calm (ms : list move) (x : world * publication) : Prop :=
  match ms with
  | [] => True
  | Publisher :: ms => calm ms (step Publisher x).1
  | Other e :: ms =>
      (event e x.1).2 = Ret tt /\ elems (grp x.1) `prefix_of` elems (grp (event e x.1).1) /\
      calm ms (step (Other e) x).1
  end.

(** Nothing but the publisher changes node [i]. *)
Fixpoint untouched (i : nat) (ms : list move) (x : world * publication) : Prop :=
  match ms with
  | [] => True
  | Publisher :: ms => untouched i ms (step Publisher x).1
  | Other e :: ms => nodes (event e x.1).1 !! i = nodes x.1 !! i /\ untouched i ms (step (Other e) x).1
  end.

(** The node that gets the packet in a move, and those of a schedule. *)
Definition gets_packet (m : move) (x : world * publication) : list nat :=
  match m, pb_phase x.2 with
  | Publisher, Polling i =>
      match nodes x.1 !! i with
      | Some n => if len (sendQueue n) <? tcpMaxSendQueue then [i] else []
      | None => []
      end
  | _, _ => []
  end.
Fixpoint sends (ms : list move) (x : world * publication) : list nat :=
  match ms with
  | [] => []
  | m :: ms => gets_packet m x ++ sends ms (step m x).1
  end.

(** The members the publisher looked at, and those it found to want the
    packet: the ones it has sent to and the one it is polling. *)
Definition wanting p : list nat := (filter (fun ib => ib.2 = true) (pb_seen p)).*1.
Definition polled p : list nat := match pb_phase p with Polling i => [i] | Ranging => [] end.
Record record_of (xs sent : list nat) p : Prop := {
  rc_seen : (pb_seen p).*1 = take (pb_next p) xs ++ polled p;
  rc_sent : sent ++ polled p = wanting p
}.

Lemma publisher_records xs sent w p w' p' : passing xs w p -> record_of xs sent p ->
  publish_step table data (w, p) = ((w', p'), Ret tt) -> record_of xs (sent ++ gets_packet Publisher (w, p)) p'.
Proof.
  intros Hp [Hseen Hsent]. pose proof Hp as [Hw Ewin Elen _ Hnext Hpoll]. unfold publish_step, gets_packet. cbn [fst snd].
  unfold polled in *. destruct (pb_phase p) as [|i] eqn:Eph; rewrite ?app_nil_r in *.
  - destruct (Nat.leb_spec (pb_len p) (pb_next p)) as [Hle|Hlt].
    { intros [= <- <-]. split; unfold polled; by rewrite Eph, ?app_nil_r. }
    rewrite window_lookup, Ewin by done. destruct (xs !! pb_next p) as [i|] eqn:Ei; [|done].
    destruct (nodes w !! i) as [n|]; [|done]. intros [= <- <-]. split; unfold wanting, polled; cbn [look pb_seen pb_phase pb_next].
    + rewrite fmap_app. cbn. rewrite Hseen. destruct (_ && _); cbn; rewrite ?app_nil_r; [done|]. by rewrite (take_S_r xs _ i).
    + rewrite filter_app, fmap_app. fold (wanting p). rewrite <- Hsent. by destruct (_ && _).
  - pose proof (Hpoll i eq_refl) as Ei. destruct (nodes w !! i) as [n|] eqn:En; [|done].
    destruct (len (sendQueue n) <? tcpMaxSendQueue).
    + intros E. assert (p' = advance p) as -> by congruence. split; unfold polled; cbn [advance pb_seen pb_phase pb_next].
      * by rewrite app_nil_r, Hseen, (take_S_r xs _ i).
      * by rewrite app_nil_r.
    + intros [= <- <-]. rewrite app_nil_r. split; unfold polled; by rewrite Eph.
Qed.

Record undisturbed (xs : list nat) (i : nat) (n : node) w p : Prop := {
  un_passing : passing xs w p;
  un_prefix : xs `prefix_of` elems (grp w);
  un_wants : wants i w p;
  un_node : nodes w !! i = Some (if decide (i ∈ take (pb_next p) xs) then served n else n)
}.

Lemma take_prefix {A} (l1 l2 : list A) : l1 `prefix_of` l2 -> take (length l1) l2 = l1.
Proof. intros [k ->]. by rewrite take_app_length. Qed.
Lemma array_elems w k : (k <= length (elems (grp w)))%nat -> take k (sl_arr (grp w)) = take k (elems (grp w)).
Proof. intros Hk. unfold elems in *. rewrite length_take in Hk. rewrite take_take. f_equal. lia. Qed.

Lemma passing_other xs w p e : passing xs w p -> xs `prefix_of` elems (grp w) -> (event e w).2 = Ret tt ->
  elems (grp w) `prefix_of` elems (grp (event e w).1) ->
  passing xs (event e w).1 (meanwhile e w p) /\ xs `prefix_of` elems (grp (event e w).1).
Proof.
  intros [Hw Ewin Elen Hmem Hnext Hpoll] Hpre He Hstay.
  assert (Hpre' : xs `prefix_of` elems (grp (event e w).1)) by (by etrans). split; [|done].
  split; cbn; try done.
  - by apply preserves_on_world_event.
  - unfold window, array in *. cbn. destruct (pb_arr p) as [a|]; [done|]. cbn [default] in *.
    destruct (left_array e w) as [a|] eqn:Ea; cbn [default].
    + destruct e; try done; cbn [left_array] in Ea; [case_match; [done|]; by injection Ea as <-|].
      cbn in He, Hpre'. unfold groups_reload, groups_close, bind, modify, SubGroups.host, GoSem.gets in He, Hpre'.
      destruct (range_live grp close 0 (sl_len (grp w)) w) as [w1 [[]| | |]]; try done. cbn in Hpre'.
      apply prefix_nil_inv in Hpre'. rewrite Elen. by rewrite Hpre'.
    + rewrite Elen, array_elems by (by apply prefix_length). by apply take_prefix.
  - intros j Hj. destruct Hpre' as [k ->]. apply elem_of_app. by left.
Qed.

Lemma undisturbed_other xs i n w p e : undisturbed xs i n w p -> (event e w).2 = Ret tt ->
  elems (grp w) `prefix_of` elems (grp (event e w).1) -> nodes (event e w).1 !! i = nodes w !! i ->
  undisturbed xs i n (event e w).1 (meanwhile e w p).
Proof.
  intros [Hp Hpre Hwant Hn] He Hstay Hi. destruct (passing_other xs w p e Hp Hpre He Hstay) as [Hp' Hpre'].
  split; [done|done| |cbn; by rewrite Hi].
  intros Eph. destruct (Hwant Eph) as (n0 & E0 & Hm). exists n0. by rewrite Hi.
Qed.

Lemma undisturbed_publisher xs i n w p : NoDup xs -> undisturbed xs i n w p ->
  exists w' p', publish_step table data (w, p) = ((w', p'), Ret tt) /\ undisturbed xs i n w' p'.
Proof.
  intros Hnd [Hp Hpre Hwant Hn]. destruct (publisher_moves xs w p Hp) as (w' & p' & E & Hp' & Eg & _ & Hpr).
  exists w', p'. split; [done|]. split; [done|by rewrite Eg| |].
  - destruct Hpr as [p' _ Hw|j nj nj' w' p' _ _ Eph _ _ _]; [by apply Hw|]. intros E'. by rewrite Eph in E'.
  - destruct Hpr as [p' En _|j nj nj' w' p' Ej En _ Enj Ens Hg]; rewrite En; [done|]. rewrite Ens, (take_S_r xs _ j) by done.
    destruct (decide (j = i)) as [->|Hne].
    + rewrite lookup_insert_eq, decide_True by (apply elem_of_app; right; by left). f_equal. rewrite (Hg Hwant).
      rewrite Hn, decide_False in Enj; [by injection Enj as <-|]. intros Hin.
      apply elem_of_take in Hin as (k & Hk & Hlt). pose proof (NoDup_lookup xs _ _ _ Hnd Ej Hk). lia.
    + rewrite lookup_insert_ne by done. rewrite Hn. f_equal. apply decide_ext. rewrite elem_of_app, list_elem_of_singleton.
      split; [by left|]. intros [?|?]; [done|congruence].
Qed.

Lemma step_other e w p : (event e w).2 = Ret tt -> step (Other e) (w, p) = (((event e w).1, meanwhile e w p), Ret tt).
Proof. intros He. cbn [on_move fst snd]. by rewrite He. Qed.

(** The publisher among calm handlers. *)
Lemma calm_run xs ms : forall x sent, calm ms x -> passing xs x.1 x.2 -> xs `prefix_of` elems (grp x.1) -> record_of xs sent x.2 ->
  exists x', range ms step x = (x', Ret tt) /\ passing xs x'.1 x'.2 /\ record_of xs (sent ++ sends ms x) x'.2.
Proof.
  induction ms as [|m ms IH]; intros [w p] sent Hc Hp Hpre Hr; cbn [fst snd] in *.
  { exists (w, p). cbn [sends]. by rewrite app_nil_r. }
  destruct m as [|e]; cbn [calm range sends] in *.
  - destruct (publisher_moves xs w p Hp) as (w' & p' & E & Hp' & Eg & _).
    assert (Es : step Publisher (w, p) = ((w', p'), Ret tt)) by exact E. rewrite Es in Hc |- *. cbn [fst snd] in *.
    destruct (IH (w', p') (sent ++ gets_packet Publisher (w, p)) Hc Hp') as (x' & E' & H'); [cbn [fst]; by rewrite Eg| |].
    { by eapply publisher_records. }
    exists x'. rewrite (bind_ret _ _ _ _ _ Es), E'. by rewrite <- app_assoc in H'.
  - destruct Hc as (He & Hstay & Hc). cbn [fst] in He, Hstay. rewrite (step_other e w p He) in Hc |- *. cbn [fst snd] in *.
    destruct (passing_other xs w p e Hp Hpre He Hstay) as [Hp' Hpre'].
    destruct (IH ((event e w).1, meanwhile e w p) sent Hc Hp' Hpre') as (x' & E' & H').
    { destruct Hr as [H1 H2]. split; done. }
    exists x'. rewrite (bind_ret _ _ _ _ _ (step_other e w p He)), E'. done.
Qed.

(** A node nobody else touches meanwhile. *)
Lemma untouched_run xs i n ms : NoDup xs -> forall x, calm ms x -> untouched i ms x -> undisturbed xs i n x.1 x.2 ->
  exists x', range ms step x = (x', Ret tt) /\ undisturbed xs i n x'.1 x'.2.
Proof.
  intros Hnd. induction ms as [|m ms IH]; intros [w p] Hc Ht Hu; [by eexists|]. cbn [fst snd] in *.
  destruct m as [|e]; cbn [calm untouched range] in *.
  - destruct (undisturbed_publisher xs i n w p Hnd Hu) as (w' & p' & E & Hu').
    assert (Es : step Publisher (w, p) = ((w', p'), Ret tt)) by exact E. rewrite Es in Hc, Ht.
    destruct (IH _ Hc Ht Hu') as (x' & E' & Hx'). exists x'. by rewrite (bind_ret _ _ _ _ _ Es).
  - destruct Hc as (He & Hstay & Hc), Ht as [Hi Ht]. cbn [fst] in *. rewrite (step_other e w p He) in Hc, Ht.
    destruct (IH _ Hc Ht (undisturbed_other xs i n w p e Hu He Hstay Hi)) as (x' & E' & Hx').
    exists x'. by rewrite (bind_ret _ _ _ _ _ (step_other e w p He)).
Qed.

Lemma wanting_looked p : wanting p `sublist_of` (pb_seen p).*1.
Proof.
  unfold wanting. induction (pb_seen p) as [|[i b] l IH]; [done|]. rewrite filter_cons. case_decide; cbn.
  - by apply sublist_skip.
  - by apply sublist_cons.
Qed.

Lemma passing_begin w : world_ok w -> passing (elems (grp w)) w (begin w).
Proof.
  intros Hw. assert (Hl : sl_len (grp w) = length (elems (grp w))) by (by rewrite elems_length by apply Hw).
  split; try done; cbn; lia.
Qed.

(** C14: As long as nobody leaves, publishing without a lock is as good as with
    one: however the other goroutines' handlers - accepting connections,
    reading subscriptions, sending, beating - fall between the publisher's
    moves, as long as those handlers return, the publisher does not panic and
    the service keeps its invariant.  When the publisher is done it has looked
    at every member of its start exactly once, in order, and at nobody else,
    and has put the packet once into the queue of each of those whose topics
    matched when it looked - so nothing into the queue of one who joined
    meanwhile ([sends] are the nodes the packet was queued for, in order).  A
    node that nothing else happens to meanwhile ends as [sendAll] alone leaves
    it. *)
Theorem publish_calm w ms : world_ok w -> calm ms (w, begin w) ->
  exists w' p', range ms step (w, begin w) = ((w', p'), Ret tt) /\ world_ok w' /\
    (finished p' ->
      (pb_seen p').*1 = elems (grp w) /\ sends ms (w, begin w) = (filter (fun ib => ib.2 = true) (pb_seen p')).*1 /\
      NoDup (sends ms (w, begin w)) /\ (forall i, i ∈ sends ms (w, begin w) -> i ∈ elems (grp w)) /\
      forall i n, nodes w !! i = Some n -> untouched i ms (w, begin w) ->
        nodes w' !! i = Some (if decide (i ∈ elems (grp w)) then served n else n)).
Proof.
  intros Hw Hc. pose proof (world_slice w Hw) as [_ Hnd]. pose proof (passing_begin w Hw) as Hp0.
  destruct (calm_run (elems (grp w)) ms (w, begin w) [] Hc Hp0) as ([w' p'] & E & Hp & [Hseen Hsent]); [done|by split|].
  cbn [fst snd app] in *. exists w', p'. split_and!; [done|apply Hp|]. intros [Eph Hf].
  assert (Hall : take (pb_next p') (elems (grp w)) = elems (grp w)).
  { apply take_ge. rewrite <- (pa_length _ _ _ Hp). lia. }
  unfold polled in *. rewrite Eph in *. rewrite app_nil_r in *. rewrite Hall in Hseen.
  assert (Hsub : sends ms (w, begin w) `sublist_of` elems (grp w)).
  { rewrite Hsent, <- Hseen. apply wanting_looked. }
  split_and!; [done|done|by eapply sublist_NoDup| |].
  - intros i Hi. by eapply elem_of_sublist.
  - intros i n En Ht. destruct (untouched_run (elems (grp w)) i n ms Hnd (w, begin w) Hc Ht) as ([w2 p2] & E2 & [_ _ _ Hn]).
    { split; [done|done|by intros Eq|]. cbn. by rewrite En. }
    rewrite E in E2. injection E2 as <- <-. cbn [fst snd] in Hn. by rewrite Hn, Hall.
Qed.

(** ** Somebody leaves *)

(** The publisher on its own, with room in all queues. *)
Definition all_get (ns : gmap nat node) (l : list nat) : gmap nat node :=
  foldl (fun ns i => alter (deliver MatchString table data) i ns) ns l.
Lemma all_get_other l i : forall ns, i ∉ l -> all_get ns l !! i = ns !! i.
Proof.
  induction l as [|j l IH]; intros ns Hi; [done|]. apply not_elem_of_cons in Hi as [Hne Hi]. cbn [all_get foldl].
  fold (all_get (alter (deliver MatchString table data) j ns) l). rewrite IH by done. by rewrite lookup_alter_ne.
Qed.
Lemma all_get_app ns l1 l2 : all_get ns (l1 ++ l2) = all_get (all_get ns l1) l2.
Proof. unfold all_get. by rewrite foldl_app. Qed.
Lemma all_get_once l i : NoDup l -> i ∈ l -> forall ns, all_get ns l !! i = deliver MatchString table data <$> ns !! i.
Proof.
  intros Hnd Hi ns. apply list_elem_of_split in Hi as (l1 & l2 & ->). apply NoDup_app in Hnd as (_ & H1 & [H2 _]%NoDup_cons).
  rewrite all_get_app. cbn [all_get foldl]. fold (all_get (alter (deliver MatchString table data) i (all_get ns l1)) l2).
  rewrite all_get_other, lookup_alter_eq by done. f_equal. apply all_get_other. intros Hin. apply (H1 i Hin). by left.
Qed.

Definition room (k : nat) w : Prop := forall i n, nodes w !! i = Some n -> len (sendQueue n) + Z.of_nat k <= tcpMaxSendQueue.

Lemma one_member xs w p i : passing xs w p -> pb_phase p = Ranging -> xs !! pb_next p = Some i -> room 1 w ->
  exists m w' p', range (replicate m Publisher) step (w, p) = ((w', p'), Ret tt) /\ passing xs w' p' /\
    pb_phase p' = Ranging /\ pb_next p' = S (pb_next p) /\
    nodes w' = alter (deliver MatchString table data) i (nodes w).
Proof.
  intros Hp Eph Ei Hroom. destruct (publisher_moves xs w p Hp) as (w1 & p1 & E1 & Hp1 & Eg & _ & Hpr).
  assert (Es1 : step Publisher (w, p) = ((w1, p1), Ret tt)) by exact E1.
  assert (Hdone : forall w0 p0 w2 p2 j n n', xs !! pb_next p0 = Some j -> pb_next p0 = pb_next p -> nodes w0 = nodes w ->
    nodes w0 !! j = Some n -> nodes w2 = <[j := n']> (nodes w0) -> n' = served n -> pb_next p2 = S (pb_next p0) ->
    pb_next p2 = S (pb_next p) /\ nodes w2 = alter (deliver MatchString table data) i (nodes w)).
  { intros w0 p0 w2 p2 j n n' Ej Ep Ew En Ens -> En2. rewrite En2, Ep. split; [done|]. rewrite Ep, Ei in Ej.
    injection Ej as <-. rewrite Ens, Ew. rewrite Ew in En. apply map_eq. intros k. destruct (decide (i = k)) as [<-|Hne].
    - by rewrite lookup_insert_eq, lookup_alter_eq, En.
    - by rewrite lookup_insert_ne, lookup_alter_ne. }
  inversion Hpr as [p1' En1 Hw1|j nj nj' w1' p1' Ej En1 Eph1 Enj Ens Hg]; subst.
  2: { exists 1%nat, w1, p1. cbn [replicate range]. rewrite (bind_ret _ _ _ _ _ Es1). split; [done|]. split; [done|]. split; [done|].
       apply (Hdone w p w1 p1 j nj nj'); try done. apply Hg. intros E. congruence. }
  (* the look alone: the queue is polled next *)
  assert (Hlt : (pb_next p < pb_len p)%nat) by (apply lookup_lt_Some in Ei; rewrite (pa_length _ _ _ Hp); lia).
  unfold publish_step in E1. rewrite Eph, (proj2 (Nat.leb_gt _ _)) in E1 by done.
  rewrite window_lookup, (pa_window _ _ _ Hp), Ei in E1 by done.
  destruct (passing_member xs w1 p i Hp) as (n & En & Ho & _); [by eapply list_elem_of_lookup_2|]. rewrite En in E1.
  injection E1 as <-. destruct (MatchFilters MatchString (topics n) table && online n) eqn:Em; [|cbn in En1; lia].
  destruct (publisher_moves xs w1 _ Hp1) as (w2 & p2 & E2 & Hp2 & _ & _ & Hpr2).
  assert (Es2 : step Publisher (w1, look i true p) = ((w2, p2), Ret tt)) by exact E2.
  exists 2%nat, w2, p2. cbn [replicate range]. rewrite (bind_ret _ _ _ _ _ Es1), (bind_ret _ _ _ _ _ Es2). split; [done|]. split; [done|].
  unfold publish_step in E2. cbn [look pb_phase] in E2. rewrite En in E2.
  rewrite (proj2 (Z.ltb_lt _ _)) in E2 by (pose proof (Hroom i n En); lia).
  inversion Hpr2 as [p2' Ep2 _|j nj nj' w2' p2' Ej Ep2 Eph2 Enj Ens Hg]; subst.
  { injection E2 as _ <- _. cbn in Ep2. lia. }
  split; [done|]. apply (Hdone w1 (look i true p) w2 p2 j nj nj'); try done. apply Hg. intros _. exists n.
  cbn in Ej. rewrite Ei in Ej. injection Ej as <-. split; [done|]. by apply andb_prop in Em as [? _].
Qed.

Lemma room_served k w i w' : room (S k) w -> nodes w' = alter (deliver MatchString table data) i (nodes w) -> room k w'.
Proof.
  intros Hr E j n. rewrite E. destruct (decide (i = j)) as [->|Hne].
  - rewrite lookup_alter_eq. intros (n0 & En & ->)%fmap_Some. pose proof (Hr j n0 En). unfold deliver.
    destruct (online n0 && _); cbn; unfold len in *; rewrite ?length_app; cbn [length]; lia.
  - rewrite lookup_alter_ne by done. intros En. pose proof (Hr j n En). lia.
Qed.

Lemma alone_finishes xs : forall k w p, passing xs w p -> pb_phase p = Ranging -> length xs = (pb_next p + k)%nat -> room k w ->
  exists m w' p', range (replicate m Publisher) step (w, p) = ((w', p'), Ret tt) /\ finished p' /\
    nodes w' = all_get (nodes w) (drop (pb_next p) xs).
Proof.
  induction k as [|k IH]; intros w p Hp Eph El Hr.
  { exists 0%nat, w, p. cbn. split_and!; [done|split; [done|rewrite (pa_length _ _ _ Hp); lia]|]. by rewrite drop_ge by lia. }
  destruct (lookup_lt_is_Some_2 xs (pb_next p)) as [i Ei]; [lia|].
  destruct (one_member xs w p i Hp Eph Ei) as (m1 & w1 & p1 & E1 & Hp1 & Eph1 & En1 & Ens1).
  { intros j n En. pose proof (Hr j n En). lia. }
  destruct (IH w1 p1 Hp1 Eph1) as (m2 & w2 & p2 & E2 & Hf & Ens2); [lia|by eapply room_served|].
  exists (m1 + m2)%nat, w2, p2. rewrite replicate_add, (range_app _ _ _ _ _ E1). split_and!; [done..|].
  rewrite Ens2, Ens1, En1, (drop_S xs i (pb_next p) Ei). done.
Qed.

(** A member whose connection ends: its reader closes it. *)
Lemma leaves w a n : world_ok w -> nodes w !! a = Some n -> online n = true ->
  exists w', event (WNode a (EvRead None)) w = (w', Ret tt) /\ world_ok w' /\
    grp w' = remove_elem 0%nat growcap a (grp w) /\
    nodes w' = <[a := with_closed_queue (with_offline n)]> (nodes w).
Proof.
  intros Hw En Ho. destruct (world_ok_close growcap w a n Hw En Ho) as (w' & Ec & H).
  exists w'. split; [|exact H]. cbn [on_world_event on_event onConnect_turn].
  assert (E1 : (close (H:=host) a ;; ret false) w = (w', Ret false)) by (by rewrite (bind_ret _ _ _ _ _ Ec)).
  by rewrite (bind_ret _ _ _ _ _ E1).
Qed.

(** What is left of the window when a member leaves: the ones behind it move up
    and the last one stands there twice. *)
Lemma window_after_leave w w1 p la a lb z : world_ok w -> elems (grp w) = (la ++ a :: lb) ++ [z] ->
  pb_arr p = None -> pb_len p = sl_len (grp w) -> grp w1 = remove_elem 0%nat growcap a (grp w) ->
  window p w1 = la ++ lb ++ [z; z] /\ elems (grp w1) = la ++ lb ++ [z].
Proof.
  intros Hw Ee Ea El Eg. pose proof (world_slice w Hw) as [Hsw Hnd]. rewrite Ee, <- app_assoc in Hnd.
  assert (Hni : a ∉ la) by (apply NoDup_app in Hnd as (_ & H & _); intros Hin; apply (H a Hin); by left).
  destruct (grp w) as [arr l] eqn:Egrp. unfold elems in Ee. cbn [sl_arr sl_len] in *.
  assert (Earr : arr = la ++ a :: (lb ++ [z]) ++ drop l arr).
  { rewrite <- (take_drop l arr) at 1. rewrite Ee. by rewrite <- !app_assoc. }
  assert (Hl : l = (length la + S (length (lb ++ [z])))%nat).
  { apply (f_equal length) in Ee. unfold swf in Hsw. cbn in Hsw. rewrite length_take, Nat.min_l in Ee by lia.
    rewrite Ee, !length_app. cbn. lia. }
  rewrite Earr, Hl, remove_elem_split in Eg by done. rewrite (drop_to_last (lb ++ [z]) a z) in Eg by (by rewrite last_snoc).
  unfold window, array, elems. rewrite Ea, Eg, El, Hl. cbn [default sl_arr sl_len]. split.
  - replace (la ++ (lb ++ [z]) ++ [z] ++ drop _ arr) with ((la ++ lb ++ [z; z]) ++ drop (length la + S (length (lb ++ [z]))) arr).
    2: { by rewrite <- !app_assoc. }
    apply take_app_length'. rewrite !length_app. cbn. lia.
  - rewrite (app_assoc la (lb ++ [z])). rewrite take_app_length' by (rewrite !length_app; lia). done.
Qed.

(** C15: When a member leaves that the publisher has passed, the next member is
    skipped - the event is lost for a subscriber whose connection is fine -
    and the last one gets the packet twice. *)
Theorem leave_skips w p l1 a b l2 z : world_ok w ->
  pb_phase p = Ranging -> pb_arr p = None -> pb_len p = sl_len (grp w) -> pb_next p = length l1 ->
  elems (grp w) = l1 ++ b :: l2 ++ [z] -> a ∈ l1 -> room (length l2 + 2) w ->
  exists m w' p', range (Other (WNode a (EvRead None)) :: replicate m Publisher) step (w, p) = ((w', p'), Ret tt) /\
    finished p' /\
    nodes w' !! b = nodes w !! b /\
    (forall i, i ∈ l2 -> nodes w' !! i = deliver MatchString table data <$> nodes w !! i) /\
    nodes w' !! z = deliver MatchString table data <$> (deliver MatchString table data <$> nodes w !! z).
Proof.
  intros Hw Eph Ea El En Ee Ha Hr. apply list_elem_of_split in Ha as (la & lb & ->).
  assert (Hnd : NoDup (elems (grp w))) by apply Hw. rewrite Ee in Hnd.
  destruct (ok_group w Hw a) as (na & Ena & Hon).
  { rewrite Ee, <- app_assoc. apply elem_of_app. right. by left. }
  destruct (leaves w a na Hw Ena Hon) as (w1 & E1 & Hw1 & Eg1 & Ens1).
  assert (Ee' : elems (grp w) = (la ++ a :: (lb ++ b :: l2)) ++ [z]).
  { rewrite Ee, <- !app_assoc. cbn. by rewrite <- !app_assoc. }
  destruct (window_after_leave w w1 p la a (lb ++ b :: l2) z Hw Ee' Ea El Eg1) as [Ewin Eel].
  set (xs := la ++ (lb ++ b :: l2) ++ [z; z]) in *.
  set (p1 := meanwhile (WNode a (EvRead None)) w p).
  assert (Hxs : length xs = (pb_next p1 + (length l2 + 2))%nat).
  { cbn. rewrite En. unfold xs. rewrite !length_app. cbn. lia. }
  assert (Hp1 : passing xs w1 p1).
  { split; [done| | | |lia|].
    - unfold window, array in *. cbn. rewrite Ea in *. exact Ewin.
    - cbn. rewrite El, <- (elems_length (grp w)) by apply Hw. rewrite Ee'. unfold xs. rewrite !length_app. cbn [length]. rewrite !length_app. cbn [length]. lia.
    - intros i. rewrite Eel. unfold xs. rewrite !elem_of_app. cbn. rewrite !elem_of_cons. intuition auto.
    - cbn. rewrite Eph. done. }
  destruct (alone_finishes xs (length l2 + 2) w1 p1 Hp1) as (m & w2 & p2 & E2 & Hf & Ens2); [exact Eph|exact Hxs| |].
  { intros i n. rewrite Ens1. destruct (decide (a = i)) as [->|Hne].
    - rewrite lookup_insert_eq. intros [= <-]. exact (Hr i na Ena).
    - rewrite lookup_insert_ne by done. apply Hr. }
  assert (Edrop : drop (pb_next p1) xs = l2 ++ [z; z]).
  { replace xs with ((la ++ lb ++ [b]) ++ l2 ++ [z; z]) by (unfold xs; rewrite <- !app_assoc; done).
    apply drop_app_length'. cbn. rewrite En, !length_app. cbn. lia. }
  assert (Hne : forall i, i ∈ b :: l2 ++ [z] -> i <> a).
  { intros i Hi ->. rewrite <- app_assoc in Hnd. apply NoDup_app in Hnd as (_ & _ & Hnd). apply NoDup_cons in Hnd as [Hnd _].
    apply Hnd, elem_of_app. by right. }
  assert (Hsame : forall i, i ∈ b :: l2 ++ [z] -> nodes w1 !! i = nodes w !! i).
  { intros i Hi. rewrite Ens1. by rewrite lookup_insert_ne by (intros <-; by apply (Hne a Hi)). }
  apply NoDup_app in Hnd as (_ & _ & [Hb Hnd]%NoDup_cons). apply NoDup_app in Hnd as (Hnd2 & Hz & _).
  exists m, w2, p2. split_and!; [|exact Hf|..].
  - cbn [range]. assert (Es : step (Other (WNode a (EvRead None))) (w, p) = ((w1, p1), Ret tt)).
    { cbn [on_move fst snd]. by rewrite E1. }
    by rewrite (bind_ret _ _ _ _ _ Es).
  - rewrite Ens2, Edrop, all_get_other; [apply Hsame; by left|]. intros Hin. apply Hb. rewrite elem_of_app in *. 
    destruct Hin as [?|Hin]; [by left|right]. rewrite !elem_of_cons in Hin. destruct Hin as [->|[->|Hin%not_elem_of_nil]]; [by left..|done].
  - intros i Hi. rewrite Ens2, Edrop, all_get_app, all_get_other; [|intros Hin; apply (Hz i Hi); set_solver].
    rewrite all_get_once by done. f_equal. apply Hsame. right. apply elem_of_app. by left.
  - rewrite Ens2, Edrop, all_get_app. cbn [all_get foldl]. rewrite !lookup_alter_eq, all_get_other.
    + rewrite Hsame; [done|]. right. apply elem_of_app. right. by left.
    + intros Hin. apply (Hz z Hin). by left.
Qed.

(** Between its look at the status and the send on the channel nothing keeps
    the publisher's node open: when its connection ends there, the channel is
    closed and the send panics, in the publisher's goroutine. *)
Theorem leave_panics w p i n : world_ok w -> nodes w !! i = Some n -> online n = true -> pb_phase p = Ranging ->
  (pb_next p < pb_len p)%nat -> array p w !! pb_next p = Some i ->
  MatchFilters MatchString (topics n) table = true -> len (sendQueue n) < tcpMaxSendQueue ->
  (range [Publisher; Other (WNode i (EvRead None)); Publisher] step (w, p)).2 = Panic.
Proof.
  intros Hw En Ho Eph Hlt Hi Hm Hroom.
  assert (E1 : step Publisher (w, p) = ((w, look i true p), Ret tt)).
  { cbn [on_move]. unfold publish_step. rewrite Eph, (proj2 (Nat.leb_gt _ _)) by done. by rewrite Hi, En, Hm, Ho. }
  destruct (leaves w i n Hw En Ho) as (w1 & El & Hw1 & _ & Ens).
  assert (E2 : step (Other (WNode i (EvRead None))) (w, look i true p) = ((w1, meanwhile (WNode i (EvRead None)) w (look i true p)), Ret tt)).
  { cbn [on_move fst snd]. by rewrite El. }
  cbn [range]. rewrite (bind_ret _ _ _ _ _ E1), (bind_ret _ _ _ _ _ E2). unfold bind, on_move, publish_step.
  cbn [meanwhile look pb_phase]. rewrite Ens, lookup_insert_eq. cbn [sendQueue with_closed_queue with_offline].
  rewrite (proj2 (Z.ltb_lt _ _)) by done. unfold chan_send.
  rewrite (bind_the_node _ _ _ (with_closed_queue (with_offline n))) by (cbn; by rewrite Ens, lookup_insert_eq). done.
Qed.
End Publishing.
End Interleave.

(** ** Concrete instances: three subscribers, the second one picky *)
Section InterleaveInstances.
#[local] Definition twice (c n : nat) : nat := (2 * n)%nat.
#[local] Definition same (f t : bytes) : option bool := Some (bool_decide (f = t)).
#[local] Abbreviation three := SubGroups.three.
#[local] Definition users : bytes := gostr "db.users".
#[local] Definition doc : bytes := gostr "{}".
#[local] Abbreviation move_of := (on_move twice id same users doc).


#[local] Definition with_newcomer : list move :=
  [Publisher; Other (WConnect 10 0); Publisher; Other (WNode 2 (EvRead (Some (PackPro FlagSetPro users))));
    Publisher; Publisher; Publisher; Publisher].

Lemma publish_calm_witness : exists w' p',
  range with_newcomer move_of (three, begin three) = ((w', p'), Ret tt) /\
  sends twice id same users doc with_newcomer (three, begin three) = [0%nat; 2%nat] /\
  elems (grp w') = [0; 1; 2; 3]%nat /\
  nodes w' !! 0%nat = deliver same users doc <$> nodes three !! 0%nat.
Proof.
  destruct (nodes three !! 0%nat) as [n|] eqn:En; [|by vm_compute in En].
  destruct (publish_calm twice id same users doc three with_newcomer) as (w' & p' & E & _ & H).
  - exact SubGroups.three_ok.
  - split_and!; try (vm_compute; reflexivity); by eexists.
  - pose proof (f_equal (fun r => r.1) E) as Ep. cbn [fst] in Ep.
    destruct H as (_ & _ & _ & _ & H).
    + pose proof (f_equal snd Ep) as Ep'. cbn [snd] in Ep'. rewrite <- Ep'. split; [reflexivity|]. vm_compute. lia.
    + exists w', p'. split; [exact E|]. split; [vm_compute; reflexivity|]. split.
      * pose proof (f_equal fst Ep) as Ew. cbn [fst] in Ew. rewrite <- Ew. vm_compute. reflexivity.
      * rewrite (H 0%nat n En); [reflexivity|]. vm_compute; repeat split.
Defined.

#[local] Definition past_first : publication := mkPub 1 3 None Ranging [(0%nat, true)].
#[local] Lemma three_have_room : room (length (@nil nat) + 2) three.
Proof.
  assert (H : map_Forall (fun _ n => sendQueue n = []) (nodes three)).
  { apply map_Forall_to_list. apply Forall_forall. intros [k n] Hkv.
    assert (Hb : forallb (fun kv => bool_decide (sendQueue kv.2 = [])) (map_to_list (nodes three)) = true) by (vm_compute; reflexivity).
    rewrite forallb_forall in Hb. apply list_elem_of_In, Hb, bool_decide_eq_true in Hkv. exact Hkv. }
  intros i n En. rewrite (H i n En). vm_compute. discriminate.
Qed.
Lemma leave_skips_witness : exists m w' p',
  range (Other (WNode 0 (EvRead None)) :: replicate m Publisher) move_of (three, past_first) = ((w', p'), Ret tt) /\
  nodes w' !! 1%nat = nodes three !! 1%nat /\
  sendQueue <$> nodes w' !! 2%nat = Some [doc; doc].
Proof.
  destruct (leave_skips twice id same users doc three past_first [0%nat] 0 1 [] 2) as (m & w' & p' & E & _ & Hb & _ & Hz).
  - exact SubGroups.three_ok.
  - reflexivity.
  - reflexivity.
  - reflexivity.
  - reflexivity.
  - reflexivity.
  - by left.
  - exact three_have_room.
  - exists m, w', p'. split; [exact E|]. split; [exact Hb|]. rewrite Hz. reflexivity.
Defined.

Lemma leave_panics_witness :
  (range [Publisher; Other (WNode 0 (EvRead None)); Publisher] move_of (three, begin three)).2 = Panic.
Proof.
  destruct (nodes three !! 0%nat) as [n|] eqn:En; [|by vm_compute in En].
  apply (leave_panics twice id same users doc three (begin three) 0 n); try reflexivity.
  - exact SubGroups.three_ok.
  - exact En.
  - vm_compute in En. by injection En as <-.
  - vm_compute. lia.
  - vm_compute in En. by injection En as <-.
  - vm_compute in En. by injection En as <-.
Defined.
End InterleaveInstances.
