(* ===== verification/SubClient.v ===== *)
(** * The subscriber's side of a subscription

    [src/client/tcp.go]: choosing a server, connecting and resubscribing,
    receiving events.  What the network and service discovery answer are
    inputs; the event callbacks act on a state [E] of their own, and
    [json.Unmarshal] is an argument; [Delivery.v] has it.

    Discovered servers are pointers, shared by the map [Services] and the
    reader's loop; [servers] is the heap they live in. *)
From S2P Require Import Prelude.
From S2P Require Import GoSem.
From S2P Require Import Framing.
From S2P Require Import Frame.
Set Default Proof Using "Type".

(** ** Data *)
Definition clientOffline : Z := 1.
Definition clientOnline : Z := 2.
Definition nodeOffline : Z := 1.
Definition nodeOnline : Z := 2.

Record serverNode := mkServerNode {
  offline : bool;
  host : bytes;
  port : Z;
  connects : Z
}.

(** A connection; [n_open] tells whether [conn] is not [nil]. *)
Record Node := mkNode {
  n_open : bool;
  n_status : Z;
  n_writes : list bytes       (* what was written to it *)
}.

Record Client (E : Type) := mkClient {
  node : option Node;
  buffer : bytes;
  Services : gmap bytes nat;
  servers : gmap nat serverNode;
  next_server : nat;
  times : Z;
  status : Z;
  topics : list bytes;
  current : option nat;       (* the server the reader's loop is connected to *)
  env : E
}.
Arguments mkClient {E}.
Arguments node {E}.
Arguments buffer {E}.
Arguments Services {E}.
Arguments servers {E}.
Arguments next_server {E}.
Arguments times {E}.
Arguments status {E}.
Arguments topics {E}.
Arguments current {E}.
Arguments env {E}.

Definition EV_ADD : Z := 1.
Definition EV_DELETE : Z := 2.

Section Client.
Context {J E : Type}.
Implicit Types c : Client E.

Definition with_node (n : option Node) c : Client E :=
  mkClient n (buffer c) (Services c) (servers c) (next_server c) (times c) (status c) (topics c)
    (current c) (env c).
Definition with_buffer (b : bytes) c : Client E :=
  mkClient (node c) b (Services c) (servers c) (next_server c) (times c) (status c) (topics c)
    (current c) (env c).
Definition with_Services (m : gmap bytes nat) c : Client E :=
  mkClient (node c) (buffer c) m (servers c) (next_server c) (times c) (status c) (topics c)
    (current c) (env c).
Definition with_servers (h : gmap nat serverNode) c : Client E :=
  mkClient (node c) (buffer c) (Services c) h (next_server c) (times c) (status c) (topics c)
    (current c) (env c).
Definition with_times (n : Z) c : Client E :=
  mkClient (node c) (buffer c) (Services c) (servers c) (next_server c) n (status c) (topics c)
    (current c) (env c).
Definition with_status (s : Z) c : Client E :=
  mkClient (node c) (buffer c) (Services c) (servers c) (next_server c) (times c) s (topics c)
    (current c) (env c).
Definition with_topics (l : list bytes) c : Client E :=
  mkClient (node c) (buffer c) (Services c) (servers c) (next_server c) (times c) (status c) l
    (current c) (env c).
Definition with_current (s : option nat) c : Client E :=
  mkClient (node c) (buffer c) (Services c) (servers c) (next_server c) (times c) (status c)
    (topics c) s (env c).
Definition with_env (e : E) c : Client E :=
  mkClient (node c) (buffer c) (Services c) (servers c) (next_server c) (times c) (status c)
    (topics c) (current c) e.

(** The state [NewClient] starts from, before its options. *)
Definition new_client (e : E) : Client E := mkClient None [] ∅ ∅ 0 0 clientOffline [] None e.

Definition has (bit s : Z) : bool := 0 <? Z.land s bit.

(** ** Service discovery *)

(** [fmt.Sprintf("%v:%v", ip, port)] *)
Definition service_key (ip : bytes) (p : Z) : bytes := ip ++ gostr ":" ++ gostr (pretty.pretty p).

(** A server not known under its key is allocated and entered. *)
Definition add_service (key ip : bytes) (p : Z) : M (Client E) unit :=
  modify (fun c =>
    mkClient (node c) (buffer c) (<[key := next_server c]> (Services c))
      (<[next_server c := mkServerNode false ip p 0]> (servers c)) (S (next_server c)) (times c)
      (status c) (topics c) (current c) (env c)).

(** The callback [NewClient] registers with the watcher. *)
Definition on_watch (ip : bytes) (p event : Z) : M (Client E) unit :=
  let! c := gets id in
  let s := service_key ip p in
  if event =? EV_DELETE then modify (with_Services (delete s (Services c)))
  else if event =? EV_ADD then
    match Services c !! s with
    | None => add_service s ip p
    | Some _ => ret tt
    end
  else ret tt.

(** The members [NewClient] asks for once. *)
Definition add_members (ms : list (bytes * Z)) : M (Client E) unit :=
  range ms (fun '(ip, p) =>
    let! c := gets id in
    match Services c !! service_key ip p with
    | None => add_service (service_key ip p) ip p
    | Some _ => ret tt
    end).

(** One entry of [SetServices]: the text as the key, split by the caller;
    an entry of the same key is replaced. *)
Definition SetServices (ss : list (bytes * bytes * Z)) : M (Client E) unit :=
  range ss (fun '(s, h, p) => add_service s h p).

(** ** Choosing a server

    The map is iterated twice, in two unrelated orders; each is a list of the
    pointers in it.  Each loop asks the hook [getConnects] anew, which may not
    return: [ConsulWatcher.getConnects] dereferences the pair of a key that
    Consul does not have. *)
Section Choose.
Context (getConnects : bytes -> Z -> outcome Z).

Definition the_server (p : nat) : M (Client E) serverNode := fun c =>
  match servers c !! p with Some s => (c, Ret s) | None => (c, Panic) end.

(** [server.connects = client.getConnects(server.host, server.port)] *)
Definition update_connects (p : nat) : M (Client E) unit :=
  let! s := the_server p in
  let! n := lift (getConnects (host s) (port s)) in
  modify (fun c => with_servers
    (<[p := mkServerNode (offline s) (host s) (port s) n]> (servers c)) c).

Fixpoint first_online (order : list nat) : M (Client E) (option nat) :=
  match order with
  | [] => ret None
  | p :: order =>
      let! s := the_server p in
      if offline s then first_online order
      else update_connects p ;; ret (Some p)
  end.

(** Dereferencing a [currentNode] that is [nil] panics. *)
Fixpoint least_loaded (order : list nat) (currentNode : option nat) : M (Client E) (option nat) :=
  match order with
  | [] => ret currentNode
  | p :: order =>
      let! s := the_server p in
      if offline s then least_loaded order currentNode
      else
        update_connects p ;;
        let! s := the_server p in
        match currentNode with
        | None => lift Panic
        | Some q =>
            let! cur := the_server q in
            least_loaded order (Some (if connects s <? connects cur then p else q))
        end
  end.

End Choose.

(** What [getConnects] answers to the first and to the second loop. *)
Record reports := mkReports {
  to_first : bytes -> Z -> outcome Z;
  to_second : bytes -> Z -> outcome Z
}.
(** The two loops get the same answers; all of them numbers. *)
Definition both_loops (f : bytes -> Z -> outcome Z) : reports := mkReports f f.
Definition unchanging (f : bytes -> Z -> Z) : reports := both_loops (fun h p => Ret (f h p)).

Definition getServer (r : reports) (order1 order2 : list nat) : M (Client E) (option nat) :=
  let! c := gets id in
  if Z.of_nat (size (Services c)) <=? 0 then ret None
  else
    let! currentNode := first_online (to_first r) order1 in
    least_loaded (to_second r) order2 currentNode.

(** ** Connecting *)
Definition disconnect : M (Client E) unit :=
  let! c := gets id in
  match node c with
  | None => ret tt
  | Some n =>
      if has nodeOffline (n_status n) then ret tt
      else if has nodeOnline (n_status n)
      then modify (with_node (Some (mkNode (n_open n)
             (Z.lor (Z.lxor (n_status n) nodeOnline) nodeOffline) (n_writes n))))
      else ret tt
  end.

(** [client.node.conn.Write(d)]: on a [nil] or a closed connection it only
    returns an error, which the callers drop. *)
Definition node_write (d : bytes) : M (Client E) unit :=
  let! c := gets id in
  match node c with
  | None => lift Panic
  | Some n => modify (with_node (Some (mkNode (n_open n) (n_status n)
                (if n_open n && has nodeOnline (n_status n) then n_writes n ++ [d]
                 else n_writes n))))
  end.

(** What resolving the address and dialling gave. *)
Inductive dial_result := ResolveError | DialError | Dialled.

Definition connect (d : dial_result) : M (Client E) unit :=
  let! c := gets id in
  (match node c with
   | Some n => if has nodeOnline (n_status n) then disconnect else ret tt
   | None => ret tt
   end) ;;
  match d with
  | ResolveError => ret tt
  | DialError =>
      modify (with_node (Some (mkNode false (Z.lor (Z.lxor nodeOnline nodeOnline) nodeOffline) [])))
  | Dialled =>
      modify (with_node (Some (mkNode true nodeOnline []))) ;;
      modify (fun c => if has clientOffline (status c)
                       then with_status (Z.lor (Z.lxor (status c) clientOffline) clientOnline) c
                       else c) ;;
      let! c := gets id in
      range (topics c) (fun t => node_write (client_setPro t))
  end.

Definition Subscribe (ts : list bytes) : M (Client E) unit :=
  let! c := gets id in
  match node c with
  | None => ret tt
  | Some _ =>
      range ts (fun t =>
        let! c := gets id in
        if bool_decide (t ∈ topics c) then ret tt
        else modify (with_topics (topics c ++ [t])) ;; node_write (client_setPro t))
  end.

Definition Close : M (Client E) unit :=
  let! c := gets id in
  if has clientOffline (status c) then ret tt
  else
    disconnect ;;
    modify (fun c => if has clientOnline (status c)
                     then with_status (Z.lor (Z.lxor (status c) clientOnline) clientOffline) c
                     else c).

(** One turn of [keepalive]: [ok] tells whether [Write] succeeded. *)
Definition keepalive_turn (ok : bool) : M (Client E) unit :=
  let! c := gets id in
  match node c with
  | None => ret tt
  | Some n =>
      if n_open n && has nodeOnline (n_status n) then
        if ok then node_write (client_pack CMD_TICK []) else disconnect
      else ret tt
  end.

(** ** Receiving *)
Context (Unmarshal : bytes -> J) (onevent : list (J -> M E unit)).

(** A callback, on the state of its own. *)
Definition in_env {A} (m : M E A) : M (Client E) A := fun c =>
  (with_env (m (env c)).1 c, (m (env c)).2).

(** The client's own [hasCmd]; it is the server's. *)
Definition client_hasCmd (cmd : Z) : bool :=
  (cmd =? CMD_SET_PRO) || (cmd =? CMD_AUTH) || (cmd =? CMD_ERROR) || (cmd =? CMD_TICK) || (cmd =? CMD_EVENT) ||
  (cmd =? CMD_AGENT) || (cmd =? CMD_STOP) || (cmd =? CMD_RELOAD) || (cmd =? CMD_SHOW_MEMBERS) || (cmd =? CMD_POS).

Lemma client_hasCmd_same cmd : client_hasCmd cmd = hasCmd cmd.
Proof. done. Qed.

(** The [switch] of [onMessage]: only events do something; every command
    [hasCmd] lets through is listed, so its default case is dead. *)
Definition on_packet (cmd : Z) (dataB : bytes) : M (Client E) unit :=
  if cmd =? CMD_EVENT then
    modify (fun c => with_times (s64 (times c + 1)) c) ;;
    range onevent (fun f => in_env (f (Unmarshal dataB)))
  else ret tt.

Definition consume (k : Z) : M (Client E) unit :=
  let! c := gets id in
  let! rest := lift (sub (buffer c) k (len (buffer c))) in
  modify (with_buffer rest).

Fixpoint onMessage_loop (fuel : nat) : M (Client E) unit :=
  match fuel with
  | O => lift OutOfFuel
  | S fuel =>
      let! c := gets id in
      if len (buffer c) <? 6 then ret tt else
      let! contentLen := lift (read_clen (buffer c)) in
      let! cmd := lift (read_cmd (buffer c)) in
      if negb (client_hasCmd cmd) then modify (with_buffer []) else
      if len (buffer c) <? 4 + contentLen then ret tt else
      let! dataB := lift (sub (buffer c) 6 (4 + contentLen)) in
      on_packet cmd dataB ;;
      consume (contentLen + 4) ;;
      onMessage_loop fuel
  end.

(** Every round removes at least six bytes. *)
Definition onMessage (msg : bytes) : M (Client E) unit :=
  modify (fun c => with_buffer (buffer c ++ msg) c) ;;
  let! c := gets id in
  onMessage_loop (S (length (buffer c))).

(** ** The loop of [start] *)

(** A turn of the outer loop: [false] when the loop has ended. *)
Definition start_turn (r : reports) (order1 order2 : list nat) (d : dial_result) :
    M (Client E) bool :=
  let! server := getServer r order1 order2 in
  match server with
  | None => ret true
  | Some p =>
      connect d ;;
      let! c := gets id in
      match node c with
      | None => ret true
      | Some n =>
          if negb (n_open n) || has nodeOffline (n_status n) then ret true
          else if has clientOffline (status c) then ret false
          else modify (with_current (Some p)) ;; ret true
      end
  end.

(** A turn of the inner loop, for the server in [current]: what [Read]
    returned, [None] an error. *)
Definition read_turn (r : option bytes) : M (Client E) bool :=
  let! c := gets id in
  match current c with
  | None => ret true
  | Some p =>
      if has clientOffline (status c) then modify (with_current None) ;; ret false
      else if bool_decide (r = None \/ r = Some []) then
        disconnect ;;
        let! s := the_server p in
        modify (fun c => with_servers
          (<[p := mkServerNode true (host s) (port s) (connects s)]> (servers c)) c) ;;
        modify (with_current None) ;; ret true
      else onMessage (default [] r) ;; ret true
  end.
End Client.

(** ** Receiving comes to an end, whatever arrives *)
Section Ends.
Context {J E : Type} (Unmarshal : bytes -> J) (onevent : list (J -> M E unit)).
Context (onevent_ends : forall f d, f ∈ onevent -> terminates (f d)).
Implicit Types c : Client E.

Lemma on_packet_ends cmd d : terminates (on_packet Unmarshal onevent cmd d).
Proof using onevent_ends.
  unfold on_packet. destruct (cmd =? CMD_EVENT); [|apply terminates_ret].
  apply terminates_bind; [apply terminates_modify|]. intros _.
  induction onevent as [|f l IH]; [apply terminates_ret|]. simpl. apply terminates_bind.
  - intros c. apply (onevent_ends f). left.
  - intros _. apply IH. intros g d' Hg. apply onevent_ends. by right.
Qed.

Lemma on_packet_keeps cmd d b : preserves (fun c => buffer c = b) (on_packet Unmarshal onevent cmd d).
Proof using.
  unfold on_packet. destruct (cmd =? CMD_EVENT); [|auto with go].
  apply preserves_bind; [by apply preserves_modify|]. intros _. apply preserves_range. by intros f c Hc.
Qed.

Lemma cl_consume_cases k c :
  consume k c = (c, Panic) \/
  0 <= k <= len (buffer c) /\ consume k c = (with_buffer (drop (Z.to_nat k) (buffer c)) c, Ret tt).
Proof using.
  unfold consume, bind, lift, sub, gets, id.
  destruct ((0 <=? k) && (k <=? len (buffer c)) && (len (buffer c) <=? Z.of_nat (length (buffer c)))) eqn:Hk;
    [right|by left]. split; [lia|]. unfold modify. rewrite take_ge; [done|].
  rewrite length_drop. unfold len in *. lia.
Qed.

Lemma cl_loop_ends fuel : forall c, (length (buffer c) < fuel)%nat ->
  snd (onMessage_loop Unmarshal onevent fuel c) <> OutOfFuel.
Proof using onevent_ends.
  induction fuel as [|fuel IH]; intros c Hl; [lia|]. cbn [onMessage_loop].
  erewrite bind_ret by reflexivity. cbn [id]. destruct (len (buffer c) <? 6) eqn:H6; [done|].
  destruct (read_clen_ret (buffer c)) as (cl & Ec & Hc); [unfold len in H6; lia|].
  destruct (read_cmd_ret (buffer c)) as (cmd & Em & _); [unfold len in H6; lia|].
  rewrite (bind_ret _ _ _ c cl) by (unfold lift; by rewrite Ec).
  rewrite (bind_ret _ _ _ c cmd) by (unfold lift; by rewrite Em).
  destruct (negb (client_hasCmd cmd)); [done|]. destruct (len (buffer c) <? 4 + cl) eqn:Hlen; [done|].
  unfold bind at 1, lift at 1. destruct (sub (buffer c) 6 (4 + cl)) as [d| | |] eqn:Es;
    try done; [|by apply sub_fuel in Es].
  pose proof (on_packet_ends cmd d c) as Ht. pose proof (on_packet_keeps cmd d (buffer c) c eq_refl) as Hb.
  unfold bind at 1. destruct (on_packet Unmarshal onevent cmd d c) as [c1 [[]| | |]]; try done.
  cbn [fst snd] in *. destruct (cl_consume_cases (cl + 4) c1) as [Ek|[Hk Ek]].
  - by rewrite (bind_panic _ _ _ c1).
  - erewrite bind_ret by exact Ek. apply IH. cbn [buffer with_buffer]. rewrite Hb in *.
    unfold len in *. rewrite length_drop. lia.
Qed.

(** The client's receive handler ends on every input, when the callbacks do. *)
Theorem client_onMessage_terminates msg : terminates (onMessage Unmarshal onevent msg).
Proof using onevent_ends.
  intros c. unfold onMessage. erewrite bind_ret by reflexivity. erewrite bind_ret by reflexivity.
  apply cl_loop_ends. cbn [id buffer with_buffer]. lia.
Qed.
End Ends.

(** ** Receiving a stream *)
Section Receive.
Context {J E : Type} (Unmarshal : bytes -> J) (onevent : list (J -> M E unit)).
Context (onevent_ret : forall f d e, f ∈ onevent -> (f d e).2 = Ret tt).
Implicit Types c : Client E.

(** What a packet does: an event is counted and handed to every callback. *)
Definition on_frame c (f : Z * bytes) : Client E :=
  if f.1 =? CMD_EVENT
  then with_env (foldl (fun e g => (g (Unmarshal f.2) e).1) (env c) onevent)
         (with_times (s64 (times c + 1)) c)
  else c.

Definition enc_packet (f : Z * bytes) : bytes := Pack f.1 f.2.
Definition packet_ok (f : Z * bytes) : Prop := hasCmd f.1 = true /\ len f.2 + 2 < 2 ^ 32.

Lemma cl_callbacks_eq (d : J) fs : forall c,
  (forall f d e, f ∈ fs -> (f d e).2 = Ret tt) ->
  range fs (fun f : J -> M E unit => in_env (f d)) c =
    (with_env (foldl (fun e g => (g d e).1) (env c) fs) c, Ret tt).
Proof.
  induction fs as [|f fs IH]; intros c Hf; [by destruct c|]. cbn [range foldl].
  rewrite (bind_ret _ _ _ (with_env (f d (env c)).1 c) tt); cycle 1.
  { unfold in_env. by rewrite (Hf f) by (by left). }
  rewrite IH; [done|]. intros g x e Hg. apply Hf. by right.
Qed.

Lemma on_packet_eq cmd d c :
  on_packet Unmarshal onevent cmd d c = (on_frame c (cmd, d), Ret tt).
Proof using onevent_ret.
  unfold on_packet, on_frame. cbn [fst snd]. destruct (cmd =? CMD_EVENT); [|done].
  erewrite bind_ret by reflexivity. by rewrite cl_callbacks_eq.
Qed.

Lemma on_frame_buffer b c f : on_frame (with_buffer b c) f = with_buffer b (on_frame c f).
Proof. unfold on_frame. by destruct (f.1 =? CMD_EVENT). Qed.

Lemma foldl_on_frame_buffer b fs : forall c,
  foldl on_frame (with_buffer b c) fs = with_buffer b (foldl on_frame c fs).
Proof. induction fs as [|f fs IH]; intros c; [done|]. cbn [foldl]. by rewrite on_frame_buffer. Qed.

Lemma on_frame_keeps_buffer c f : buffer (on_frame c f) = buffer c.
Proof. unfold on_frame. by destruct (f.1 =? CMD_EVENT). Qed.

Lemma cl_consume_eq c h r k :
  buffer c = h ++ r -> k = len h -> consume k c = (with_buffer r c, Ret tt).
Proof.
  intros Eb ->. unfold consume. erewrite bind_ret by reflexivity. cbn [id]. rewrite Eb.
  by rewrite (bind_ret _ _ _ c r) by (unfold lift; by rewrite sub_suffix).
Qed.

(** A complete packet at the front of the buffer. *)
Lemma cl_loop_packet fuel c f rest :
  packet_ok f -> buffer c = enc_packet f ++ rest ->
  onMessage_loop Unmarshal onevent (S fuel) c =
    onMessage_loop Unmarshal onevent fuel (with_buffer rest (on_frame c f)).
Proof using onevent_ret.
  intros [Hcmd Hlen] Eb. pose proof (hasCmd_range _ Hcmd) as Hr.
  destruct (Pack_header f.1 f.2 rest ltac:(lia) Hlen) as (E1 & E2 & E3).
  fold (enc_packet f) in E1, E2, E3. rewrite <- Eb in E1, E2, E3.
  assert (Hl : length (buffer c) = (length f.2 + 6 + length rest)%nat).
  { rewrite Eb, length_app. unfold enc_packet. by rewrite Pack_length. }
  cbn [onMessage_loop]. erewrite bind_ret by reflexivity. cbn [id].
  destruct (Z.ltb_spec (len (buffer c)) 6); [unfold len in *; lia|].
  rewrite (bind_ret _ _ _ c (len f.2 + 2)) by (unfold lift; by rewrite E1).
  rewrite (bind_ret _ _ _ c f.1) by (unfold lift; by rewrite E2). rewrite client_hasCmd_same, Hcmd. cbn [negb].
  destruct (Z.ltb_spec (len (buffer c)) (4 + (len f.2 + 2))); [unfold len in *; lia|].
  replace (4 + (len f.2 + 2)) with (len f.2 + 2 + 4) by lia.
  rewrite (bind_ret _ _ _ c f.2) by (unfold lift; by rewrite E3).
  rewrite (bind_ret _ _ _ _ _ (on_packet_eq f.1 f.2 c)). rewrite <- surjective_pairing.
  rewrite (bind_ret _ _ _ (with_buffer rest (on_frame c f)) tt); [done|].
  eapply cl_consume_eq; [by rewrite on_frame_keeps_buffer|].
  unfold len, enc_packet. rewrite Pack_length. lia.
Qed.

(** The beginning of a packet, or nothing, in the buffer. *)
Lemma cl_loop_waits fuel c fs more :
  Forall packet_ok fs -> buffer c ++ more = wire enc_packet fs ->
  incomplete enc_packet (buffer c) fs ->
  onMessage_loop Unmarshal onevent (S fuel) c = (c, Ret tt).
Proof.
  intros Hok Hm Hi. cbn [onMessage_loop]. erewrite bind_ret by reflexivity. cbn [id].
  destruct (Z.ltb_spec (len (buffer c)) 6) as [|H6]; [done|].
  destruct fs as [|f fs]; [simpl in Hi; rewrite Hi in H6; by unfold len in H6|].
  apply Forall_cons in Hok as [[Hcmd Hlen] _]. pose proof (hasCmd_range _ Hcmd) as Hr.
  rewrite wire_cons in Hm. unfold enc_packet in Hm at 1.
  destruct (Pack_incomplete f.1 f.2 _ (buffer c) more ltac:(lia) Hlen Hm Hi) as [|(n & E1 & Hlt)]; [lia|].
  pose proof (Pack_incomplete_cmd f.1 f.2 _ (buffer c) more ltac:(lia) Hlen Hm H6) as E2.
  rewrite (bind_ret _ _ _ c n) by (unfold lift; by rewrite E1).
  rewrite (bind_ret _ _ _ c f.1) by (unfold lift; by rewrite E2). rewrite client_hasCmd_same, Hcmd. cbn [negb].
  destruct (Z.ltb_spec (len (buffer c)) (4 + n)); [done|lia].
Qed.

Lemma cl_loop_frames fs1 : forall fuel c t fs2 more,
  Forall packet_ok (fs1 ++ fs2) -> buffer c = wire enc_packet fs1 ++ t ->
  (length (buffer c) < fuel)%nat -> t ++ more = wire enc_packet fs2 ->
  incomplete enc_packet t fs2 ->
  onMessage_loop Unmarshal onevent fuel c = (with_buffer t (foldl on_frame c fs1), Ret tt).
Proof using onevent_ret.
  induction fs1 as [|f fs1 IH]; intros fuel c t fs2 more Hok Eb Hf Hm Hi;
    (destruct fuel as [|fuel]; [lia|]).
  - cbn [app wire map concat] in Eb. subst t. rewrite (cl_loop_waits fuel c fs2 more) by done.
    by destruct c.
  - rewrite wire_cons, <- app_assoc in Eb. apply Forall_cons in Hok as [Hokf Hok].
    rewrite (cl_loop_packet fuel c f _ Hokf Eb).
    rewrite (IH fuel _ t fs2 more); [|done|done| |done|done].
    + by rewrite foldl_on_frame_buffer.
    + pose proof (Pack_length f.1 f.2) as Hp. change (Pack f.1 f.2) with (enc_packet f) in Hp.
      apply (f_equal length) in Eb. rewrite length_app in Eb. simpl. lia.
Qed.

(** The client as a receiver of packets. *)
#[export] Instance event_receiver : FrameReceiver (Client E) (Z * bytes) (Client E) := {
  enc := enc_packet;
  feed := onMessage Unmarshal onevent;
  buffered c := buffer c;
  view c := with_buffer [] c;
  handle := on_frame;
  inv _ := True;
  accepts _ fs := Forall packet_ok fs;
  read_ok _ := True;
  tail_ok _ := True
}.

Lemma event_receiver_laws : FrameReceiverLaws (Client E) (Z * bytes) (Client E).
Proof using onevent_ret.
  split; [by intros a f fs [_ ?]%Forall_cons|].
  intros c chunk fs1 fs2 t _ _ Hok Eb [more Hm] Hi _. simpl in *.
  exists (with_buffer t (foldl on_frame c fs1)). split_and!; try done.
  - unfold onMessage. erewrite bind_ret by reflexivity. erewrite bind_ret by reflexivity. cbn [id].
    rewrite (cl_loop_frames fs1 _ _ t fs2 more); try done; [|lia].
    by rewrite foldl_on_frame_buffer.
  - by rewrite foldl_on_frame_buffer.
Qed.

(** However TCP cuts the server's packets into reads, the subscriber's
    callbacks get exactly the events among them, in order and once each, and
    nothing is left in the buffer. *)
Lemma client_receives_stream c chunks fs :
  buffer c = [] -> Forall packet_ok fs -> concat chunks = wire enc_packet fs ->
  range chunks (onMessage Unmarshal onevent) c = (foldl on_frame c fs, Ret tt).
Proof using onevent_ret.
  intros Eb Hok Ec.
  destruct (feeds_complete (H0:=event_receiver_laws) chunks c fs) as (c' & Er & _ & Hb & Hv);
    simpl in *; rewrite ?Eb; try done.
  - by apply Forall_forall.
  - destruct fs as [|f fs]; [done|]. cbn [incomplete]. unfold enc_packet. rewrite Pack_length. simpl. lia.
  - rewrite Er. f_equal. rewrite foldl_on_frame_buffer in Hv.
    assert (Hid : forall a : Client E, buffer a = [] -> with_buffer [] a = a).
    { intros a Ha. rewrite <- Ha. by destruct a. }
    rewrite <- (Hid c' Hb), Hv. apply Hid. clear -Eb.
    revert c Eb. induction fs as [|f fs IH]; intros c Eb; [done|].
    apply IH. by rewrite on_frame_keeps_buffer.
Qed.

(** ** Connecting *)
Lemma cl_disconnect_eq c : exists n, disconnect c = (with_node n c, Ret tt).
Proof.
  unfold disconnect. erewrite bind_ret by reflexivity. cbn [id].
  destruct (node c) as [n|] eqn:En; [|exists (node c); by destruct c].
  destruct (has nodeOffline (n_status n)); [exists (node c); by destruct c|].
  destruct (has nodeOnline (n_status n)); [by eexists|exists (node c); by destruct c].
Qed.

Lemma write_all (g : bytes -> bytes) ts : forall c n,
  node c = Some n -> n_open n = true -> has nodeOnline (n_status n) = true ->
  range ts (fun t => node_write (g t)) c =
    (with_node (Some (mkNode true (n_status n) (n_writes n ++ map g ts))) c, Ret tt).
Proof.
  induction ts as [|t ts IH]; intros c n En Ho Hn; cbn [range map].
  { rewrite app_nil_r. destruct n, c. simpl in *. by subst. }
  rewrite (bind_ret _ _ _ (with_node (Some (mkNode true (n_status n) (n_writes n ++ [g t]))) c) tt).
  - rewrite (IH _ (mkNode true (n_status n) (n_writes n ++ [g t]))) by done. simpl.
    rewrite <- app_assoc. done.
  - unfold node_write. erewrite bind_ret by reflexivity. cbn [id]. by rewrite En, Ho, Hn.
Qed.

(** A client that runs has the online bit. *)
Definition running c : Client E :=
  if has clientOffline (status c)
  then with_status (Z.lor (Z.lxor (status c) clientOffline) clientOnline) c else c.

(** Whatever happened to the old connection and however dialling ends, only
    the connection and the status change; a new connection starts with a
    subscription to every topic. *)
Lemma cl_connect_eq d c :
  connect d c = (match d with
    | ResolveError => (connect ResolveError c).1
    | DialError => with_node (Some (mkNode false nodeOffline [])) c
    | Dialled => running (with_node (Some (mkNode true nodeOnline (map client_setPro (topics c)))) c)
    end, Ret tt) /\
  exists n, (connect ResolveError c).1 = with_node n c.
Proof.
  set (old := match node c with
    | Some n => if has nodeOnline (n_status n) then disconnect else ret tt
    | None => ret tt
    end : M (Client E) unit).
  assert (Eo : exists n, old c = (with_node n c, Ret tt)).
  { unfold old. destruct (node c) as [n|] eqn:En; [|exists (node c); by destruct c].
    destruct (has nodeOnline (n_status n)); [apply cl_disconnect_eq|exists (node c); by destruct c]. }
  destruct Eo as [n Eo].
  assert (Er : connect ResolveError c = (with_node n c, Ret tt)).
  { unfold connect. erewrite bind_ret by reflexivity. cbn [id]. by rewrite (bind_ret _ _ _ _ _ Eo). }
  split; [|exists n; by rewrite Er]. destruct d; [by rewrite Er| |].
  - unfold connect. erewrite bind_ret by reflexivity. cbn [id]. by rewrite (bind_ret _ _ _ _ _ Eo).
  - unfold connect. erewrite bind_ret by reflexivity. cbn [id]. rewrite (bind_ret _ _ _ _ _ Eo).
    erewrite bind_ret by reflexivity. erewrite bind_ret by reflexivity.
    erewrite bind_ret by reflexivity. cbn [id].
    set (c1 := if has clientOffline _ then _ else _).
    assert (E1 : node c1 = Some (mkNode true nodeOnline [])) by (unfold c1; by case_match).
    rewrite (write_all client_setPro _ c1 _ E1) by done. f_equal.
    unfold c1, running. cbn [status with_node]. by case_match.
Qed.

(** Reconnecting does not empty the receive buffer: when a connection
    breaks inside an event, the bytes already received are completed with the
    first bytes of the next connection, and the callbacks get an event the
    server never sent. *)
Theorem reconnect_mixes_streams c d part lost more :
  len (part ++ lost) + 2 < 2 ^ 32 ->
  buffer c ++ lost = Pack CMD_EVENT (part ++ lost) -> length more = length lost ->
  exists c', connect d c = (c', Ret tt) /\
    onMessage Unmarshal onevent more c' =
      (with_buffer [] (on_frame c' (CMD_EVENT, part ++ more)), Ret tt).
Proof using onevent_ret.
  intros Hl Eb Hm. destruct (cl_connect_eq d c) as [Ec [n En]]. eexists. split; [exact Ec|].
  set (c' := match d with ResolveError => _ | _ => _ end).
  assert (Ebuf : buffer c' = buffer c).
  { unfold c'. destruct d; [by rewrite En|done|]. unfold running. by case_match. }
  assert (Ep : buffer c' ++ more = enc_packet (CMD_EVENT, part ++ more) ++ []).
  { rewrite Ebuf, app_nil_r. unfold enc_packet. cbn [fst snd]. rewrite Pack_le in Eb |- *.
    replace (len (part ++ more)) with (len (part ++ lost)) by (unfold len; rewrite !length_app; lia).
    rewrite !app_assoc in Eb. apply app_inv_tail in Eb. by rewrite Eb, <- !app_assoc. }
  clearbody c'. unfold onMessage. erewrite bind_ret by reflexivity. erewrite bind_ret by reflexivity.
  cbn [id]. set (c1 := with_buffer (buffer c' ++ more) c').
  assert (Hok : packet_ok (CMD_EVENT, part ++ more)).
  { split; [done|]. cbn [snd]. unfold len in *. rewrite length_app in *. lia. }
  rewrite (cl_loop_packet _ c1 _ [] Hok) by exact Ep.
  assert (Hpos : exists k, length (buffer c1) = S k).
  { unfold c1. cbn [buffer with_buffer]. rewrite Ep, app_nil_r. unfold enc_packet. rewrite Pack_length.
    rewrite Nat.add_comm. by eexists. }
  destruct Hpos as [k ->]. rewrite (cl_loop_waits k _ [] []); [|constructor|done|done].
  reflexivity.
Qed.
End Receive.

(** ** Choosing a server *)
Section Choosing.
Context {E : Type} (getConnects : bytes -> Z -> outcome Z).
Implicit Types (c : Client E) (h : gmap nat serverNode).

Definition ident (s : serverNode) : bool * bytes * Z := (offline s, host s, port s).
(** Two heaps that differ in recorded loads only. *)
Definition same_servers h h' : Prop := forall p, ident <$> h !! p = ident <$> h' !! p.
Definition online h p : Prop := exists s, h !! p = Some s /\ offline s = false.
(** The load that is reported for the server at [p]. *)
Definition reported (s : serverNode) : outcome Z := getConnects (host s) (port s).
Definition load h p : Z :=
  match h !! p with Some s => match reported s with Ret z => z | _ => 0 end | None => 0 end.
(** The server at [p] is there, and its load is reported if it is asked for. *)
Definition reports_load h p : Prop :=
  exists s, h !! p = Some s /\ (offline s = false -> reported s = Ret (load h p)).
Definition measured h p : Prop :=
  exists s, h !! p = Some s /\ offline s = false /\ connects s = load h p.

#[export] Instance same_servers_equiv : Equivalence same_servers.
Proof. split; [by intros h p|by intros h h' H p|intros h1 h2 h3 H1 H2 p; by rewrite H1]. Qed.

Lemma same_servers_lookup h h' p s :
  same_servers h h' -> h !! p = Some s -> exists s', h' !! p = Some s' /\ ident s' = ident s.
Proof.
  intros H Hp. specialize (H p). rewrite Hp in H. simpl in H.
  destruct (h' !! p) as [s'|]; simpl in H; [|done]. exists s'. split; [done|congruence].
Qed.

Lemma same_servers_load h h' p : same_servers h h' -> load h p = load h' p.
Proof.
  intros H. unfold load, reported. specialize (H p).
  destruct (h !! p) as [s|], (h' !! p) as [s'|]; simpl in H; try done.
  unfold ident in H. by injection H as _ -> ->.
Qed.

Lemma same_servers_reports h h' p : same_servers h h' -> reports_load h p -> reports_load h' p.
Proof.
  intros H (s & Hs & Hr). destruct (same_servers_lookup _ _ _ _ H Hs) as (s' & Hs' & Ei).
  exists s'. split; [done|]. rewrite <- (same_servers_load _ _ _ H). unfold reported, ident in *.
  injection Ei as Eo Eh Ep. rewrite Eo, Eh, Ep. done.
Qed.

Lemma same_servers_online h h' p : same_servers h h' -> online h p -> online h' p.
Proof.
  intros H (s & Hs & Ho). destruct (same_servers_lookup _ _ _ _ H Hs) as (s' & Hs' & Ei).
  exists s'. split; [done|]. unfold ident in Ei. congruence.
Qed.

Lemma update_connects_eq c p s z :
  servers c !! p = Some s -> reported s = Ret z ->
  exists h, update_connects getConnects p c = (with_servers h c, Ret tt) /\
    same_servers (servers c) h /\
    h !! p = Some (mkServerNode (offline s) (host s) (port s) z) /\
    forall q, measured (servers c) q -> measured h q.
Proof.
  intros Hs Hz. eexists. split_and!; [unfold update_connects| | |].
  - rewrite (bind_ret _ _ c c s) by (unfold the_server; by rewrite Hs).
    by rewrite (bind_ret _ _ c c z) by (unfold lift; unfold reported in Hz; by rewrite Hz).
  - intros q. destruct (decide (p = q)) as [->|Hpq].
    + by rewrite lookup_insert_eq, Hs.
    + by rewrite lookup_insert_ne.
  - by rewrite lookup_insert_eq.
  - intros q (t & Ht & Ho & Hc). unfold measured, load in *.
    destruct (decide (p = q)) as [->|Hpq].
    + rewrite lookup_insert_eq. simplify_eq. eexists. split_and!; [done..|]. unfold reported in *. cbn. by rewrite Hz.
    + rewrite lookup_insert_ne by done. rewrite Ht in *. by exists t.
Qed.

Lemma the_server_bind {B} (k : serverNode -> M (Client E) B) c p s :
  servers c !! p = Some s -> bind (the_server p) k c = k s c.
Proof. intros Hs. apply bind_ret. unfold the_server. by rewrite Hs. Qed.

Lemma first_online_spec order : forall c,
  (forall p, p ∈ order -> reports_load (servers c) p) ->
  exists h r, first_online getConnects order c = (with_servers h c, Ret r) /\
    same_servers (servers c) h /\
    match r with
    | None => forall p, p ∈ order -> ~ online (servers c) p
    | Some q => q ∈ order /\ measured h q
    end.
Proof.
  induction order as [|p order IH]; intros c Hall.
  { exists (servers c), None. split_and!; [by destruct c|done|]. by intros p ?%not_elem_of_nil. }
  destruct (Hall p) as (s & Hs & Hz); [by left|]. cbn [first_online]. rewrite (the_server_bind _ c p s Hs).
  destruct (offline s) eqn:Eo.
  - destruct (IH c) as (h & r & E1 & Hh & Hr); [intros q Hq; apply Hall; by right|].
    exists h, r. split_and!; [done|done|]. destruct r as [q|].
    + destruct Hr as [Hq Hr]. split; [by right|done].
    + intros q [->|Hq]%elem_of_cons; [|by apply Hr]. intros (t & Ht & Ho). congruence.
  - specialize (Hz eq_refl). destruct (update_connects_eq c p s _ Hs Hz) as (h & Eu & Hh & Hp & _).
    exists h, (Some p). rewrite (bind_ret _ _ _ _ _ Eu). split_and!; [done|done|by left|].
    eexists. split_and!; [exact Hp|done|]. by apply same_servers_load.
Qed.

Lemma least_loaded_spec order : forall c q,
  (forall p, p ∈ order -> reports_load (servers c) p) -> measured (servers c) q ->
  exists h r, least_loaded getConnects order (Some q) c = (with_servers h c, Ret (Some r)) /\
    same_servers (servers c) h /\ (r = q \/ r ∈ order) /\ measured h r /\
    load (servers c) r <= load (servers c) q /\
    forall p, p ∈ order -> online (servers c) p -> load (servers c) r <= load (servers c) p.
Proof.
  induction order as [|p order IH]; intros c q Hall Hq.
  { exists (servers c), q. split_and!; try done; [by destruct c|by left|].
    by intros p ?%not_elem_of_nil. }
  destruct (Hall p) as (s & Hs & Hz); [by left|]. cbn [least_loaded]. rewrite (the_server_bind _ c p s Hs).
  destruct (offline s) eqn:Eo.
  - destruct (IH c q) as (h & r & E1 & Hh & Hi & Hm & Hle & Hmin); [|done|].
    { intros x Hx. apply Hall. by right. }
    exists h, r. split_and!; try done; [destruct Hi; [by left|right; by right]|].
    intros x [->|Hx]%elem_of_cons; [|by apply Hmin]. intros (t & Ht & Ho). congruence.
  - specialize (Hz eq_refl). destruct (update_connects_eq c p s _ Hs Hz) as (h & Eu & Hh & Hp & Hkeep).
    rewrite (bind_ret _ _ _ _ _ Eu). rewrite (the_server_bind _ (with_servers h c) p _ Hp).
    destruct (Hkeep q Hq) as (cur & Hc & Hco & Hcl).
    rewrite (the_server_bind _ (with_servers h c) q cur Hc). cbn [connects].
    rewrite Hcl, <- (same_servers_load _ _ q Hh).
    assert (Hmp : measured h p).
    { eexists. split_and!; [exact Hp|done|]. by apply same_servers_load. }
    set (q' := if load (servers c) p <? load (servers c) q then p else q).
    assert (Hq' : measured h q') by (unfold q'; case_match; [done|by apply Hkeep]).
    destruct (IH (with_servers h c) q') as (h' & r & E1 & Hh' & Hi & Hm & Hle & Hmin); [|done|].
    { intros x Hx. eapply same_servers_reports; [exact Hh|]. apply Hall. by right. }
    cbn [servers with_servers] in *.
    rewrite <- !(same_servers_load _ _ _ Hh) in Hle.
    assert (Hle2 : load (servers c) r <= load (servers c) p /\
                   load (servers c) r <= load (servers c) q).
    { unfold q' in Hle. destruct (Z.ltb_spec (load (servers c) p) (load (servers c) q)); lia. }
    exists h', r. split_and!; try done; [by transitivity h| |by apply Hle2|].
    + destruct Hi as [->|Hi]; [|right; by right]. unfold q'. case_match; [right; by left|by left].
    + intros x [->|Hx]%elem_of_cons Hon; [apply Hle2|].
      rewrite !(same_servers_load _ _ _ Hh). apply Hmin; [done|]. by eapply same_servers_online.
Qed.

(** What [getServer] returns. *)
Lemma getServer_spec c order1 order2 :
  (forall p, p ∈ order1 <-> exists k, Services c !! k = Some p) ->
  (forall p, p ∈ order2 <-> exists k, Services c !! k = Some p) ->
  (forall k p, Services c !! k = Some p -> reports_load (servers c) p) ->
  exists h r, getServer (both_loops getConnects) order1 order2 c = (with_servers h c, Ret r) /\
    same_servers (servers c) h /\
    match r with
    | None => forall k p, Services c !! k = Some p -> ~ online (servers c) p
    | Some p => online (servers c) p /\ (exists k, Services c !! k = Some p) /\
        forall k' p', Services c !! k' = Some p' -> online (servers c) p' ->
          load (servers c) p <= load (servers c) p'
    end.
Proof.
  intros H1 H2 Hall. unfold getServer. erewrite bind_ret by reflexivity. cbn [id].
  destruct (Z.leb_spec (Z.of_nat (size (Services c))) 0) as [H0|H0].
  { assert (Services c = ∅) as E0 by (apply map_size_empty_iff; lia).
    exists (servers c), None. split_and!; [by destruct c|done|]. intros k p. by rewrite E0. }
  destruct (first_online_spec order1 c) as (h & r & E1 & Hh & Hr).
  { intros p [k Hk]%H1. by eapply Hall. }
  rewrite (bind_ret _ _ _ _ _ E1). destruct r as [q|].
  - destruct Hr as [Hq Hm].
    destruct (least_loaded_spec order2 (with_servers h c) q) as (h' & r & E2 & Hh' & Hi & Hm' & _ & Hmin);
      [|done|].
    { intros p [k Hk]%H2. eapply same_servers_reports; [exact Hh|]. by eapply Hall. }
    cbn [servers with_servers] in *. assert (Hhh : same_servers (servers c) h') by (by transitivity h).
    exists h', (Some r). split_and!; [done|done| | |].
    + destruct Hm' as (t & Ht & Ho & _). eapply (same_servers_online h'); [by symmetry|by exists t].
    + destruct Hi as [->|Hi]; [by apply H1|by apply H2].
    + intros k' p' Hk' Ho. rewrite !(same_servers_load _ _ _ Hh). apply Hmin.
      * apply H2. by exists k'.
      * by eapply same_servers_online.
  - assert (E2 : least_loaded getConnects order2 None (with_servers h c) = (with_servers h c, Ret None)).
    { assert (Hoff : forall p, p ∈ order2 -> exists s, h !! p = Some s /\ offline s = true).
      { intros p Hp. assert (Hp1 : p ∈ order1) by (apply H1, H2, Hp). apply H2 in Hp as [k Hk].
        destruct (Hall k p Hk) as (t & Ht & _). destruct (same_servers_lookup _ _ _ _ Hh Ht) as (t' & Ht' & Ei).
        exists t'. split; [done|]. destruct (offline t') eqn:Eo; [done|]. exfalso. apply (Hr p Hp1).
        exists t. unfold ident in Ei. split; [done|congruence]. }
      clear -Hoff. induction order2 as [|p o IH]; [done|]. cbn [least_loaded].
      destruct (Hoff p) as (s & Hs & Ho); [by left|].
      rewrite (the_server_bind _ _ p s) by done. rewrite Ho. apply IH. intros x Hx. apply Hoff. by right. }
    cbn [both_loops to_second]. rewrite E2. exists h, None. split_and!; [done|done|]. intros k p Hk. apply Hr, H1. by exists k.
Qed.

(** The answer of the hook for a server that is asked: a number or a panic. *)
Definition answers_for h p : Prop :=
  exists s, h !! p = Some s /\ (offline s = false -> (exists z, reported s = Ret z) \/ reported s = Panic).
Definition panics_for h p : Prop := exists s, h !! p = Some s /\ offline s = false /\ reported s = Panic.

Lemma same_servers_answers h h' p : same_servers h h' ->
  (answers_for h p -> answers_for h' p) /\ (panics_for h p -> panics_for h' p).
Proof.
  intros H. split; intros (s & Hs & Hr); destruct (same_servers_lookup _ _ _ _ H Hs) as (s' & Hs' & Ei);
    exists s'; (split; [done|]); unfold reported, ident in *; injection Ei as Eo Eh Ep; by rewrite Eo, Eh, Ep.
Qed.

Lemma update_connects_panics c p s :
  servers c !! p = Some s -> reported s = Panic -> update_connects getConnects p c = (c, Panic).
Proof.
  intros Hs Hr. unfold update_connects. rewrite (the_server_bind _ c p s Hs).
  unfold reported in Hr. unfold bind, lift. by rewrite Hr.
Qed.

Lemma first_online_answers order : forall c, (forall p, p ∈ order -> answers_for (servers c) p) ->
  first_online getConnects order c = (c, Panic) \/
  exists h r, first_online getConnects order c = (with_servers h c, Ret r) /\ same_servers (servers c) h /\
    match r with
    | None => forall p, p ∈ order -> ~ online (servers c) p
    | Some q => is_Some (h !! q)
    end.
Proof.
  induction order as [|p order IH]; intros c Hall.
  { right. exists (servers c), None. split_and!; [by destruct c|done|]. by intros p ?%not_elem_of_nil. }
  destruct (Hall p) as (s & Hs & Hz); [by left|]. cbn [first_online]. rewrite (the_server_bind _ c p s Hs).
  destruct (offline s) eqn:Eo.
  - destruct (IH c) as [Er|(h & r & Er & Hh & Hr)]; [intros q Hq; apply Hall; by right|by left|right].
    exists h, r. split_and!; [done|done|]. destruct r as [q|]; [done|].
    intros q [->|Hq]%elem_of_cons; [|by apply Hr]. intros (t & Ht & Ho). congruence.
  - destruct (Hz eq_refl) as [[z Ez]|Ez].
    + right. destruct (update_connects_eq c p s z Hs Ez) as (h & Eu & Hh & Hp & _). exists h, (Some p).
      rewrite (bind_ret _ _ _ _ _ Eu). split_and!; [done|done|by eexists].
    + left. by rewrite (bind_panic _ _ _ _ (update_connects_panics c p s Hs Ez)).
Qed.

Lemma least_loaded_panics order : forall c q, (forall p, p ∈ order -> answers_for (servers c) p) ->
  is_Some (servers c !! q) -> (exists p, p ∈ order /\ panics_for (servers c) p) ->
  exists h, least_loaded getConnects order (Some q) c = (with_servers h c, Panic) /\ same_servers (servers c) h.
Proof.
  induction order as [|p order IH]; intros c q Hall [cur Hq] (x & Hx & Hp); [by apply not_elem_of_nil in Hx|].
  destruct (Hall p) as (s & Hs & Hz); [by left|]. cbn [least_loaded]. rewrite (the_server_bind _ c p s Hs).
  destruct (offline s) eqn:Eo.
  - apply (IH c q); [intros y Hy; apply Hall; by right|by eexists|]. exists x. split; [|done].
    apply elem_of_cons in Hx as [->|Hx]; [|done]. destruct Hp as (s' & Hs' & Ho & _). congruence.
  - destruct (Hz eq_refl) as [[z Ez]|Ez]; cycle 1.
    { exists (servers c). rewrite (bind_panic _ _ _ _ (update_connects_panics c p s Hs Ez)). split; [by destruct c|done]. }
    destruct (update_connects_eq c p s z Hs Ez) as (h & Eu & Hh & Hp' & _). rewrite (bind_ret _ _ _ _ _ Eu).
    rewrite (the_server_bind _ (with_servers h c) p _ Hp').
    destruct (same_servers_lookup _ _ _ _ Hh Hq) as (cur' & Hcur & _).
    rewrite (the_server_bind _ (with_servers h c) q cur' Hcur). cbv beta iota.
    match goal with |- context [if ?b then p else q] => set (q' := if b then p else q) end.
    destruct (IH (with_servers h c) q') as (h' & Er & Hh').
    + intros y Hy. apply (same_servers_answers _ _ _ Hh), Hall. by right.
    + unfold q'. case_match; by eexists.
    + exists x. split; [|by apply (same_servers_answers _ _ _ Hh)].
      apply elem_of_cons in Hx as [->|Hx]; [|done]. destruct Hp as (s' & Hs' & _ & Hr). congruence.
    + exists h'. rewrite Er. split; [done|]. by transitivity h.
Qed.

Lemma getServer_panics c order1 order2 :
  (forall p, p ∈ order1 <-> exists k, Services c !! k = Some p) ->
  (forall p, p ∈ order2 <-> exists k, Services c !! k = Some p) ->
  (forall k p, Services c !! k = Some p -> answers_for (servers c) p) ->
  (exists k p, Services c !! k = Some p /\ panics_for (servers c) p) ->
  exists h, getServer (both_loops getConnects) order1 order2 c = (with_servers h c, Panic) /\ same_servers (servers c) h.
Proof.
  intros H1 H2 Hall (k & x & Hk & Hx). unfold getServer. erewrite bind_ret by reflexivity. cbn [id].
  destruct (Z.leb_spec (Z.of_nat (size (Services c))) 0) as [H0|H0].
  { assert (Services c = ∅) as E0 by (apply map_size_empty_iff; lia). by rewrite E0 in Hk. }
  destruct (first_online_answers order1 c) as [Er|(h & r & Er & Hh & Hr)].
  { intros p [k' Hk']%H1. by eapply Hall. }
  { exists (servers c). split; [|done]. cbn [both_loops to_first]. rewrite (bind_panic _ _ _ _ Er). by destruct c. }
  cbn [both_loops to_first to_second]. rewrite (bind_ret _ _ _ _ _ Er). destruct r as [q|]; cycle 1.
  { destruct (Hr x); [apply H1; by exists k|]. destruct Hx as (s & Hs & Ho & _). by exists s. }
  destruct (least_loaded_panics order2 (with_servers h c) q) as (h' & E' & Hh').
  - intros p [k' Hk']%H2. apply (same_servers_answers _ _ _ Hh). by eapply Hall.
  - exact Hr.
  - exists x. split; [apply H2; by exists k|]. by apply (same_servers_answers _ _ _ Hh).
  - exists h'. rewrite E'. split; [done|]. by transitivity h.
Qed.

Lemma panics_or_reports h (order : list nat) : (forall p, p ∈ order -> answers_for h p) ->
  (exists p, p ∈ order /\ panics_for h p) \/ (forall p, p ∈ order -> reports_load h p).
Proof.
  induction order as [|p order IH]; intros Hall; [right; by intros p ?%not_elem_of_nil|].
  destruct IH as [(x & Hx & Hp)|Hr]; [intros x Hx; apply Hall; by right|left; exists x; split; [by right|done]|].
  destruct (Hall p) as (s & Hs & Hz); [by left|].
  assert (Hc : panics_for h p \/ reports_load h p).
  { destruct (offline s) eqn:Eo; [right; exists s; split; [done|congruence]|].
    destruct (Hz eq_refl) as [[z Ez]|Ez]; [right|left; by exists s].
    exists s. split; [done|]. intros _. unfold load. by rewrite Hs, Ez. }
  destruct Hc as [Hc|Hc]; [left; exists p; split; [by left|done]|right].
  by intros x [->|Hx]%elem_of_cons; [|apply Hr].
Qed.

Lemma panics_not_reports h p : panics_for h p -> ~ reports_load h p.
Proof. intros (s & Hs & Ho & Hp) (s' & Hs' & Hr). simplify_eq. specialize (Hr Ho). congruence. Qed.

(** C31: In whatever orders Go iterates over the map of servers, when its hook
    answers alike in both loops, with a number or a panic: [getServer] panics exactly when the hook does
    for one of the known servers that are not marked offline - and
    [ConsulWatcher.getConnects] does for a server that has not published its
    load yet; otherwise it returns nothing exactly when every known server is
    marked offline, and else an online server no online server reports fewer
    connections than.  It never dereferences a [nil] server and changes
    nothing but the loads it records.  Two loops that are answered differently
    may end with another server ([changing_reports]). *)
Theorem getServer_least_loaded c order1 order2 :
  (forall p, p ∈ order1 <-> exists k, Services c !! k = Some p) ->
  (forall p, p ∈ order2 <-> exists k, Services c !! k = Some p) ->
  (forall k p, Services c !! k = Some p -> answers_for (servers c) p) ->
  exists h r, getServer (both_loops getConnects) order1 order2 c = (with_servers h c, r) /\
    same_servers (servers c) h /\
    (r = Panic <-> exists k p, Services c !! k = Some p /\ panics_for (servers c) p) /\
    match r with
    | Ret None => forall k p, Services c !! k = Some p -> ~ online (servers c) p
    | Ret (Some p) => online (servers c) p /\ (exists k, Services c !! k = Some p) /\
        forall k' p', Services c !! k' = Some p' -> online (servers c) p' ->
          load (servers c) p <= load (servers c) p'
    | Panic => True
    | _ => False
    end.
Proof.
  intros H1 H2 Hall. destruct (panics_or_reports (servers c) order1) as [(x & Hx & Hp)|Hr].
  { intros p [k Hk]%H1. by apply (Hall k). }
  - apply H1 in Hx as [k Hk]. destruct (getServer_panics c order1 order2 H1 H2 Hall) as (h & Er & Hh); [by exists k, x|].
    exists h, Panic. split_and!; [done|done| |done]. split; [intros _; by exists k, x|done].
  - assert (Hr' : forall k p, Services c !! k = Some p -> reports_load (servers c) p).
    { intros k p Hk. apply Hr, H1. by exists k. }
    destruct (getServer_spec c order1 order2 H1 H2 Hr') as (h & r & Er & Hh & Hm).
    exists h, (Ret r). split_and!; [done|done| |exact Hm].
    split; [done|]. intros (k & x & Hk & Hp). by destruct (panics_not_reports _ _ Hp (Hr' k x Hk)).
Qed.
End Choosing.

(** ** A client's events *)
Section Events.
Context {J E : Type} (Unmarshal : bytes -> J) (onevent : list (J -> M E unit)).
Implicit Types c : Client E.

(** What happens in a client without service discovery. *)
Inductive client_event :=
  | Turn (r : reports) (order1 order2 : list nat) (d : dial_result)
  | Read (r : option bytes)
  | Subscribing (ts : list bytes)
  | Closing
  | Ticking (ok : bool).

Definition on_event (e : client_event) : M (Client E) unit :=
  match e with
  | Turn gc o1 o2 d => start_turn gc o1 o2 d ;; ret tt
  | Read r => read_turn Unmarshal onevent r ;; ret tt
  | Subscribing ts => Subscribe ts
  | Closing => Close
  | Ticking ok => keepalive_turn ok
  end.

(** The orders of a turn list the client's servers. *)
Definition iterates (m : gmap bytes nat) (e : client_event) : Prop :=
  match e with
  | Turn _ o1 o2 _ => forall p, p ∈ o1 ++ o2 -> exists k, m !! k = Some p
  | _ => True
  end.

(** No server is left to connect to, and none is connected. *)
Record stranded (m : gmap bytes nat) c : Prop := {
  str_services : Services c = m;
  str_offline : forall k p, m !! k = Some p -> exists s, servers c !! p = Some s /\ offline s = true;
  str_current : current c = None;
  str_node : forall n, node c = Some n -> has nodeOnline (n_status n) = false
}.

Lemma first_online_none gc order c :
  (forall p, p ∈ order -> exists s, servers c !! p = Some s /\ offline s = true) ->
  first_online (to_first gc) order c = (c, Ret None) /\ least_loaded (to_second gc) order None c = (c, Ret None).
Proof.
  induction order as [|p order IH]; intros Hall; [done|]. cbn [first_online least_loaded].
  destruct (Hall p) as (s & Hs & Ho); [by left|].
  rewrite !(the_server_bind _ c p s Hs), Ho. apply IH. intros q Hq. apply Hall. by right.
Qed.

Lemma turn_stranded gc o1 o2 d m c :
  stranded m c -> iterates m (Turn gc o1 o2 d) -> start_turn gc o1 o2 d c = (c, Ret true).
Proof.
  intros [Em Ho _ _] Hi. unfold start_turn. rewrite (bind_ret _ _ c c None); [done|].
  unfold getServer. erewrite bind_ret by reflexivity. cbn [id].
  destruct (_ <=? 0); [done|].
  rewrite (bind_ret _ _ c c None).
  - apply first_online_none. intros p Hp. destruct (Hi p) as [k Hk]; [set_solver|]. by eapply Ho.
  - apply first_online_none. intros p Hp. destruct (Hi p) as [k Hk]; [set_solver|]. by eapply Ho.
Qed.

Lemma with_node_stranded m c n :
  stranded m c -> has nodeOnline (n_status n) = false -> stranded m (with_node (Some n) c).
Proof. intros [] Hn. split; try done. intros n' [= <-]. done. Qed.

Lemma node_write_stranded m d : preserves (stranded m) (node_write (E:=E) d).
Proof.
  intros c Hc. unfold node_write. erewrite bind_ret by reflexivity. cbn [id].
  destruct (node c) as [n|] eqn:En; [|done]. apply with_node_stranded; [done|].
  exact (str_node m c Hc n En).
Qed.

Lemma disconnect_stranded m : preserves (stranded m) (disconnect (E:=E)).
Proof.
  intros c Hc. unfold disconnect. erewrite bind_ret by reflexivity. cbn [id].
  destruct (node c) as [n|] eqn:En; [|done].
  destruct (has nodeOffline _); [done|]. by rewrite (str_node m c Hc n En).
Qed.

Lemma on_event_stranded m e : iterates m e -> preserves (stranded m) (on_event e).
Proof.
  intros Hi c Hc. destruct e as [gc o1 o2 d|r|ts| |ok]; cbn [on_event].
  - by rewrite (bind_ret _ _ _ _ _ (turn_stranded gc o1 o2 d m c Hc Hi)).
  - rewrite (bind_ret _ _ c c true); [done|]. unfold read_turn.
    erewrite bind_ret by reflexivity. cbn [id]. by rewrite (str_current m c Hc).
  - unfold Subscribe. erewrite bind_ret by reflexivity. cbn [id]. destruct (node c); [|done].
    apply preserves_range; [|done]. intros t. apply preserves_bind; [apply preserves_gets|].
    intros a. apply preserves_if; [apply preserves_ret|]. apply preserves_bind.
    + apply preserves_modify. by intros s [].
    + intros _. apply node_write_stranded.
  - unfold Close. erewrite bind_ret by reflexivity. cbn [id].
    destruct (has clientOffline _); [done|].
    apply preserves_bind; [apply disconnect_stranded| |done]. intros _.
    apply preserves_modify. intros s Hs. case_match; [|done]. by destruct Hs.
  - unfold keepalive_turn. erewrite bind_ret by reflexivity. cbn [id].
    destruct (node c) as [n|] eqn:En; [|done]. rewrite (str_node m c Hc n En), andb_false_r. done.
Qed.

(** A connection that ends. *)
Lemma read_error_eq c p s n :
  current c = Some p -> servers c !! p = Some s -> node c = Some n -> n_status n = nodeOnline ->
  has clientOffline (status c) = false ->
  read_turn Unmarshal onevent None c =
    (with_current None
       (with_servers (<[p := mkServerNode true (host s) (port s) (connects s)]> (servers c))
         (with_node (Some (mkNode (n_open n) nodeOffline (n_writes n))) c)), Ret true).
Proof.
  intros Ec Hs En Est Eoff. unfold read_turn. erewrite bind_ret by reflexivity. cbn [id].
  rewrite Ec, Eoff. rewrite bool_decide_eq_true_2 by (by left).
  set (c1 := with_node (Some (mkNode (n_open n) nodeOffline (n_writes n))) c).
  rewrite (bind_ret _ _ c c1 tt); cycle 1.
  { unfold disconnect. erewrite bind_ret by reflexivity. cbn [id]. by rewrite En, Est. }
  by rewrite (the_server_bind _ c1 p s Hs).
Qed.

(** The [offline] mark of a server is never taken back: in a client whose
    servers are given, not discovered, when the connection to the last server
    not marked offline ends, the client is disconnected for ever, whatever
    happens later and however long the servers have been back. *)
Theorem offline_forever c p s n evs :
  current c = Some p -> servers c !! p = Some s ->
  (forall k q, Services c !! k = Some q -> q = p \/
     exists t, servers c !! q = Some t /\ offline t = true) ->
  node c = Some n -> n_status n = nodeOnline -> has clientOffline (status c) = false ->
  Forall (iterates (Services c)) evs ->
  let c' := run on_event (Read None :: evs) c in
  stranded (Services c) c' /\
  forall gc o1 o2 d, iterates (Services c) (Turn gc o1 o2 d) ->
    start_turn gc o1 o2 d c' = (c', Ret true).
Proof.
  intros Ec Hs Hall En Est Eoff Hi.
  assert (H0 : stranded (Services c) (on_event (Read None) c).1).
  { cbn [on_event]. rewrite (bind_ret _ _ _ _ _ (read_error_eq c p s n Ec Hs En Est Eoff)).
    split; try done; cbn [ret fst servers with_current with_servers].
    - intros k q Hk. destruct (decide (p = q)) as [<-|Hpq].
      + rewrite lookup_insert_eq. by eexists.
      + rewrite lookup_insert_ne by done. destruct (Hall k q Hk) as [->|]; done.
    - by intros n' [= <-]. }
  cut (stranded (Services c) (run on_event (Read None :: evs) c)).
  { intros H. split; [done|]. intros gc o1 o2 d. by apply turn_stranded. }
  unfold run. cbn [foldl]. revert H0. generalize (on_event (Read None) c).1.
  induction Hi as [|e evs He Hi IH]; intros c1 H1; [done|]. cbn [foldl]. apply IH.
  by apply on_event_stranded.
Qed.
End Events.

(** ** Witnesses *)
Definition keep_event (d : bytes) : M (list bytes) unit := modify (fun e => e ++ [d]).
Definition idle : Client (list bytes) := new_client [].

Lemma keep_event_ret (f : bytes -> M (list bytes) unit) d e :
  f ∈ [keep_event] -> (f d e).2 = Ret tt.
Proof. by intros ->%list_elem_of_singleton. Qed.

(** The connection ends after the first byte of "ab"; the next one starts with
    a heartbeat, whose length becomes the event's last byte. *)
Lemma reconnect_mixes_streams_witness :
  exists c', connect Dialled (with_buffer (take 7 (Pack CMD_EVENT (gostr "ab"))) idle) = (c', Ret tt) /\
    onMessage (@id bytes) [keep_event] (take 1 (Pack CMD_TICK [])) c' =
      (with_buffer [] (on_frame (@id bytes) [keep_event] c'
         (CMD_EVENT, gostr "a" ++ take 1 (Pack CMD_TICK []))), Ret tt).
Proof.
  apply (reconnect_mixes_streams (@id bytes) [keep_event] keep_event_ret _ _ (gostr "a") (gostr "b"));
    by vm_compute.
Defined.

Definition two_servers : Client (list bytes) :=
  with_servers {[ 0%nat := mkServerNode false (gostr "a") 1 0; 1%nat := mkServerNode false (gostr "b") 2 0;
                  2%nat := mkServerNode true (gostr "c") 3 0 ]}
    (with_Services {[ gostr "a:1" := 0%nat; gostr "b:2" := 1%nat; gostr "c:3" := 2%nat ]} idle).

Lemma two_servers_pointers p :
  p ∈ [0; 1; 2]%nat <-> exists k, Services two_servers !! k = Some p.
Proof.
  cbn [Services two_servers with_servers with_Services]. split.
  - intros Hp. repeat (apply elem_of_cons in Hp as [->|Hp]);
      [exists (gostr "a:1")|exists (gostr "b:2")|exists (gostr "c:3")|by apply not_elem_of_nil in Hp];
      by vm_compute.
  - intros [k Hk]. repeat (apply lookup_insert_Some in Hk as [[_ <-]|[_ Hk]]; [set_solver|]).
    apply lookup_singleton_Some in Hk as [_ <-]. set_solver.
Qed.

(** Nothing is reported for port 3; the server there is marked offline. *)
#[local] Definition some_loads (h : bytes) (p : Z) : outcome Z := if p =? 3 then Panic else Ret (10 - p).
(** The server at port 2 has not published its load yet. *)
#[local] Definition one_missing (h : bytes) (p : Z) : outcome Z := if p =? 1 then Ret 5 else Panic.

#[local] Lemma two_servers_answer (f : bytes -> Z -> outcome Z) :
  (forall h p, (exists z, f h p = Ret z) \/ f h p = Panic) ->
  forall k p, Services two_servers !! k = Some p -> answers_for f (servers two_servers) p.
Proof.
  intros Hf k p Hk. assert (p ∈ [0; 1; 2]%nat) as Hp by (apply two_servers_pointers; by exists k).
  repeat (apply elem_of_cons in Hp as [->|Hp]); [eexists; (split; [vm_compute; reflexivity|intros _; apply Hf])..|].
  by apply not_elem_of_nil in Hp.
Qed.

Lemma getServer_least_loaded_witness :
  (exists h, getServer (both_loops some_loads) [0; 1; 2]%nat [2; 1; 0]%nat two_servers =
      (with_servers h two_servers, Ret (Some 1%nat)) /\
    same_servers (servers two_servers) h) /\
  (exists k p, Services two_servers !! k = Some p /\ panics_for one_missing (servers two_servers) p).
Proof.
  assert (Ho : forall p, p ∈ [2; 1; 0]%nat <-> exists k, Services two_servers !! k = Some p).
  { intros p. rewrite <- two_servers_pointers. set_solver. }
  split.
  - destruct (getServer_least_loaded some_loads two_servers [0; 1; 2]%nat [2; 1; 0]%nat) as (h & r & E & Hh & _).
    + apply two_servers_pointers.
    + exact Ho.
    + apply two_servers_answer. intros h p. unfold some_loads. destruct (p =? 3); [by right|left; by eexists].
    + exists h. split; [|done].
      assert ((getServer (both_loops some_loads) [0; 1; 2]%nat [2; 1; 0]%nat two_servers).2 = Ret (Some 1%nat))
        as E2 by (vm_compute; reflexivity).
      rewrite E in E2. cbn [snd] in E2. by rewrite E, E2.
  - destruct (getServer_least_loaded one_missing two_servers [0; 1; 2]%nat [2; 1; 0]%nat) as (h & r & E & _ & Hp & _).
    + apply two_servers_pointers.
    + exact Ho.
    + apply two_servers_answer. intros h p. unfold one_missing. destruct (p =? 1); [left; by eexists|by right].
    + apply Hp. assert ((getServer (both_loops one_missing) [0; 1; 2]%nat [2; 1; 0]%nat two_servers).2 = Panic)
        as E2 by (vm_compute; reflexivity). by rewrite E in E2.
Defined.

(** Between the two loops the first server goes from no connection to nine:
    it is returned, although the second one has five. *)
Example changing_reports :
  let c := with_servers {[ 0%nat := mkServerNode false (gostr "a") 1 0; 1%nat := mkServerNode false (gostr "b") 2 0 ]}
    (with_Services {[ gostr "a:1" := 0%nat; gostr "b:2" := 1%nat ]} idle) in
  let r := getServer (mkReports (fun _ _ => Ret 0) (fun _ p => Ret (if p =? 1 then 9 else 5))) [0; 1]%nat [1; 0]%nat c in
  r.2 = Ret (Some 0%nat) /\ connects <$> servers r.1 = {[ 0%nat := 9; 1%nat := 5 ]}.
Proof. split; vm_compute; reflexivity. Qed.

Definition one_connected : Client (list bytes) :=
  with_current (Some 0%nat) (with_status clientOnline (with_node (Some (mkNode true nodeOnline []))
    (with_servers {[ 0%nat := mkServerNode false (gostr "a") 1 0 ]}
      (with_Services {[ gostr "a:1" := 0%nat ]} idle)))).

Lemma offline_forever_witness :
  let c' := run (on_event (@id bytes) [keep_event])
    [Read None; Turn (unchanging (fun _ _ => 0)) [0%nat] [0%nat] Dialled; Ticking true] one_connected in
  start_turn (unchanging (fun _ _ => 0)) [0%nat] [0%nat] Dialled c' = (c', Ret true).
Proof.
  assert (Hk : forall p, p ∈ [0; 0]%nat -> exists k, Services one_connected !! k = Some p).
  { intros p Hp. assert (p = 0%nat) as -> by set_solver. by exists (gostr "a:1"). }
  apply (offline_forever (@id bytes) [keep_event] one_connected 0%nat
    (mkServerNode false (gostr "a") 1 0) (mkNode true nodeOnline [])
    [Turn (unchanging (fun _ _ => 0)) [0%nat] [0%nat] Dialled; Ticking true]); try done.
  - intros k q Hq. left. cbn in Hq. by apply lookup_singleton_Some in Hq as [_ <-].
  - by repeat constructor.
Defined.
