(* ===== verification/SubService.v ===== *)
(** * The subscription service

    [src/services/service_tcp.go] and the parts of [src/services/service.go]
    that do not talk to Consul: how the service is put together from its
    callbacks, and what publishing, accepting and closing do.  Goroutines are
    turns of their loops; what the listener answers is an input. *)
From S2P Require Import Prelude.
From S2P Require Import GoSem.
From S2P Require Import SliceLoop.
From S2P Require Import Framing.
From S2P Require Import Frame.
From S2P Require Import SubNode.
From S2P Require Import SubGroups.
Set Default Proof Using "Type".

Definition serviceEnable : Z := 1.
Definition serviceClosed : Z := 2.
Definition ServiceName : bytes := gostr "binlog-go-subscribe".

(** ** Data *)

(** The registration with service discovery; its counter [connects] is in
    [world]. *)
Record Service := mkService {
  ServiceHost : bytes;
  ServiceIP : bytes;
  ServicePort : Z;
  ServiceID : bytes
}.

Record TCPService := mkTCPService {
  status : Z;
  listening : bool;                               (* the listener accepts *)
  sendAll : list (bytes -> bytes -> M world bool);
  sendRaw : list (bytes -> M world unit);
  onConnect : list (nat -> Z -> M world unit);
  onClose : list (M world unit);
  onKeepalive : list (bytes -> M world unit);
  reload : list (M world unit);
  groups : world
}.

Implicit Types t : TCPService.

Definition with_status (s : Z) t : TCPService :=
  mkTCPService s (listening t) (sendAll t) (sendRaw t) (onConnect t) (onClose t) (onKeepalive t)
    (reload t) (groups t).
Definition with_listening (b : bool) t : TCPService :=
  mkTCPService (status t) b (sendAll t) (sendRaw t) (onConnect t) (onClose t) (onKeepalive t)
    (reload t) (groups t).
Definition with_groups (w : world) t : TCPService :=
  mkTCPService (status t) (listening t) (sendAll t) (sendRaw t) (onConnect t) (onClose t)
    (onKeepalive t) (reload t) w.

(** ** Options *)
Definition TCPServiceOption : Type := TCPService -> TCPService.
Definition SetSendAll (f : bytes -> bytes -> M world bool) : TCPServiceOption := fun t =>
  mkTCPService (status t) (listening t) (sendAll t ++ [f]) (sendRaw t) (onConnect t) (onClose t)
    (onKeepalive t) (reload t) (groups t).
Definition SetSendRaw (f : bytes -> M world unit) : TCPServiceOption := fun t =>
  mkTCPService (status t) (listening t) (sendAll t) (sendRaw t ++ [f]) (onConnect t) (onClose t)
    (onKeepalive t) (reload t) (groups t).
Definition SetOnConnect (f : nat -> Z -> M world unit) : TCPServiceOption := fun t =>
  mkTCPService (status t) (listening t) (sendAll t) (sendRaw t) (onConnect t ++ [f]) (onClose t)
    (onKeepalive t) (reload t) (groups t).
Definition SetOnClose (f : M world unit) : TCPServiceOption := fun t =>
  mkTCPService (status t) (listening t) (sendAll t) (sendRaw t) (onConnect t) (onClose t ++ [f])
    (onKeepalive t) (reload t) (groups t).
Definition SetKeepalive (f : bytes -> M world unit) : TCPServiceOption := fun t =>
  mkTCPService (status t) (listening t) (sendAll t) (sendRaw t) (onConnect t) (onClose t)
    (onKeepalive t ++ [f]) (reload t) (groups t).
Definition SetReload (f : M world unit) : TCPServiceOption := fun t =>
  mkTCPService (status t) (listening t) (sendAll t) (sendRaw t) (onConnect t) (onClose t)
    (onKeepalive t) (reload t ++ [f]) (groups t).
(** [SetOnRemove] applied to the groups. *)
Definition SetOnRemove (h : remove_hook) : TCPServiceOption := fun t =>
  with_groups (mkWorld (nodes (groups t)) (next_node (groups t)) (grp (groups t))
    (onRemove (groups t) ++ [h]) (connects (groups t))) t.

Definition newTCPService (opts : list TCPServiceOption) (w : world) : TCPService :=
  foldl (fun t f => f t) (mkTCPService (Z.lor 0 serviceEnable) false [] [] [] [] [] [] w) opts.

(** ** The address *)

(** [strings.Split(s, ":")] *)
Fixpoint split_colon (s : bytes) : list bytes :=
  match s with
  | [] => [[]]
  | b :: s =>
      if byte_Z b =? 58 then [] :: split_colon s
      else match split_colon s with
           | w :: ws => (b :: w) :: ws
           | [] => [[b]]
           end
  end.

Definition digit (b : byte) : option Z :=
  let d := byte_Z b - 48 in if (0 <=? d) && (d <=? 9) then Some d else None.
Fixpoint digits (s : bytes) (acc : Z) : option Z :=
  match s with
  | [] => Some acc
  | b :: s => match digit b with Some d => digits s (10 * acc + d) | None => None end
  end.
(** The value of [strconv.ParseInt(s, 10, 32)] whatever its error: 0 when
    there is no number, the nearest bound when it does not fit. *)
Definition ParseInt32 (s : bytes) : Z :=
  let clamp z := Z.max (- 2 ^ 31) (Z.min (2 ^ 31 - 1) z) in
  match s with
  | [] => 0
  | b :: s' =>
      let '(sign, ds) := if byte_Z b =? 45 then (-1, s') else if byte_Z b =? 43 then (1, s') else (1, s) in
      match ds with
      | [] => 0
      | _ => match digits ds 0 with Some z => clamp (sign * z) | None => 0 end
      end
  end.

(** [NewService] with [opts] having set [service_ip]. *)
Definition NewService (host : bytes) (port : Z) (service_ip : bytes) : outcome Service :=
  let id ip := ServiceName ++ gostr "-" ++ ip ++ gostr "-" ++ gostr (pretty.pretty port) in
  if bool_decide (host = gostr "0.0.0.0") then
    if bool_decide (service_ip = []) then Panic
    else Ret (mkService host service_ip port (id service_ip))
  else Ret (mkService host service_ip port (id host)).

(** The address [Register] and [updateTTL] publish. *)
Definition public_ip (s : Service) : bytes :=
  if bool_decide (ServiceHost s = gostr "0.0.0.0") && negb (bool_decide (ServiceIP s = []))
  then ServiceIP s else ServiceHost s.
Definition connects_key (ip : bytes) (port : Z) : bytes :=
  gostr "connects/" ++ ip ++ gostr "/" ++ gostr (pretty.pretty port).

(** ** The service *)
Section TCPService.
Variable growcap : nat -> nat -> nat.
Variable MatchString : bytes -> bytes -> option bool.
(** Deregistering from Consul, as far as this process is concerned. *)
Definition svc_Close : M world unit := ret tt.

(** [NewTCPService]; [consul] tells whether service discovery is on. *)
Definition NewTCPService (listen : bytes) (consul : bool) : outcome (TCPService * option Service) :=
  let t := newTCPService
    [SetSendAll (groups_sendAll growcap MatchString);
     SetSendRaw (groups_asyncSend growcap);
     SetOnConnect (groups_onConnect growcap);
     SetOnClose (groups_close growcap);
     SetKeepalive (groups_asyncSend growcap);
     SetReload (groups_reload growcap)] new_groups in
  if consul then
    obind (index (split_colon listen) 0) (fun host =>
    obind (index (split_colon listen) 1) (fun p =>
    obind (NewService host (ParseInt32 p) []) (fun svc =>
    Ret (SetOnRemove ServiceDisconnect
          (SetOnConnect (fun _ _ => newConnect)
            (SetOnClose svc_Close t)), Some svc))))
  else Ret (t, None).

(** A callback, on the groups and the connection counter. *)
Definition in_groups {A} (m : M world A) : M TCPService A := fun t =>
  (with_groups (m (groups t)).1 t, (m (groups t)).2).

Definition SendAll (table data : bytes) : M TCPService bool :=
  let! t := gets id in
  if Z.land (status t) serviceEnable <=? 0 then ret false
  else
    let packData := Pack CMD_EVENT data in
    range (sendAll t) (fun f => in_groups (f table packData) ;; ret tt) ;;
    ret true.

Definition SendRaw (msg : bytes) : M TCPService bool :=
  let! t := gets id in
  if Z.land (status t) serviceEnable <=? 0 then ret false
  else
    range (sendRaw t) (fun f => in_groups (f msg)) ;;
    ret true.

(** [Start]; [listen_ok] tells whether [net.Listen] succeeded. *)
Definition Start (listen_ok : bool) : M TCPService unit :=
  let! t := gets id in
  if Z.land (status t) serviceEnable <=? 0 then ret tt
  else
    (if 0 <? Z.land (status t) serviceClosed
     then modify (fun t => with_status (Z.lxor (status t) serviceClosed) t) else ret tt) ;;
    if listen_ok then modify (with_listening true) else ret tt.

(** A turn of the accept loop: whether the context is done, and what [Accept]
    returned ([None] an error); [true] when the loop goes on. *)
Definition accept_turn (done : bool) (r : option (nat * Z)) : M TCPService bool :=
  let! t := gets id in
  if done then ret false
  else if 0 <? Z.land (status t) serviceClosed then ret false
  else match r with
       | None => ret true
       | Some (c, now) => range (onConnect t) (fun f => in_groups (f c now)) ;; ret true
       end.

Definition Close : M TCPService unit :=
  let! t := gets id in
  if 0 <? Z.land (status t) serviceClosed then ret tt
  else
    (if listening t then modify (with_listening false) else ret tt) ;;
    range (onClose t) in_groups ;;
    modify (fun t => if Z.land (status t) serviceClosed <=? 0
                     then with_status (Z.lor (status t) serviceClosed) t else t).

(** [Reload] does nothing; the [reload] callbacks are never called. *)
Definition Reload : M TCPService unit := ret tt.

(** A turn of [keepalive]'s loop, after its check of the enable bit. *)
Definition keepalive_turn (done : bool) : M TCPService bool :=
  let! t := gets id in
  if done then ret false
  else range (onKeepalive t) (fun f => in_groups (f packDataTickOk)) ;; ret true.
End TCPService.

(** ** The service as [NewTCPService] builds it *)
Section Service.
Variable growcap : nat -> nat -> nat.
Variable unicode_lower : bytes -> bytes.
Variable MatchString : bytes -> bytes -> option bool.

(** The groups keep their invariant, the callbacks are those of
    [NewTCPService] with service discovery on, and the enable bit is set. *)
Record service_ok t : Prop := {
  sv_groups : world_ok (groups t);
  sv_status : status t = serviceEnable \/ status t = Z.lor serviceEnable serviceClosed;
  sv_sendAll : sendAll t = [groups_sendAll growcap MatchString];
  sv_onConnect : onConnect t = [groups_onConnect growcap; fun _ _ => newConnect];
  sv_onClose : onClose t = [groups_close growcap; svc_Close];
  sv_onKeepalive : onKeepalive t = [groups_asyncSend growcap];
  sv_sendRaw : sendRaw t = [groups_asyncSend growcap]
}.

Lemma in_groups_eq {A} (m : M world A) t w a :
  m (groups t) = (w, Ret a) -> in_groups m t = (with_groups w t, Ret a).
Proof. intros E. unfold in_groups. by rewrite E. Qed.

Lemma with_groups_id t : with_groups (groups t) t = t.
Proof. by destruct t. Qed.

(** Publishing on a service in this state is publishing to the group. *)
Lemma SendAll_eq table data t :
  service_ok t -> (forall w, groups_sendAll growcap MatchString table (Pack CMD_EVENT data) (groups t)
                         = (w, Ret true) ->
    SendAll table data t = (with_groups w t, Ret true)).
Proof.
  intros Ht w E. unfold SendAll. erewrite bind_ret by reflexivity. cbn [id].
  assert (Hen : (Z.land (status t) serviceEnable <=? 0) = false) by (by destruct (sv_status t Ht) as [-> | ->]).
  rewrite Hen, (sv_sendAll t Ht). cbn [range].
  rewrite (bind_ret _ _ _ (with_groups w t) tt); [done|].
  rewrite (bind_ret _ _ _ (with_groups w t) tt); [done|].
  by rewrite (bind_ret _ _ _ _ _ (in_groups_eq _ t w true E)).
Qed.

Lemma split_colon_app h p :
  (forall b, b ∈ h -> byte_Z b <> 58) -> split_colon (h ++ gostr ":" ++ p) = h :: split_colon p.
Proof.
  induction h as [|b h IH]; intros Hh; [done|]. cbn [app split_colon].
  destruct (Z.eqb_spec (byte_Z b) 58) as [E|_]; [exfalso; by apply (Hh b); [left|]|].
  rewrite IH; [done|]. intros x Hx. apply Hh. by right.
Qed.

(** With service discovery on, the service cannot be created on the
    wildcard address, whatever the port - [NewService] is given no option that
    sets the address to publish - nor on an address without a port; every
    other address gives a service in its initial state, registered under the
    address's host and port. *)
Theorem NewTCPService_outcome listen :
  NewTCPService growcap MatchString listen true =
    match split_colon listen with
    | host :: p :: _ =>
        if bool_decide (host = gostr "0.0.0.0") then Panic
        else Ret (newTCPService
               [SetSendAll (groups_sendAll growcap MatchString); SetSendRaw (groups_asyncSend growcap);
                SetOnConnect (groups_onConnect growcap); SetOnClose (groups_close growcap);
                SetKeepalive (groups_asyncSend growcap); SetReload (groups_reload growcap);
                SetOnClose svc_Close; SetOnConnect (fun _ _ => newConnect);
                SetOnRemove ServiceDisconnect] new_groups,
             Some (mkService host [] (ParseInt32 p)
               (ServiceName ++ gostr "-" ++ host ++ gostr "-" ++ gostr (pretty.pretty (ParseInt32 p)))))
    | _ => Panic
    end.
Proof.
  unfold NewTCPService. destruct (split_colon listen) as [|host [|p ws]]; [done..|].
  change (index (host :: p :: ws) 0) with (Ret host). change (index (host :: p :: ws) 1) with (Ret p).
  cbn [obind]. unfold NewService. rewrite (bool_decide_eq_true_2 ([] = [])) by done.
  destruct (bool_decide _); done.
Qed.

Lemma service_ok_new listen t svc :
  NewTCPService growcap MatchString listen true = Ret (t, svc) -> service_ok t.
Proof.
  intros E. unfold NewTCPService in E. destruct (index _ 0) as [host| | |]; simplify_eq/=.
  destruct (index _ 1) as [p| | |]; simplify_eq/=.
  destruct (NewService _ _ _) as [s| | |]; simplify_eq/=.
  split; try done; [apply world_ok_init|by left].
Qed.

Lemma groups_close_ok w : world_ok w ->
  exists w', groups_close growcap w = (w', Ret tt) /\ world_ok w' /\ elems (grp w') = [].
Proof.
  intros Hw.
  destruct (range_live_closes 0%nat growcap grp
    (close (H:=world_host growcap) (W:=world)) world_ok is_open world_slice world_open
    (fun w i => is_Some (nodes w !! i)) world_known (close_closed growcap) (close_open growcap) w Hw)
    as (w1 & E & Hw1 & _).
  exists (with_grp empty_slice w1). unfold groups_close.
  erewrite bind_ret by reflexivity. rewrite (bind_ret _ _ _ _ _ E).
  split_and!; [done|by apply world_ok_clear|done].
Qed.

(** Closing the service empties the group for good: a second [Close] does
    nothing, the accept loop ends at its next turn whatever connection it
    got, and what is published later is accepted and reaches nobody. *)
Theorem close_is_final t :
  service_ok t -> status t = serviceEnable ->
  exists t', Close t = (t', Ret tt) /\ service_ok t' /\ elems (grp (groups t')) = [] /\
    Close t' = (t', Ret tt) /\
    (forall done r, accept_turn done r t' = (t', Ret false)) /\
    forall table data, SendAll table data t' = (t', Ret true).
Proof.
  intros Ht Hs. destruct (groups_close_ok (groups t) (sv_groups t Ht)) as (w & Ec & Hw & Ew).
  set (t0 := if listening t then with_listening false t else t).
  set (t' := with_status (Z.lor serviceEnable serviceClosed) (with_groups w t0)).
  assert (Ht' : service_ok t').
  { destruct Ht as [H1 H2 H3 H4 H5 H6 H7]. split; try done; [by right| | | | |];
      unfold t', t0; by case_match. }
  exists t'. split_and!; [|done|done|reflexivity|by intros [] []|].
  - unfold Close. erewrite bind_ret by reflexivity. cbn [id]. rewrite Hs.
    change (0 <? Z.land serviceEnable serviceClosed) with false. cbn iota.
    rewrite (bind_ret _ _ t t0 tt); cycle 1.
    { unfold t0. by case_match. }
    rewrite (sv_onClose t Ht). cbn [range].
    assert (E0 : in_groups (groups_close growcap) t0 = (with_groups w t0, Ret tt)).
    { apply in_groups_eq. unfold t0. by case_match. }
    rewrite (bind_ret _ _ t0 (with_groups w t0) tt).
    + unfold modify, t', with_status. cbn [status with_groups].
      replace (status t0) with serviceEnable by (unfold t0; by case_match). done.
    + rewrite (bind_ret _ _ _ _ _ E0). by rewrite (bind_ret _ _ _ (with_groups w t0) tt).
  - intros table data. rewrite (SendAll_eq table data t' Ht' w); [reflexivity|].
    unfold groups_sendAll. erewrite bind_ret by reflexivity.
    change (groups t') with w. by rewrite Ew.
Qed.
End Service.

(** ** Concrete instances *)
Section ServiceInstances.
#[local] Definition twice (c n : nat) : nat := (2 * n)%nat.
#[local] Definition same (f t : bytes) : option bool := Some (bool_decide (f = t)).
(** A service with three subscribers. *)
#[local] Definition some_connects : list world_event :=
  [WConnect 7 0; WConnect 8 0; WConnect 9 0; WNode 1 (EvRead None)].
#[local] Definition some_service : TCPService :=
  match NewTCPService twice same (gostr "127.0.0.1:9990") true with
  | Ret (t, _) => with_groups (run (on_world_event twice id same) some_connects (groups t)) t
  | _ => newTCPService [] new_groups
  end.

#[local] Lemma some_service_ok : service_ok twice same some_service.
Proof.
  assert (H : service_ok twice same
    (with_groups (run (on_world_event twice id same) some_connects registered_groups)
      (SetOnRemove ServiceDisconnect (SetOnConnect (fun _ _ => newConnect) (SetOnClose svc_Close
        (newTCPService [SetSendAll (groups_sendAll twice same); SetSendRaw (groups_asyncSend twice);
          SetOnConnect (groups_onConnect twice); SetOnClose (groups_close twice);
          SetKeepalive (groups_asyncSend twice); SetReload (groups_reload twice)] new_groups)))))).
  { split; try done; [|by left]. apply preserves_run; [|apply world_ok_init].
    intros e. apply preserves_on_world_event. }
  exact H.
Qed.

Lemma close_is_final_witness :
  exists t', Close some_service = (t', Ret tt) /\ service_ok twice same t' /\
    elems (grp (groups t')) = [] /\ Close t' = (t', Ret tt) /\
    (forall done r, accept_turn done r t' = (t', Ret false)) /\
    forall table data, SendAll table data t' = (t', Ret true).
Proof. apply (close_is_final twice same some_service some_service_ok). vm_compute. reflexivity. Defined.
End ServiceInstances.
