(* ===== verification/SubStart.v ===== *)
(** * Making a subscriber's client

    [NewClient] of [src/client/tcp.go] with its options, and the loop of
    [start] with the channel by which it tells [NewClient] of the first
    connection.  What dialling a server gives is a function of the server. *)
From S2P Require Import Prelude.
From S2P Require Import GoSem.
From S2P Require Import Numbers.
From S2P Require Import SubClient.
Set Default Proof Using "Type".

(** ** [strings.Split] and [strconv.ParseInt] *)
Definition Split (sep : byte) (s : bytes) : list bytes :=
  foldr (fun b parts =>
    if decide (b = sep) then [] :: parts
    else match parts with x :: parts => (b :: x) :: parts | [] => [[b]] end) [[]] s.

Inductive uint_result := UInt (n : Z) | USyntax | URange.
Fixpoint uint_loop (s : bytes) (n : Z) : uint_result :=
  match s with
  | [] => UInt n
  | b :: s =>
      if negb (is_digit b) then USyntax
      else if 2 ^ 64 <=? n * 10 + digit_val b then URange
      else uint_loop s (n * 10 + digit_val b)
  end.
Definition ParseUint (s : bytes) : uint_result := match s with [] => USyntax | _ => uint_loop s 0 end.
(** [strconv.ParseInt(s, 10, 64)] without its error. *)
Definition ParseInt (s : bytes) : Z :=
  let neg := bool_decide (head s = Some minus) in
  let digits := if neg || bool_decide (head s = Some plus) then tail s else s in
  match ParseUint digits with
  | USyntax => 0
  | URange => if neg then - 2 ^ 63 else 2 ^ 63 - 1
  | UInt n => if neg then Z.max (- n) (- 2 ^ 63) else Z.min n (2 ^ 63 - 1)
  end.

(** ** Options *)
Section NewClient.
Context {J E : Type}.
Implicit Types c : Client E.

(** The client, with the fields only its options set. *)
Record setup := mkSetup {
  client : Client E;
  onevent : list (J -> M E unit);
  consulAddress : bytes
}.
Definition Option : Type := M setup unit.
Definition on_client {A} (m : M (Client E) A) : M setup A := fun s =>
  (mkSetup (m (client s)).1 (onevent s) (consulAddress s), (m (client s)).2).

Definition OnEventOption (f : J -> M E unit) : Option :=
  modify (fun s => mkSetup (client s) (onevent s ++ [f]) (consulAddress s)).
Definition SetConsulAddress (a : bytes) : Option :=
  modify (fun s => mkSetup (client s) (onevent s) a).
(** The addresses as they are configured; one without a colon panics. *)
Definition SetServices (ss : list bytes) : Option :=
  range ss (fun s =>
    let temp := Split (Z_byte 58) s in
    let! host := lift (index temp 0) in
    let! port := lift (index temp 1) in
    on_client (add_service s host (ParseInt port))).

Inductive started := Given | Discovered.
(** [members] is what Consul answered, [None] an error. *)
Definition NewClient (opts : list Option) (members : option (list (bytes * Z))) : M setup started :=
  range opts (fun f => f) ;;
  let! s := gets Datatypes.id in
  if 0 <? Z.of_nat (size (Services (client s))) then ret Given
  else if negb (bool_decide (consulAddress s = [])) then
    on_client (add_members (default [] members)) ;; ret Discovered
  else lift Panic.
Definition blank (e : E) : setup := mkSetup (new_client e) [] [].

(** ** The loop of [start]

    The first component: [wi.closed], which is when [NewClient] returns. *)
Definition waiting : Type := bool * Client E.
Definition on_waiting {A} (m : M (Client E) A) : M waiting A := fun x => ((x.1, (m x.2).1), (m x.2).2).

Definition connected c : bool :=
  match node c with Some n => n_open n && negb (has nodeOffline (n_status n)) | None => false end.

Definition start_wi (r : reports) (order1 order2 : list nat) (dial : nat -> dial_result) :
    M waiting bool :=
  let! server := on_waiting (getServer r order1 order2) in
  match server with
  | None => ret true
  | Some p =>
      on_waiting (connect (dial p)) ;;
      let! x := gets Datatypes.id in
      if negb (connected x.2) then ret true
      else
        modify (fun x => (true, x.2)) ;;
        if has clientOffline (status x.2) then ret false
        else on_waiting (modify (with_current (Some p))) ;; ret true
  end.

(** Without the channel it is [start_turn]. *)
Lemma start_wi_turn gc o1 o2 dial w c : exists d,
  start_turn gc o1 o2 d c = ((start_wi gc o1 o2 dial (w, c)).1.2, (start_wi gc o1 o2 dial (w, c)).2).
Proof.
  unfold start_wi, start_turn. unfold bind, on_waiting, gets, modify, ret, id. cbn [fst snd].
  destruct (getServer gc o1 o2 c) as [c1 [[p|]| | |]]; cbn [fst snd]; try by exists Dialled.
  exists (dial p). destruct (connect (dial p) c1) as [c2 [[]| | |]]; cbn [fst snd]; try done.
  unfold connected. destruct (node c2) as [n|]; [|done]. destruct (n_open n); cbn [negb orb andb]; [|done].
  destruct (has nodeOffline (n_status n)); [done|]. cbn [negb fst snd].
  by destruct (has clientOffline (status c2)).
Qed.
End NewClient.

(** ** When [NewClient] returns *)
Section Waiting.
Context {J E : Type} (Unmarshal : bytes -> J) (onevent : list (J -> M E unit)).
Implicit Types c : Client E.

(** What happens to a client before [NewClient] has returned it. *)
Inductive wait_event :=
  | WTurn (r : reports) (order1 order2 : list nat) (dial : nat -> dial_result)
  | WRead (r : option bytes)
  | WTick (ok : bool)
  | WWatch (ip : bytes) (p event : Z).
Definition on_wait_event (e : wait_event) : M waiting unit :=
  match e with
  | WTurn gc o1 o2 dial => start_wi gc o1 o2 dial ;; ret tt
  | WRead r => on_waiting (read_turn Unmarshal onevent r) ;; ret tt
  | WTick ok => on_waiting (keepalive_turn ok)
  | WWatch ip p ev => on_waiting (on_watch ip p ev)
  end.

Definition node_ok c : Prop :=
  match node c with
  | Some n => n_status n = nodeOnline /\ n_open n = true \/ n_status n = nodeOffline
  | None => True
  end.
Definition steady (st : Z) c : Prop := status c = st /\ node_ok c.

(** Everything but connecting leaves the status as it is. *)
Section Steady.
Context (st : Z).
Lemma steady_modify (f : Client E -> Client E) :
  (forall c, status (f c) = status c /\ node (f c) = node c) -> preserves (steady st) (modify f).
Proof. intros Hf c [Hs Hn]. cbn. destruct (Hf c) as [E1 E2]. unfold steady, node_ok. by rewrite E1, E2. Qed.
Lemma steady_get {B} (k : Client E -> M (Client E) B) :
  (forall c, preserves (steady st) (k c)) -> preserves (steady st) (let! c := gets id in k c).
Proof. intros Hk. apply preserves_bind; [apply preserves_gets|exact Hk]. Qed.
Lemma steady_server {B} p (k : serverNode -> M (Client E) B) :
  (forall s, preserves (steady st) (k s)) -> preserves (steady st) (let! s := the_server p in k s).
Proof.
  intros Hk. apply preserves_bind; [|exact Hk]. intros c Hc. unfold the_server. by destruct (servers c !! p).
Qed.
Lemma steady_disconnect : preserves (steady st) (disconnect (E:=E)).
Proof.
  intros c [Hs Hn]. unfold disconnect. erewrite bind_ret by reflexivity. cbn [id]. unfold node_ok in Hn.
  destruct (node c) as [n|] eqn:En; [|by split; [|unfold node_ok; cbn; rewrite En]].
  destruct Hn as [[Hn Ho]|Hn]; rewrite Hn.
  - change (has nodeOffline nodeOnline) with false. change (has nodeOnline nodeOnline) with true. cbn iota.
    split; [done|]. by right.
  - change (has nodeOffline nodeOffline) with true. cbn iota. split; [done|]. unfold node_ok. cbn. rewrite En. by right.
Qed.
Lemma steady_write d : preserves (steady st) (node_write (E:=E) d).
Proof.
  intros c [Hs Hn]. unfold node_write. erewrite bind_ret by reflexivity. cbn [id]. unfold node_ok in Hn.
  destruct (node c) as [n|] eqn:En; [|by split; [|unfold node_ok; cbn; rewrite En]]. by split.
Qed.
#[local] Hint Resolve steady_disconnect steady_write : core.

Lemma steady_update gc p : preserves (steady st) (update_connects (E:=E) gc p).
Proof.
  apply steady_server. intros s. apply preserves_bind; [apply preserves_lift|intros n]. by apply steady_modify.
Qed.
Lemma steady_getServer gc o1 o2 : preserves (steady st) (getServer (E:=E) gc o1 o2).
Proof.
  apply steady_get. intros c. apply preserves_if; [apply preserves_ret|]. apply preserves_bind; [|intros r].
  - induction o1 as [|p o1 IH]; [apply preserves_ret|]. apply steady_server. intros s. apply preserves_if; [exact IH|].
    apply preserves_bind; [apply steady_update|intros _; apply preserves_ret].
  - revert r. induction o2 as [|p o2 IH]; intros r; [apply preserves_ret|]. apply steady_server. intros s.
    apply preserves_if; [apply IH|]. apply preserves_bind; [apply steady_update|intros _]. apply steady_server. intros s'.
    destruct r; [|apply preserves_lift]. apply steady_server. intros cur. apply IH.
Qed.
Lemma steady_watch ip p ev : preserves (steady st) (on_watch (E:=E) ip p ev).
Proof.
  apply steady_get. intros c. apply preserves_if; [by apply steady_modify|]. apply preserves_if; [|apply preserves_ret].
  destruct (Services c !! _); [apply preserves_ret|by apply steady_modify].
Qed.
Lemma steady_tick ok : preserves (steady st) (keepalive_turn (E:=E) ok).
Proof.
  apply steady_get. intros c. destruct (node c); [|apply preserves_ret]. apply preserves_if; [|apply preserves_ret].
  by apply preserves_if.
Qed.
Lemma steady_onMessage msg : preserves (steady st) (onMessage Unmarshal onevent msg).
Proof.
  apply preserves_bind; [by apply steady_modify|intros _]. apply steady_get. intros c0. generalize (S (length (buffer c0))).
  intros n. induction n as [|n IH]; [apply preserves_lift|]. cbn [onMessage_loop]. apply steady_get. intros c.
  apply preserves_if; [apply preserves_ret|]. apply preserves_bind; [apply preserves_lift|intros cl].
  apply preserves_bind; [apply preserves_lift|intros cmd]. apply preserves_if; [by apply steady_modify|].
  apply preserves_if; [apply preserves_ret|]. apply preserves_bind; [apply preserves_lift|intros d].
  apply preserves_bind; [|intros _; apply preserves_bind; [|intros _; exact IH]].
  - apply preserves_if; [|apply preserves_ret]. apply preserves_bind; [by apply steady_modify|intros _].
    apply preserves_range. intros f x Hx. exact Hx.
  - apply steady_get. intros c1. apply preserves_bind; [apply preserves_lift|intros r]. by apply steady_modify.
Qed.
Lemma steady_read r : preserves (steady st) (read_turn Unmarshal onevent r).
Proof.
  apply steady_get. intros c. destruct (current c) as [p|]; [|apply preserves_ret].
  apply preserves_if; [apply preserves_bind; [by apply steady_modify|intros _; apply preserves_ret]|].
  apply preserves_if; [|apply preserves_bind; [apply steady_onMessage|intros _; apply preserves_ret]].
  apply preserves_bind; [done|intros _]. apply steady_server. intros s.
  apply preserves_bind; [by apply steady_modify|intros _]. apply preserves_bind; [by apply steady_modify|intros _].
  apply preserves_ret.
Qed.
End Steady.

Lemma steady_connect st d c : st = clientOffline \/ st = clientOnline -> steady st c ->
  exists c', connect d c = (c', Ret tt) /\
    match d with
    | Dialled => steady clientOnline c' /\ connected c' = true
    | _ => steady st c' /\ connected c' = false
    end.
Proof.
  intros Hst Hc. destruct (cl_connect_eq d c) as [Ec _]. eexists. split; [exact Ec|]. destruct Hc as [Hs Hn].
  destruct d; cbn [fst].
  - unfold connect. erewrite bind_ret by reflexivity. cbn [id]. unfold node_ok in Hn.
    destruct (node c) as [n|] eqn:En; cycle 1.
    { erewrite bind_ret by reflexivity. cbn. unfold steady, node_ok, connected. by rewrite En. }
    destruct Hn as [[Hn Ho]|Hn]; rewrite Hn.
    + change (has nodeOnline nodeOnline) with true. cbn iota.
      assert (Ed : disconnect c = (with_node (Some (mkNode (n_open n) nodeOffline (n_writes n))) c, Ret tt)).
      { unfold disconnect. erewrite bind_ret by reflexivity. cbn [id]. by rewrite En, Hn. }
      rewrite (bind_ret _ _ _ _ _ Ed). cbn. split; [split; [done|by right]|]. unfold connected. cbn. apply andb_false_r.
    + change (has nodeOnline nodeOffline) with false. cbn iota. erewrite bind_ret by reflexivity. cbn [fst ret].
      unfold steady, node_ok, connected. rewrite En, Hn. split; [split; [done|by right]|]. apply andb_false_r.
  - split; [split; [done|by right]|done].
  - unfold running. cbn [status with_node]. split; [|by case_match]. destruct Hst as [-> | ->]; rewrite Hs.
    + change (has clientOffline clientOffline) with true. split; [by vm_compute|by left].
    + change (has clientOffline clientOnline) with false. split; [done|by left].
Qed.

(** The client waits while it is offline, and is handed out online. *)
Definition status_of (returned : bool) : Z := if returned then clientOnline else clientOffline.
Definition handed_out (x : waiting) : Prop := steady (status_of x.1) x.2.

(** A turn of the loop of [start]; it connects when the dialling does. *)
Lemma start_wi_handed gc o1 o2 dial x : handed_out x ->
  handed_out (start_wi gc o1 o2 dial x).1 /\
  ((start_wi (E:=E) gc o1 o2 dial x).1.1 = true -> x.1 = true \/ exists p, dial p = Dialled).
Proof.
  destruct x as [w c]. intros Hc. unfold handed_out in Hc. cbn [fst snd] in Hc.
  enough (exists x', (start_wi gc o1 o2 dial (w, c)).1 = x' /\ handed_out x' /\
    (x'.1 = true -> w = true \/ exists p, dial p = Dialled)) as (x' & -> & H1 & H2) by done.
  pose proof (steady_getServer (status_of w) gc o1 o2 c Hc) as Hg.
  destruct (getServer gc o1 o2 c) as [c1 r] eqn:Eg. cbn [fst] in Hg.
  assert (Ew : on_waiting (getServer gc o1 o2) (w, c) = ((w, c1), r)) by (unfold on_waiting; cbn [fst snd]; by rewrite Eg).
  assert (Hsame : handed_out (w, c1)) by exact Hg. unfold start_wi.
  destruct r as [[p|]| | |]; [|exists (w, c1); split_and!; [unfold bind; by rewrite Ew|done|by left]..].
  rewrite (bind_ret _ _ _ _ _ Ew).
  destruct (steady_connect (status_of w) (dial p) c1) as (c2 & E2 & H2); [by destruct w; [right|left]|done|].
  rewrite (bind_ret _ _ (w, c1) (w, c2) tt) by (unfold on_waiting; cbn [fst snd]; by rewrite E2).
  erewrite bind_ret by reflexivity. cbn [Datatypes.id snd].
  destruct (dial p) eqn:Ed; destruct H2 as [H2 Hcon]; rewrite Hcon; cbn [negb];
    [exists (w, c2); split_and!; [done|exact H2|by left]..|].
  erewrite bind_ret by reflexivity. cbn [snd]. destruct H2 as [Hst Hn]. rewrite Hst.
  change (has clientOffline clientOnline) with false. cbn iota. eexists. split; [reflexivity|]. split; [by split|].
  intros _. right. by exists p.
Qed.

Definition succeeds (e : wait_event) : Prop :=
  match e with WTurn _ _ _ dial => exists p, dial p = Dialled | _ => False end.

Lemma wait_event_handed e x : handed_out x ->
  handed_out (on_wait_event e x).1 /\ ((on_wait_event e x).1.1 = true -> x.1 = true \/ succeeds e).
Proof.
  intros Hx. destruct x as [w c]. destruct e as [gc o1 o2 dial|r|ok|ip p ev]; cbn [on_wait_event succeeds].
  - destruct (start_wi_handed gc o1 o2 dial (w, c) Hx) as [H1 H2]. unfold bind.
    destruct (start_wi gc o1 o2 dial (w, c)) as [x' [b| | |]]; done.
  - pose proof (steady_read (status_of w) r c Hx) as H. unfold bind, on_waiting. cbn [fst snd].
    destruct (read_turn Unmarshal onevent r c) as [c' [b| | |]]; (split; [done|by left]).
  - split; [exact (steady_tick (status_of w) ok c Hx)|by left].
  - split; [exact (steady_watch (status_of w) ip p ev c Hx)|by left].
Qed.

Lemma wait_run_handed evs : forall x, handed_out x ->
  handed_out (run on_wait_event evs x) /\
  ((run on_wait_event evs x).1 = true -> x.1 = true \/ Exists succeeds evs).
Proof.
  induction evs as [|e evs IH]; intros x Hx; [by split; [|left]|]. change (run on_wait_event (e :: evs) x) with
    (run on_wait_event evs (on_wait_event e x).1).
  destruct (wait_event_handed e x Hx) as [H1 H2]. destruct (IH _ H1) as [H3 H4]. split; [done|].
  intros H. destruct (H4 H) as [H5|H5]; [|right; by right]. destruct (H2 H5); [by left|right; by left].
Qed.

(** The options a program can give. *)
Inductive known_option : Option (J:=J) (E:=E) -> Prop :=
  | opt_event f : known_option (OnEventOption f)
  | opt_consul a : known_option (SetConsulAddress a)
  | opt_services ss : known_option (SetServices ss).

Definition steady_setup (s : setup (J:=J) (E:=E)) : Prop := steady clientOffline (client s).
Lemma steady_add_services k h p : preserves steady_setup (on_client (J:=J) (add_service (E:=E) k h p)).
Proof. intros s Hs. exact (steady_modify clientOffline _ (fun c => conj eq_refl eq_refl) (client s) Hs). Qed.
Lemma known_option_steady o : known_option o -> preserves steady_setup o.
Proof.
  intros [f|a|ss]; [by apply preserves_modify..|]. apply preserves_range. intros s.
  apply preserves_bind; [apply preserves_lift|intros h]. apply preserves_bind; [apply preserves_lift|intros q].
  apply steady_add_services.
Qed.
Lemma NewClient_steady opts members e : Forall known_option opts ->
  steady_setup (NewClient opts members (blank e)).1.
Proof.
  intros Ho. assert (Hp : preserves steady_setup (NewClient opts members)).
  { unfold NewClient. apply preserves_bind; [|intros _].
    - induction Ho as [|o opts Ho _ IH]; [apply preserves_ret|]. cbn [range].
      apply preserves_bind; [by apply known_option_steady|intros _; exact IH].
    - apply preserves_bind; [apply preserves_gets|intros s]. apply preserves_if; [apply preserves_ret|].
      apply preserves_if; [|apply preserves_lift]. apply preserves_bind; [|intros _; apply preserves_ret].
      intros s' Hs. unfold on_client. cbn [fst client]. change (steady clientOffline (add_members (default [] members) (client s')).1).
      assert (Hm : preserves (steady clientOffline) (add_members (default [] members))); [|by apply Hm].
      apply preserves_range. intros [ip q]. apply steady_get. intros c.
      destruct (Services c !! _); [apply preserves_ret|by apply steady_modify]. }
  apply Hp. by split.
Qed.

(** The program gets its client back when it is connected and not before: as
    long as [NewClient] waits the client is offline, when it returns the client
    is online, and it returns only after some server has let the client
    connect - with no server to connect to it waits for ever. *)
Theorem NewClient_returns_online opts members e evs : Forall known_option opts ->
  let x := run on_wait_event evs (false, client (NewClient opts members (blank e)).1) in
  status x.2 = (if x.1 then clientOnline else clientOffline) /\ (x.1 = true -> Exists succeeds evs).
Proof.
  intros Ho x. destruct (wait_run_handed evs (false, client (NewClient opts members (blank e)).1)) as [[H1 _] H2].
  { by apply NewClient_steady. }
  split; [exact H1|]. intros H. by destruct (H2 H).
Qed.
End Waiting.

(** ** A server that cannot be reached *)
Section Starving.
Context {E : Type} (getConnects : bytes -> Z -> Z).
Implicit Types c : Client E.

(** A turn: the two orders of the map, and what dialling the servers gives. *)
Definition attempt : Type := list nat * list nat * (nat -> dial_result).
Definition turns (l : list attempt) : M (waiting (E:=E)) unit :=
  range l (fun t => start_wi (unchanging getConnects) t.1.1 t.1.2 t.2 ;; ret tt).

(** The loads that are reported; [p] is the online server with the least. *)
#[local] Abbreviation loaded := (load (fun h p => Ret (getConnects h p))).
Record favourite c p : Prop := {
  fv_known : exists k, Services c !! k = Some p;
  fv_online : online (servers c) p;
  fv_servers : forall k q, Services c !! k = Some q -> is_Some (servers c !! q);
  fv_least : forall k q, Services c !! k = Some q -> q <> p -> online (servers c) q ->
    loaded (servers c) p < loaded (servers c) q
}.

Lemma favourite_kept c c' p : favourite c p -> Services c' = Services c -> same_servers (servers c) (servers c') -> favourite c' p.
Proof.
  intros [Hk Ho Hs Hl] Es Hh. split; rewrite ?Es; [done|by eapply same_servers_online| |].
  - intros k q Hq. destruct (Hs k q Hq) as [t Ht]. destruct (same_servers_lookup _ _ _ _ Hh Ht) as (t' & Ht' & _). by exists t'.
  - intros k q Hq Hne Hon. rewrite <- !(same_servers_load _ _ _ _ Hh). apply (Hl k); [done|done|].
    eapply same_servers_online; [|exact Hon]. by symmetry.
Qed.

Definition enumerates c (order : list nat) : Prop := forall p, p ∈ order <-> exists k, Services c !! k = Some p.
Definition fruitless (p : nat) c (t : attempt) : Prop :=
  enumerates c t.1.1 /\ enumerates c t.1.2 /\ t.2 p <> Dialled.

Lemma turn_fruitless p c t : favourite c p -> steady clientOffline c -> fruitless p c t ->
  exists c', start_wi (unchanging getConnects) t.1.1 t.1.2 t.2 (false, c) = ((false, c'), Ret true) /\
    steady clientOffline c' /\ Services c' = Services c /\ same_servers (servers c) (servers c').
Proof.
  intros [Hk Ho Hs Hl] Hc (H1 & H2 & Hd). destruct t as [[o1 o2] dial]. cbn [fst snd] in *.
  destruct (getServer_spec (fun h p => Ret (getConnects h p)) c o1 o2 H1 H2) as (h & r & Eg & Hh & Hr).
  { intros k q Hq. destruct (Hs k q Hq) as [s Hq']. exists s. split; [done|]. intros _. unfold load. by rewrite Hq'. }
  assert (r = Some p) as ->.
  { destruct Hk as [k Hk]. destruct r as [q|]; [|exfalso; by apply (Hr k p)]. destruct Hr as (Hq & [k' Hk'] & Hmin).
    f_equal. destruct (decide (q = p)) as [|Hne]; [done|]. specialize (Hl k' q Hk' Hne Hq). specialize (Hmin k p Hk Ho). lia. }
  assert (Hc1 : steady clientOffline (with_servers h c)) by exact Hc.
  destruct (steady_connect clientOffline (dial p) (with_servers h c)) as (c2 & E2 & H3); [by left|done|].
  exists c2. unfold start_wi, unchanging.
  rewrite (bind_ret _ _ (false, c) (false, with_servers h c) (Some p)) by (unfold on_waiting; cbn [fst snd]; by rewrite Eg).
  rewrite (bind_ret _ _ (false, with_servers h c) (false, c2) tt) by (unfold on_waiting; cbn [fst snd]; by rewrite E2).
  erewrite bind_ret by reflexivity. cbn [Datatypes.id snd].
  destruct (cl_connect_eq (dial p) (with_servers h c)) as [Ec [n En]]. rewrite E2 in Ec. injection Ec as Ec.
  destruct (dial p) eqn:Ed; [| |by destruct Hd]; destruct H3 as [H3 ->]; cbn [negb]; (split; [done|]);
    (split; [done|]); rewrite Ec; rewrite ?En; by split.
Qed.

(** C39: Only the end of an established connection marks a server as offline, a
    failed attempt does not: while the server with the least load cannot be
    reached the client tries nothing else - in whatever orders Go iterates over
    its servers, however often it tries and however well the others answer, it
    never connects, and [NewClient] never returns. *)
Theorem unreachable_starves p l : forall c, favourite c p -> steady clientOffline c ->
  Forall (fruitless p c) l ->
  exists c', turns l (false, c) = ((false, c'), Ret tt) /\ status c' = clientOffline /\ favourite c' p.
Proof.
  induction l as [|t l IH]; intros c Hf Hc Hl; [exists c; split_and!; [done|apply Hc|done]|].
  apply Forall_cons in Hl as [Ht Hl]. destruct (turn_fruitless p c t Hf Hc Ht) as (c1 & E1 & H1 & Es & Hh).
  destruct (IH c1) as (c' & E' & H'); [by eapply favourite_kept|done| |].
  { eapply Forall_impl; [exact Hl|]. intros u (U1 & U2 & U3). unfold fruitless, enumerates in *. by rewrite Es. }
  exists c'. split; [|done]. unfold turns. cbn [range].
  rewrite (bind_ret _ _ (false, c) (false, c1) tt); [exact E'|]. by rewrite (bind_ret _ _ _ _ _ E1).
Qed.
End Starving.

(** ** Concrete instances *)
Section SubStartInstances.
#[local] Abbreviation world := (setup (J:=bytes) (E:=list bytes)).
#[local] Definition colon (h p : String.string) : bytes := gostr h ++ [Z_byte 58] ++ gostr p.

Example split_examples :
  Split (Z_byte 58) (colon "10.0.0.1" "9998") = [gostr "10.0.0.1"; gostr "9998"] /\
  Split (Z_byte 58) [] = [[]] /\ ParseInt (gostr "9998") = 9998 /\ ParseInt (gostr "-12") = -12 /\
  ParseInt (gostr "99x8") = 0 /\ ParseInt [] = 0 /\ ParseInt (gostr "99999999999999999999") = 2 ^ 63 - 1.
Proof. vm_compute. repeat split; reflexivity. Qed.

(** An address without a port panics. *)
Example SetServices_panics : (SetServices [gostr "localhost"] (blank [] : world)).2 = Panic.
Proof. vm_compute. reflexivity. Qed.

#[local] Definition two_services : Option (J:=bytes) (E:=list bytes) :=
  SetServices [colon "10.0.0.1" "9998"; colon "10.0.0.2" "9998"].
#[local] Definition two_servers : Client (list bytes) :=
  mkClient None [] (<[gostr "b" := 1%nat]> {[gostr "a" := 0%nat]})
    (<[1%nat := mkServerNode false (gostr "b") 9998 0]> {[0%nat := mkServerNode false (gostr "a") 9998 0]}) 2 0
    clientOffline [] None [].
(** The first one is idle, and down. *)
#[local] Definition loads (h : bytes) (p : Z) : Z := if bool_decide (h = gostr "a") then 0 else 5.
#[local] Definition first_down : attempt :=
  ([0%nat; 1%nat], [1%nat; 0%nat], fun p => if (p =? 0)%nat then DialError else Dialled).

Lemma NewClient_returns_online_witness :
  let x := run (on_wait_event (fun d : bytes => d) []) [WTurn (unchanging loads) [0%nat; 1%nat] [0%nat; 1%nat] (fun _ => Dialled)]
    (false, client (NewClient [two_services] None (blank [])).1) in
  x.1 = true /\ status x.2 = clientOnline.
Proof.
  destruct (NewClient_returns_online (fun d : bytes => d) [] [two_services] None []
    [WTurn (unchanging loads) [0%nat; 1%nat] [0%nat; 1%nat] (fun _ => Dialled)]) as [H _].
  { apply Forall_singleton. apply opt_services. }
  cbv zeta in H |- *. set (x := run _ _ _) in *. assert (Ex : x.1 = true) by (vm_compute; reflexivity).
  split; [exact Ex|]. rewrite Ex in H. exact H.
Defined.

Lemma unreachable_starves_witness :
  exists c', turns loads [first_down; first_down] (false, two_servers) = ((false, c'), Ret tt) /\
    status c' = clientOffline.
Proof.
  assert (Hs : forall k q, Services two_servers !! k = Some q -> q = 0%nat \/ q = 1%nat).
  { intros k q Hk. unfold two_servers in Hk. cbn [Services] in Hk. apply lookup_insert_Some in Hk as [[_ <-]|[_ Hk]]; [by right|].
    apply lookup_singleton_Some in Hk as [_ <-]. by left. }
  assert (He : forall o, o = [0%nat; 1%nat] \/ o = [1%nat; 0%nat] -> enumerates two_servers o).
  { intros o Ho p. split.
    - intros Hp. assert (p = 0%nat \/ p = 1%nat) as [-> | ->] by (destruct Ho as [-> | ->]; set_solver).
      + exists (gostr "a"). vm_compute. reflexivity.
      + exists (gostr "b"). vm_compute. reflexivity.
    - intros [k [-> | ->]%Hs]; destruct Ho as [-> | ->]; set_solver. }
  assert (Hf : fruitless 0 two_servers first_down) by (split_and!; [apply He; by left|apply He; by right|done]).
  destruct (unreachable_starves loads 0 [first_down; first_down] two_servers) as (c' & Et & Est & _).
  - split.
    + exists (gostr "a"). vm_compute. reflexivity.
    + eexists. split; [vm_compute; reflexivity|done].
    + intros k q [-> | ->]%Hs; eexists; vm_compute; reflexivity.
    + intros k q [-> | ->]%Hs Hne _; [done|by vm_compute].
  - by split.
  - constructor; [exact Hf|constructor; [exact Hf|constructor]].
  - exists c'. exact (conj Et Est).
Defined.
End SubStartInstances.
