(* ===== verification/EventPath.v ===== *)
(** * From the binlog to a subscriber's callback

    The subscription service ([SubService.v]), a subscriber's connection
    ([SubNode.v]) and the subscriber's client ([SubClient.v]) put together:
    what is published is what the callbacks of the subscribed clients get,
    and what a client subscribes to is what its connection filters by. *)
From S2P Require Import Prelude.
From S2P Require Import GoSem.
From S2P Require Import Framing.
From S2P Require Import Frame.
From S2P Require Import SubClient.
From S2P Require Import SubNode.
From S2P Require Import SubGroups.
From S2P Require Import SubService.
Set Default Proof Using "Type".

Section Publishing.
Variable growcap : nat -> nat -> nat.
Variable MatchString : bytes -> bytes -> option bool.
Implicit Types (evs : list (bytes * bytes)) (i : nat) (n : node) (w : world).
#[local] Instance path_host : NodeHost world := world_host growcap.
#[local] Instance path_host_laws : NodeHostLaws world := world_host_laws growcap.

(** The service publishes events (table and JSON text) one after another. *)
Definition publish evs : M TCPService unit :=
  range evs (fun ev => SendAll ev.1 ev.2 ;; ret tt).

(** The events a connection with these topics is sent. *)
Definition wanted (topics : list bytes) evs : list bytes :=
  map snd (filter (fun ev : bytes * bytes => MatchFilters MatchString topics ev.1 = true) evs).

(** The sender goroutine writes the next message in full. *)
Definition sender_turn i : M world unit :=
  let! n := the_node i in
  match sendQueue n with
  | [] => ret tt
  | msg :: _ => asyncSendService_turn i (SelMsg (Some (length msg))) ;; ret tt
  end.

Definition enqueue (l : list bytes) n : node := with_queue (sendQueue n ++ l) n.

Lemma enqueue_nil n : enqueue [] n = n.
Proof. unfold enqueue. rewrite app_nil_r. by destruct n. Qed.

Lemma wanted_cons topics ev evs :
  wanted topics (ev :: evs) =
    (if MatchFilters MatchString topics ev.1 then [ev.2] else []) ++ wanted topics evs.
Proof.
  unfold wanted. rewrite filter_cons.
  destruct (decide (MatchFilters MatchString topics ev.1 = true)) as [E|E]; [by rewrite E|].
  by rewrite (not_true_is_false _ E).
Qed.

Lemma deliver_enqueue tb d n : online n = true ->
  deliver MatchString tb d n =
    enqueue (if MatchFilters MatchString (topics n) tb then [d] else []) n.
Proof.
  intros Ho. unfold deliver. rewrite Ho. cbn [andb].
  destruct (MatchFilters _ _ _); [done|by rewrite enqueue_nil].
Qed.

(** One event, on the whole service. *)
Lemma publish_one tb d t :
  service_ok growcap MatchString t -> (forall i, i ∈ elems (grp (groups t)) -> has_room (groups t) i) ->
  exists w, SendAll tb d t = (with_groups w t, Ret true) /\ world_ok w /\ grp w = grp (groups t) /\
    forall i, i ∈ elems (grp w) ->
      nodes w !! i = deliver MatchString tb (Pack CMD_EVENT d) <$> nodes (groups t) !! i.
Proof.
  intros Ht Hroom. pose proof (sv_groups _ _ t Ht) as Hw.
  destruct (range_sendAll growcap MatchString tb (Pack CMD_EVENT d) (elems (grp (groups t))) (groups t))
    as (w & E & Eg & Hn); [done|apply Hw| |].
  { intros i Hi. split; [|by apply Hroom]. destruct (ok_group _ Hw i Hi) as (n & En & _). by exists n. }
  assert (Es : groups_sendAll growcap MatchString tb (Pack CMD_EVENT d) (groups t) = (w, Ret true)).
  { unfold groups_sendAll. erewrite bind_ret by reflexivity. by rewrite (bind_ret _ _ _ _ _ E). }
  exists w. split_and!; [by apply (SendAll_eq growcap MatchString)| |done|].
  - pose proof (preserves_on_world_event growcap (fun b => b) MatchString
      (WSendAll tb (Pack CMD_EVENT d)) (groups t) Hw) as Hp.
    cbn [on_world_event] in Hp. by rewrite (bind_ret _ _ _ _ _ Es) in Hp.
  - intros i Hi. rewrite Eg in Hi. rewrite Hn. by rewrite decide_True.
Qed.

(** Any number of events: every member's queue grows by the packets of the
    events it wants. *)
Lemma publish_eq evs : forall t,
  service_ok growcap MatchString t ->
  (forall i n, i ∈ elems (grp (groups t)) -> nodes (groups t) !! i = Some n ->
     len (sendQueue n) + len evs <= tcpMaxSendQueue) ->
  exists w, publish evs t = (with_groups w t, Ret tt) /\ world_ok w /\ grp w = grp (groups t) /\
    forall i n, i ∈ elems (grp w) -> nodes (groups t) !! i = Some n ->
      nodes w !! i = Some (enqueue (map (Pack CMD_EVENT) (wanted (topics n) evs)) n).
Proof.
  induction evs as [|[tb d] evs IH]; intros t Ht Hroom.
  { exists (groups t). split_and!; [by rewrite with_groups_id|apply Ht|done|].
    intros i n _ ->. by rewrite enqueue_nil. }
  destruct (publish_one tb d t Ht) as (w & E & Hw & Eg & Hn).
  { intros i Hi n En. specialize (Hroom i n Hi En). unfold len in *. cbn [length] in Hroom. lia. }
  assert (Hmem : forall i n, i ∈ elems (grp w) -> nodes (groups t) !! i = Some n ->
    nodes w !! i = Some (enqueue (if MatchFilters MatchString (topics n) tb then [Pack CMD_EVENT d] else []) n)).
  { intros i n Hi En. rewrite Hn by done. rewrite En. cbn [fmap option_fmap option_map].
    rewrite deliver_enqueue; [done|]. rewrite Eg in Hi.
    destruct (ok_group _ (sv_groups _ _ t Ht) i Hi) as (m & Em & Ho). congruence. }
  destruct (IH (with_groups w t)) as (w2 & E2 & Hw2 & Eg2 & Hn2).
  { by destruct Ht. }
  { intros i n Hi En. cbn [groups with_groups] in *.
    destruct (ok_group _ (sv_groups _ _ t Ht) i) as (m & Em & _); [by rewrite <- Eg|].
    rewrite (Hmem i m Hi Em) in En. injection En as <-. rewrite Eg in Hi.
    specialize (Hroom i m Hi Em). unfold enqueue, len in *. cbn [sendQueue with_queue length] in *.
    rewrite length_app. case_match; cbn [length]; lia. }
  cbn [groups with_groups] in *. exists w2. split_and!; [|done|congruence|].
  - unfold publish. cbn [range fst snd]. rewrite (bind_ret _ _ _ (with_groups w t) tt); [exact E2|].
    by rewrite (bind_ret _ _ _ _ _ E).
  - intros i n Hi En. assert (Hi' : i ∈ elems (grp w)) by (by rewrite <- Eg2).
    rewrite (Hn2 i _ Hi (Hmem i n Hi' En)). f_equal. rewrite wanted_cons. unfold enqueue.
    cbn [topics sendQueue with_queue fst snd]. rewrite map_app.
    destruct (MatchFilters _ _ _); cbn [map app]; by rewrite <- !app_assoc.
Qed.

(** The sender goroutine empties the queue. *)
Lemma sender_drains q : forall w i n,
  nodes w !! i = Some n -> online n = true -> connClosed n = false -> sendQueue n = q ->
  exists w', range q (fun _ => sender_turn i) w = (w', Ret tt) /\
    exists n', nodes w' !! i = Some n' /\ writes n' = writes n ++ q /\ sendQueue n' = [].
Proof.
  induction q as [|m q IH]; intros w i n En Ho Hc Eq.
  { exists w. split; [done|]. exists n. by rewrite app_nil_r. }
  set (n1 := with_write m (with_queue q n)).
  assert (E1 : exists w1, sender_turn i w = (w1, Ret tt) /\ nodes w1 !! i = Some n1).
  { exists (put_node i n1 (put_node i (with_queue q n) w)). split.
    - unfold sender_turn. rewrite (bind_the_node _ w i n) by exact En. rewrite Eq.
      rewrite (bind_ret _ _ _ (put_node i n1 (put_node i (with_queue q n) w)) true); [done|].
      unfold asyncSendService_turn. rewrite (bind_the_node _ w i n) by exact En. rewrite Ho, Eq. cbn [negb].
      rewrite (bind_upd_node _ w i n) by exact En. cbv beta.
      rewrite (bind_upd_node _ _ i (with_queue q n)) by apply node_put_eq. cbv beta.
      by rewrite take_ge by lia.
    - apply lookup_insert_eq. }
  destruct E1 as (w1 & E1 & En1).
  destruct (IH w1 i n1 En1) as (w2 & E2 & n2 & En2 & Hwr & Hq2); [done|done|done|].
  exists w2. cbn [range]. rewrite (bind_ret _ _ _ _ _ E1). split; [done|].
  exists n2. split_and!; [done| |done]. rewrite Hwr. unfold n1. cbn [writes with_write with_queue connClosed].
  rewrite Hc. by rewrite <- app_assoc.
Qed.
End Publishing.

(** ** The subscriber's side *)
Section Subscriber.
Context {J E : Type} (Unmarshal : bytes -> J) (onevent : list (J -> M E unit)).
Context (onevent_ret : forall f d e, f ∈ onevent -> (f d e).2 = Ret tt).
Variable growcap : nat -> nat -> nat.
Variable MatchString : bytes -> bytes -> option bool.
Implicit Types (c : Client E) (n : node).

(** What the callbacks make of a list of events. *)
Definition handled (docs : list bytes) (e : E) : E :=
  foldl (fun e d => foldl (fun e g => (g (Unmarshal d) e).1) e onevent) e docs.

Lemma on_frames_handled docs : forall c,
  buffer (foldl (on_frame Unmarshal onevent) c (map (pair CMD_EVENT) docs)) = buffer c /\
  env (foldl (on_frame Unmarshal onevent) c (map (pair CMD_EVENT) docs)) = handled docs (env c).
Proof.
  induction docs as [|d docs IH]; intros c; [done|]. cbn [map foldl].
  destruct (IH (on_frame Unmarshal onevent c (CMD_EVENT, d))) as [Hb He]. by rewrite Hb, He.
Qed.

Lemma subscriber_reached t i n evs :
  service_ok growcap MatchString t -> i ∈ elems (grp (groups t)) ->
  nodes (groups t) !! i = Some n -> sendQueue n = [] ->
  (forall j m, j ∈ elems (grp (groups t)) -> nodes (groups t) !! j = Some m ->
     len (sendQueue m) + len evs <= tcpMaxSendQueue) ->
  Forall (fun ev : bytes * bytes => len ev.2 + 2 < 2 ^ 32) evs ->
  exists w w' n', publish evs t = (with_groups w t, Ret tt) /\
    range (wanted MatchString (topics n) evs) (fun _ => sender_turn growcap i) w = (w', Ret tt) /\
    nodes w' !! i = Some n' /\ sendQueue n' = [] /\
    forall c chunks, buffer c = [] ->
      concat chunks = concat (drop (length (writes n)) (writes n')) ->
      exists c', range chunks (SubClient.onMessage Unmarshal onevent) c = (c', Ret tt) /\ buffer c' = [] /\
        env c' = handled (wanted MatchString (topics n) evs) (env c).
Proof using onevent_ret.
  intros Ht Hi En Eq Hroom Hlen. pose proof (sv_groups _ _ t Ht) as Hw0.
  destruct (ok_group _ Hw0 i Hi) as (m & Em & Ho). assert (m = n) as -> by congruence.
  assert (Hcc : connClosed n = false).
  { destruct (ok_nodes _ Hw0 i n En) as [[(_&_&?)|(Es&_)] _]; [done|]. unfold online in Ho. by rewrite Es in Ho. }
  destruct (publish_eq growcap MatchString evs t Ht Hroom) as (w & E1 & Hw & Eg & Hn).
  set (docs := wanted MatchString (topics n) evs) in *.
  rewrite <- Eg in Hi. pose proof (Hn i n Hi En) as Enw. fold docs in Enw.
  destruct (sender_drains growcap (map (Pack CMD_EVENT) docs) w i _ Enw) as (w' & E2 & n' & En' & Hwr & Hq).
  { done. } { done. } { cbn [sendQueue enqueue with_queue]. unfold enqueue. simpl. by rewrite Eq. }
  exists w, w', n'. split_and!; [done| |done|done|].
  { rewrite <- E2. clear. revert w. induction docs as [|d docs IH]; intros w; [done|].
    cbn [range map]. unfold bind. destruct (sender_turn growcap i w) as [w1 [[]| | |]]; [apply IH|done..]. }
  intros c chunks Eb Ec. rewrite Hwr in Ec. change (writes (enqueue _ n)) with (writes n) in Ec.
  rewrite drop_app_length in Ec.
  exists (foldl (on_frame Unmarshal onevent) c (map (pair CMD_EVENT) docs)).
  destruct (on_frames_handled docs c) as [Hb He]. split_and!; [|congruence|done].
  apply client_receives_stream; [done|done| |].
  - apply Forall_map. apply Forall_forall. intros d Hd. split; [done|]. unfold compose. cbn [snd].
    unfold docs, wanted in Hd. apply list_elem_of_fmap in Hd as (ev & -> & Hev).
    apply list_elem_of_filter in Hev as [_ Hev]. rewrite Forall_forall in Hlen. by apply Hlen.
  - rewrite Ec. unfold wire. rewrite map_map. done.
Qed.
(** C12: End to end: of the events published one after another, a subscriber's
    connection is sent exactly those whose table its topics match, and when
    the connection's sender has written them, the subscriber's callbacks get
    exactly these events, in the order of publication and once each, however
    TCP cut the bytes; nothing is left over on either side. *)
Theorem event_reaches_subscriber t i n evs :
  service_ok growcap MatchString t -> i ∈ elems (grp (groups t)) ->
  nodes (groups t) !! i = Some n -> sendQueue n = [] ->
  (forall j m, j ∈ elems (grp (groups t)) -> nodes (groups t) !! j = Some m ->
     len (sendQueue m) + len evs <= tcpMaxSendQueue) ->
  Forall (fun ev : bytes * bytes => len ev.2 + 2 < 2 ^ 32) evs ->
  exists w w' n', publish evs t = (with_groups w t, Ret tt) /\
    range (wanted MatchString (topics n) evs) (fun _ => sender_turn growcap i) w = (w', Ret tt) /\
    nodes w' !! i = Some n' /\ sendQueue n' = [] /\
    forall c chunks, buffer c = [] ->
      concat chunks = concat (drop (length (writes n)) (writes n')) ->
      exists c', range chunks (SubClient.onMessage Unmarshal onevent) c = (c', Ret tt) /\ buffer c' = [] /\
        env c' = handled (wanted MatchString (topics n) evs) (env c).
Proof using onevent_ret. apply subscriber_reached. Qed.
End Subscriber.

(** ** Subscribing *)
Section Subscribing.
Context {E : Type}.
Variable growcap : nat -> nat -> nat.
Variable unicode_lower : bytes -> bytes.
Variable MatchString : bytes -> bytes -> option bool.
Implicit Types (c : Client E) (n : node) (ts : list bytes).
#[local] Instance sub_host : NodeHost world := world_host growcap.
#[local] Instance sub_host_laws : NodeHostLaws world := world_host_laws growcap.

Definition topic_fits (t : bytes) : Prop := len t + 3 < 2 ^ 24.
Definition normalized (t : bytes) : bytes := ToLower unicode_lower (Trim t).

Lemma client_setPro_PackPro t : topic_fits t -> client_setPro t = PackPro FlagSetPro t.
Proof.
  unfold topic_fits. intros Hl. unfold client_setPro, PackPro.
  assert (0 <= len t) by (unfold len; lia).
  rewrite (Z.shiftr_div_pow2 _ 32), (Z.shiftr_div_pow2 _ 24) by lia.
  by rewrite !Z.div_small by lia.
Qed.

Lemma wire_subscriptions ts : Forall topic_fits ts ->
  concat (map client_setPro ts) = wire enc_request (map SubNode.Subscribe ts).
Proof.
  induction 1 as [|t ts Ht Hts IH]; [done|]. cbn [map concat]. rewrite IH, wire_cons.
  by rewrite client_setPro_PackPro.
Qed.

Lemma ticks_subscriptions ts : ticks (map SubNode.Subscribe ts) = 0.
Proof. by induction ts. Qed.

Lemma serve_subscriptions ts : forall n t,
  t ∈ topics (foldl (serve unicode_lower) n (map SubNode.Subscribe ts)) <->
  t ∈ topics n \/ exists s, s ∈ ts /\ t = normalized s.
Proof.
  induction ts as [|s ts IH]; intros n t; cbn [map foldl].
  { split; [by left|]. intros [?|(s & ?%not_elem_of_nil & _)]; done. }
  rewrite IH. cbn [serve]. unfold addTopic. change (topics (with_write packDataSetPro n)) with (topics n).
  destruct (has_topic _ _) eqn:Eh; cbn [topics with_write with_topics];
    rewrite ?elem_of_app, ?list_elem_of_singleton; setoid_rewrite elem_of_cons.
  - apply has_topic_spec in Eh. fold (normalized s) in Eh.
    split; [intros [?|(x & ? & ?)]; [by left|right; exists x; auto]|].
    intros [?|(x & [->|Hx] & ->)]; [by left|by left|right; by exists x].
  - fold (normalized s). split.
    + intros [[?|?]|(x & ? & ?)]; [by left|right; exists s; auto|right; exists x; auto].
    + intros [?|(x & [->|Hx] & ->)]; [by left; left|by left; right|right; by exists x].
Qed.

(** When a client (re)connects, the bytes it writes make the server's side
    of the new connection filter exactly by the client's topics, however TCP
    cuts them - by the topics as the server spells them, stripped of blanks
    and in lower case, although they are regular expressions over
    case-sensitive table names. *)
Theorem resubscription c w i n :
  nodes w !! i = Some n -> online n = true -> queueClosed n = false ->
  recvBuf n = [] -> topics n = [] -> sendQueue n = [] ->
  Forall topic_fits (SubClient.topics c) ->
  exists c' cn, connect Dialled c = (c', Ret tt) /\ SubClient.node c' = Some cn /\
    SubClient.topics c' = SubClient.topics c /\
    forall chunks, concat chunks = concat (n_writes cn) ->
      exists w' n', range chunks (onMessage unicode_lower i) w = (w', Ret tt) /\
        nodes w' !! i = Some n' /\
        forall table, MatchFilters MatchString (topics n') table = true <->
          SubClient.topics c = [] \/
          exists t, t ∈ SubClient.topics c /\ MatchString (normalized t) table = Some true.
Proof.
  intros En Ho Hq Eb Et Es Hts. destruct (cl_connect_eq Dialled c) as [Ec _].
  eexists _, (SubClient.mkNode true nodeOnline (map client_setPro (SubClient.topics c))).
  split_and!; [exact Ec|unfold running; by case_match..|].
  intros chunks Hc. set (rs := map SubNode.Subscribe (SubClient.topics c)).
  cbn [n_writes] in Hc. rewrite (wire_subscriptions _ Hts) in Hc. fold rs in Hc.
  assert (Hs : serviceable n rs).
  { split_and!; [done|done| |].
    - apply Forall_map. eapply Forall_impl; [exact Hts|]. intros t Ht. unfold topic_fits in Ht.
      cbn. lia.
    - unfold rs. by rewrite ticks_subscriptions, Es. }
  destruct (feeds_complete (H:=request_receiver unicode_lower i)
    (H0:=request_receiver_laws unicode_lower i) chunks w rs) as (w' & Er & [n' E'] & Hb & Hv);
    simpl in *; rewrite ?En, ?Eb in *; try done.
  - by apply Forall_forall.
  - destruct rs; simpl; [done|]. rewrite enc_request_Pack, Pack_length. lia.
  - exists w', n'. rewrite E' in *. rewrite foldl_serve_with_recvBuf in Hv. split_and!; [done|done|].
    intros table. rewrite MatchFilters_spec.
    assert (Ht : topics n' = topics (foldl (serve unicode_lower) n rs)).
    { change (topics n') with (topics (with_recvBuf [] n')). by rewrite Hv. }
    rewrite Ht. pose proof (serve_subscriptions (SubClient.topics c) n) as Hm. fold rs in Hm.
    rewrite Et in Hm. assert (Hmem : forall t, t ∈ topics (foldl (serve unicode_lower) n rs) <->
      exists s, s ∈ SubClient.topics c /\ t = normalized s).
    { intros t. rewrite Hm. split; [intros [?%not_elem_of_nil|?]; done|by right]. }
    clear Hm. split.
    + intros [E0|(f & Hf & Hmatch)].
      * left. destruct (SubClient.topics c) as [|t ts]; [done|].
        assert (Hin : normalized t ∈ topics (foldl (serve unicode_lower) n rs)).
        { apply Hmem. exists t. split; [by left|done]. }
        rewrite E0 in Hin. by apply not_elem_of_nil in Hin.
      * right. apply Hmem in Hf as (t & Ht' & ->). by exists t.
    + intros [E0|(t & Ht' & Hmatch)].
      * left. unfold rs. by rewrite E0.
      * right. exists (normalized t). split; [|done]. apply Hmem. by exists t.
Qed.
End Subscribing.

(** ** Concrete instances: the service of [SubService.v], two events *)
Section PathInstances.
#[local] Definition two_events : list (bytes * bytes) :=
  [(gostr "db.users", gostr "{1}"); (gostr "db.orders", gostr "{2}")].
#[local] Definition first_member : node :=
  default (new_node 0 0) (nodes (groups SubService.some_service) !! 0%nat).

Lemma event_reaches_subscriber_witness :
  exists w w' n', publish two_events SubService.some_service
      = (with_groups w SubService.some_service, Ret tt) /\
    range (wanted SubService.same [] two_events) (fun _ => sender_turn SubService.twice 0%nat) w = (w', Ret tt) /\
    nodes w' !! 0%nat = Some n' /\
    exists c', range [take 5 (concat (writes n')); drop 5 (concat (writes n'))]
        (SubClient.onMessage (@Datatypes.id bytes) [keep_event]) idle = (c', Ret tt) /\
      env c' = [gostr "{1}"; gostr "{2}"].
Proof.
  destruct (event_reaches_subscriber (@Datatypes.id bytes) [keep_event] keep_event_ret SubService.twice
    SubService.same SubService.some_service 0 first_member two_events SubService.some_service_ok)
    as (w & w' & n' & E1 & E2 & E3 & _ & Hc).
  - vm_compute. by left.
  - by vm_compute.
  - by vm_compute.
  - intros j m Hj Em. change (elems (grp (groups SubService.some_service))) with [0; 2]%nat in Hj.
    apply elem_of_cons in Hj as [->|Hj%list_elem_of_singleton]; [|subst j];
      vm_compute in Em; injection Em as <-; by vm_compute.
  - by repeat constructor; vm_compute.
  - exists w, w', n'. split_and!; [done|done|done|].
    destruct (Hc idle [take 5 (concat (writes n')); drop 5 (concat (writes n'))]) as (c' & Er & _ & He).
    + done.
    + cbn [concat]. by rewrite app_nil_r, take_drop.
    + exists c'. split; [exact Er|]. rewrite He. by vm_compute.
Defined.

Lemma resubscription_witness :
  exists c' cn, connect Dialled (SubClient.with_topics [gostr "Db.Users "] idle) = (c', Ret tt) /\
    SubClient.node c' = Some cn /\
    forall chunks, concat chunks = concat (n_writes cn) ->
      exists w' n', range chunks (onMessage (H:=world_host SubService.twice) Datatypes.id 0%nat)
          (groups SubService.some_service) = (w', Ret tt) /\
        nodes w' !! 0%nat = Some n' /\
        MatchFilters SubService.same (topics n') (gostr "Db.Users") = false.
Proof.
  destruct (resubscription SubService.twice Datatypes.id SubService.same
    (SubClient.with_topics [gostr "Db.Users "] idle) (groups SubService.some_service) 0 first_member)
    as (c' & cn & E1 & E2 & _ & H).
  1-6: by vm_compute.
  { by repeat constructor; vm_compute. }
  exists c', cn. split_and!; [exact E1|done|]. intros chunks Hc.
  destruct (H chunks Hc) as (w' & n' & Er & En & Hm). exists w', n'. split_and!; [done|done|].
  apply not_true_is_false. rewrite Hm. intros [?|(t & ->%list_elem_of_singleton & Ht)]; [done|].
  by vm_compute in Ht.
Defined.
End PathInstances.
