(* ===== verification/Watch.v ===== *)
(** * Watching a service in Consul

    [src/consul/watch_service.go] and [src/client/watcher.go]: both compare
    the entries of two successive answers of Consul and report what was
    added, deleted or (the former) changed its status.  The answers are
    inputs; an entry's aggregated check status is part of it.  The client's
    watcher is put together with the client's callback ([SubClient.v]). *)
From S2P Require Import Prelude.
From S2P Require Import GoSem.
From S2P Require Import Framing.
From S2P Require Import Frame.
From S2P Require Import SubClient.
Set Default Proof Using "Type".

Record ServiceEntry := mkEntry {
  ID : bytes;
  Address : bytes;
  EntryPort : Z;
  Tags : list bytes;
  AggregatedStatus : bytes
}.

(** ** Comparing two answers (the same code in both packages) *)
Fixpoint found (va : ServiceEntry) (b : list ServiceEntry) : bool :=
  match b with
  | [] => false
  | vb :: b => if decide (ID va = ID vb) then true else found va b
  end.

(** The entries of [a] whose id [b] does not have. *)
Fixpoint getDelete (a b : list ServiceEntry) : list ServiceEntry :=
  match a with
  | [] => []
  | va :: a => if found va b then getDelete a b else va :: getDelete a b
  end.

Fixpoint changed_to (va : ServiceEntry) (b : list ServiceEntry) : option ServiceEntry :=
  match b with
  | [] => None
  | vb :: b =>
      if bool_decide (ID va = ID vb) && negb (bool_decide (AggregatedStatus va = AggregatedStatus vb))
      then Some vb else changed_to va b
  end.

(** The entries of [b] whose status differs from the one in [a]. *)
Fixpoint getChange (a b : list ServiceEntry) : list ServiceEntry :=
  match a with
  | [] => []
  | va :: a => match changed_to va b with
               | Some vb => vb :: getChange a b
               | None => getChange a b
               end
  end.

(** ** The service watcher *)
Definition statusOnline : bytes := gostr "online".
Definition statusOffline : bytes := gostr "offline".
Definition EventStatusChange : Z := 1.
Definition EventDelete : Z := 2.
Definition EventAdd : Z := 3.

Record ServiceMember := mkMember {
  IsLeader : bool;
  ServiceID : bytes;
  Status : bytes;
  MemberIP : bytes;
  MemberPort : Z
}.

Definition member_of (u : ServiceEntry) : ServiceMember :=
  mkMember
    (match Tags u with t :: _ => bool_decide (t = gostr "isleader:true") | [] => false end)
    (ID u)
    (if bool_decide (AggregatedStatus u = gostr "passing") then statusOnline else statusOffline)
    (Address u) (EntryPort u).

Section WatchService.
Context {S : Type} (watch : Z -> ServiceMember -> M S unit).

Definition dialAdd (old addrs : list ServiceEntry) : M S unit :=
  range (getDelete addrs old) (fun u => watch EventAdd (member_of u)).
Definition dialDelete (old addrs : list ServiceEntry) : M S unit :=
  range (getDelete old addrs) (fun u => watch EventDelete (member_of u)).
Definition dialChange (old addrs : list ServiceEntry) : M S unit :=
  range (getChange old addrs) (fun u => watch EventStatusChange (member_of u)).

(** The watcher's [addrs], [None] before the first answer, and [li]. *)
Definition WatchService : Type := option (list ServiceEntry) * Z.

Definition on_S {A} (m : M S A) : M (WatchService * S) A := fun w => ((w.1, (m w.2).1), (m w.2).2).

(** A turn of [Watch]'s loops: what Consul answered, [None] an error, with
    [None] for a [nil] slice of entries.  The first answer is taken silently,
    and as long as it is [nil] it is asked for again. *)
Definition Watch_turn (r : option (option (list ServiceEntry) * Z)) : M (WatchService * S) unit :=
  let! w := gets id in
  match r with
  | None => ret tt
  | Some (answer, li) =>
      match w.1.1 with
      | None => modify (fun w => ((answer, li), w.2))
      | Some old =>
          let addrs := default [] answer in
          on_S (dialAdd old addrs) ;;
          on_S (dialDelete old addrs) ;;
          on_S (dialChange old addrs) ;;
          modify (fun w => ((Some addrs, li), w.2))
      end
  end.
End WatchService.

(** ** The client's watcher *)
Section ConsulWatcher.
Context {E : Type}.

(** [addrs] and [li]. *)
Definition ConsulWatcher : Type := list ServiceEntry * Z.
Definition watching : Type := ConsulWatcher * Client E.

(** A callback registered with [onWatch], on the client. *)
Definition onChange : list (bytes -> Z -> Z -> M (Client E) unit) := [on_watch].

Definition fire (event : Z) (u : ServiceEntry) : M watching unit :=
  range onChange (fun f w => ((w.1, (f (Address u) (EntryPort u) event w.2).1),
                              (f (Address u) (EntryPort u) event w.2).2)).
(** The client's copy of the comparison. *)
Fixpoint client_getDelete (a b : list ServiceEntry) : list ServiceEntry :=
  match a with
  | [] => []
  | va :: a => if found va b then client_getDelete a b else va :: client_getDelete a b
  end.
Definition client_dialDelete (addrs : list ServiceEntry) : M watching unit :=
  let! w := gets id in range (client_getDelete w.1.1 addrs) (fire EV_DELETE).
Definition client_dialAdd (addrs : list ServiceEntry) : M watching unit :=
  let! w := gets id in range (client_getDelete addrs w.1.1) (fire EV_ADD).

(** A turn of [process]. *)
Definition process_turn (r : option (list ServiceEntry * Z)) : M watching unit :=
  match r with
  | None => ret tt
  | Some (addrs, li) =>
      client_dialDelete addrs ;;
      client_dialAdd addrs ;;
      modify (fun w => ((addrs, li), w.2))
  end.

(** [getMembers], and what [NewClient] does with its answer. *)
Definition getMembers (r : option (list ServiceEntry * Z)) : M watching unit :=
  match r with
  | None => ret tt
  | Some (addrs, li) =>
      modify (fun w => ((addrs, li), w.2)) ;;
      (fun w => ((w.1, (add_members (map (fun u => (Address u, EntryPort u)) addrs) w.2).1),
                 (add_members (map (fun u => (Address u, EntryPort u)) addrs) w.2).2))
  end.
End ConsulWatcher.

(** ** What the comparisons compute *)
Fixpoint find_id (l : list ServiceEntry) (i : bytes) : option ServiceEntry :=
  match l with
  | [] => None
  | u :: l => if decide (ID u = i) then Some u else find_id l i
  end.
Abbreviation ids l := (map ID l).

Lemma find_id_ID l i u : find_id l i = Some u -> ID u = i /\ u ∈ l.
Proof.
  induction l as [|v l IH]; [done|]. cbn [find_id]. destruct (decide (ID v = i)) as [Hv|_].
  - intros [= <-]. split; [done|by left].
  - intros Hf. destruct (IH Hf). split; [done|by right].
Qed.

Lemma find_id_None l i : find_id l i = None <-> i ∉ ids l.
Proof.
  induction l as [|v l IH]; cbn [find_id map].
  { split; [intros _; apply not_elem_of_nil|done]. }
  rewrite not_elem_of_cons. destruct (decide (ID v = i)) as [->|Hne]; [split; [done|by intros [? _]]|].
  rewrite IH. split; [intros ?; split; [congruence|done]|by intros [_ ?]].
Qed.

Lemma found_spec va b : found va b = match find_id b (ID va) with Some _ => true | None => false end.
Proof.
  induction b as [|vb b IH]; [done|]. cbn [found find_id].
  destruct (decide (ID va = ID vb)) as [E|E]; [by rewrite decide_True|].
  by rewrite decide_False by congruence.
Qed.

Lemma find_getDelete a b i :
  find_id (getDelete a b) i = match find_id b i with Some _ => None | None => find_id a i end.
Proof.
  induction a as [|va a IH]; cbn [getDelete find_id]; [by destruct (find_id b i)|].
  rewrite found_spec. destruct (decide (ID va = i)) as [<-|Hne].
  - destruct (find_id b (ID va)); [done|]. cbn [find_id]. by rewrite decide_True.
  - destruct (find_id b (ID va)); [done|]. cbn [find_id]. by rewrite decide_False.
Qed.

Lemma getDelete_sub a b : ids (getDelete a b) `sublist_of` ids a.
Proof.
  induction a as [|va a IH]; cbn [getDelete map]; [done|].
  destruct (found va b); [by apply sublist_cons|by apply sublist_skip].
Qed.

Lemma changed_to_spec va b : NoDup (ids b) ->
  changed_to va b = match find_id b (ID va) with
                    | Some vb => if decide (AggregatedStatus va = AggregatedStatus vb) then None else Some vb
                    | None => None
                    end.
Proof.
  induction b as [|vb b IH]; intros Hnd; [done|]. cbn [changed_to find_id].
  apply NoDup_cons in Hnd as [Hnb Hnd]. destruct (decide (ID vb = ID va)) as [E|E].
  - rewrite bool_decide_true by done. destruct (decide (AggregatedStatus va = AggregatedStatus vb)) as [Es|Es].
    + rewrite bool_decide_true by done. cbn [andb negb]. rewrite IH by done.
      rewrite (proj2 (find_id_None b (ID va))); [done|by rewrite <- E].
    + by rewrite bool_decide_false.
  - rewrite bool_decide_false by congruence. by apply IH.
Qed.

Lemma getChange_sub a b : NoDup (ids b) -> ids (getChange a b) `sublist_of` ids a.
Proof.
  intros Hb. induction a as [|va a IH]; cbn [getChange map]; [done|].
  rewrite changed_to_spec by done. destruct (find_id b (ID va)) as [vb|] eqn:Ef; [|by apply sublist_cons].
  destruct (decide _); [by apply sublist_cons|]. apply find_id_ID in Ef as [Ev _]. cbn [map].
  rewrite Ev. by apply sublist_skip.
Qed.

Lemma find_getChange a b i : NoDup (ids a) -> NoDup (ids b) ->
  find_id (getChange a b) i =
    match find_id a i, find_id b i with
    | Some va, Some vb => if decide (AggregatedStatus va = AggregatedStatus vb) then None else Some vb
    | _, _ => None
    end.
Proof.
  intros Ha Hb. induction a as [|va a IH]; [done|]. apply NoDup_cons in Ha as [Hna Ha].
  cbn [getChange find_id]. rewrite changed_to_spec by done. destruct (decide (ID va = i)) as [<-|Hne].
  - assert (Hnone : find_id (getChange a b) (ID va) = None).
    { rewrite IH by done. by rewrite (proj2 (find_id_None a (ID va)) Hna). }
    destruct (find_id b (ID va)) as [vb|] eqn:Ef; [|done].
    destruct (decide _); [done|]. cbn [find_id]. apply find_id_ID in Ef as [-> _]. by rewrite decide_True.
  - destruct (find_id b (ID va)) as [vb|] eqn:Ef; [|by apply IH].
    destruct (decide _); [by apply IH|]. cbn [find_id]. apply find_id_ID in Ef as [-> _].
    rewrite decide_False by done. by apply IH.
Qed.

(** ** Following a service by its events *)
Section Follow.

(** A table of members, kept by the events alone. *)
Definition table : Type := gmap bytes ServiceMember.
Definition keep (event : Z) (m : ServiceMember) : M table unit :=
  modify (fun t => if event =? EventDelete then delete (ServiceID m) t else <[ServiceID m := m]> t).

(** Membership and status, as the table has them and as an answer of Consul
    has them. *)
Definition known_status (t : table) (i : bytes) : option bytes := Status <$> t !! i.
Definition entry_status (l : list ServiceEntry) (i : bytes) : option bytes :=
  (fun u => Status (member_of u)) <$> find_id l i.

Lemma keep_inserts event l : forall t, event <> EventDelete -> NoDup (ids l) ->
  exists t', range l (fun u => keep event (member_of u)) t = (t', Ret tt) /\
    forall i, t' !! i = match find_id l i with Some u => Some (member_of u) | None => t !! i end.
Proof.
  intros t He. revert t. induction l as [|u l IH]; intros t Hnd; [by exists t|].
  apply NoDup_cons in Hnd as [Hu Hnd]. cbn [range].
  destruct (IH (<[ID u := member_of u]> t) Hnd) as (t' & Er & Ht).
  exists t'. rewrite (bind_ret _ _ _ (<[ID u := member_of u]> t) tt).
  - split; [done|]. intros i. rewrite Ht. cbn [find_id]. destruct (decide (ID u = i)) as [<-|Hne].
    + rewrite (proj2 (find_id_None l (ID u)) Hu). apply lookup_insert_eq.
    + destruct (find_id l i); [done|]. by apply lookup_insert_ne.
  - unfold keep, modify. destruct (Z.eqb_spec event EventDelete); [done|done].
Qed.

Lemma keep_deletes l : forall t,
  exists t', range l (fun u => keep EventDelete (member_of u)) t = (t', Ret tt) /\
    forall i, t' !! i = match find_id l i with Some _ => None | None => t !! i end.
Proof.
  induction l as [|u l IH]; intros t; [by exists t|]. cbn [range].
  destruct (IH (delete (ID u) t)) as (t' & Er & Ht).
  exists t'. rewrite (bind_ret _ _ _ (delete (ID u) t) tt) by done. split; [done|].
  intros i. rewrite Ht. cbn [find_id]. destruct (decide (ID u = i)) as [<-|Hne].
  - destruct (find_id l (ID u)); [done|]. apply lookup_delete_eq.
  - destruct (find_id l i); [done|]. by apply lookup_delete_ne.
Qed.

Lemma on_S_eq {A} (m : M table A) (w : WatchService * table) t a :
  m w.2 = (t, Ret a) -> on_S m w = ((w.1, t), Ret a).
Proof. intros E. unfold on_S. by rewrite E. Qed.

(** A client that keeps a table of members by the watcher's events alone
    always has exactly the members and the statuses of Consul's last answer:
    each turn reports every difference between two answers, and nothing
    twice. *)
Theorem watch_follows (old : list ServiceEntry) li (t : table) answer li' :
  NoDup (ids old) -> NoDup (ids (default [] answer)) ->
  (forall i, known_status t i = entry_status old i) ->
  exists t', Watch_turn keep (Some (answer, li')) ((Some old, li), t) =
      (((Some (default [] answer), li'), t'), Ret tt) /\
    forall i, known_status t' i = entry_status (default [] answer) i.
Proof.
  intros Hold Hnew Ht. set (addrs := default [] answer) in *.
  destruct (keep_inserts EventAdd (getDelete addrs old) t) as (t1 & E1 & H1); [done| |].
  { eapply sublist_NoDup; [exact Hnew|apply getDelete_sub]. }
  destruct (keep_deletes (getDelete old addrs) t1) as (t2 & E2 & H2).
  destruct (keep_inserts EventStatusChange (getChange old addrs) t2) as (t3 & E3 & H3); [done| |].
  { eapply sublist_NoDup; [exact Hold|by apply getChange_sub]. }
  exists t3. split.
  - unfold Watch_turn. erewrite bind_ret by reflexivity. cbn [id fst]. cbv zeta. fold addrs.
    rewrite (bind_ret _ _ _ ((Some old, li), t1) tt) by (by rewrite (on_S_eq _ _ t1 tt)).
    rewrite (bind_ret _ _ _ ((Some old, li), t2) tt) by (by rewrite (on_S_eq _ _ t2 tt)).
    rewrite (bind_ret _ _ _ ((Some old, li), t3) tt) by (by rewrite (on_S_eq _ _ t3 tt)).
    done.
  - intros i. unfold known_status, entry_status in *. specialize (Ht i).
    rewrite H3, H2, H1, find_getChange, !find_getDelete by done.
    destruct (find_id old i) as [uo|] eqn:Eo, (find_id addrs i) as [un|] eqn:En; cbn [fmap option_fmap option_map] in *; try done.
    destruct (decide (AggregatedStatus uo = AggregatedStatus un)) as [Es|Es]; [|done].
    rewrite Ht. unfold member_of. cbn [Status]. by rewrite Es.
Qed.
End Follow.

(** ** The client's servers follow the watched service *)
Section Tracking.
Context {E : Type}.
Implicit Types (c : Client E) (l : list ServiceEntry) (k : bytes).

Definition key_of (u : ServiceEntry) : bytes := service_key (Address u) (EntryPort u).

(** Ids and addresses name the same servers: [Register] makes the id from
    the address. *)
Definition consistent (l : list ServiceEntry) : Prop :=
  forall u v, u ∈ l -> v ∈ l -> ID u = ID v <-> key_of u = key_of v.

(** The client knows a server for every entry, and no others. *)
Definition tracks l c : Prop := forall k, is_Some (Services c !! k) <-> k ∈ map key_of l.

Lemma fire_eq event u (w : ConsulWatcher * Client E) :
  fire event u w = ((w.1, (on_watch (Address u) (EntryPort u) event w.2).1), Ret tt).
Proof.
  unfold fire, onChange. cbn [range]. unfold bind. cbn [fst snd].
  destruct (on_watch _ _ _ w.2) as [c' o] eqn:Eo. cbn [snd].
  assert (o = Ret tt) as ->; [|done]. apply (f_equal snd) in Eo. cbn [snd] in Eo. subst o.
  unfold on_watch. unfold bind, gets. cbn [id]. cbv zeta. by repeat case_match.
Qed.

Lemma on_watch_delete u c :
  (on_watch (Address u) (EntryPort u) EV_DELETE c).1 = with_Services (delete (key_of u) (Services c)) c.
Proof. done. Qed.

Lemma fire_deletes cw l : forall c,
  exists c', range l (fire EV_DELETE) (cw, c) = ((cw, c'), Ret tt) /\ servers c' = servers c /\
    next_server c' = next_server c /\
    forall k, Services c' !! k = if decide (k ∈ map key_of l) then None else Services c !! k.
Proof.
  induction l as [|u l IH]; intros c; [by exists c|]. cbn [range].
  destruct (IH (with_Services (delete (key_of u) (Services c)) c)) as (c' & Er & Es & En & Hk).
  exists c'. rewrite (bind_ret _ _ _ _ _ (fire_eq EV_DELETE u (cw, c))). cbn [fst snd].
  rewrite on_watch_delete. split_and!; [exact Er|done|done|]. intros k. rewrite Hk. cbn [map Services with_Services].
  destruct (decide (k = key_of u)) as [->|Hne].
  - rewrite (decide_True (P:=key_of u ∈ _ :: _)) by (by left). rewrite lookup_delete_eq. by case_decide.
  - rewrite lookup_delete_ne by done. destruct (decide (k ∈ map key_of l)) as [Hl|Hl].
    + by rewrite decide_True by (by right).
    + by rewrite decide_False by (by intros [?|?]%elem_of_cons).
Qed.

(** A server just discovered. *)
Definition fresh_server (u : ServiceEntry) : serverNode := mkServerNode false (Address u) (EntryPort u) 0.

Lemma on_watch_add u c :
  (on_watch (Address u) (EntryPort u) EV_ADD c).1 =
    match Services c !! key_of u with
    | Some _ => c
    | None => (add_service (key_of u) (Address u) (EntryPort u) c).1
    end.
Proof. unfold on_watch, key_of. unfold bind, gets. cbn. by destruct (Services c !! _). Qed.

Lemma fire_adds cw l : forall c,
  exists c', range l (fire EV_ADD) (cw, c) = ((cw, c'), Ret tt) /\
    (forall k, is_Some (Services c' !! k) <-> is_Some (Services c !! k) \/ k ∈ map key_of l) /\
    forall k p, Services c !! k = Some p -> Services c' !! k = Some p.
Proof.
  induction l as [|u l IH]; intros c.
  { exists c. split_and!; [done| |done]. intros k. split; [by left|intros [?|?%not_elem_of_nil]; done]. }
  set (c1 := (on_watch (Address u) (EntryPort u) EV_ADD c).1).
  destruct (IH c1) as (c' & Er & Hk & Hp). exists c'. cbn [range].
  rewrite (bind_ret _ _ _ _ _ (fire_eq EV_ADD u (cw, c))). cbn [fst snd]. fold c1.
  assert (H1 : forall k, Services c1 !! k =
    match Services c !! key_of u with
    | Some _ => Services c !! k
    | None => if decide (key_of u = k) then Some (next_server c) else Services c !! k
    end).
  { intros k. unfold c1. rewrite on_watch_add. destruct (Services c !! key_of u); [done|]. cbn.
    by rewrite lookup_insert. }
  split_and!; [exact Er| |].
  - intros k. rewrite Hk, H1. cbn [map]. rewrite elem_of_cons.
    destruct (Services c !! key_of u) as [p|] eqn:Eu.
    + split; [intros [?|?]; [by left|right; by right]|]. intros [?|[->|?]]; [by left|left; by exists p|by right].
    + destruct (decide (key_of u = k)) as [<-|Hne].
      * split; [intros _; right; by left|intros _; left; by eexists].
      * split; [intros [?|?]; [by left|right; by right]|]. intros [?|[?|?]]; [by left|congruence|by right].
  - intros k p Hkp. apply Hp. rewrite H1. destruct (Services c !! key_of u) eqn:Eu; [done|].
    rewrite decide_False; [done|]. intros <-. congruence.
Qed.

Lemma getDelete_elem a b u :
  u ∈ getDelete a b <-> u ∈ a /\ forall v, v ∈ b -> ID u <> ID v.
Proof.
  induction a as [|va a IH]; cbn [getDelete].
  { split; [by intros ?%not_elem_of_nil|by intros [?%not_elem_of_nil _]]. }
  rewrite found_spec. destruct (find_id b (ID va)) as [x|] eqn:Ef.
  - rewrite IH, elem_of_cons. split; [intros [? ?]; split; [by right|done]|].
    intros [[->|?] Hv]; [|done]. apply find_id_ID in Ef as [Ex Hx]. by destruct (Hv x Hx).
  - rewrite !elem_of_cons, IH. split; [|intros [[->|?] ?]; [by left|by right]].
    intros [->|[? ?]]; [|split; [by right|done]]. split; [by left|]. intros v Hv E0.
    apply (proj1 (find_id_None b (ID va)) Ef). rewrite E0. by apply list_elem_of_fmap_2.
Qed.

(** C32: The servers a client chooses from are always those of Consul's last
    answer: after every turn of the watcher the client knows exactly one
    server per address listed there, and a server that was listed before and
    still is remains the same one, with what the client noted about it. *)
Theorem client_tracks_service (cw : ConsulWatcher) c answer li :
  tracks cw.1 c -> consistent (cw.1 ++ answer) ->
  exists c', process_turn (Some (answer, li)) (cw, c) = (((answer, li), c'), Ret tt) /\
    tracks answer c' /\
    forall k p, Services c !! k = Some p -> k ∈ map key_of answer -> Services c' !! k = Some p.
Proof.
  intros Ht Hcon. set (old := cw.1) in *.
  destruct (fire_deletes cw (getDelete old answer) c) as (c1 & E1 & _ & _ & H1).
  destruct (fire_adds cw (getDelete answer old) c1) as (c2 & E2 & H2 & H2p).
  assert (Hdel : forall k, k ∈ map key_of (getDelete old answer) <->
    k ∈ map key_of old /\ k ∉ map key_of answer).
  { intros k. split.
    - intros (u & -> & Hu)%list_elem_of_fmap. apply getDelete_elem in Hu as [Hu Hn].
      split; [by apply list_elem_of_fmap_2|]. intros (v & Ek & Hv)%list_elem_of_fmap.
      apply (Hn v Hv), (Hcon u v); [apply elem_of_app; by left|apply elem_of_app; by right|done].
    - intros [(u & -> & Hu)%list_elem_of_fmap Hn]. apply list_elem_of_fmap_2, getDelete_elem.
      split; [done|]. intros v Hv Ei. apply Hn.
      rewrite (proj1 (Hcon u v ltac:(apply elem_of_app; by left) ltac:(apply elem_of_app; by right)) Ei).
      by apply list_elem_of_fmap_2. }
  assert (Hadd : forall k, k ∈ map key_of (getDelete answer old) <->
    k ∈ map key_of answer /\ k ∉ map key_of old).
  { intros k. split.
    - intros (u & -> & Hu)%list_elem_of_fmap. apply getDelete_elem in Hu as [Hu Hn].
      split; [by apply list_elem_of_fmap_2|]. intros (v & Ek & Hv)%list_elem_of_fmap.
      apply (Hn v Hv), (Hcon u v); [apply elem_of_app; by right|apply elem_of_app; by left|done].
    - intros [(u & -> & Hu)%list_elem_of_fmap Hn]. apply list_elem_of_fmap_2, getDelete_elem.
      split; [done|]. intros v Hv Ei. apply Hn.
      rewrite (proj1 (Hcon u v ltac:(apply elem_of_app; by right) ltac:(apply elem_of_app; by left)) Ei).
      by apply list_elem_of_fmap_2. }
  exists c2. split_and!.
  - cbn [process_turn]. unfold client_dialDelete, client_dialAdd.
    rewrite (bind_ret _ _ _ (cw, c1) tt) by (by erewrite bind_ret by reflexivity).
    by rewrite (bind_ret _ _ _ (cw, c2) tt) by (by erewrite bind_ret by reflexivity).
  - intros k. rewrite H2, H1, Hadd. case_decide as Hd.
    + apply Hdel in Hd as [Ho Hn]. split; [intros [[? [=]]|[? ?]]; done|done].
    + rewrite (Ht k). split.
      * intros [Ho|[? _]]; [|done]. destruct (decide (k ∈ map key_of answer)) as [|Hn]; [done|].
        exfalso. apply Hd, Hdel. done.
      * intros Ha. destruct (decide (k ∈ map key_of old)); [by left|by right].
  - intros k p Hkp Ha. apply H2p. rewrite H1. rewrite decide_False; [done|].
    rewrite Hdel. by intros [_ ?].
Qed.
End Tracking.

(** ** Concrete instances: one server leaves, one stays, one arrives *)
Section WatchInstances.
#[local] Definition entry (n : String.string) (p : Z) (st : String.string) : ServiceEntry :=
  mkEntry (gostr n) (gostr "10.0.0.1") p [gostr "isleader:false"] (gostr st).
#[local] Definition before : list ServiceEntry :=
  [entry "s-1" 1 "passing"; entry "s-2" 2 "passing"].
#[local] Definition after : list ServiceEntry :=
  [entry "s-2" 2 "critical"; entry "s-3" 3 "passing"].

Lemma watch_follows_witness :
  exists t t', Watch_turn keep (Some (Some after, 8)) ((Some before, 7), t) =
      (((Some after, 8), t'), Ret tt) /\
    known_status t (gostr "s-1") = Some statusOnline /\
    known_status t' (gostr "s-1") = None /\ known_status t' (gostr "s-2") = Some statusOffline /\
    known_status t' (gostr "s-3") = Some statusOnline.
Proof.
  assert (Hnd : NoDup (ids before)) by (apply (bool_decide_unpack _); by vm_compute).
  destruct (keep_inserts EventAdd before ∅) as (t & _ & Ht); [done|exact Hnd|].
  assert (Hb : forall i, known_status t i = entry_status before i).
  { intros i. unfold known_status, entry_status. rewrite Ht. by destruct (find_id before i). }
  destruct (watch_follows before 7 t (Some after) 8) as (t' & E & H).
  - exact Hnd.
  - apply (bool_decide_unpack _). by vm_compute.
  - exact Hb.
  - exists t, t'. split; [exact E|]. rewrite !H, Hb. by vm_compute.
Defined.

#[local] Definition two_known : Client (list bytes) :=
  with_Services {[ gostr "10.0.0.1:1" := 0%nat; gostr "10.0.0.1:2" := 1%nat ]}
    (with_servers {[ 0%nat := fresh_server (entry "s-1" 1 "passing");
                     1%nat := mkServerNode true (gostr "10.0.0.1") 2 0 ]} idle).

Lemma client_tracks_service_witness :
  exists c', process_turn (Some (after, 8)) ((before, 7), two_known) = (((after, 8), c'), Ret tt) /\
    Services c' !! gostr "10.0.0.1:1" = None /\
    Services c' !! gostr "10.0.0.1:2" = Some 1%nat /\
    is_Some (Services c' !! gostr "10.0.0.1:3").
Proof.
  destruct (client_tracks_service (before, 7) two_known after 8) as (c' & E & Ht & Hp).
  - intros k. cbn [fst]. split.
    + intros [p Hk]. cbn [Services two_known with_Services] in Hk. apply lookup_insert_Some in Hk as [[<- _]|[_ [<- _]%lookup_singleton_Some]].
      * vm_compute. by left.
      * vm_compute. right. by left.
    + intros Hk. change (map key_of before) with [gostr "10.0.0.1:1"; gostr "10.0.0.1:2"] in Hk.
      apply elem_of_cons in Hk as [->|Hk%list_elem_of_singleton]; [|subst k]; by eexists.
  - intros u v Hu Hv.
    repeat (apply elem_of_cons in Hu as [->|Hu]; [|]); [..|by apply not_elem_of_nil in Hu];
      (repeat (apply elem_of_cons in Hv as [->|Hv]; [|]); [..|by apply not_elem_of_nil in Hv]);
      split; intros Heq; vm_compute in Heq |- *; congruence.
  - exists c'. split_and!; [exact E| | |].
    + apply eq_None_not_Some. rewrite (Ht (gostr "10.0.0.1:1")).
      apply (bool_decide_unpack _). by vm_compute.
    + apply Hp; [by vm_compute|]. apply (bool_decide_unpack _). by vm_compute.
    + apply Ht. apply (bool_decide_unpack _). by vm_compute.
Defined.
End WatchInstances.
