(* ===== verification/Consul.v ===== *)
(** * Consul, and the wrappers around its client library

    [src/consul/kv.go], [kv_entity.go], [session.go], [session_entity.go],
    [lock.go], [lock_entity.go], [watch_kv.go].  The client library is the
    interface [ConsulAPI]: its calls, on the state [C] of the Consul cluster
    as far as this program can see it, with the error each returned.
    [ConsulLaws] states the library's documentation of the calls that
    succeed: what the key-value store, the locks and the service catalogue
    are afterwards; about a call that failed only that it took effect or did
    not. *)
From S2P Require Import Prelude.
From S2P Require Import GoSem.
From S2P Require Import Watch.

(** ** The client library *)

Record KVPair := mkPair { Key : bytes; Value : bytes; Session : bytes }.
Record SessionEntry := mkSessionEntry { Behavior : bytes; TTL : bytes }.
Definition SessionBehaviorDelete : bytes := gostr "delete".

Record AgentServiceRegistration := mkServiceRegistration {
  sr_ID : bytes; sr_Name : bytes; sr_Address : bytes; sr_Port : Z; sr_Tags : list bytes
}.
Record AgentCheckRegistration := mkCheckRegistration {
  cr_ID : bytes; cr_Name : bytes; cr_ServiceID : bytes; cr_TTL : bytes; cr_Status : bytes
}.

Class ConsulAPI (C : Type) := {
  kv_Put : KVPair -> C -> C * option goerr;
  kv_Get : bytes -> C -> option KVPair * option goerr;
  kv_Delete : bytes -> C -> C * option goerr;
  kv_Acquire : KVPair -> C -> C * (bool * option goerr);
  kv_Release : KVPair -> C -> C * (bool * option goerr);
  session_Create : SessionEntry -> C -> C * (bytes * option goerr);
  session_Destroy : bytes -> C -> C * option goerr;
  session_Renew : bytes -> C -> C * option goerr;
  session_expire : bytes -> C -> C; (* Consul's own: the session's time to live is over *)
  agent_ServiceRegister : AgentServiceRegistration -> C -> C * option goerr;
  agent_ServiceDeregister : bytes -> C -> C * option goerr;
  agent_CheckRegister : AgentCheckRegistration -> C -> C * option goerr;
  agent_CheckDeregister : bytes -> C -> C * option goerr;
  agent_UpdateTTL : bytes -> bytes -> bytes -> C -> C * option goerr; (* check, output, status *)
  health_Service : bytes -> bool -> C -> option (list ServiceEntry) (* [None] an error *)
}.

(** What can be seen of a cluster: values with the session that locks them,
    services and the status of their checks by id, whether all nodes are
    healthy. *)
Class ConsulView (C : Type) := {
  kvs : C -> gmap bytes (bytes * option bytes);
  catalogue : C -> gmap bytes AgentServiceRegistration;
  check_status : C -> gmap bytes bytes;
  healthy : C -> Prop
}.

Section View.
Context `{ConsulView C}.
Definition locker (k : bytes) (c : C) : option bytes := kvs c !! k ≫= snd.
(** Everything but the key-value store, everything but the catalogue. *)
Definition same_catalogue (c c' : C) : Prop :=
  catalogue c' = catalogue c /\ check_status c' = check_status c /\ (healthy c' <-> healthy c).
Definition put_pair (p : KVPair) (s : option bytes) (c c' : C) : Prop :=
  kvs c' = <[Key p := (Value p, s)]> (kvs c) /\ same_catalogue c c'.
(** With the behaviour "delete", the keys a session locks go with it. *)
Definition without_session (s : bytes) (c c' : C) : Prop :=
  kvs c' = filter (fun kv : bytes * (bytes * option bytes) => kv.2.2 <> Some s) (kvs c) /\
  same_catalogue c c'.
End View.

Class ConsulLaws C `{ConsulAPI C, ConsulView C} := {
  (* "Only the Key, Flags and Value is respected": the session of the pair is not *)
  Put_ok p c c' : kv_Put p c = (c', None) -> put_pair p (locker (Key p) c) c c';
  Get_ok k c r : kv_Get k c = (r, None) -> Value <$> r = fst <$> kvs c !! k;
  Delete_ok k c c' : kv_Delete k c = (c', None) ->
    kvs c' = delete k (kvs c) /\ same_catalogue c c';
  Delete_error k c c' e : kv_Delete k c = (c', Some e) ->
    kvs c' = kvs c \/ kvs c' = delete k (kvs c);
  Acquire_true p c c' : kv_Acquire p c = (c', (true, None)) ->
    (locker (Key p) c = None \/ locker (Key p) c = Some (Session p)) /\ put_pair p (Some (Session p)) c c';
  Acquire_false p c c' : kv_Acquire p c = (c', (false, None)) ->
    locker (Key p) c <> Some (Session p) /\ kvs c' = kvs c /\ same_catalogue c c';
  Acquire_error p b c c' e : kv_Acquire p c = (c', (b, Some e)) ->
    kvs c' = kvs c \/
    (locker (Key p) c = None \/ locker (Key p) c = Some (Session p)) /\ put_pair p (Some (Session p)) c c';
  Release_true p c c' : kv_Release p c = (c', (true, None)) ->
    locker (Key p) c = Some (Session p) /\ put_pair p None c c';
  Release_false p c c' : kv_Release p c = (c', (false, None)) ->
    locker (Key p) c <> Some (Session p) /\ kvs c' = kvs c /\ same_catalogue c c';
  Release_error p b c c' e : kv_Release p c = (c', (b, Some e)) ->
    kvs c' = kvs c \/ locker (Key p) c = Some (Session p) /\ put_pair p None c c';
  Create_ok se c c' s : session_Create se c = (c', (s, None)) ->
    s <> [] /\ kvs c' = kvs c /\ same_catalogue c c';
  Destroy_ok s c c' : session_Destroy s c = (c', None) -> without_session s c c';
  expire_ok s c : without_session s c (session_expire s c);
  ServiceRegister_ok r c c' : agent_ServiceRegister r c = (c', None) ->
    kvs c' = kvs c /\ catalogue c' = <[sr_ID r := r]> (catalogue c) /\
    check_status c' = check_status c /\ (healthy c' <-> healthy c);
  ServiceRegister_error r c c' e : agent_ServiceRegister r c = (c', Some e) ->
    catalogue c' = catalogue c \/ catalogue c' = <[sr_ID r := r]> (catalogue c);
  ServiceDeregister_error i c c' e : agent_ServiceDeregister i c = (c', Some e) ->
    catalogue c' = catalogue c \/ catalogue c' = delete i (catalogue c);
  (* failed or not, no call touches what it is not about *)
  Acquire_frame p c : catalogue (kv_Acquire p c).1 = catalogue c;
  Delete_frame k c : catalogue (kv_Delete k c).1 = catalogue c;
  Renew_frame s c : kvs (session_Renew s c).1 = kvs c /\ catalogue (session_Renew s c).1 = catalogue c;
  UpdateTTL_frame i o st c :
    kvs (agent_UpdateTTL i o st c).1 = kvs c /\ catalogue (agent_UpdateTTL i o st c).1 = catalogue c;
  ServiceRegister_frame r c : kvs (agent_ServiceRegister r c).1 = kvs c;
  ServiceDeregister_frame i c : kvs (agent_ServiceDeregister i c).1 = kvs c;
  CheckRegister_frame k c :
    kvs (agent_CheckRegister k c).1 = kvs c /\ catalogue (agent_CheckRegister k c).1 = catalogue c;
  CheckDeregister_frame i c :
    kvs (agent_CheckDeregister i c).1 = kvs c /\ catalogue (agent_CheckDeregister i c).1 = catalogue c;
  ServiceDeregister_ok i c c' : agent_ServiceDeregister i c = (c', None) ->
    kvs c' = kvs c /\ catalogue c' = delete i (catalogue c) /\
    check_status c' ⊆ check_status c /\ (healthy c' <-> healthy c);
  CheckRegister_ok k c c' : agent_CheckRegister k c = (c', None) ->
    kvs c' = kvs c /\ catalogue c' = catalogue c /\
    check_status c' = <[cr_ID k := cr_Status k]> (check_status c) /\ (healthy c' <-> healthy c);
  CheckDeregister_ok i c c' : agent_CheckDeregister i c = (c', None) ->
    kvs c' = kvs c /\ catalogue c' = catalogue c /\
    check_status c' = delete i (check_status c) /\ (healthy c' <-> healthy c);
  UpdateTTL_ok i o st c c' : agent_UpdateTTL i o st c = (c', None) ->
    kvs c' = kvs c /\ catalogue c' = catalogue c /\ is_Some (check_status c !! i) /\
    check_status c' = <[i := st]> (check_status c) /\ (healthy c' <-> healthy c);
  (* an answer lists services of that name only ... *)
  health_sound n p c l e : health_Service n p c = Some l -> e ∈ l ->
    exists r, catalogue c !! ID e = Some r /\ sr_Name r = n /\ Address e = sr_Address r /\
      EntryPort e = sr_Port r /\ Tags e = sr_Tags r /\
      (p = true -> AggregatedStatus e = gostr "passing");
  (* ... and all of them whose checks allow it *)
  health_complete n p c l i r st : health_Service n p c = Some l -> healthy c ->
    catalogue c !! i = Some r -> sr_Name r = n -> check_status c !! i = Some st ->
    (p = true -> st = gostr "passing") ->
    exists e, e ∈ l /\ ID e = i /\ AggregatedStatus e = st
}.

(** A call of the library. *)
Definition api {C A} (f : C -> C * A) : M C A := fun c => ((f c).1, Ret (f c).2).
Lemma api_eq {C A} (f : C -> C * A) c c' a : f c = (c', a) -> api f c = (c', Ret a).
Proof. intros E. unfold api. by rewrite E. Qed.

(** ** The wrappers *)
Section Wrappers.
Context {C : Type} {HA : ConsulAPI C}.

(** [Kv] *)
Definition Kv_Set (key value : bytes) : M C (option goerr) := api (kv_Put (mkPair key value [])).
Definition Kv_Get (key : bytes) : M C (bytes * option goerr) :=
  let! c := gets id in
  let '(kv, err) := kv_Get key c in
  match err with
  | Some _ => ret ([], err)
  | None => match kv with
            | None => ret ([], Some ErrKvDoesNotExists)
            | Some kv => ret (Value kv, None)
            end
  end.
Definition Kv_Delete (key : bytes) : M C (option goerr) := api (kv_Delete key).

(** [KvEntity], whose methods return the entity itself. *)
Record KvEntity := mkKvEntity { kve_Key : bytes; kve_Value : bytes }.

Definition on_consul {A B} (m : M C B) : M (A * C) B := fun s => ((s.1, (m s.2).1), (m s.2).2).

Definition KvEntity_Set : M (KvEntity * C) (option goerr) :=
  let! s := gets id in on_consul (Kv_Set (kve_Key s.1) (kve_Value s.1)).
Definition KvEntity_Get : M (KvEntity * C) (option goerr) :=
  let! s := gets id in
  let! r := on_consul (Kv_Get (kve_Key s.1)) in
  modify (fun s => (mkKvEntity (kve_Key s.1) r.1, s.2)) ;; ret r.2.
Definition KvEntity_Delete : M (KvEntity * C) (option goerr) :=
  let! s := gets id in on_consul (Kv_Delete (kve_Key s.1)).

(** [Session] *)
Definition clamp_timeout (timeout : Z) : Z := if (0 <? timeout) && (timeout <? 10) then 10 else timeout.
Definition session_entry (timeout : Z) : SessionEntry :=
  let timeout := clamp_timeout timeout in
  mkSessionEntry SessionBehaviorDelete
    (if 0 <? timeout then gostr (pretty.pretty timeout) ++ gostr "s" else []).
Definition Session_Create (timeout : Z) : M C (bytes * option goerr) :=
  api (session_Create (session_entry timeout)).
Definition Session_Destroy (s : bytes) : M C (option goerr) := api (session_Destroy s).
Definition Session_Renew (s : bytes) : M C (option goerr) := api (session_Renew s).

(** [SessionEntity]; a failed [Create] leaves whatever id came with the
    error. *)
Record SessionEntity := mkSessionEntity { se_timeout : Z; se_ID : bytes }.
Definition NewSessionEntity (timeout : Z) : SessionEntity := mkSessionEntity (clamp_timeout timeout) [].

Definition SessionEntity_Create : M (SessionEntity * C) (bytes * option goerr) :=
  let! s := gets id in
  let! r := on_consul (Session_Create (se_timeout s.1)) in
  modify (fun s => (mkSessionEntity (se_timeout s.1) r.1, s.2)) ;; ret r.
Definition SessionEntity_Destroy : M (SessionEntity * C) (option goerr) :=
  let! s := gets id in on_consul (Session_Destroy (se_ID s.1)).
Definition SessionEntity_Renew : M (SessionEntity * C) (option goerr) :=
  let! s := gets id in on_consul (Session_Renew (se_ID s.1)).

(** [Lock]; the timeout is not used. *)
Definition Lock_Lock (sessionID key : bytes) (timeout : Z) : M C (bool * option goerr) :=
  api (kv_Acquire (mkPair key [] sessionID)).
Definition Lock_Unlock (sessionID key : bytes) : M C (bool * option goerr) :=
  api (kv_Release (mkPair key [] sessionID)).
Definition Lock_Delete (key : bytes) : M C (option goerr) := api (kv_Delete key).

(** [LockEntity] *)
Record LockEntity := mkLockEntity { le_sessionID : bytes; le_key : bytes; le_timeout : Z }.
Definition NewLockEntity (sessionID key : bytes) (timeout : Z) : LockEntity :=
  mkLockEntity sessionID key timeout.
Definition LockEntity_Lock (l : LockEntity) : M C (bool * option goerr) :=
  Lock_Lock (le_sessionID l) (le_key l) (le_timeout l).
Definition LockEntity_Unlock (l : LockEntity) : M C (bool * option goerr) :=
  Lock_Unlock (le_sessionID l) (le_key l).
Definition LockEntity_Delete (l : LockEntity) : M C (option goerr) := Lock_Delete (le_key l).
End Wrappers.

(** ** Watching a prefix

    A turn of [WatchKv.Watch]'s loops on [lastIndex], [None] before the first
    answer.  What [List] returned: the pairs, the index of the answer ([None]
    for a [nil] [QueryMeta]), and the error.  [watch] acts on a state [S]. *)
Section WatchKv.
Context {S : Type} (watch : bytes -> M S unit).
Definition list_answer : Type := list KVPair * option Z * option goerr.

Definition on_values (m : M S unit) : M (option Z * S) unit := fun w => ((w.1, (m w.2).1), (m w.2).2).

Definition WatchKv_turn (r : list_answer) : M (option Z * S) unit :=
  let '(kp, me, err) := r in
  let! w := gets id in
  match w.1 with
  | None =>
      match err, me with
      | Some _, _ => ret tt
      | None, None => lift Panic
      | None, Some li => modify (fun w => (Some li, w.2))
      end
  | Some _ =>
      match err, me with
      | Some _, _ => ret tt
      | None, None => lift Panic
      | None, Some li =>
          modify (fun w => (Some li, w.2)) ;;
          range kp (fun v => if len (Value v) =? 0 then ret tt else on_values (watch (Value v)))
      end
  end.
End WatchKv.

(** A call of the library from a state that has Consul in it. *)
Lemma on_api {C A B} (f : C -> C * B) (x : A) c c' r :
  f c = (c', r) -> on_consul (api f) (x, c) = ((x, c'), Ret r).
Proof. intros E. unfold on_consul, api. cbn [fst snd]. by rewrite E. Qed.

(** ** What the wrappers promise *)
Section Promises.
Context {C : Type} {HA : ConsulAPI C} {HV : ConsulView C} {HL : ConsulLaws C}.

Lemma locker_put p s k c c' : put_pair p s c c' ->
  locker k c' = if decide (k = Key p) then s else locker k c.
Proof.
  intros [E _]. unfold locker. rewrite E. destruct (decide (k = Key p)) as [->|Hne].
  - by rewrite lookup_insert_eq.
  - by rewrite lookup_insert_ne.
Qed.

Lemma locker_kvs k c c' : kvs c' = kvs c -> locker k c' = locker k c.
Proof. intros E. unfold locker. by rewrite E. Qed.

Lemma locker_delete k k' c c' : kvs c' = delete k (kvs c) ->
  locker k' c' = if decide (k' = k) then None else locker k' c.
Proof.
  intros E. unfold locker. rewrite E. destruct (decide (k' = k)) as [->|Hne].
  - by rewrite lookup_delete_eq.
  - by rewrite lookup_delete_ne.
Qed.

Lemma Kv_Get_eq key c r : kv_Get key c = (r, None) ->
  Kv_Get key c = (c, Ret match kvs c !! key with
                         | Some (v, _) => (v, None)
                         | None => ([], Some ErrKvDoesNotExists)
                         end).
Proof.
  intros E. unfold Kv_Get. erewrite bind_ret by reflexivity. cbn [id]. rewrite E.
  pose proof (Get_ok key c r E) as H. destruct (kvs c !! key) as [[v s]|], r as [kv|]; simplify_eq/=; done.
Qed.

(** An entity reads what another one of the same key has set, and after a
    removal the read fails and leaves it without a value. *)
Theorem kv_entity_roundtrip e1 e2 c c1 c2 r1 r2 :
  KvEntity_Set (e1, c) = ((e1, c1), Ret None) -> kve_Key e2 = kve_Key e1 ->
  kv_Get (kve_Key e1) c1 = (r1, None) ->
  KvEntity_Get (e2, c1) = ((e1, c1), Ret None) /\
  (KvEntity_Delete (e2, c1) = ((e2, c2), Ret None) -> kv_Get (kve_Key e1) c2 = (r2, None) ->
   KvEntity_Get (e1, c2) = ((mkKvEntity (kve_Key e1) [], c2), Ret (Some ErrKvDoesNotExists))).
Proof.
  intros Hs Hk Hg. unfold KvEntity_Set, on_consul, Kv_Set, api in Hs.
  erewrite bind_ret in Hs by reflexivity. cbn [id fst snd] in Hs.
  destruct (kv_Put _ c) as [c1' err] eqn:Ep. injection Hs as -> ->.
  apply Put_ok in Ep as [Ep _]. cbn [Key Value] in Ep.
  assert (Hget : forall e c' v,
    kve_Key e = kve_Key e1 -> Kv_Get (kve_Key e1) c' = (c', Ret v) ->
    KvEntity_Get (e, c') = ((mkKvEntity (kve_Key e1) v.1, c'), Ret v.2)).
  { intros e c' v He Hv. unfold KvEntity_Get. erewrite bind_ret by reflexivity. cbn [id fst].
    rewrite He. rewrite (bind_ret _ _ _ (e, c') v) by (unfold on_consul; cbn [snd fst]; by rewrite Hv).
    erewrite bind_ret by reflexivity. unfold ret. cbn [fst snd]. by rewrite He. }
  split.
  - rewrite (Hget e2 c1 (kve_Value e1, None) Hk); [by destruct e1|].
    rewrite (Kv_Get_eq _ _ _ Hg), Ep. by rewrite lookup_insert_eq.
  - intros Hd Hg2. unfold KvEntity_Delete, on_consul, Kv_Delete, api in Hd.
    erewrite bind_ret in Hd by reflexivity. cbn [id fst snd] in Hd. rewrite Hk in Hd.
    destruct (kv_Delete _ c1) as [c2' err] eqn:Ed. injection Hd as -> ->. apply Delete_ok in Ed as [Ed _].
    rewrite (Hget e1 c2 ([], Some ErrKvDoesNotExists) eq_refl); [done|].
    rewrite (Kv_Get_eq _ _ _ Hg2), Ed. by rewrite lookup_delete_eq.
Qed.

(** Consul accepts no time to live under ten seconds: a session is created
    without one exactly when the timeout is not positive, and else with the
    timeout, raised to ten; creating it through [SessionEntity], which clamps
    a second time, asks for the same. *)
Theorem session_ttl_bounds (timeout : Z) :
  TTL (session_entry timeout) =
    (if 0 <? timeout then gostr (pretty.pretty (Z.max 10 timeout)) ++ gostr "s" else []) /\
  session_entry (se_timeout (NewSessionEntity timeout)) = session_entry timeout.
Proof.
  assert (Hc : 0 < timeout -> clamp_timeout timeout = Z.max 10 timeout).
  { intros H0. unfold clamp_timeout. destruct ((0 <? timeout) && (timeout <? 10)) eqn:E; lia. }
  assert (Hn : timeout <= 0 -> clamp_timeout timeout = timeout).
  { intros H0. unfold clamp_timeout. destruct ((0 <? timeout) && (timeout <? 10)) eqn:E; lia. }
  split.
  - unfold session_entry. cbn [TTL]. destruct (Z.ltb_spec 0 timeout) as [H0|H0].
    + rewrite Hc by done. by destruct (Z.ltb_spec 0 (Z.max 10 timeout)); [|lia].
    + rewrite Hn by done. by destruct (Z.ltb_spec 0 timeout); [lia|].
  - unfold NewSessionEntity, session_entry. cbn [se_timeout]. do 2 f_equal.
    all: destruct (Z.ltb_spec 0 timeout) as [H0|H0]; [|by rewrite !Hn by (rewrite ?Hn; lia)];
      assert (Hcc : clamp_timeout (clamp_timeout timeout) = clamp_timeout timeout)
        by (rewrite Hc by done; unfold clamp_timeout; destruct (_ && _) eqn:E; lia); by rewrite Hcc.
Qed.

(** *** The lock, abstractly: who holds it *)
Inductive lock_op := OpLock | OpUnlock | OpDelete.

(** The holder before, what the caller is told ([None] an error), the holder
    after.  A call that failed may have taken effect. *)
Inductive lock_spec (s : bytes) : lock_op -> option bytes -> option bool -> option bytes -> Prop :=
  | lock_granted h : h = None \/ h = Some s -> lock_spec s OpLock h (Some true) (Some s)
  | lock_refused h : h <> Some s -> lock_spec s OpLock h (Some false) h
  | lock_failed h : lock_spec s OpLock h None h
  | lock_unheard h : h = None \/ h = Some s -> lock_spec s OpLock h None (Some s)
  | unlock_done : lock_spec s OpUnlock (Some s) (Some true) None
  | unlock_refused h : h <> Some s -> lock_spec s OpUnlock h (Some false) h
  | unlock_failed h : lock_spec s OpUnlock h None h
  | unlock_unheard : lock_spec s OpUnlock (Some s) None None
  | delete_done h : lock_spec s OpDelete h (Some true) None
  | delete_failed h : lock_spec s OpDelete h None h
  | delete_unheard h : lock_spec s OpDelete h None None.

Definition answer (r : bool * option goerr) : option bool := match r.2 with None => Some r.1 | Some _ => None end.
Definition run_lock_op (l : LockEntity) (op : lock_op) : M C (option bool) :=
  match op with
  | OpLock => let! r := LockEntity_Lock l in ret (answer r)
  | OpUnlock => let! r := LockEntity_Unlock l in ret (answer r)
  | OpDelete => let! e := LockEntity_Delete l in ret (answer (true, e))
  end.

(** Whatever Consul answers, an operation of an entity moves the lock as above
    and touches no other key. *)
Lemma LockEntity_spec l op c :
  exists c' r, run_lock_op l op c = (c', Ret r) /\
    lock_spec (le_sessionID l) op (locker (le_key l) c) r (locker (le_key l) c') /\
    forall k, k <> le_key l -> kvs c' !! k = kvs c !! k.
Proof.
  destruct l as [s key t]. cbn [le_sessionID le_key].
  assert (Hput : forall p h (c' : C), Key p = key -> put_pair p h c c' ->
    locker key c' = h /\ forall k, k <> key -> kvs c' !! k = kvs c !! k).
  { intros p h c' Hk Hp. split; [rewrite (locker_put _ _ _ _ _ Hp); by rewrite decide_True|].
    intros k Hne. destruct Hp as [-> _]. by rewrite lookup_insert_ne by congruence. }
  assert (Hsame : forall c' : C, kvs c' = kvs c -> locker key c' = locker key c /\
    forall k, k <> key -> kvs c' !! k = kvs c !! k).
  { intros c' E. split; [by apply locker_kvs|by rewrite E]. }
  assert (Hdel : forall c' : C, kvs c' = delete key (kvs c) -> locker key c' = None /\
    forall k, k <> key -> kvs c' !! k = kvs c !! k).
  { intros c' E. split; [rewrite (locker_delete _ _ _ _ E); by rewrite decide_True|].
    intros k Hne. by rewrite E, lookup_delete_ne. }
  destruct op; cbn [run_lock_op];
    unfold LockEntity_Lock, LockEntity_Unlock, LockEntity_Delete, Lock_Lock, Lock_Unlock, Lock_Delete;
    cbn [le_sessionID le_key].
  - destruct (kv_Acquire (mkPair key [] s) c) as [c' [b e]] eqn:E.
    exists c', (answer (b, e)). split; [by rewrite (bind_ret _ _ _ _ _ (api_eq _ _ _ _ E))|].
    destruct e as [e|]; [apply Acquire_error in E as [E|[Hh E]]|destruct b;
      [apply Acquire_true in E as [Hh E]|apply Acquire_false in E as (Hh & E & _)]];
      [apply Hsame in E as [-> ?]|apply Hput in E as [-> ?]; [|done]|apply Hput in E as [-> ?]; [|done]|
       apply Hsame in E as [-> ?]]; (split; [by constructor|done]).
  - destruct (kv_Release (mkPair key [] s) c) as [c' [b e]] eqn:E.
    exists c', (answer (b, e)). split; [by rewrite (bind_ret _ _ _ _ _ (api_eq _ _ _ _ E))|].
    destruct e as [e|]; [apply Release_error in E as [E|[Hh E]]|destruct b;
      [apply Release_true in E as [Hh E]|apply Release_false in E as (Hh & E & _)]]; cbn [Key Session] in *;
      rewrite ?Hh; [apply Hsame in E as [-> ?]|apply Hput in E as [-> ?]; [|done]|apply Hput in E as [-> ?]; [|done]|
       apply Hsame in E as [-> ?]]; (split; [by constructor|done]).
  - destruct (kv_Delete key c) as [c' e] eqn:E.
    exists c', (answer (true, e)). split; [by rewrite (bind_ret _ _ _ _ _ (api_eq _ _ _ _ E))|].
    destruct e as [e|]; [apply Delete_error in E as [E|E]|apply Delete_ok in E as [E _]];
      [apply Hsame in E as [-> ?]|apply Hdel in E as [-> ?]..]; (split; [by constructor|done]).
Qed.
End Promises.

(** ** A concrete cluster: one that never fails

    It shows that [ConsulLaws] can hold; the witnesses run on it. *)
Module OneConsul.
Record consul := mkConsul {
  c_kvs : gmap bytes (bytes * option bytes);
  c_services : gmap bytes AgentServiceRegistration;
  c_checks : gmap bytes bytes;
  c_sessions : nat
}.
Definition empty : consul := mkConsul ∅ ∅ ∅ 0.
Definition set_kvs (m : gmap bytes (bytes * option bytes)) (c : consul) : consul :=
  mkConsul m (c_services c) (c_checks c) (c_sessions c).
Definition held (k : bytes) (c : consul) : option bytes := c_kvs c !! k ≫= snd.
Definition expire (s : bytes) (c : consul) : consul :=
  set_kvs (filter (fun kv : bytes * (bytes * option bytes) => kv.2.2 <> Some s) (c_kvs c)) c.
Definition status_of (c : consul) (i : bytes) : bytes := default (gostr "passing") (c_checks c !! i).
Definition entry_of (c : consul) (ir : bytes * AgentServiceRegistration) : ServiceEntry :=
  mkEntry ir.1 (sr_Address ir.2) (sr_Port ir.2) (sr_Tags ir.2) (status_of c ir.1).

#[export] Instance consul_api : ConsulAPI consul := {
  kv_Put p c := (set_kvs (<[Key p := (Value p, held (Key p) c)]> (c_kvs c)) c, None);
  kv_Get k c := ((fun v => mkPair k v.1 (default [] v.2)) <$> c_kvs c !! k, None);
  kv_Delete k c := (set_kvs (delete k (c_kvs c)) c, None);
  kv_Acquire p c :=
    if decide (held (Key p) c = None \/ held (Key p) c = Some (Session p))
    then (set_kvs (<[Key p := (Value p, Some (Session p))]> (c_kvs c)) c, (true, None))
    else (c, (false, None));
  kv_Release p c :=
    if decide (held (Key p) c = Some (Session p))
    then (set_kvs (<[Key p := (Value p, None)]> (c_kvs c)) c, (true, None))
    else (c, (false, None));
  session_Create _ c :=
    (mkConsul (c_kvs c) (c_services c) (c_checks c) (S (c_sessions c)),
     (gostr "s" ++ gostr (pretty.pretty (c_sessions c)), None));
  session_Destroy s c := (expire s c, None);
  session_Renew _ c := (c, None);
  session_expire := expire;
  agent_ServiceRegister r c :=
    (mkConsul (c_kvs c) (<[sr_ID r := r]> (c_services c)) (c_checks c) (c_sessions c), None);
  agent_ServiceDeregister i c :=
    (mkConsul (c_kvs c) (delete i (c_services c)) (delete i (c_checks c)) (c_sessions c), None);
  agent_CheckRegister k c :=
    (mkConsul (c_kvs c) (c_services c) (<[cr_ID k := cr_Status k]> (c_checks c)) (c_sessions c), None);
  agent_CheckDeregister i c :=
    (mkConsul (c_kvs c) (c_services c) (delete i (c_checks c)) (c_sessions c), None);
  agent_UpdateTTL i _ st c :=
    match c_checks c !! i with
    | Some _ => (mkConsul (c_kvs c) (c_services c) (<[i := st]> (c_checks c)) (c_sessions c), None)
    | None => (c, Some ErrExternal)
    end;
  health_Service n p c :=
    Some (filter (fun e => p = true -> AggregatedStatus e = gostr "passing")
      (map (entry_of c) (filter (fun ir : bytes * AgentServiceRegistration => sr_Name ir.2 = n)
        (map_to_list (c_services c)))))
}.
#[export] Instance consul_view : ConsulView consul := {
  kvs := c_kvs;
  catalogue := c_services;
  check_status := c_checks;
  healthy _ := True
}.
#[export] Instance consul_laws : ConsulLaws consul.
Proof.
  split; cbn; intros; simplify_eq; try done; try by repeat split.
  - by destruct (c_kvs c !! k).
  - by case_decide; simplify_eq.
  - case_decide; simplify_eq. split; [tauto|done].
  - by case_decide; simplify_eq.
  - by case_decide; simplify_eq.
  - by case_decide; simplify_eq.
  - by case_decide; simplify_eq.
  - by case_decide.
  - by destruct (c_checks c !! i).
  - split_and!; try done. apply delete_subseteq.
  - destruct (c_checks c !! i) eqn:E; simplify_eq. by repeat split.
  - apply list_elem_of_filter in H0 as [Hp H0]. apply list_elem_of_fmap in H0 as ([i r] & -> & H0).
    apply list_elem_of_filter in H0 as [Hn H0]. apply elem_of_map_to_list in H0. by exists r.
  - exists (entry_of c (i, r)). split_and!; [|done|].
    + apply list_elem_of_filter. split.
      * intros Hp. cbn. unfold status_of. rewrite H3. cbn. by apply H4.
      * apply list_elem_of_fmap. exists (i, r). split; [done|]. apply list_elem_of_filter. split; [done|].
        by apply elem_of_map_to_list.
    + cbn. unfold status_of. by rewrite H3.
Qed.
End OneConsul.

Section Instances.
Import OneConsul.
#[local] Definition some_entity : KvEntity := mkKvEntity (gostr "a") (gostr "1").
#[local] Definition other_entity : KvEntity := mkKvEntity (gostr "a") [].

Lemma kv_entity_roundtrip_witness :
  exists c1 c2, KvEntity_Set (some_entity, empty) = ((some_entity, c1), Ret None) /\
    KvEntity_Get (other_entity, c1) = ((some_entity, c1), Ret None) /\
    KvEntity_Get (some_entity, c2) = ((other_entity, c2), Ret (Some ErrKvDoesNotExists)).
Proof.
  set (c1 := (kv_Put (mkPair (gostr "a") (gostr "1") []) empty).1).
  set (c2 := (kv_Delete (gostr "a") c1).1). exists c1, c2.
  destruct (kv_entity_roundtrip some_entity other_entity empty c1 c2 (Some (mkPair (gostr "a") (gostr "1") []))
    None) as [H1 H2]; [by vm_compute|done|by vm_compute|].
  split_and!; [by vm_compute|exact H1|]. apply H2; by vm_compute.
Defined.
End Instances.
