(* ===== verification/Registration.v ===== *)
(** * A subscription service in Consul

    The rest of [src/services/service.go]: registering, deregistering, and the
    loop that renews the check and publishes the number of connections; and
    how [src/client/watcher.go] finds a service and reads its load.  Consul is
    the interface [ConsulAPI]. *)
From S2P Require Import Prelude.
From S2P Require Import GoSem.
From S2P Require Import Framing.
From S2P Require Import Frame.
From S2P Require Import SubClient.
From S2P Require Import SubNode.
From S2P Require Import SubGroups.
From S2P Require Import SubService.
From S2P Require Import Watch.
From S2P Require Import Consul.

(** ** The service's side *)
Definition Registered : Z := 1.

(** The options of [NewService], for what they set; times in nanoseconds. *)
Record service_config := mkServiceConfig {
  sc_ServiceIP : bytes;
  sc_TTL : Z;
  sc_Interval : Z
}.
Definition ServiceOption : Type := service_config -> service_config.
Definition TTL (ttl : Z) : ServiceOption := fun s => mkServiceConfig (sc_ServiceIP s) ttl (sc_Interval s).
Definition Interval (interval : Z) : ServiceOption := fun s => mkServiceConfig (sc_ServiceIP s) (sc_TTL s) interval.
Definition ServiceIp (serviceIP : bytes) : ServiceOption := fun s => mkServiceConfig serviceIP (sc_TTL s) (sc_Interval s).
Definition service_configured (opts : list ServiceOption) : service_config :=
  foldl (fun s f => f s) (mkServiceConfig [] 15 10000000000) opts.
Definition NewService_with (opts : list ServiceOption) (host : bytes) (port : Z) : outcome Service :=
  NewService host port (sc_ServiceIP (service_configured opts)).

(** [fmt.Sprintf("%ds", s.TTL)] *)
Definition check_TTL (s : service_config) : bytes := gostr (pretty.pretty (sc_TTL s)) ++ gostr "s".

(** With the option a service on the wildcard address can be created, and it
    is published under the address the option gives. *)
Theorem ServiceIp_publishes opts ip port :
  ip <> [] ->
  exists s, NewService_with (opts ++ [ServiceIp ip]) (gostr "0.0.0.0") port = Ret s /\ public_ip s = ip /\
    SubService.ServiceID s = ServiceName ++ gostr "-" ++ ip ++ gostr "-" ++ gostr (pretty.pretty port).
Proof.
  intros Hip. unfold NewService_with, service_configured. rewrite foldl_app. cbn [foldl ServiceIp sc_ServiceIP].
  unfold NewService. rewrite bool_decide_true, bool_decide_false by done. eexists. split; [reflexivity|].
  split; [|done]. unfold public_ip. cbn [ServiceHost ServiceIP]. by rewrite bool_decide_true, bool_decide_false.
Qed.

(** The [Service] with its register status and the session of [updateTTL]'s
    loop.  [NewTCPService] sets no option: the check's time to live is 15
    seconds, the interval 10. *)
Record registrant := mkRegistrant {
  rg_service : Service;
  rg_status : Z;
  rg_session : bytes
}.

Section Service.
Context {C : Type} {HA : ConsulAPI C}.

Definition set_status (z : Z) : M (registrant * C) unit :=
  modify (fun s => (mkRegistrant (rg_service s.1) z (rg_session s.1), s.2)).
Definition set_session (i : bytes) : M (registrant * C) unit :=
  modify (fun s => (mkRegistrant (rg_service s.1) (rg_status s.1) i, s.2)).

(** [hostname] is what [os.Hostname] returned, [None] an error. *)
Definition registration_of (s : Service) (hostname : option bytes) : AgentServiceRegistration :=
  mkServiceRegistration (SubService.ServiceID s) ServiceName (public_ip s) (ServicePort s) [default [] hostname].
Definition check_of (s : Service) : AgentCheckRegistration :=
  mkCheckRegistration (SubService.ServiceID s) ServiceName (SubService.ServiceID s)
    (check_TTL (service_configured [])) (gostr "passing").

Definition Register (hostname : option bytes) : M (registrant * C) (option goerr) :=
  let! s := gets id in
  (if Z.land (rg_status s.1) Registered <=? 0
   then set_status (Z.lor (rg_status s.1) Registered) else ret tt) ;;
  let! err := on_consul (api (agent_ServiceRegister (registration_of (rg_service s.1) hostname))) in
  match err with
  | Some _ => ret (Some ErrExternal)
  | None =>
      let! err := on_consul (api (agent_CheckRegister (check_of (rg_service s.1)))) in
      match err with
      | Some _ => ret (Some ErrExternal)
      | None => ret None
      end
  end.

Definition Deregister : M (registrant * C) (option goerr) :=
  let! s := gets id in
  let! err := on_consul (api (agent_ServiceDeregister (SubService.ServiceID (rg_service s.1)))) in
  match err with
  | Some _ => ret err
  | None => on_consul (api (agent_CheckDeregister (SubService.ServiceID (rg_service s.1))))
  end.

Definition svc_Close : M (registrant * C) unit := Deregister ;; ret tt.

(** [updateTTL]: what it does before its loop, and a turn of the loop with
    [count] connections at the moment. *)
Definition updateTTL_start : M (registrant * C) unit :=
  let! r := on_consul (api (session_Create (mkSessionEntry SessionBehaviorDelete (gostr "30s")))) in
  match r.2 with
  | Some _ => lift Panic
  | None => set_session r.1
  end.

Definition load_key (s : registrant) : bytes :=
  connects_key (public_ip (rg_service s)) (ServicePort (rg_service s)).
Definition load_pair (s : registrant) (count : Z) : KVPair :=
  mkPair (load_key s) (le_bytes 8 (u64 count)) (rg_session s).

Definition updateTTL_turn (count : Z) : M (registrant * C) unit :=
  let! s := gets id in
  on_consul (api (session_Renew (rg_session s.1))) ;;
  on_consul (api (kv_Put (load_pair s.1 count))) ;;
  if Z.land (rg_status s.1) Registered <=? 0 then ret tt
  else on_consul (api (agent_UpdateTTL (SubService.ServiceID (rg_service s.1)) [] (gostr "passing"))) ;; ret tt.
End Service.

(** ** The client's side *)
Section Discovery.
Context {C : Type} {HA : ConsulAPI C}.

(** [ConsulWatcher.getConnects]: a failed request counts as 0; a key that does
    not exist is a [nil] dereference, and a value of less than eight bytes is
    read past its end. *)
Definition getConnects (ip : bytes) (port : Z) (c : C) : outcome Z :=
  match kv_Get (connects_key ip port) c with
  | (_, Some _) => Ret 0
  | (None, None) => Panic
  | (Some k, None) => if len (Value k) <? 8 then Panic else Ret (le_val (take 8 (Value k)))
  end.

(** [ConsulWatcher.queryConsul] *)
Definition watched_service : bytes := gostr "wing-binlog-go-subscribe".
Definition queryConsul (c : C) : option (list ServiceEntry) := health_Service watched_service true c.
End Discovery.

(** ** What registering and publishing achieve *)
Section Registering.
Context {C : Type} {HA : ConsulAPI C} {HV : ConsulView C} {HL : ConsulLaws C}.
Implicit Types (s : registrant) (c : C).

(** A turn whose [Put] succeeds stores the count, under whatever lock the key
    had. *)
Lemma turn_stores s count c :
  let c1 := (session_Renew (rg_session s) c).1 in
  (kv_Put (load_pair s count) c1).2 = None ->
  exists c', updateTTL_turn count (s, c) = ((s, c'), Ret tt) /\
    kvs c' !! load_key s = Some (le_bytes 8 (u64 count), locker (load_key s) c1).
Proof.
  intros c1 Hp. destruct (session_Renew (rg_session s) c) as [c1' r1] eqn:E1. cbn [fst] in c1. subst c1.
  destruct (kv_Put (load_pair s count) c1') as [c2 r2] eqn:E2. cbn [snd] in Hp. subst r2.
  pose proof (Put_ok _ _ _ E2) as [Hk _]. cbn [Key Value load_pair] in Hk.
  unfold updateTTL_turn. erewrite bind_ret by reflexivity. cbn [id fst].
  rewrite (bind_ret _ _ _ _ _ (on_api _ s c c1' r1 E1)).
  rewrite (bind_ret _ _ _ _ _ (on_api _ s c1' c2 None E2)).
  destruct (Z.land (rg_status s) Registered <=? 0).
  { exists c2. split; [done|]. by rewrite Hk, lookup_insert_eq. }
  destruct (agent_UpdateTTL (SubService.ServiceID (rg_service s)) [] (gostr "passing") c2) as [c3 r3] eqn:E3.
  exists c3. rewrite (bind_ret _ _ _ _ _ (on_api _ s c2 c3 r3 E3)). split; [done|].
  destruct (UpdateTTL_frame (SubService.ServiceID (rg_service s)) [] (gostr "passing") c2) as [Hu _].
  rewrite E3 in Hu. cbn [fst] in Hu. by rewrite Hu, Hk, lookup_insert_eq.
Qed.

(** What a client makes of a stored count. *)
Lemma getConnects_stored ip port c count h :
  kvs c !! connects_key ip port = Some (le_bytes 8 (u64 count), h) ->
  (kv_Get (connects_key ip port) c).2 = None -> getConnects ip port c = Ret (u64 count).
Proof.
  intros Hk Hg. unfold getConnects. destruct (kv_Get (connects_key ip port) c) as [r e] eqn:E.
  cbn [snd] in Hg. subst e. pose proof (Get_ok _ _ _ E) as Hv. rewrite Hk in Hv.
  destruct r as [kv|]; [|done]. apply (inj Some) in Hv. cbn [fst] in Hv. rewrite Hv.
  assert (Hl : length (le_bytes 8 (u64 count)) = 8%nat) by apply le_bytes_length.
  unfold len. rewrite Hl. cbn [Z.ltb Z.compare Z.of_nat]. rewrite take_ge by (rewrite Hl; lia).
  rewrite le_val_le_bytes. change (2 ^ (8 * Z.of_nat 8)) with (2 ^ 64).
  unfold u_wrap. by rewrite Z.mod_mod by lia.
Qed.

(** C30: The load a client reads from Consul for a service is the number of that
    service's online subscribers at the time of the last turn of [updateTTL]
    whose write succeeded, whatever happened to the service before. *)
Theorem published_load growcap unicode_lower MatchString evs s c :
  let w := run (on_world_event growcap unicode_lower MatchString) evs registered_groups in
  (kv_Put (load_pair s (connects w)) (session_Renew (rg_session s) c).1).2 = None ->
  exists c', updateTTL_turn (connects w) (s, c) = ((s, c'), Ret tt) /\
    ((kv_Get (load_key s) c').2 = None ->
     getConnects (public_ip (rg_service s)) (ServicePort (rg_service s)) c' =
       Ret (u64 (online_count (nodes w)))).
Proof.
  intros w Hp. destruct (turn_stores s (connects w) c Hp) as (c' & E & Hk).
  exists c'. split; [done|]. intros Hg. rewrite (getConnects_stored _ _ _ _ _ Hk Hg).
  assert (Hw : world_ok w).
  { apply preserves_run; [|apply world_ok_init]. intros e. apply preserves_on_world_event. }
  rewrite (ok_connects w Hw). unfold u_wrap, s_wrap. f_equal.
  rewrite Zminus_mod_idemp_l. f_equal. lia.
Qed.

(** The load of a service that is gone stays in Consul: the pair names the
    loop's session, which is to take the key with it when the process dies,
    but [Put] does not look at it; when the session has expired, clients still
    read the last count. *)
Theorem load_outlives_session s count c :
  let c1 := (session_Renew (rg_session s) c).1 in
  (kv_Put (load_pair s count) c1).2 = None -> locker (load_key s) c1 <> Some (rg_session s) ->
  exists c', updateTTL_turn count (s, c) = ((s, c'), Ret tt) /\
    let gone := session_expire (rg_session s) c' in
    ((kv_Get (load_key s) gone).2 = None ->
     getConnects (public_ip (rg_service s)) (ServicePort (rg_service s)) gone = Ret (u64 count)).
Proof.
  intros c1 Hp Hl. destruct (turn_stores s count c Hp) as (c' & E & Hk).
  exists c'. split; [done|]. intros gone Hg. apply (getConnects_stored _ _ _ _ (locker (load_key s) c1)); [|done].
  destruct (expire_ok (rg_session s) c') as [Hx _]. unfold gone. rewrite Hx.
  apply map_lookup_filter_Some. split; [exact Hk|exact Hl].
Qed.

(** A registration that succeeds puts the service with a passing check into
    the catalogue. *)
Lemma Register_lists hostname s c s' c' :
  Register hostname (s, c) = ((s', c'), Ret None) ->
  rg_service s' = rg_service s /\ 0 < Z.land (rg_status s') Registered /\
  catalogue c' = <[SubService.ServiceID (rg_service s) := registration_of (rg_service s) hostname]> (catalogue c) /\
  check_status c' !! SubService.ServiceID (rg_service s) = Some (gostr "passing").
Proof.
  intros E. unfold Register in E. erewrite bind_ret in E by reflexivity. cbn [id fst] in E.
  set (s1 := if Z.land (rg_status s) Registered <=? 0
    then mkRegistrant (rg_service s) (Z.lor (rg_status s) Registered) (rg_session s) else s).
  rewrite (bind_ret _ _ _ (s1, c) tt) in E by (unfold s1; by case_match).
  assert (Hs : rg_service s1 = rg_service s /\ 0 < Z.land (rg_status s1) Registered).
  { unfold s1. destruct (Z.leb_spec (Z.land (rg_status s) Registered) 0); [|done]. cbn. split; [done|].
    rewrite Z.land_lor_distr_l. change (Z.land Registered Registered) with 1.
    pose proof (Z.land_ones (rg_status s) 1 ltac:(lia)) as Ho. change (Z.ones 1) with Registered in Ho.
    rewrite Ho. pose proof (Z.mod_pos_bound (rg_status s) (2 ^ 1) ltac:(lia)) as Hb.
    assert (rg_status s mod 2 ^ 1 = 0 \/ rg_status s mod 2 ^ 1 = 1) as [-> | ->] by lia; done. }
  destruct (agent_ServiceRegister (registration_of (rg_service s) hostname) c) as [c1 r1] eqn:E1. rewrite (bind_ret _ _ _ _ _ (on_api _ s1 c c1 r1 E1)) in E.
  destruct r1; [discriminate E|].
  destruct (agent_CheckRegister (check_of (rg_service s)) c1) as [c2 r2] eqn:E2. rewrite (bind_ret _ _ _ _ _ (on_api _ s1 c1 c2 r2 E2)) in E.
  destruct r2; [discriminate E|]. injection E as <- <-.
  apply ServiceRegister_ok in E1 as (_ & Hc1 & _). apply CheckRegister_ok in E2 as (_ & Hc2 & Hk2 & _).
  destruct Hs as [Hs1 Hs2]. split_and!; [done|done| |].
  - rewrite Hc2, Hc1. done.
  - rewrite Hk2. apply lookup_insert_eq.
Qed.

(** A service that has registered is listed under its name by every query of
    a healthy cluster, with the address and port under which it publishes its
    load: once a turn of its loop has written the count, a client that found
    the entry reads that count. *)
Theorem registered_is_listed hostname s c s' c' l count :
  Register hostname (s, c) = ((s', c'), Ret None) -> healthy c' ->
  health_Service ServiceName true c' = Some l ->
  (kv_Put (load_pair s' count) (session_Renew (rg_session s') c').1).2 = None ->
  exists e c2, e ∈ l /\ ID e = SubService.ServiceID (rg_service s) /\
    updateTTL_turn count (s', c') = ((s', c2), Ret tt) /\
    ((kv_Get (load_key s') c2).2 = None -> getConnects (Address e) (EntryPort e) c2 = Ret (u64 count)).
Proof.
  intros E Hh Hl Hp. destruct (Register_lists _ _ _ _ _ E) as (Hs & _ & Hc & Hk).
  set (i := SubService.ServiceID (rg_service s)) in *. set (r := registration_of (rg_service s) hostname) in *.
  assert (Hr : catalogue c' !! i = Some r) by (rewrite Hc; apply lookup_insert_eq).
  destruct (health_complete ServiceName true c' l i r _ Hl Hh Hr eq_refl Hk ltac:(done)) as (e & He & Hi & _).
  destruct (health_sound ServiceName true c' l e Hl He) as (r' & Hr' & _ & Ha & Hpo & _ & _).
  rewrite Hi, Hr in Hr'. injection Hr' as <-.
  destruct (turn_stores s' count c' Hp) as (c2 & E2 & Hk2).
  exists e, c2. split_and!; [done|done|done|]. intros Hg. rewrite Ha, Hpo.
  unfold load_key in Hk2, Hg. rewrite Hs in Hk2, Hg. by apply (getConnects_stored _ _ _ _ _ Hk2).
Qed.

(** Registering writes no key. *)
Lemma Register_kvs hostname s c s' c' : Register hostname (s, c) = ((s', c'), Ret None) -> kvs c' = kvs c.
Proof.
  intros E. unfold Register in E. erewrite bind_ret in E by reflexivity. cbn [id fst] in E.
  match type of E with bind ?m _ _ = _ =>
    assert (exists s1, m (s, c) = ((s1, c), Ret tt)) as [s1 E0] by (case_match; by eexists) end.
  rewrite (bind_ret _ _ _ _ _ E0) in E.
  destruct (agent_ServiceRegister (registration_of (rg_service s) hostname) c) as [c1 r1] eqn:E1.
  rewrite (bind_ret _ _ _ _ _ (on_api _ s1 c c1 r1 E1)) in E. destruct r1; [discriminate E|].
  destruct (agent_CheckRegister (check_of (rg_service s)) c1) as [c2 r2] eqn:E2.
  rewrite (bind_ret _ _ _ _ _ (on_api _ s1 c1 c2 r2 E2)) in E. destruct r2; [discriminate E|]. injection E as _ <-.
  apply ServiceRegister_ok in E1 as (Hk1 & _). apply CheckRegister_ok in E2 as (Hk2 & _). congruence.
Qed.

Lemma getConnects_answers ip port c : (exists z, getConnects ip port c = Ret z) \/ getConnects ip port c = Panic.
Proof. unfold getConnects. repeat case_match; eauto. Qed.

(** C38: A service is in the catalogue before its load is in the store, when the
    loop of [updateTTL] has not written it yet or its writes fail: a client
    that discovered the service and asks Consul for its load in that state
    dereferences a [nil] pair - [getServer] panics, in whatever orders it
    iterates over the servers and however many others there are. *)
Theorem unpublished_load_panics {E : Type} hostname s c s' c' (cl : Client E) order1 order2 k p n :
  Register hostname (s, c) = ((s', c'), Ret None) ->
  kvs c !! load_key s = None -> (kv_Get (load_key s) c').2 = None ->
  (forall p, p ∈ order1 <-> exists k, Services cl !! k = Some p) ->
  (forall p, p ∈ order2 <-> exists k, Services cl !! k = Some p) ->
  (forall k p, Services cl !! k = Some p -> is_Some (servers cl !! p)) ->
  Services cl !! k = Some p ->
  servers cl !! p = Some (mkServerNode false (public_ip (rg_service s)) (ServicePort (rg_service s)) n) ->
  exists h, getServer (both_loops (fun ip port => getConnects ip port c')) order1 order2 cl = (with_servers h cl, Panic).
Proof.
  intros Er Hn Hg H1 H2 Hall Hk Hs.
  assert (Hp : getConnects (public_ip (rg_service s)) (ServicePort (rg_service s)) c' = Panic).
  { unfold getConnects. fold (load_key s). destruct (kv_Get (load_key s) c') as [r e] eqn:Eg. cbn [snd] in Hg. subst e.
    apply Get_ok in Eg. rewrite (Register_kvs _ _ _ _ _ Er), Hn in Eg. by destruct r. }
  destruct (getServer_panics (fun ip port => getConnects ip port c') cl order1 order2 H1 H2) as (h & Eh & _).
  - intros k' p' Hk'. destruct (Hall k' p' Hk') as [x Hx]. exists x. split; [done|]. intros _. apply getConnects_answers.
  - exists k, p. split; [done|]. by eexists.
  - by exists h.
Qed.

(** Clients ask for another name than services register under: whatever
    registered, a client gets an empty list, knows no server, and has none to
    connect to. *)
Theorem discovery_finds_nothing {E : Type} hostname s c s' c' l li cw (e : E) getc order1 order2 :
  Register hostname (s, c) = ((s', c'), Ret None) ->
  (forall i r, catalogue c !! i = Some r -> sr_Name r <> watched_service) ->
  queryConsul c' = Some l ->
  getMembers (Some (l, li)) (cw, new_client e) = ((([], li), new_client e), Ret tt) /\
  getServer getc order1 order2 (new_client e) = (new_client e, Ret None).
Proof.
  intros Er Hn Hq. destruct (Register_lists _ _ _ _ _ Er) as (_ & _ & Hc & _).
  assert (l = []) as ->; [|done]. destruct l as [|x l]; [done|exfalso].
  destruct (health_sound _ _ _ _ x Hq ltac:(by left)) as (r & Hr & Hname & _).
  rewrite Hc in Hr. apply lookup_insert_Some in Hr as [[_ <-]|[_ Hr]]; [by vm_compute in Hname|].
  by apply (Hn _ _ Hr).
Qed.
End Registering.

(** ** Concrete instances: a service at 10.0.0.1:9990 *)
Section RegistrationInstances.
Import OneConsul.
#[local] Definition svc : Service :=
  mkService (gostr "10.0.0.1") [] 9990 (gostr "binlog-go-subscribe-10.0.0.1-9990").
#[local] Definition idle : registrant := mkRegistrant svc 0 (gostr "s0").
#[local] Definition registered : registrant * consul := (Register (Some (gostr "db1")) (idle, empty)).1.

#[local] Lemma it_registers :
  Register (Some (gostr "db1")) (idle, empty) = ((registered.1, registered.2), Ret None).
Proof. apply pair_snd3. by vm_compute. Qed.

Lemma published_load_witness :
  exists c', updateTTL_turn 2 (idle, empty) = ((idle, c'), Ret tt) /\
    getConnects (gostr "10.0.0.1") 9990 c' = Ret 2.
Proof.
  destruct (published_load SubService.twice Datatypes.id SubService.same SubService.some_connects idle empty)
    as (c' & E & H); [by vm_compute|].
  exists c'. split; [exact E|]. apply (f_equal (fun r => r.1.2)) in E. cbn [fst snd] in E. subst c'.
  refine (eq_trans (H _) _); by vm_compute.
Defined.

Lemma load_outlives_session_witness :
  exists c', updateTTL_turn 2 (idle, empty) = ((idle, c'), Ret tt) /\
    getConnects (gostr "10.0.0.1") 9990 (session_expire (gostr "s0") c') = Ret 2.
Proof.
  destruct (load_outlives_session idle 2 empty) as (c' & E & H); [by vm_compute|by vm_compute|].
  exists c'. split; [exact E|]. apply (f_equal (fun r => r.1.2)) in E. cbn [fst snd] in E. subst c'.
  exact (H ltac:(by vm_compute)).
Defined.

Lemma registered_is_listed_witness :
  exists l e c2, health_Service ServiceName true registered.2 = Some l /\ e ∈ l /\
    updateTTL_turn 7 registered = ((registered.1, c2), Ret tt) /\
    getConnects (Address e) (EntryPort e) c2 = Ret 7.
Proof.
  destruct (health_Service ServiceName true registered.2) as [l|] eqn:El; [|by vm_compute in El].
  destruct (registered_is_listed (Some (gostr "db1")) idle empty registered.1 registered.2 l 7 it_registers)
    as (e & c2 & He & _ & Et & Hg); [done|exact El|by vm_compute|].
  exists l, e, c2. split_and!; [done|exact He|by rewrite <- Et; destruct registered|].
  apply Hg. apply (f_equal (fun r => r.1.2)) in Et. cbn [fst snd] in Et. subst c2. by vm_compute.
Defined.

#[local] Definition discoverer : Client (list bytes) :=
  with_servers {[ 0%nat := mkServerNode false (gostr "10.0.0.1") 9990 0 ]}
    (with_Services {[ gostr "10.0.0.1:9990" := 0%nat ]} (new_client [])).

Lemma unpublished_load_panics_witness :
  exists h, getServer (both_loops (fun ip port => getConnects ip port registered.2)) [0%nat] [0%nat] discoverer =
    (with_servers h discoverer, Panic).
Proof.
  assert (Hk : forall k q, Services discoverer !! k = Some q -> q = 0%nat).
  { intros k q Hq. unfold discoverer in Hq. cbn [Services with_servers with_Services] in Hq.
    by apply lookup_singleton_Some in Hq as [_ <-]. }
  assert (Ho : forall q, q ∈ [0%nat] <-> exists k, Services discoverer !! k = Some q).
  { intros q. split; [intros ->%list_elem_of_singleton; exists (gostr "10.0.0.1:9990"); vm_compute; reflexivity|].
    intros [k ->%Hk]. by left. }
  refine (unpublished_load_panics (Some (gostr "db1")) idle empty registered.1 registered.2 discoverer [0%nat] [0%nat]
    (gostr "10.0.0.1:9990") 0 0 it_registers _ _ Ho Ho _ _ _); try (vm_compute; reflexivity).
  intros k q ->%Hk. by eexists.
Defined.

Lemma discovery_finds_nothing_witness :
  queryConsul registered.2 = Some [] /\
  getMembers (Some ([], 1)) (([], 0), new_client ([] : list bytes)) = ((([], 1), new_client []), Ret tt) /\
  getServer (unchanging (fun _ _ => 0)) [] [] (new_client ([] : list bytes)) = (new_client [], Ret None).
Proof.
  assert (Eq : queryConsul registered.2 = Some []) by (by vm_compute). split; [exact Eq|].
  refine (discovery_finds_nothing (Some (gostr "db1")) idle empty registered.1 registered.2 [] 1 ([], 0) []
    (unchanging (fun _ _ => 0)) [] [] it_registers _ Eq).
  intros i r Hr. by vm_compute in Hr.
Defined.
End RegistrationInstances.
