(* ===== verification/Codec.v ===== *)
(** * The agent's packet codec ([src/agent/codec.go])

    A packet is four header bytes 255, a 32-bit length (8 + payload), a
    64-bit message id and the payload.  [Decode] works on a slice: its
    re-slicing is bounded by the slice's capacity, not its length, so the
    model carries the backing array. *)
From S2P Require Import Prelude.
From S2P Require Import GoSem.

Definition PackageMaxLength : Z := 1024000.
Definition PackageMinLength : Z := 16.
Definition ContentMinLen : Z := 8.
Definition PackageHeader : bytes := [Byte.xff; Byte.xff; Byte.xff; Byte.xff].

Definition Encode (msgID : Z) (msg : bytes) : bytes :=
  let cl := len msg + 8 in
  [Z_byte 255; Z_byte 255; Z_byte 255; Z_byte 255] ++
  le_bytes 4 (u32 cl) ++ le_bytes 8 (u64 msgID) ++ msg.

(** [bytes.Index(data, sep)], [None] for -1. *)
Fixpoint is_prefix (sep data : bytes) : bool :=
  match sep, data with
  | [], _ => true
  | a :: sep, b :: data => if decide (a = b) then is_prefix sep data else false
  | _ :: _, [] => false
  end.
Fixpoint Index (data sep : bytes) : option nat :=
  if is_prefix sep data then Some 0%nat
  else match data with
       | [] => None
       | _ :: data => S <$> Index data sep
       end.

(** The message id, the payload, the position behind the packet, the error. *)
Definition decoded : Type := Z * bytes * Z * option goerr.
Definition no_packet : decoded := (0, [], 0, None).
Definition bad_packet (e : goerr) : decoded := (0, [], 0, Some e).

(** Where the packet's length field starts. *)
Definition find_start (data : slice byte) : outcome (option Z) :=
  obind (reslice data 0 4) (fun hdr =>
  if decide (elems hdr = PackageHeader) then Ret (Some 4)
  else match Index (elems data) PackageHeader with
       | None => Ret None
       | Some i => Ret (Some (Z.of_nat i + 4))
       end).

Definition Decode (data : slice byte) : outcome decoded :=
  if slen data =? 0 then Ret no_packet else
  obind (find_start data) (fun start =>
  match start with
  | None => Ret (bad_packet ErrInvalidPackage)
  | Some startPos =>
      if PackageMaxLength <? slen data then Ret (bad_packet ErrMaxPackError) else
      if slen data <? PackageMinLength then Ret no_packet else
      obind (reslice data startPos (startPos + 4)) (fun lenField =>
      let clen := le_val (elems lenField) in
      if clen <? ContentMinLen then Ret (bad_packet ErrDataLenError) else
      if slen data <? clen + 8 then Ret no_packet else
      obind (reslice data (startPos + 4) (startPos + 12)) (fun idField =>
      let msgID := s64 (le_val (elems idField)) in
      obind (reslice data (startPos + 12) (startPos + clen + 4)) (fun content =>
      Ret (msgID, elems content, startPos + clen + 4, None))))
  end).

(** ** The shape of a packet *)
Definition frame : Type := Z * bytes.
Definition enc_frame (f : frame) : bytes := Encode f.1 f.2.

(** A packet whose id and length fit their fields. *)
Definition frame_ok (f : frame) : Prop :=
  - 2 ^ 63 <= f.1 < 2 ^ 63 /\ len f.2 + 16 <= PackageMaxLength.

Lemma Encode_header msgID msg :
  Encode msgID msg = PackageHeader ++ le_bytes 4 (u32 (len msg + 8)) ++ le_bytes 8 (u64 msgID) ++ msg.
Proof. done. Qed.

Lemma Encode_length msgID msg : length (Encode msgID msg) = (length msg + 16)%nat.
Proof. rewrite Encode_header, !length_app, !le_bytes_length. simpl. lia. Qed.

(** Re-slicing is bounded by the backing array. *)
Lemma reslice_arr (data : slice byte) (pre mid post : bytes) i j :
  sl_arr data = pre ++ mid ++ post -> i = len pre -> j = len pre + len mid ->
  exists s, reslice data i j = Ret s /\ elems s = mid.
Proof.
  intros E -> ->. unfold reslice, scap. rewrite E, !length_app.
  destruct (_ && _ && _) eqn:Eb; [|unfold len in *; lia].
  eexists. split; [done|]. unfold elems. simpl. unfold len. rewrite Nat2Z.id.
  replace (Z.to_nat _) with (length mid) by lia.
  by rewrite drop_app_length, take_app_length.
Qed.

Lemma arr_elems (data : slice byte) : sl_arr data = elems data ++ drop (sl_len data) (sl_arr data).
Proof. unfold elems. by rewrite take_drop. Qed.

Lemma le_val_id msgID : - 2 ^ 63 <= msgID < 2 ^ 63 -> s64 (le_val (le_bytes 8 (u64 msgID))) = msgID.
Proof.
  intros H. rewrite le_val_le_bytes. change (8 * Z.of_nat 8) with 64.
  fold (u_wrap 64 (u64 msgID)). rewrite s_wrap_u_wrap, s_wrap_u_wrap by lia.
  by apply s_wrap_small.
Qed.

Lemma le_val_len n : 0 <= n -> n + 16 <= PackageMaxLength -> le_val (le_bytes 4 (u32 (n + 8))) = n + 8.
Proof.
  unfold PackageMaxLength. intros H0 H. rewrite le_val_le_bytes. change (8 * Z.of_nat 4) with 32.
  unfold u_wrap. rewrite Z.mod_mod, Z.mod_small; lia.
Qed.

Ltac len_tac := unfold len; rewrite ?length_app, ?le_bytes_length; simpl length; lia.

(** The fields of a packet that starts behind [pre], once its start is found;
    the guards look at the length only, the reads at the backing array. *)
Lemma Decode_fields (data : slice byte) (pre post : bytes) msgID n :
  sl_arr data = pre ++ PackageHeader ++ le_bytes 4 (u32 (n + 8)) ++ le_bytes 8 (u64 msgID) ++ post ->
  - 2 ^ 63 <= msgID < 2 ^ 63 -> 0 <= n -> n + 16 <= slen data <= PackageMaxLength ->
  find_start data = Ret (Some (len pre + 4)) ->
  Decode data = obind (reslice data (len pre + 16) (len pre + 16 + n)) (fun content =>
                Ret (msgID, elems content, len pre + n + 16, None)).
Proof.
  intros E Hid Hn Hmax Hs. unfold Decode. rewrite Hs. cbn [obind].
  destruct (Z.eqb_spec (slen data) 0); [lia|].
  destruct (Z.ltb_spec PackageMaxLength (slen data)); [lia|].
  unfold PackageMinLength. destruct (Z.ltb_spec (slen data) 16); [lia|].
  destruct (reslice_arr data (pre ++ PackageHeader) (le_bytes 4 (u32 (n + 8)))
    (le_bytes 8 (u64 msgID) ++ post) (len pre + 4) (len pre + 4 + 4)) as (s1 & -> & E1);
    [by rewrite E, <- !app_assoc|len_tac|len_tac|].
  cbn [obind]. cbv zeta. rewrite E1, le_val_len by lia. unfold ContentMinLen.
  destruct (Z.ltb_spec (n + 8) 8); [lia|].
  destruct (Z.ltb_spec (slen data) (n + 8 + 8)); [lia|].
  destruct (reslice_arr data (pre ++ PackageHeader ++ le_bytes 4 (u32 (n + 8)))
    (le_bytes 8 (u64 msgID)) post (len pre + 4 + 4) (len pre + 4 + 12)) as (s2 & -> & E2);
    [by rewrite E, <- !app_assoc|len_tac|len_tac|].
  cbn [obind]. rewrite E2, le_val_id by done.
  replace (len pre + 4 + 12) with (len pre + 16) by lia.
  replace (len pre + 4 + (n + 8) + 4) with (len pre + 16 + n) by lia.
  replace (len pre + n + 16) with (len pre + 16 + n) by lia. done.
Qed.

Lemma Decode_at (data : slice byte) (pre : bytes) msgID (msg post : bytes) :
  sl_arr data = pre ++ Encode msgID msg ++ post -> frame_ok (msgID, msg) ->
  len msg + 16 <= slen data <= PackageMaxLength ->
  find_start data = Ret (Some (len pre + 4)) ->
  Decode data = Ret (msgID, msg, len pre + len msg + 16, None).
Proof.
  intros E [Hid Hlen] Hmax Hs. cbn [fst snd] in Hid, Hlen. rewrite Encode_header in E.
  rewrite (Decode_fields data pre (msg ++ post) msgID (len msg));
    [|by rewrite E, <- !app_assoc|done|unfold len; lia|lia|done].
  destruct (reslice_arr data
    (pre ++ PackageHeader ++ le_bytes 4 (u32 (len msg + 8)) ++ le_bytes 8 (u64 msgID))
    msg post (len pre + 16) (len pre + 16 + len msg)) as (s3 & -> & E3);
    [by rewrite E, <- !app_assoc|len_tac|len_tac|].
  cbn [obind]. by rewrite E3.
Qed.

(** ** Finding the header *)
Lemma is_prefix_app sep rest : is_prefix sep (sep ++ rest) = true.
Proof. induction sep as [|a sep IH]; simpl; [by destruct rest|]. by rewrite decide_True. Qed.

Lemma find_start_here (data : slice byte) rest :
  sl_arr data = PackageHeader ++ rest -> find_start data = Ret (Some 4).
Proof.
  intros E. unfold find_start.
  destruct (reslice_arr data [] PackageHeader rest 0 4) as (s & -> & Es); try done.
  cbn [obind]. by rewrite decide_True.
Qed.

(** A buffer is warm when its backing array starts with a header: whatever
    [data[:4]] reads beyond the received bytes is then part of one. *)
Definition warm (data : slice byte) : Prop :=
  forall i, (i < 4)%nat -> sl_arr data !! i = Some Byte.xff.

(** The first bytes of [p], as far as there are any, are a header's. *)
Definition header_start (p : bytes) : Prop :=
  forall i b, (i < 4)%nat -> p !! i = Some b -> b = Byte.xff.

Lemma warm_split (data : slice byte) : warm data <-> exists rest, sl_arr data = PackageHeader ++ rest.
Proof.
  split.
  - intros Hw. exists (drop 4 (sl_arr data)). rewrite <- (take_drop 4 (sl_arr data)) at 1. f_equal.
    rewrite (take_S_r _ 3 Byte.xff), (take_S_r _ 2 Byte.xff), (take_S_r _ 1 Byte.xff),
      (take_S_r _ 0 Byte.xff) by (apply Hw; lia). done.
  - intros [rest E] i Hi. rewrite E, lookup_app_l by done. by do 4 (destruct i as [|i]; [done|]); lia.
Qed.

(** A warm buffer with an incomplete packet in it. *)
Lemma Decode_incomplete (data : slice byte) msgID msg p q :
  swf data -> elems data = p -> p ++ q = Encode msgID msg -> (0 < length q)%nat ->
  warm data -> len msg + 16 <= PackageMaxLength -> Decode data = Ret no_packet.
Proof.
  intros Hw Ep E Hq [wrest Hwarm]%warm_split Hlen.
  pose proof (elems_length data Hw) as Hl. rewrite Ep in Hl.
  assert (Hpq : (length p + length q = length msg + 16)%nat).
  { rewrite <- (Encode_length msgID msg), <- E, length_app. done. }
  unfold Decode. destruct (Z.eqb_spec (slen data) 0); [done|].
  rewrite (find_start_here data wrest Hwarm).
  cbn [obind]. unfold PackageMinLength.
  destruct (Z.ltb_spec PackageMaxLength (slen data)); [unfold slen, len in *; lia|].
  destruct (Z.ltb_spec (slen data) 16) as [|H16]; [done|].
  assert (Hp : p = PackageHeader ++ le_bytes 4 (u32 (len msg + 8)) ++ drop 8 p).
  { assert (H8 : take 8 p = PackageHeader ++ le_bytes 4 (u32 (len msg + 8))).
    { rewrite <- (take_app_le p q), E by (unfold slen, len in *; lia). done. }
    rewrite <- (take_drop 8 p) at 1. rewrite H8. by rewrite <- app_assoc. }
  destruct (reslice_arr data PackageHeader (le_bytes 4 (u32 (len msg + 8)))
    (drop 8 p ++ drop (sl_len data) (sl_arr data)) 4 (4 + 4)) as (s1 & -> & E1);
    [rewrite (arr_elems data) at 1; rewrite Ep, Hp at 1; by rewrite <- !app_assoc|done|done|].
  cbn [obind]. cbv zeta. rewrite E1, le_val_len by (unfold len in *; lia).
  unfold ContentMinLen. destruct (Z.ltb_spec (len msg + 8) 8); [unfold len in *; lia|].
  destruct (Z.ltb_spec (slen data) (len msg + 8 + 8)); [done|].
  unfold slen, len in *. lia.
Qed.

(** The noise in front of a packet: no header starts inside it, not even one
    that would need the packet's own first bytes. *)
Definition noise_ok (noise : bytes) : Prop :=
  forall k, (k < length noise)%nat ->
    is_prefix PackageHeader (drop k noise ++ PackageHeader) = false.

Lemma is_prefix_longer sep a b :
  (length sep <= length a)%nat -> is_prefix sep (a ++ b) = is_prefix sep a.
Proof.
  revert a. induction sep as [|x sep IH]; intros [|y a] Hl; simpl in *; try done; try lia.
  destruct (decide (x = y)); [|done]. apply IH. lia.
Qed.

Lemma Index_noise noise rest :
  noise_ok noise -> Index (noise ++ PackageHeader ++ rest) PackageHeader = Some (length noise).
Proof.
  intros Hn.
  assert (Hgen : forall k, (k <= length noise)%nat ->
    Index (drop k noise ++ PackageHeader ++ rest) PackageHeader = Some (length noise - k)%nat).
  2:{ rewrite <- (drop_0 noise) at 1. rewrite Hgen by lia. f_equal. lia. }
  intros k. remember (length noise - k)%nat as d eqn:Ed. revert k Ed.
  induction d as [|d IH]; intros k Ed Hk.
  - rewrite drop_ge by lia. simpl app. cbn [Index].
    rewrite (is_prefix_app PackageHeader rest : is_prefix _ (_ :: _) = true). done.
  - assert (Hlt : (k < length noise)%nat) by lia.
    pose proof (Hn k Hlt) as Hp.
    destruct (lookup_lt_is_Some_2 noise k Hlt) as [b Eb].
    rewrite (drop_S noise b k Eb) in Hp |- *. cbn [app Index] in Hp |- *.
    rewrite (app_assoc (drop (S k) noise)).
    change (b :: (drop (S k) noise ++ PackageHeader) ++ rest)
      with ((b :: drop (S k) noise ++ PackageHeader) ++ rest).
    rewrite is_prefix_longer by (simpl; rewrite length_app; simpl; lia).
    rewrite Hp, <- app_assoc, (IH (S k)) by lia. done.
Qed.

(** ** Correctness *)

(** [Decode] inverts [Encode]: a packet at the front of the received
    bytes yields its id, its payload and its length, whatever follows it and
    whatever the spare capacity of the buffer holds. *)
Theorem Decode_Encode (data : slice byte) msgID msg rest :
  swf data -> elems data = Encode msgID msg ++ rest ->
  frame_ok (msgID, msg) -> slen data <= PackageMaxLength ->
  Decode data = Ret (msgID, msg, len msg + 16, None).
Proof.
  intros Hw E Hf Hm. pose proof (elems_length data Hw) as Hl.
  rewrite E, length_app, Encode_length in Hl.
  assert (Ea : sl_arr data = Encode msgID msg ++ rest ++ drop (sl_len data) (sl_arr data))
    by (by rewrite (arr_elems data) at 1; rewrite E, <- app_assoc).
  apply (Decode_at data [] msgID msg _ Ea); [done|unfold slen, len in *; lia|].
  eapply find_start_here. rewrite Ea, Encode_header. by rewrite <- !app_assoc.
Qed.

Lemma find_start_noise (data : slice byte) noise rest :
  swf data -> elems data = noise ++ PackageHeader ++ rest -> noise_ok noise ->
  (0 < length noise)%nat -> find_start data = Ret (Some (len noise + 4)).
Proof.
  intros Hw E Hn Hpos. unfold find_start.
  assert (Ha : sl_arr data = [] ++ take 4 (elems data) ++
                 (drop 4 (elems data) ++ drop (sl_len data) (sl_arr data))).
  { rewrite (arr_elems data) at 1. cbn [app]. by rewrite app_assoc, take_drop. }
  assert (Hl4 : length (take 4 (elems data)) = 4%nat).
  { rewrite length_take, E, !length_app. change (length PackageHeader) with 4%nat. lia. }
  destruct (reslice_arr data _ _ _ 0 4 Ha) as (s & -> & Es); [done|unfold len; by rewrite Hl4|].
  cbn [obind]. rewrite Es. rewrite decide_False.
  - by rewrite E, Index_noise.
  - intros Eq. pose proof (Hn 0%nat Hpos) as Hp. rewrite drop_0 in Hp.
    rewrite <- (is_prefix_longer _ _ rest) in Hp by (rewrite length_app; simpl; lia).
    rewrite <- app_assoc, <- E, <- (take_drop 4 (elems data)), Eq, is_prefix_app in Hp. done.
Qed.

(** [Decode] resynchronises: bytes that contain no header in front of a
    complete packet are skipped, and the reported position covers both. *)
Theorem Decode_skips_noise (data : slice byte) noise msgID msg rest :
  swf data -> elems data = noise ++ Encode msgID msg ++ rest -> noise_ok noise ->
  (0 < length noise)%nat -> frame_ok (msgID, msg) -> slen data <= PackageMaxLength ->
  Decode data = Ret (msgID, msg, len noise + len msg + 16, None).
Proof.
  intros Hw E Hn Hpos Hf Hm. pose proof (elems_length data Hw) as Hl.
  rewrite E, length_app, (length_app (Encode _ _)), Encode_length in Hl.
  apply (Decode_at data noise msgID msg (rest ++ drop (sl_len data) (sl_arr data))); try done.
  - rewrite (arr_elems data) at 1. by rewrite E, <- !app_assoc.
  - unfold slen, len in *. lia.
  - eapply find_start_noise; [done| |done|done].
    rewrite E, Encode_header. by rewrite <- !app_assoc.
Qed.

(** The completeness check forgets the noise it skipped: when noise is
    followed by a packet still missing up to that many payload bytes, [Decode]
    reports a packet anyway, its missing bytes taken from the spare capacity
    of the buffer, with a position beyond the received bytes - and panics
    when there is no spare capacity. *)
Theorem Decode_reads_past_length (data : slice byte) noise msgID msg1 msg2 :
  swf data -> noise_ok noise -> frame_ok (msgID, msg1 ++ msg2) ->
  elems data ++ msg2 = noise ++ Encode msgID (msg1 ++ msg2) ->
  (0 < length msg2 <= length noise)%nat -> slen data <= PackageMaxLength ->
  (slen data + len msg2 <= scap data ->
     Decode data = Ret (msgID, msg1 ++ take (length msg2) (drop (sl_len data) (sl_arr data)),
                        slen data + len msg2, None)) /\
  (scap data < slen data + len msg2 -> Decode data = Panic).
Proof.
  intros Hw Hn [Hid Hlen] E [Hpos Hle] Hm. cbn [fst snd] in Hid, Hlen.
  pose proof (elems_length data Hw) as Hl.
  assert (Hlens : (sl_len data + length msg2 = length noise + (length msg1 + length msg2 + 16))%nat).
  { apply (f_equal length) in E. rewrite !length_app, Encode_length, length_app in E. lia. }
  set (stale := take (length msg2) (drop (sl_len data) (sl_arr data))).
  assert (Ee : elems data = noise ++ PackageHeader ++ le_bytes 4 (u32 (len (msg1 ++ msg2) + 8)) ++
                 le_bytes 8 (u64 msgID) ++ msg1).
  { rewrite Encode_header in E. rewrite !app_assoc in E. apply app_inv_tail in E.
    rewrite E. by rewrite <- !app_assoc. }
  assert (Hs : find_start data = Ret (Some (len noise + 4))) by (eapply find_start_noise; eauto; lia).
  split; intros Hcap.
  - assert (Hst : length stale = length msg2).
    { unfold stale. rewrite length_take, length_drop. unfold scap, slen, len in Hcap. lia. }
    replace (slen data + len msg2) with (len noise + len (msg1 ++ stale) + 16)
      by (unfold slen, len; rewrite length_app, Hst; lia).
    apply (Decode_at data noise msgID (msg1 ++ stale)
             (drop (length msg2) (drop (sl_len data) (sl_arr data)))); try done.
    + rewrite (arr_elems data) at 1. rewrite Ee, Encode_header.
      replace (len (msg1 ++ stale)) with (len (msg1 ++ msg2))
        by (unfold len; by rewrite !length_app, Hst).
      rewrite <- !app_assoc. do 5 f_equal. unfold stale. by rewrite take_drop.
    + split; [done|]. cbn [snd]. unfold len in *. rewrite length_app, Hst. by rewrite length_app in Hlen.
    + unfold slen, len in *. rewrite (length_app msg1), Hst. lia.
  - rewrite (Decode_fields data noise (msg1 ++ drop (sl_len data) (sl_arr data)) msgID
                (len (msg1 ++ msg2)));
      [|by rewrite (arr_elems data) at 1; rewrite Ee, <- !app_assoc|done
       |unfold len; lia|unfold slen, len in *; rewrite length_app; lia|done].
    unfold reslice. destruct (_ && _ && _) eqn:Eb; [|done].
    exfalso. revert Eb Hcap. unfold slen, scap, len. rewrite length_app. lia.
Qed.

(** ** Concrete instances *)
#[local] Definition hello : bytes := gostr "hello".

Lemma Decode_Encode_witness :
  Decode (mkSlice (Encode (-2) hello ++ Encode 3 [] ++ hello) 37) = Ret (-2, hello, 21, None).
Proof.
  apply (Decode_Encode (mkSlice (Encode (-2) hello ++ Encode 3 [] ++ hello) 37) (-2) hello (Encode 3 []));
    first [reflexivity | unfold swf, frame_ok; vm_compute; intuition (lia || congruence)].
Defined.

Lemma Decode_skips_noise_witness :
  Decode (mkSlice (hello ++ Encode 9 hello) 26) = Ret (9, hello, 26, None).
Proof.
  apply (Decode_skips_noise (mkSlice (hello ++ Encode 9 hello) 26) hello 9 hello []);
    try first [reflexivity | unfold swf, frame_ok; vm_compute; intuition (lia || congruence)].
  intros k Hk. do 5 (destruct k as [|k]; [reflexivity|]). simpl in Hk. lia.
Defined.

(** Five bytes of noise, then a packet whose last two bytes are missing: the
    stale [!!] behind the buffer's end completes it. *)
Lemma Decode_reads_past_length_witness :
  Decode (mkSlice (hello ++ take 19 (Encode 9 hello) ++ gostr "!!!") 24)
    = Ret (9, gostr "hel!!", 26, None).
Proof.
  apply (Decode_reads_past_length (mkSlice (hello ++ take 19 (Encode 9 hello) ++ gostr "!!!") 24)
           hello 9 (gostr "hel") (gostr "lo"));
    try first [reflexivity | unfold swf, frame_ok; vm_compute; intuition (lia || congruence)].
  intros k Hk. do 5 (destruct k as [|k]; [reflexivity|]). simpl in Hk. lia.
Defined.
