(* ===== verification/AgentRecv.v ===== *)
(** * The agent's receive loop

    [ClientNode.onMessage] ([src/agent/node.go]) and [Client.onMessage]
    ([src/agent/client.go]) are the same loop around [Codec.Decode] with a
    different action per packet.  The loop is modelled once, over the
    interface [PacketHost]; [AgentClient.v] and [AgentServer.v] instantiate
    it.  [recover] empties the buffer. *)
From S2P Require Import Prelude.
From S2P Require Import GoSem.
From S2P Require Import Framing.
From S2P Require Import Codec.

Class PacketHost (W : Type) := {
  recvBuf_of : W -> slice byte;
  set_recvBuf : slice byte -> W -> W;
  deliver : Z -> bytes -> M W unit       (* what is done with a packet *)
}.

Class PacketHostLaws W `{PacketHost W} := {
  recv_set s w : recvBuf_of (set_recvBuf s w) = s;
  set_set s s' w : set_recvBuf s (set_recvBuf s' w) = set_recvBuf s w;
  set_recv w : set_recvBuf (recvBuf_of w) w = w;
  deliver_buf id c s w :
    deliver id c (set_recvBuf s w) = (set_recvBuf s (deliver id c w).1, (deliver id c w).2)
}.

Section Recv.
Context {W : Type} {HW : PacketHost W} (growcap : nat -> nat -> nat).

(** [append(buf[:0], buf[pos:]...)], or a fresh buffer when [pos] is out of
    the received bytes. *)
Definition take_packet (b : slice byte) (pos : Z) : outcome (slice byte) :=
  if pos <=? slen b then
    obind (reslice b 0 0) (fun front =>
    obind (sub (elems b) pos (slen b)) (fun rest =>
    Ret (sappend Byte.x00 growcap front rest)))
  else Ret empty_slice.

Fixpoint recv_loop (fuel : nat) : M W unit :=
  match fuel with
  | O => lift OutOfFuel
  | S fuel =>
      let! b := gets recvBuf_of in
      let! r := lift (Decode b) in
      let '(msgID, content, pos, err) := r in
      match err with
      | Some _ => modify (set_recvBuf empty_slice)
      | None =>
          if msgID <=? 0 then ret tt else
          let! b' := lift (take_packet b pos) in
          modify (set_recvBuf b') ;;
          deliver msgID content ;;
          recv_loop fuel
      end
  end.

(** A packet takes at least sixteen bytes: one round per byte is enough. *)
Definition onMessage (msg : bytes) : M W unit :=
  recover
    (modify (fun w => set_recvBuf (sappend Byte.x00 growcap (recvBuf_of w) msg) w) ;;
     let! b := gets recvBuf_of in
     recv_loop (S (sl_len b)))
    (modify (set_recvBuf empty_slice)).

(** ** Termination *)
Lemma Decode_pos b id c pos : Decode b = Ret (id, c, pos, None) -> 0 < id -> 16 <= pos /\ 0 < slen b.
Proof.
  unfold Decode. destruct (Z.eqb_spec (slen b) 0); [intros [=]; lia|].
  destruct (find_start b) as [[start|]| | |] eqn:Es; cbn [obind]; try done.
  assert (4 <= start).
  { unfold find_start in Es. destruct (reslice b 0 4); cbn [obind] in Es; try done.
    repeat case_match; simplify_eq; lia. }
  destruct (PackageMaxLength <? slen b); [done|].
  destruct (slen b <? PackageMinLength); [intros [=]; lia|].
  destruct (reslice _ _ _); cbn [obind]; try done. cbv zeta. unfold ContentMinLen.
  destruct (Z.ltb_spec (le_val (elems a)) 8); [done|].
  destruct (_ <? _); [intros [=]; lia|].
  destruct (reslice _ _ _); cbn [obind]; try done.
  destruct (reslice _ _ _); cbn [obind]; try done. intros [=]. unfold slen in *. lia.
Qed.

Lemma reslice_fuel (b : slice byte) i j : reslice b i j <> OutOfFuel.
Proof. unfold reslice. by destruct (_ && _ && _). Qed.

Lemma Decode_fuel b : Decode b <> OutOfFuel.
Proof.
  unfold Decode, find_start. destruct (_ =? 0); [done|].
  repeat first [ apply obind_fuel; [|intros ?] | apply reslice_fuel | case_match | done ].
Qed.

Lemma take_packet_len b pos b' :
  16 <= pos -> 0 < slen b -> take_packet b pos = Ret b' -> (sl_len b' < sl_len b)%nat.
Proof.
  intros Hp Hb. unfold take_packet. destruct (Z.leb_spec pos (slen b)).
  - destruct (reslice b 0 0) as [front| | |] eqn:Er; cbn [obind]; try done.
    destruct (sub _ _ _) as [rest| | |] eqn:Es; cbn [obind]; try done. intros [= <-].
    rewrite sappend_len. unfold reslice in Er. case_match; simplify_eq. simpl.
    unfold sub in Es. case_match; simplify_eq. rewrite length_take. unfold slen in *. lia.
  - intros [= <-]. unfold slen in Hb. simpl. lia.
Qed.

Lemma take_packet_fuel b pos : take_packet b pos <> OutOfFuel.
Proof.
  unfold take_packet. case_match; [|done].
  apply obind_fuel; [apply reslice_fuel|]. intros ?. apply obind_fuel; [apply sub_fuel|done].
Qed.
End Recv.

Section Laws.
Context {W : Type} {HW : PacketHost W} {HL : PacketHostLaws W} (growcap : nat -> nat -> nat).
Implicit Types (w : W) (b : slice byte).

Lemma deliver_keeps_buf id c w : recvBuf_of (deliver id c w).1 = recvBuf_of w.
Proof. rewrite <- (set_recv w) at 1. rewrite deliver_buf. simpl. by rewrite recv_set. Qed.

(** One round on a complete packet. *)
Lemma recv_loop_packet fuel w b id c pos b' :
  recvBuf_of w = b -> Decode b = Ret (id, c, pos, None) -> 0 < id ->
  take_packet growcap b pos = Ret b' ->
  recv_loop growcap (S fuel) w =
    bind (deliver id c) (fun _ => recv_loop growcap fuel) (set_recvBuf b' w).
Proof.
  intros Eb Ed Hid Et. cbn [recv_loop].
  erewrite bind_ret by reflexivity. rewrite Eb.
  erewrite bind_ret by (unfold lift; by rewrite Ed). cbv iota beta.
  destruct (Z.leb_spec id 0); [lia|].
  erewrite bind_ret by (unfold lift; by rewrite Et).
  by erewrite bind_ret by reflexivity.
Qed.

(** One round that stops: no packet yet, or an error. *)
Lemma recv_loop_stop fuel w r :
  Decode (recvBuf_of w) = Ret r -> r.2 = None -> r.1.1.1 <= 0 ->
  recv_loop growcap (S fuel) w = (w, Ret tt).
Proof.
  intros Ed He Hid. destruct r as [[[id c] pos] err]. simpl in *. subst err.
  erewrite bind_ret by reflexivity.
  erewrite bind_ret by (unfold lift; by rewrite Ed). cbv iota beta.
  destruct (Z.leb_spec id 0); [done|lia].
Qed.

Lemma recv_loop_error fuel w e :
  Decode (recvBuf_of w) = Ret (bad_packet e) ->
  recv_loop growcap (S fuel) w = (set_recvBuf empty_slice w, Ret tt).
Proof.
  intros Ed. cbn [recv_loop]. erewrite bind_ret by reflexivity.
  by erewrite bind_ret by (unfold lift; by rewrite Ed).
Qed.

(** Handlers that end make the loop end within its fuel. *)
Lemma recv_loop_fuel fuel : (forall id c, terminates (deliver id c)) -> forall w,
  (sl_len (recvBuf_of w) < fuel)%nat -> snd (recv_loop growcap fuel w) <> OutOfFuel.
Proof.
  intros Hd. induction fuel as [|fuel IH]; intros w Hl; [lia|]. cbn [recv_loop].
  erewrite bind_ret by reflexivity. set (b := recvBuf_of w) in *.
  unfold bind at 1, lift at 1. destruct (Decode b) as [[[[id c] pos] [e|]]| | |] eqn:Ed;
    try done; [|by apply Decode_fuel in Ed].
  destruct (Z.leb_spec id 0); [done|].
  unfold bind at 1, lift at 1. destruct (take_packet growcap b pos) as [b'| | |] eqn:Et;
    try done; [|by apply take_packet_fuel in Et].
  apply Decode_pos in Ed as [Hp Hb]; [|done]. apply take_packet_len in Et; [|done..].
  erewrite bind_ret by reflexivity. unfold bind.
  pose proof (Hd id c (set_recvBuf b' w)) as Ht.
  pose proof (deliver_keeps_buf id c (set_recvBuf b' w)) as Hk.
  destruct (deliver id c (set_recvBuf b' w)) as [w1 [[]| | |]]; try done.
  simpl in Hk. apply IH. rewrite Hk, recv_set. lia.
Qed.

Lemma terminates_recv_loop w : (forall id c, terminates (deliver id c)) ->
  snd ((let! b := gets recvBuf_of in recv_loop growcap (S (sl_len b))) w) <> OutOfFuel.
Proof. intros Hd. erewrite bind_ret by reflexivity. apply recv_loop_fuel; [done|lia]. Qed.

(** What [recover] makes of the loop's outcome. *)
Lemma onMessage_outcome msg w : (forall id c, terminates (deliver id c)) ->
  snd (onMessage growcap msg w) = Ret tt \/ snd (onMessage growcap msg w) = Block.
Proof.
  intros Hd. unfold onMessage, recover. erewrite bind_ret by reflexivity.
  pose proof (terminates_recv_loop
    (set_recvBuf (sappend Byte.x00 growcap (recvBuf_of w) msg) w) Hd) as Ht.
  destruct (bind _ _ _) as [w1 [[]| | |]]; simpl in *; auto; done.
Qed.

(** The agent's receive handlers survive every input: on arbitrary bytes,
    in every state and whatever the packet callbacks do, as long as they end
    (by returning, panicking or waiting), a call returns, or
    waits for a channel inside a callback; it never panics and never needs
    more rounds than the buffer has bytes. *)
Theorem agent_onMessage_safe msg w : (forall id c, terminates (deliver id c)) ->
  snd (onMessage growcap msg w) <> Panic /\ snd (onMessage growcap msg w) <> OutOfFuel.
Proof. intros Hd. destruct (onMessage_outcome msg w Hd) as [-> | ->]; done. Qed.

(** ** Streams of packets *)

(** A packet the loop can take: a positive id, and short enough that it fits
    the buffer together with one read (4096 bytes). *)
Definition packet_ok (f : frame) : Prop :=
  0 < f.1 < 2 ^ 63 /\ len f.2 + 16 + 4096 <= PackageMaxLength.

Lemma packet_ok_frame f : packet_ok f -> frame_ok f.
Proof. intros [? ?]. split; lia. Qed.

(** What a run of packets does. *)
Definition deliver_frame (w : W) (f : frame) : W := (deliver f.1 f.2 w).1.
Fixpoint deliverable (w : W) (fs : list frame) : Prop :=
  match fs with
  | [] => True
  | f :: fs => packet_ok f /\ (deliver f.1 f.2 w).2 = Ret tt /\ deliverable (deliver_frame w f) fs
  end.

Lemma deliverable_ok fs : forall w, deliverable w fs -> Forall packet_ok fs.
Proof. induction fs; intros w; [done|]. intros (? & _ & ?). constructor; eauto. Qed.

Lemma deliver_frame_set w s f : deliver_frame (set_recvBuf s w) f = set_recvBuf s (deliver_frame w f).
Proof. unfold deliver_frame. by rewrite deliver_buf. Qed.

Lemma foldl_deliver_set s fs : forall w,
  foldl deliver_frame (set_recvBuf s w) fs = set_recvBuf s (foldl deliver_frame w fs).
Proof. induction fs as [|f fs IH]; intros w; [done|]. cbn [foldl]. by rewrite deliver_frame_set. Qed.

Lemma deliverable_set s fs : forall w, deliverable (set_recvBuf s w) fs <-> deliverable w fs.
Proof.
  induction fs as [|f fs IH]; intros w; [done|]. cbn [deliverable].
  by rewrite deliver_frame_set, IH, deliver_buf.
Qed.

Lemma header_start_prefix p q : header_start (p ++ q) -> header_start p.
Proof. intros H i b Hi Hp. eapply H; [done|]. by apply lookup_app_l_Some. Qed.

Lemma header_start_wire fs p q : p ++ q = wire enc_frame fs -> header_start p.
Proof.
  intros E. apply (header_start_prefix p q). rewrite E. intros i b Hi.
  destruct fs as [|f fs]; [done|]. rewrite wire_cons. unfold enc_frame. rewrite Encode_header.
  do 4 (destruct i as [|i]; [by intros [= <-]|]). lia.
Qed.

(** Overwriting the front of a warm array by the beginning of a stream keeps
    it warm. *)
Lemma warm_overwrite (p arr : bytes) n b :
  header_start p -> (forall i, (i < 4)%nat -> arr !! i = Some Byte.xff) ->
  (n <= length p)%nat -> sl_arr b = p ++ drop n arr -> n = length p -> warm b.
Proof.
  intros Hp Ha _ E -> i Hi. rewrite E.
  destruct (decide (i < length p)%nat) as [Hl|Hl].
  - rewrite lookup_app_l by done. destruct (lookup_lt_is_Some_2 p i Hl) as [x Ex].
    by rewrite Ex, (Hp i x Hi Ex).
  - rewrite lookup_app_r, lookup_drop by lia.
    replace (length p + (i - length p))%nat with i by lia. by apply Ha.
Qed.

(** The shift after a packet keeps the buffer warm. *)
Lemma take_packet_spec b h r :
  swf b -> elems b = h ++ r -> exists b', take_packet growcap b (len h) = Ret b' /\
    swf b' /\ elems b' = r /\ sl_arr b' = r ++ drop (length r) (sl_arr b).
Proof.
  intros Hw E. pose proof (elems_length b Hw) as Hl. rewrite E, length_app in Hl.
  unfold take_packet. destruct (Z.leb_spec (len h) (slen b)); [|unfold slen, len in *; lia].
  unfold reslice at 1. replace (0 <=? scap b) with true by (unfold scap; lia). cbn [obind andb].
  rewrite E. replace (slen b) with (len (h ++ r)) by (unfold slen, len; rewrite length_app; lia).
  assert (Es : sub (h ++ r) (len h) (len (h ++ r)) = Ret r).
  { unfold sub, len. rewrite length_app. destruct (_ && _ && _) eqn:Eb; [|lia].
    f_equal. rewrite Nat2Z.id, drop_app_length, firstn_all2 by lia. done. }
  rewrite Es. cbn [obind]. eexists. split; [done|].
  set (front := mkSlice (drop (Z.to_nat 0) (sl_arr b)) (Z.to_nat (0 - 0))).
  assert (Hf : swf front) by (unfold swf; simpl; lia). split_and!.
  - by apply sappend_wf.
  - by rewrite sappend_elems.
  - unfold sappend, front. simpl. rewrite drop_0.
    destruct (Nat.leb_spec (length r) (length (sl_arr b))); [done|unfold swf in Hw; lia].
Qed.

Lemma take_packet_warm b r fs q b' :
  warm b -> r ++ q = wire enc_frame fs -> sl_arr b' = r ++ drop (length r) (sl_arr b) -> warm b'.
Proof.
  intros Hw E Ea. eapply (warm_overwrite r (sl_arr b) (length r)); eauto using header_start_wire.
Qed.

(** Whole packets followed by the beginning of the next one. *)
Lemma loop_delivers fs : forall fuel w t fs2 more,
  swf (recvBuf_of w) -> warm (recvBuf_of w) ->
  elems (recvBuf_of w) = wire enc_frame fs ++ t -> (sl_len (recvBuf_of w) < fuel)%nat ->
  slen (recvBuf_of w) <= PackageMaxLength ->
  deliverable w (fs ++ fs2) -> t ++ more = wire enc_frame fs2 -> incomplete enc_frame t fs2 ->
  exists b, recv_loop growcap fuel w = (set_recvBuf b (foldl deliver_frame w fs), Ret tt) /\
    swf b /\ warm b /\ elems b = t.
Proof.
  induction fs as [|f fs IH]; intros fuel w t fs2 more Hw Hwarm E Hf Hmax Hd Ht Hi;
    (destruct fuel as [|fuel]; [lia|]).
  - exists (recvBuf_of w). cbn [foldl]. rewrite set_recv. split; [|done].
    simpl in E. destruct fs2 as [|f2 fs2].
    + simpl in Hi. subst t. apply (recv_loop_stop fuel w no_packet); try done.
      pose proof (elems_length _ Hw) as Hl. rewrite Hi in Hl. simpl in Hl.
      unfold Decode, slen. by rewrite <- Hl.
    + apply deliverable_ok, Forall_cons in Hd as [[_ Hlen] _].
      rewrite wire_cons in Ht. cbn [incomplete] in Hi.
      assert (Hsplit : t ++ drop (length t) (enc_frame f2) = Encode f2.1 f2.2).
      { change (Encode f2.1 f2.2) with (enc_frame f2).
        rewrite <- (take_drop (length t) (enc_frame f2)) at 2. f_equal.
        apply (f_equal (take (length t))) in Ht.
        by rewrite take_app_length, take_app_le in Ht by lia. }
      apply (recv_loop_stop fuel w no_packet); try done.
      eapply Decode_incomplete; [done|exact E|exact Hsplit|rewrite length_drop; lia|done|lia].
  - destruct Hd as (Hok & Hret & Hd). rewrite wire_cons, <- app_assoc in E.
    assert (Edec : Decode (recvBuf_of w) = Ret (f.1, f.2, len f.2 + 16, None)).
    { pose proof (elems_length _ Hw) as Hl. unfold enc_frame in E.
      rewrite E, length_app, Encode_length in Hl.
      apply (Decode_at _ [] f.1 f.2 ((wire enc_frame fs ++ t) ++
               drop (sl_len (recvBuf_of w)) (sl_arr (recvBuf_of w)))).
      - rewrite (arr_elems (recvBuf_of w)) at 1. by rewrite E, <- !app_assoc.
      - destruct (packet_ok_frame f Hok). by split.
      - unfold slen, len in *. lia.
      - apply warm_split in Hwarm as [rest Hwarm]. by apply (find_start_here _ rest). }
    destruct (take_packet_spec _ _ _ Hw E) as (b' & Et & Hw' & Eb' & Ea').
    assert (Elen : len (enc_frame f) = len f.2 + 16)
      by (unfold len, enc_frame; rewrite Encode_length; lia).
    rewrite Elen in Et. destruct Hok as [Hid _].
    rewrite (recv_loop_packet fuel w _ _ _ _ b' eq_refl Edec ltac:(lia) Et).
    rewrite (bind_ret _ _ _ (set_recvBuf b' (deliver_frame w f)) tt); cycle 1.
    { rewrite deliver_buf. rewrite Hret. done. }
    assert (Hl' : (sl_len b' < sl_len (recvBuf_of w))%nat).
    { rewrite <- (elems_length _ Hw'), <- (elems_length _ Hw), Eb', E, (length_app (enc_frame f)).
      pose proof (Encode_length f.1 f.2) as Hl. change (Encode f.1 f.2) with (enc_frame f) in Hl. lia. }
    destruct (IH fuel (set_recvBuf b' (deliver_frame w f)) t fs2 more) as (b & Er & Hb);
      rewrite ?recv_set; try done.
    + eapply take_packet_warm; [exact Hwarm| |exact Ea'].
      rewrite <- app_assoc, Ht, <- wire_app. done.
    + lia.
    + unfold slen in *. lia.
    + by apply deliverable_set.
    + exists b. rewrite Er. split; [|done]. f_equal. by rewrite foldl_deliver_set, set_set.
Qed.

Lemma warm_long (p rest : bytes) b :
  header_start p -> (4 <= length p)%nat -> sl_arr b = p ++ rest -> warm b.
Proof.
  intros Hp Hl E i Hi. rewrite E, lookup_app_l by lia.
  destruct (lookup_lt_is_Some_2 p i ltac:(lia)) as [x Ex]. by rewrite Ex, (Hp i x Hi Ex).
Qed.

(** Appending the continuation of a stream makes or keeps a buffer warm,
    unless there are fewer than four bytes in a cold one. *)
Lemma warm_append b chunk :
  swf b -> header_start (elems b ++ chunk) ->
  warm b \/ (4 <= length (elems b ++ chunk))%nat -> warm (sappend Byte.x00 growcap b chunk).
Proof.
  intros Hw Hp Hor. pose proof (elems_length b Hw) as Hl.
  assert (Hlen : length (elems b ++ chunk) = (sl_len b + length chunk)%nat)
    by (by rewrite length_app, Hl).
  unfold sappend. destruct (Nat.leb_spec (sl_len b + length chunk) (length (sl_arr b))) as [Hle|Hgt].
  - destruct Hor as [Hwarm|H4].
    + apply (warm_overwrite (elems b ++ chunk) (sl_arr b) (sl_len b + length chunk)); try done; [lia|].
      simpl. by rewrite app_assoc.
    + eapply (warm_long (elems b ++ chunk)); try done. simpl. by rewrite app_assoc.
  - eapply (warm_long (elems b ++ chunk)); [done| |simpl; by rewrite app_assoc].
    destruct Hor as [Hwarm|H4]; [|done].
    pose proof (lookup_lt_Some _ _ _ (Hwarm 3%nat ltac:(lia))). lia.
Qed.

(** One read that leaves the buffer warm. *)
Lemma onMessage_delivers w chunk fs1 fs2 t more :
  swf (recvBuf_of w) -> warm (sappend Byte.x00 growcap (recvBuf_of w) chunk) ->
  slen (recvBuf_of w) + len chunk <= PackageMaxLength ->
  deliverable w (fs1 ++ fs2) ->
  elems (recvBuf_of w) ++ chunk = wire enc_frame fs1 ++ t ->
  t ++ more = wire enc_frame fs2 -> incomplete enc_frame t fs2 ->
  exists b, onMessage growcap chunk w = (set_recvBuf b (foldl deliver_frame w fs1), Ret tt) /\
    swf b /\ warm b /\ elems b = t.
Proof.
  intros Hw Hwarm Hmax Hd E Ht Hi. unfold onMessage, recover.
  erewrite bind_ret by reflexivity. erewrite bind_ret by reflexivity. rewrite recv_set.
  set (b := sappend Byte.x00 growcap (recvBuf_of w) chunk) in *.
  destruct (loop_delivers fs1 (S (sl_len b)) (set_recvBuf b w) t fs2 more) as (b' & Er & Hb);
    rewrite ?recv_set; try done.
  - by apply sappend_wf.
  - unfold b. by rewrite sappend_elems, E.
  - lia.
  - unfold b, slen. rewrite sappend_len. unfold slen, len in Hmax. lia.
  - by apply deliverable_set.
  - exists b'. rewrite Er. split; [|done]. by rewrite foldl_deliver_set, set_set.
Qed.

(** The loop over a warm buffer is a receiver of packets, wherever the stream
    is cut. *)
#[export] Instance packet_receiver : FrameReceiver W frame W := {
  enc := enc_frame;
  feed := onMessage growcap;
  buffered w := elems (recvBuf_of w);
  view w := set_recvBuf empty_slice w;
  handle := deliver_frame;
  inv w := swf (recvBuf_of w) /\ warm (recvBuf_of w) /\
           slen (recvBuf_of w) + 4096 <= PackageMaxLength;
  accepts := deliverable;
  read_ok chunk := len chunk <= 4096;
  tail_ok _ := True
}.

Lemma incomplete_short w t fs :
  deliverable w fs -> incomplete enc_frame t fs -> len t + 4096 <= PackageMaxLength.
Proof.
  destruct fs as [|f fs]; [by intros _ ->|]. intros [[_ Hl] _] Hi. cbn [incomplete] in Hi.
  pose proof (Encode_length f.1 f.2) as He. change (Encode f.1 f.2) with (enc_frame f) in He.
  unfold len in *. lia.
Qed.

Lemma deliverable_app fs1 : forall w fs2,
  deliverable w (fs1 ++ fs2) -> deliverable (foldl deliver_frame w fs1) fs2.
Proof. induction fs1 as [|f fs1 IH]; intros w fs2; [done|]. intros (_ & _ & ?). by apply IH. Qed.

#[export] Instance packet_receiver_laws : FrameReceiverLaws W frame W.
Proof.
  split; [by intros w f fs (_ & _ & ?)|].
  intros w chunk fs1 fs2 t (Hw & Hwarm & Hmax) Hc Hd E [more Ht] Hi _. simpl in *.
  rewrite deliverable_set in Hd.
  destruct (onMessage_delivers w chunk fs1 fs2 t more) as (b & Er & Hwb & Hb & Eb); try done.
  { apply warm_append; [done| |by left]. rewrite E.
    apply (header_start_wire (fs1 ++ fs2) _ more). by rewrite wire_app, <- Ht, app_assoc. }
  { lia. }
  eexists. split; [exact Er|]. rewrite recv_set, set_set. split_and!; try done.
  - pose proof (incomplete_short _ _ _ (deliverable_app _ _ _ Hd) Hi) as Hl.
    rewrite <- Eb in Hl. unfold slen. unfold len in Hl. by rewrite elems_length in Hl.
  - by rewrite foldl_deliver_set.
Qed.

(** A stream of packets from its first read on, up to wherever it breaks off:
    the packets that have arrived in full have been delivered, and the
    beginning of the next one is in the buffer. *)
Definition arrived w c chunks missing fs : Prop :=
  exists fs1 fs2 w', fs = fs1 ++ fs2 /\ range (c :: chunks) (onMessage growcap) w = (w', Ret tt) /\
    elems (recvBuf_of w') ++ missing = wire enc_frame fs2 /\ incomplete enc_frame (elems (recvBuf_of w')) fs2 /\
    set_recvBuf empty_slice w' = foldl deliver_frame (set_recvBuf empty_slice w) fs1.

Lemma onMessage_cut w c chunks fs missing :
  elems (recvBuf_of w) = [] -> swf (recvBuf_of w) ->
  Forall (fun c => len c <= 4096) (c :: chunks) -> (4 <= length c)%nat ->
  deliverable w fs -> concat (c :: chunks) ++ missing = wire enc_frame fs -> arrived w c chunks missing fs.
Proof.
  intros Eb Hw [Hc Hcs]%Forall_cons H4 Hd E. cbn [concat] in E. rewrite <- app_assoc in E.
  destruct (frames_split enc_frame fs c (concat chunks ++ missing) E)
    as (fs1 & fs2 & t & -> & Ec & Ht & Hi & _).
  pose proof (elems_length _ Hw) as Hl. rewrite Eb in Hl. simpl in Hl.
  destruct (onMessage_delivers w c fs1 fs2 t (concat chunks ++ missing)) as (b & Er & Hwb & Hwarm & Ebt); try done.
  { apply warm_append; [done| |right]; rewrite Eb; [|done].
    by apply (header_start_wire (fs1 ++ fs2) _ (concat chunks ++ missing)). }
  { unfold slen. rewrite <- Hl. unfold PackageMaxLength. lia. }
  { by rewrite Eb. }
  pose proof (incomplete_short _ _ _ (deliverable_app _ _ _ Hd) Hi) as Hlt.
  destruct (feeds_spec chunks (set_recvBuf b (foldl deliver_frame w fs1)) fs2 missing)
    as (g1 & g2 & w' & -> & Er' & _ & Hb' & Hi' & Hv'); simpl; rewrite ?recv_set, ?Ebt; try done.
  { split_and!; try done. unfold slen. by rewrite <- (elems_length b Hwb), Ebt. }
  { by apply deliverable_set, deliverable_set, deliverable_app. }
  exists (fs1 ++ g1), g2, w'. simpl in *. rewrite (bind_ret _ _ _ _ _ Er), Er', Hv', foldl_app.
  split_and!; try done; [by rewrite app_assoc|]. by rewrite set_set, !foldl_deliver_set.
Qed.

Lemma onMessage_stream w c chunks fs :
  elems (recvBuf_of w) = [] -> swf (recvBuf_of w) ->
  Forall (fun c => len c <= 4096) (c :: chunks) -> (4 <= length c)%nat ->
  deliverable w fs -> concat (c :: chunks) = wire enc_frame fs ->
  exists w', range (c :: chunks) (onMessage growcap) w = (w', Ret tt) /\
    elems (recvBuf_of w') = [] /\
    set_recvBuf empty_slice w' = foldl deliver_frame (set_recvBuf empty_slice w) fs.
Proof.
  intros Eb Hw Hc H4 Hd E. rewrite <- (app_nil_r (concat _)) in E.
  destruct (onMessage_cut w c chunks fs [] Eb Hw Hc H4 Hd E) as (fs1 & fs2 & w' & -> & Er & Hb & Hi & Hv).
  rewrite app_nil_r in Hb. exists w'. destruct (incomplete_none _ _ _ Hi Hb) as [-> ->]. by rewrite app_nil_r.
Qed.

(** C18: However TCP cuts a stream of packets into reads of at most 4096
    bytes, and wherever the stream breaks off, the agent's loop has handed
    exactly the packets that arrived in full to its callbacks, in order and
    once each, and keeps the beginning of the next one - provided the first
    read of a connection brings the first packet's whole header. *)
Theorem agent_reassembly w c chunks fs missing :
  elems (recvBuf_of w) = [] -> swf (recvBuf_of w) ->
  Forall (fun c => len c <= 4096) (c :: chunks) -> (4 <= length c)%nat ->
  deliverable w fs -> concat (c :: chunks) ++ missing = wire enc_frame fs ->
  exists fs1 fs2 w', fs = fs1 ++ fs2 /\ range (c :: chunks) (onMessage growcap) w = (w', Ret tt) /\
    elems (recvBuf_of w') ++ missing = wire enc_frame fs2 /\ incomplete enc_frame (elems (recvBuf_of w')) fs2 /\
    set_recvBuf empty_slice w' = foldl deliver_frame (set_recvBuf empty_slice w) fs1.
Proof. apply onMessage_cut. Qed.

(** One to three bytes on an empty buffer are dropped: the header is looked
    for in what the buffer has room for, and is not there (or the read panics
    and [recover] empties the buffer). *)
Lemma short_read_drops w c : recvBuf_of w = empty_slice -> (1 <= length c <= 3)%nat ->
  onMessage growcap c w = (set_recvBuf empty_slice w, Ret tt).
Proof.
  intros Eb Hl. unfold onMessage, recover.
  erewrite bind_ret by reflexivity. erewrite bind_ret by reflexivity. rewrite recv_set, Eb.
  set (b := sappend Byte.x00 growcap empty_slice c).
  enough (Decode b = Panic \/ exists e, Decode b = Ret (bad_packet e)) as [Hd|[e Hd]].
  - cbn [recv_loop]. erewrite (bind_ret _ _ _ (set_recvBuf b w) b) by (unfold gets; by rewrite recv_set).
    erewrite bind_panic; [|by rewrite Hd]. unfold modify. by rewrite set_set.
  - erewrite recv_loop_error; [|rewrite recv_set; exact Hd]. by rewrite set_set.
  - assert (Ea : b = mkSlice (c ++ replicate (growcap 0%nat (length c) - length c) Byte.x00) (length c)).
    { unfold b, sappend. simpl. destruct (Nat.leb_spec (length c) 0); [lia|]. done. }
    rewrite Ea. unfold Decode, slen. cbn [sl_len].
    destruct (Z.eqb_spec (Z.of_nat (length c)) 0); [lia|]. unfold find_start, reslice, scap.
    cbn [sl_arr]. rewrite length_app, length_replicate.
    destruct (_ && _ && _) eqn:Ecap; cbn [obind]; [right|by left].
    exists ErrInvalidPackage. change (Z.to_nat 0) with 0%nat. rewrite drop_0.
    set (pad := (growcap 0 (length c) - length c)%nat) in *.
    assert (Hpad : (4 <= length c + pad)%nat) by lia.
    assert (H1 : elems (mkSlice (c ++ replicate pad Byte.x00) (Z.to_nat (4 - 0))) <> PackageHeader).
    { unfold elems. cbn [sl_len sl_arr]. intros Hh. apply (f_equal (lookup 3%nat)) in Hh.
      rewrite lookup_take_lt, lookup_app_r, lookup_replicate_2 in Hh by lia. done. }
    rewrite decide_False by done. unfold elems. cbn [sl_len sl_arr]. rewrite take_app_length.
    assert (H2 : Index c PackageHeader = None).
    { destruct c as [|c1 [|c2 [|c3 [|]]]]; simpl in Hl; try lia; cbn; by repeat case_decide. }
    by rewrite H2.
Qed.

(** On a fresh connection the first read must not end inside the packet
    header: nothing is delivered of it. *)
Theorem header_split_drops w c msgID msg rest :
  recvBuf_of w = empty_slice -> c ++ rest = Encode msgID msg -> (1 <= length c <= 3)%nat ->
  onMessage growcap c w = (set_recvBuf empty_slice w, Ret tt).
Proof. intros Eb _. by apply short_read_drops. Qed.

(** A packet whose id is not positive - as every packet of the
    synchronous client, which encodes id 0 - is never taken off the buffer:
    it and everything behind it pile up unprocessed. *)
Theorem nonpositive_id_stuck chunks : forall w msgID msg junk,
  swf (recvBuf_of w) -> msgID <= 0 -> frame_ok (msgID, msg) ->
  elems (recvBuf_of w) ++ concat chunks = Encode msgID msg ++ junk ->
  (length (Encode msgID msg) <= length (elems (recvBuf_of w)))%nat ->
  len (Encode msgID msg ++ junk) <= PackageMaxLength ->
  exists b, range chunks (onMessage growcap) w = (set_recvBuf b w, Ret tt) /\
    swf b /\ elems b = Encode msgID msg ++ junk.
Proof.
  induction chunks as [|c chunks IH]; intros w msgID msg junk Hw Hid Hf E Hl Hmax.
  { simpl in E. rewrite app_nil_r in E. exists (recvBuf_of w). by rewrite set_recv. }
  cbn [concat] in E. rewrite app_assoc in E. cbn [range].
  set (b := sappend Byte.x00 growcap (recvBuf_of w) c).
  assert (Eb : elems b = elems (recvBuf_of w) ++ c) by (by apply sappend_elems).
  assert (Hwb : swf b) by (by apply sappend_wf).
  assert (Hb : elems b = Encode msgID msg ++ drop (length (Encode msgID msg)) (elems b)).
  { rewrite <- (take_drop (length (Encode msgID msg)) (elems b)) at 1. f_equal.
    rewrite Eb. apply (f_equal (take (length (Encode msgID msg)))) in E.
    rewrite take_app_length, take_app_le in E; [done|]. rewrite length_app. lia. }
  assert (Hlb : slen b <= PackageMaxLength).
  { unfold slen. rewrite <- (elems_length b Hwb), Eb. apply (f_equal length) in E.
    rewrite length_app in E. unfold len in Hmax. lia. }
  assert (Ed : exists p, Decode b = Ret (msgID, msg, p, None)).
  { eexists. apply (Decode_at b [] msgID msg
      (drop (length (Encode msgID msg)) (elems b) ++ drop (sl_len b) (sl_arr b))).
    - rewrite (arr_elems b) at 1. rewrite Hb at 1. by rewrite <- app_assoc.
    - done.
    - pose proof (elems_length b Hwb) as Hl'. rewrite Eb, length_app in Hl'.
      rewrite Encode_length in Hl. unfold slen, len in *. lia.
    - eapply find_start_here. rewrite (arr_elems b) at 1. rewrite Hb, Encode_header. by rewrite <- !app_assoc. }
  destruct Ed as [p Ed].
  rewrite (bind_ret _ _ _ (set_recvBuf b w) tt).
  2:{ unfold onMessage, recover. erewrite bind_ret by reflexivity. erewrite bind_ret by reflexivity.
      fold b. rewrite recv_set. erewrite recv_loop_stop; [done|rewrite recv_set; exact Ed|done|done]. }
  destruct (IH (set_recvBuf b w) msgID msg junk) as (b' & Er & Hb'); rewrite ?recv_set; try done.
  - by rewrite Eb.
  - rewrite Eb, length_app. lia.
  - exists b'. by rewrite Er, set_set.
Qed.

(** A callback that panics takes the rest of its read with it: [recover]
    empties the buffer, so complete packets behind the one being handled are
    lost although they were received. *)
Theorem callback_panic_drops_rest w chunk msgID msg rest w' :
  elems (recvBuf_of w) = [] -> swf (recvBuf_of w) ->
  chunk = Encode msgID msg ++ rest -> packet_ok (msgID, msg) -> len chunk <= PackageMaxLength ->
  deliver msgID msg w = (w', Panic) ->
  onMessage growcap chunk w = (set_recvBuf empty_slice w', Ret tt).
Proof.
  intros Eb Hw -> Hok Hmax Hp. unfold onMessage, recover.
  erewrite bind_ret by reflexivity. erewrite bind_ret by reflexivity. rewrite recv_set.
  set (b := sappend Byte.x00 growcap (recvBuf_of w) (Encode msgID msg ++ rest)).
  assert (Hwb : swf b) by (by apply sappend_wf).
  assert (Ebb : elems b = Encode msgID msg ++ rest) by (unfold b; by rewrite sappend_elems, Eb).
  pose proof (elems_length b Hwb) as Hl. rewrite Ebb, length_app, Encode_length in Hl.
  assert (Ed : Decode b = Ret (msgID, msg, len msg + 16, None)).
  { apply (Decode_at b [] msgID msg (rest ++ drop (sl_len b) (sl_arr b))).
    - rewrite (arr_elems b) at 1. by rewrite Ebb, <- app_assoc.
    - by apply packet_ok_frame.
    - unfold slen, len in *. rewrite length_app, Encode_length in Hmax. lia.
    - eapply find_start_here. rewrite (arr_elems b) at 1. rewrite Ebb, Encode_header. by rewrite <- !app_assoc. }
  destruct (take_packet_spec b _ _ Hwb Ebb) as (b' & Et & _).
  replace (len (Encode msgID msg)) with (len msg + 16) in Et
    by (unfold len; rewrite Encode_length; lia).
  erewrite recv_loop_packet; [|rewrite recv_set; reflexivity|exact Ed|apply Hok|exact Et].
  rewrite (bind_panic _ _ _ (set_recvBuf b' w')).
  - unfold modify. by rewrite set_set.
  - rewrite set_set, deliver_buf, Hp. done.
Qed.
End Laws.

(** ** A buffer next to the state the callbacks act on

    Callbacks never see the receive buffer of the connection they serve; both
    kinds of connection are hosts of this form. *)
Section Zoom.
Context {R : Type}.

(** A call on the second component of the state. *)
Definition zoom {A} (m : M R A) : M (slice byte * R) A := fun w =>
  ((w.1, (m w.2).1), (m w.2).2).

Context (act : Z -> bytes -> M R unit).

Definition zoom_host : PacketHost (slice byte * R) := {|
  recvBuf_of := fst;
  set_recvBuf s w := (s, w.2);
  deliver id c := zoom (act id c)
|}.

#[export] Instance zoom_host_laws : @PacketHostLaws _ zoom_host.
Proof. split; try done. by intros []. Qed.

(** What every action keeps, the whole loop keeps. *)
Lemma preserves_zoom {A} (I : R -> Prop) (m : M R A) :
  preserves I m -> preserves (fun w => I w.2) (zoom m).
Proof. intros Hm w. apply Hm. Qed.

Lemma preserves_zoom_onMessage (I : R -> Prop) growcap msg :
  (forall id c, preserves I (act id c)) ->
  preserves (fun w : slice byte * R => I w.2) (onMessage (HW:=zoom_host) growcap msg).
Proof.
  intros Ha. assert (Hbuf : forall b (m : M (slice byte * R) unit),
    m = modify (set_recvBuf (PacketHost:=zoom_host) b) -> preserves (fun w : slice byte * R => I w.2) m)
    by (intros b m -> w Hw; exact Hw).
  apply preserves_recover; [|by eapply Hbuf].
  apply preserves_bind; [by intros w Hw|]. intros _.
  apply preserves_bind; [apply preserves_gets|]. intros b.
  induction (S (sl_len b)) as [|fuel IH]; [apply preserves_lift|]. cbn [recv_loop].
  apply preserves_bind; [apply preserves_gets|]. intros b1.
  apply preserves_bind; [apply preserves_lift|]. intros [[[id c] pos] [e|]]; [by eapply Hbuf|].
  apply preserves_if; [apply preserves_ret|].
  apply preserves_bind; [apply preserves_lift|]. intros b2.
  apply preserves_bind; [by eapply Hbuf|]. intros _.
  apply preserves_bind; [by apply preserves_zoom|]. by intros _.
Qed.

(** Delivering a run of packets acts on the second component alone. *)
Lemma foldl_zoom fs : forall (s : slice byte) (r : R),
  foldl (deliver_frame (HW:=zoom_host)) (s, r) fs = (s, foldl (fun r f => (act f.1 f.2 r).1) r fs).
Proof. induction fs as [|f fs IH]; intros s r; [done|]. cbn [foldl]. by rewrite <- IH. Qed.
End Zoom.

(** ** Concrete instances

    A host that logs what it is handed and panics on an empty payload. *)
Section Instances.
Definition logger : Type := slice byte * list (Z * bytes).
#[local] Instance logger_host : PacketHost logger := {
  recvBuf_of := fst;
  set_recvBuf s w := (s, w.2);
  deliver id c w := if decide (c = []) then (w, Panic) else ((w.1, w.2 ++ [(id, c)]), Ret tt)
}.
#[local] Instance logger_laws : PacketHostLaws logger.
Proof.
  split; try done.
  - by intros [].
  - intros id c s w. simpl. by destruct (decide (c = [])).
Qed.

#[local] Definition grow (c n : nat) : nat := (2 * n)%nat.
#[local] Definition idle : logger := (empty_slice, []).
#[local] Definition one : bytes := Encode 1 (gostr "one").
#[local] Definition two : bytes := Encode 2 (gostr "two").

Lemma agent_onMessage_safe_witness :
  snd (onMessage grow (gostr "garbage") idle) <> Panic /\
  snd (onMessage grow (gostr "garbage") idle) <> OutOfFuel.
Proof.
  apply (agent_onMessage_safe grow (gostr "garbage") idle).
  intros id c w. simpl. by destruct (decide (c = [])).
Defined.

Lemma agent_reassembly_witness :
  exists fs1 fs2 w', [(1, gostr "one"); (2, gostr "two")] = fs1 ++ fs2 /\
    range [take 21 (one ++ two); drop 21 (one ++ take 7 two)] (onMessage grow) idle = (w', Ret tt) /\
    elems (recvBuf_of w') ++ drop 7 two = wire enc_frame fs2 /\
    incomplete enc_frame (elems (recvBuf_of w')) fs2 /\
    set_recvBuf empty_slice w' = foldl deliver_frame (set_recvBuf empty_slice idle) fs1.
Proof.
  apply (agent_reassembly grow idle (take 21 (one ++ two)) [drop 21 (one ++ take 7 two)]
           [(1, gostr "one"); (2, gostr "two")] (drop 7 two)); try reflexivity; repeat constructor; small.
Defined.

Lemma header_split_drops_witness :
  onMessage grow (take 3 one) idle = (idle, Ret tt).
Proof.
  refine (header_split_drops grow idle (take 3 one) 1 (gostr "one") (drop 3 one) _ _ _);
    [reflexivity|reflexivity|]. vm_compute. lia.
Defined.

Lemma nonpositive_id_stuck_witness :
  exists b, range [two; two] (onMessage grow) (mkSlice (Encode 0 (gostr "sync")) 20, [])
              = ((b, []), Ret tt) /\
    swf b /\ elems b = Encode 0 (gostr "sync") ++ two ++ two.
Proof.
  refine (nonpositive_id_stuck grow [two; two] (mkSlice (Encode 0 (gostr "sync")) 20, [])
           0 (gostr "sync") (two ++ two) _ _ _ _ _ _); try reflexivity; repeat constructor; small.
Defined.

Lemma callback_panic_drops_rest_witness :
  onMessage grow (Encode 7 [] ++ two) idle = (idle, Ret tt).
Proof.
  refine (callback_panic_drops_rest grow idle (Encode 7 [] ++ two) 7 [] two idle _ _ _ _ _ _);
    try reflexivity; repeat constructor; small.
Defined.
End Instances.
