(* ===== verification/Link.v ===== *)
(** * One direction of an agent's connection

    What TCP gives the receive loop of [AgentRecv]: the bytes written at one
    end arrive at the other in order, in pieces the reader does not choose.  A
    link is the reader's buffer, the number of bytes it has read, the bytes in
    flight and the packets they stand for; writing appends a packet, reading
    hands over those that a piece completes. *)
From S2P Require Import Prelude.
From S2P Require Import GoSem.
From S2P Require Import Framing.
From S2P Require Import Codec.
From S2P Require Import AgentRecv.
Set Default Proof Using "Type".

(** The buffer of [Read]: [make([]byte, 4096)]. *)
Definition readBufferLen : nat := 4096.

(** What a read can bring: something, and no more than the buffer. *)
Definition piece_size (k : nat) : bool := (1 <=? k)%nat && (k <=? readBufferLen)%nat.
(** The condition under which the loop keeps in step: the first read of a
    connection, of which [nread] bytes were read before, brings the four bytes
    of a packet header.  TCP does not promise it; a first read of one to three
    bytes is thrown away ([AgentRecv.header_split_drops]). *)
Definition header_whole (nread k : nat) : bool := (4 <=? k)%nat || (0 <? nread)%nat.
Definition piece_ok (nread k : nat) : bool := piece_size k && header_whole nread k.

Lemma piece_ok_pos nread k : piece_ok nread k = true -> (0 < k <= readBufferLen)%nat.
Proof. unfold piece_ok, piece_size. lia. Qed.

Record link_ok (buf : slice byte) (nread : nat) (flight : bytes) (fs : list frame) : Prop := {
  lk_wf : swf buf;
  lk_warm : (0 < nread)%nat /\ warm buf \/ nread = 0%nat /\ elems buf = [];
  lk_room : slen buf + Z.of_nat readBufferLen <= PackageMaxLength;
  lk_stream : elems buf ++ flight = wire enc_frame fs;
  lk_part : incomplete enc_frame (elems buf) fs
}.

Lemma link_start : link_ok empty_slice 0 [] [].
Proof. split; [unfold swf; simpl; lia|by right|done..]. Qed.

Lemma link_write buf nread flight fs f :
  link_ok buf nread flight fs -> link_ok buf nread (flight ++ enc_frame f) (fs ++ [f]).
Proof.
  intros [H1 H2 H3 H4 H5]. split; try done.
  - rewrite wire_app, <- H4, app_assoc. f_equal. unfold wire. cbn [map concat]. by rewrite app_nil_r.
  - destruct fs as [|g fs]; [|done]. cbn [app incomplete] in *. rewrite H5. unfold enc_frame.
    rewrite Encode_length. cbn [length]. lia.
Qed.

Lemma link_writes gs : forall buf nread flight fs,
  link_ok buf nread flight fs -> link_ok buf nread (flight ++ wire enc_frame gs) (fs ++ gs).
Proof.
  induction gs as [|g gs IH]; intros buf nread flight fs Hl.
  - unfold wire. cbn [map concat]. by rewrite !app_nil_r.
  - rewrite wire_cons, app_assoc, cons_middle, app_assoc. by apply IH, link_write.
Qed.

(** All that was written has been read. *)
Lemma link_drained buf nread fs : link_ok buf nread [] fs -> fs = [] /\ elems buf = [].
Proof. intros [_ _ _ H4 H5]. rewrite app_nil_r in H4. by apply (incomplete_none enc_frame). Qed.

(** What is in flight can be read: a piece of it, the first one with the
    header. *)
Lemma link_piece buf nread flight fs :
  link_ok buf nread flight fs -> flight <> [] ->
  piece_ok nread (Nat.min readBufferLen (length flight)) = true.
Proof.
  intros [_ H2 _ H4 _] Hf. unfold piece_ok, piece_size, header_whole, readBufferLen.
  assert (Hl : (1 <= length flight)%nat) by (destruct flight; [done|simpl; lia]).
  destruct (Nat.leb_spec 4 (length flight)) as [|Hs]; [lia|].
  destruct fs as [|f fs]; [by apply app_eq_nil in H4 as [_ ?]|].
  destruct H2 as [[Hn _]|[_ Eb]]; [lia|]. exfalso.
  rewrite Eb, wire_cons in H4. cbn [app] in H4. apply (f_equal length) in H4. rewrite length_app in H4.
  unfold enc_frame at 1 in H4. rewrite Encode_length in H4. lia.
Qed.

(** ** A read *)
Section Read.
Context {R : Type} (act : Z -> bytes -> M R unit) (growcap : nat -> nat -> nat).

(** Packets the reader takes one after another, each of them without a
    failure. *)
Definition after (r : R) (f : frame) : R := (act f.1 f.2 r).1.
Fixpoint acts (r : R) (fs : list frame) : Prop :=
  match fs with
  | [] => True
  | f :: fs => (act f.1 f.2 r).2 = Ret tt /\ acts (after r f) fs
  end.

Lemma acts_deliverable fs : Forall packet_ok fs -> forall (b : slice byte) r,
  acts r fs -> deliverable (HW:=zoom_host act) (b, r) fs.
Proof.
  induction 1 as [|f fs Hf _ IH]; intros b r Ha; [done|]. destruct Ha as [H1 H2].
  split; [done|]. split; [exact H1|]. by apply (IH b).
Qed.

(** A read hands over the packets it completes. *)
Lemma link_read buf nread chunk rest fs r :
  link_ok buf nread (chunk ++ rest) fs -> piece_ok nread (length chunk) = true ->
  Forall packet_ok fs -> acts r fs ->
  exists fs1 fs2 buf', fs = fs1 ++ fs2 /\
    onMessage (HW:=zoom_host act) growcap chunk (buf, r) = ((buf', foldl after r fs1), Ret tt) /\
    link_ok buf' (nread + length chunk) rest fs2.
Proof.
  intros [H1 H2 H3 H4 H5] Hp Hok Ha. rewrite app_assoc in H4. unfold piece_ok, piece_size, header_whole in Hp.
  destruct (frames_split enc_frame fs (elems buf ++ chunk) rest H4) as (fs1 & fs2 & t & -> & Et & Hr & Hi & _).
  assert (Hd := acts_deliverable _ Hok buf r Ha).
  pose proof (zoom_host_laws act) as HL.
  destruct (onMessage_delivers (HW:=zoom_host act) growcap (buf, r) chunk fs1 fs2 t rest)
    as (buf' & Er & Hw' & Hwarm' & Eb'); try done; cbn [recvBuf_of zoom_host fst] in *.
  - apply warm_append; [done| |].
    + by apply (header_start_wire (fs1 ++ fs2) _ rest).
    + rewrite length_app. destruct H2 as [[_ ?]|[-> _]]; [by left|]. right. lia.
  - unfold readBufferLen, len in *. lia.
  - exists fs1, fs2, buf'. split; [done|]. split; [by rewrite Er, foldl_zoom|]. split; try done.
    + left. split; [lia|done].
    + pose proof (incomplete_short (HW:=zoom_host act) (buf', foldl after r fs1) t fs2) as Hs.
      assert (Hs' : len t + 4096 <= PackageMaxLength).
      { apply Hs; [|done]. apply acts_deliverable; [by apply Forall_app in Hok as [_ ?]|].
        clear -Ha. revert r Ha. induction fs1 as [|f fs1 IH]; intros r Ha; [done|]. destruct Ha as [_ Ha]. by apply IH. }
      unfold readBufferLen, slen, len in *. rewrite <- (elems_length buf' Hw'), Eb'. lia.
    + by rewrite Eb'.
    + by rewrite Eb'.
Qed.
End Read.
