(* ===== verification/AgentServer.v ===== *)
(** * The agent's server: the leader's side of the cluster

    [src/agent/node.go], [src/agent/group.go], [src/agent/server.go].  A
    [server] holds the nodes (by pointer) and the slice [clients] with its
    backing array. *)
From S2P Require Import Prelude.
From S2P Require Import GoSem.
From S2P Require Import SliceLoop.
From S2P Require Import Framing.
From S2P Require Import Codec.
From S2P Require Import AgentRecv.
Set Default Proof Using "Type".

(** ** Data *)
Definition tcpMaxSendQueue : Z := 10000.
(** [1 << iota] on the second line of its block. *)
Definition tcpNodeOnline : Z := 2.
Definition keepalivePackage : bytes := [Z_byte 0].

Record ClientNode := mkClientNode {
  conn : nat;
  sendQueue : list bytes;    (* the channel's buffer *)
  queueClosed : bool;
  recvBuf : slice byte;
  status : Z;
  connClosed : bool;
  writes : list bytes        (* what was written to the connection *)
}.

Definition with_recvBuf (b : slice byte) (n : ClientNode) : ClientNode :=
  mkClientNode (conn n) (sendQueue n) (queueClosed n) b (status n) (connClosed n) (writes n).
Definition with_queue (q : list bytes) (n : ClientNode) : ClientNode :=
  mkClientNode (conn n) q (queueClosed n) (recvBuf n) (status n) (connClosed n) (writes n).
Definition with_write (d : bytes) (n : ClientNode) : ClientNode :=
  mkClientNode (conn n) (sendQueue n) (queueClosed n) (recvBuf n) (status n) (connClosed n)
    (if connClosed n then writes n else writes n ++ [d]).
(** [status ^= tcpNodeOnline; conn.Close()] *)
Definition with_offline (n : ClientNode) : ClientNode :=
  mkClientNode (conn n) (sendQueue n) (queueClosed n) (recvBuf n)
    (Z.lxor (status n) tcpNodeOnline) true (writes n).
Definition with_closed_queue (n : ClientNode) : ClientNode :=
  mkClientNode (conn n) (sendQueue n) true (recvBuf n) (status n) (connClosed n) (writes n).

Definition newNode (c : nat) : ClientNode :=
  mkClientNode c [] false empty_slice tcpNodeOnline false [].

Definition online (n : ClientNode) : bool := negb (Z.land (status n) tcpNodeOnline <=? 0).

Record server := mkServer {
  nodes : gmap nat ClientNode;
  next_node : nat;
  clients : slice nat
}.
Definition NewServer : server := mkServer ∅ 0 empty_slice.

Definition put_node (i : nat) (n : ClientNode) (w : server) : server :=
  mkServer (<[i := n]> (nodes w)) (next_node w) (clients w).
Definition with_clients (s : slice nat) (w : server) : server :=
  mkServer (nodes w) (next_node w) s.

(** What is done with a packet of a follower's. *)
Definition OnServerMessageFunc : Type := nat -> Z -> bytes -> M server unit.

(** The agent service registers one that does nothing. *)
Definition onServerMessage : OnServerMessageFunc := fun i msgID data => ret tt.

Section Server.
Variable growcap : nat -> nat -> nat.
Variable onMessageCallback : list OnServerMessageFunc.

Definition the_node (i : nat) : M server ClientNode := fun w =>
  match nodes w !! i with Some n => (w, Ret n) | None => (w, Panic) end.
Definition upd_node (i : nat) (f : ClientNode -> ClientNode) : M server unit :=
  let! n := the_node i in modify (put_node i (f n)).

(** ** The list of clients *)
Definition clients_append (i : nat) : M server unit :=
  modify (fun w => with_clients (sappend 0%nat growcap (clients w) [i]) w).
Definition clients_remove (i : nat) : M server unit :=
  modify (fun w => with_clients (remove_elem 0%nat growcap i (clients w)) w).

(** ** A node *)

(** [close(sendQueue)] panics on a channel that is closed already. *)
Definition close_queue (i : nat) : M server unit :=
  let! n := the_node i in
  if queueClosed n then lift Panic else upd_node i with_closed_queue.

(** The only callback registered is the server's, which takes the node off
    the list. *)
Definition close (i : nat) : M server unit :=
  let! n := the_node i in
  if negb (online n) then ret tt
  else
    (if 0 <? Z.land (status n) tcpNodeOnline
     then upd_node i with_offline ;; close_queue i
     else ret tt) ;;
    clients_remove i.

Definition Send (i : nat) (msgID : Z) (data : bytes) : M server unit :=
  upd_node i (with_write (Encode msgID data)).

(** [sendQueue <- data] waits while the buffer is full. *)
Definition AsyncSend (i : nat) (msgID : Z) (data : bytes) : M server unit :=
  let! n := the_node i in
  if negb (online n) then ret tt
  else
    let senddata := Encode msgID data in
    if queueClosed n then lift Panic
    else if len (sendQueue n) <? tcpMaxSendQueue
    then upd_node i (with_queue (sendQueue n ++ [senddata]))
    else lift Block.

(** One turn of [asyncSendService]: which case [select] took, and what
    [Write] returned ([None] an error). *)
Inductive select_case := SelMsg (written : option nat) | SelDone.

Definition asyncSendService_turn (i : nat) (c : select_case) : M server bool :=
  let! n := the_node i in
  if negb (online n) then ret false else
  match c with
  | SelMsg wr =>
      match sendQueue n with
      | [] => if queueClosed n then ret false else lift Block
      | msg :: q =>
          upd_node i (with_queue q) ;;
          match wr with
          | None => close i ;; ret false
          | Some size => upd_node i (with_write (take size msg)) ;; ret true
          end
      end
  | SelDone => ret (negb (len (sendQueue n) <=? 0))
  end.

(** The callbacks run one after another. *)
Definition node_act (i : nat) (msgID : Z) (content : bytes) : M server unit :=
  range onMessageCallback (fun f => f i msgID content).

(** The receive loop of [AgentRecv] on the node's buffer. *)
Definition node_onMessage (i : nat) (msg : bytes) : M server unit := fun w =>
  match nodes w !! i with
  | None => (w, Panic)
  | Some n =>
      let r := onMessage (HW:=zoom_host (node_act i)) growcap msg (recvBuf n, w) in
      match nodes r.1.2 !! i with
      | None => (r.1.2, r.2)
      | Some n' => (put_node i (with_recvBuf r.1.1 n') r.1.2, r.2)
      end
  end.

(** What [Read] returned: bytes, the end of the stream, another error. *)
Inductive read_result := RData (b : bytes) | REOF | RErr.

(** One turn of [readMessage]'s loop: [true] when it goes on. *)
Definition readMessage_turn (i : nat) (r : read_result) : M server bool :=
  match r with
  | RErr => close i ;; ret false
  | REOF => node_onMessage i [] ;; ret true
  | RData b => node_onMessage i b ;; ret true
  end.

(** ** The server *)

(** The part of [Start]'s loop that handles an accepted connection; the loop
    around it is [server_Start] and [server_accept]. *)
Definition accept (c : nat) : M server unit :=
  let! w := gets id in
  let i := next_node w in
  modify (fun w => mkServer (<[i := newNode c]> (nodes w)) (S i) (clients w)) ;;
  clients_append i.

(** The goroutine of [Start] up to its loop; [listen_ok]: whether the port is
    free. *)
Definition server_Start (listen_ok : bool) : M server unit := if listen_ok then ret tt else lift Panic.

(** A turn of its loop: [conn] is the accepted connection, [None] an error of
    [Accept]; [false] when the context is done and the loop has ended - the
    connection just accepted is then left to itself. *)
Definition server_accept (done : bool) (conn : option nat) : M server bool :=
  if done then ret false else
  match conn with
  | None => ret true
  | Some c => accept c ;; ret true
  end.

Definition Broadcast (msgID : Z) (data : bytes) : M server unit :=
  let! s := gets clients in
  range (elems s) (fun i => AsyncSend i msgID data).

Definition clients_send (msgID : Z) (data : bytes) : M server unit :=
  let! s := gets clients in
  range (elems s) (fun i => Send i msgID data).

Definition clients_asyncSend (msgID : Z) (data : bytes) : M server unit :=
  let! s := gets clients in
  range (elems s) (fun i => AsyncSend i msgID data).

(** A turn of [keepalive]. *)
Definition keepalive_turn : M server unit := clients_asyncSend 1 keepalivePackage.

Definition clients_close : M server unit :=
  let! s := gets clients in
  range_live clients close 0 (sl_len s).

(** The listener itself is left out. *)
Definition Close : M server unit := clients_close.

(** ** Running the methods *)
Lemma sv_bind_the_node {B} (k : ClientNode -> M server B) w i n :
  nodes w !! i = Some n -> bind (the_node i) k w = k n w.
Proof. intros E. unfold bind, the_node. by rewrite E. Qed.

Lemma sv_upd_node_eq w i n f :
  nodes w !! i = Some n -> upd_node i f w = (put_node i (f n) w, Ret tt).
Proof. intros E. unfold upd_node. by rewrite (sv_bind_the_node _ _ _ _ E). Qed.

Lemma sv_bind_upd_node {B} (k : unit -> M server B) w i n f :
  nodes w !! i = Some n -> bind (upd_node i f) k w = k tt (put_node i (f n) w).
Proof. intros E. by rewrite (bind_ret _ _ _ _ _ (sv_upd_node_eq _ _ _ f E)). Qed.

Lemma put_lookup i n w : nodes (put_node i n w) !! i = Some n.
Proof. apply lookup_insert_eq. Qed.

Lemma sv_online_open n : online n = true -> (0 <? Z.land (status n) tcpNodeOnline) = true.
Proof. unfold online. lia. Qed.

Lemma sv_close_offline w i n : nodes w !! i = Some n -> online n = false -> close i w = (w, Ret tt).
Proof. intros En Ho. unfold close. by rewrite (sv_bind_the_node _ _ _ _ En), Ho. Qed.

Lemma sv_close_eq w i n :
  nodes w !! i = Some n -> online n = true -> queueClosed n = false ->
  close i w = (mkServer (<[i := with_closed_queue (with_offline n)]> (nodes w)) (next_node w)
                 (remove_elem 0%nat growcap i (clients w)), Ret tt).
Proof.
  intros En Ho Hq. unfold close. rewrite (sv_bind_the_node _ _ _ _ En), Ho, (sv_online_open _ Ho).
  cbn [negb]. erewrite bind_ret; cycle 1.
  { rewrite (sv_bind_upd_node _ _ _ _ _ En). cbv beta. unfold close_queue.
    rewrite (sv_bind_the_node _ _ _ (with_offline n)) by apply put_lookup.
    cbn [queueClosed with_offline]. rewrite Hq. apply sv_upd_node_eq, put_lookup. }
  unfold clients_remove, modify, with_clients, put_node. simpl. by rewrite insert_insert_eq.
Qed.

Lemma AsyncSend_online w i n msgID data :
  nodes w !! i = Some n -> online n = true -> queueClosed n = false ->
  len (sendQueue n) < tcpMaxSendQueue ->
  AsyncSend i msgID data w =
    (put_node i (with_queue (sendQueue n ++ [Encode msgID data]) n) w, Ret tt).
Proof.
  intros En Ho Hq Hl. unfold AsyncSend. rewrite (sv_bind_the_node _ _ _ _ En), Ho. cbn [negb].
  cbv zeta. rewrite Hq, (proj2 (Z.ltb_lt _ _) Hl). by apply sv_upd_node_eq.
Qed.
End Server.

(** ** The invariant of the server *)

(** Online with queue and connection open, or offline with both closed; the
    receive buffer is well formed. *)
Definition node_ok (n : ClientNode) : Prop :=
  ((status n = tcpNodeOnline /\ queueClosed n = false /\ connClosed n = false) \/
   (status n = 0 /\ queueClosed n = true /\ connClosed n = true)) /\
  len (sendQueue n) <= tcpMaxSendQueue.

Lemma sv_node_ok_open n : node_ok n -> online n = true -> queueClosed n = false.
Proof. intros [[(_&?&_)|(E&_)] _] Ho; [done|]. unfold online in Ho. by rewrite E in Ho. Qed.

Lemma node_ok_closed n : node_ok n -> online n = true ->
  node_ok (with_closed_queue (with_offline n)) /\ online (with_closed_queue (with_offline n)) = false.
Proof.
  intros [[(E&_)|(E&_)] Hl] Ho; unfold node_ok, online in *; simpl; rewrite E in *; [|done].
  split; [|done]. split; [by right|done].
Qed.

Section Invariant.
Variable growcap : nat -> nat -> nat.
Variable onMessageCallback : list OnServerMessageFunc.

(** Every node is consistent and was allocated, and the list holds exactly the
    online nodes, each once. *)
Record server_ok (w : server) : Prop := {
  ok_slice : swf (clients w);
  ok_nodup : NoDup (elems (clients w));
  ok_nodes i n : nodes w !! i = Some n -> node_ok n /\ (i < next_node w)%nat;
  ok_clients i : (i ∈ elems (clients w)) <-> exists n, nodes w !! i = Some n /\ online n = true
}.

(** Writing back a consistent node that is online as before. *)
Lemma server_ok_put w i n n' :
  server_ok w -> nodes w !! i = Some n -> node_ok n' -> online n' = online n ->
  server_ok (put_node i n' w).
Proof.
  intros [H1 H2 H3 H4] En Hok Ho. split; simpl; try done.
  - intros j m. destruct (decide (i = j)) as [->|Hne].
    + rewrite lookup_insert_eq. intros [= <-]. split; [done|]. by apply (H3 j n).
    + rewrite lookup_insert_ne by done. apply H3.
  - intros j. rewrite H4. destruct (decide (i = j)) as [->|Hne].
    + rewrite lookup_insert_eq, En. split; intros (m & [= <-] & Hm); eexists; (split; [done|congruence]).
    + by rewrite lookup_insert_ne.
Qed.

Lemma server_ok_close w i n :
  server_ok w -> nodes w !! i = Some n -> online n = true ->
  exists w', close growcap i w = (w', Ret tt) /\ server_ok w' /\
    clients w' = remove_elem 0%nat growcap i (clients w) /\
    nodes w' = <[i := with_closed_queue (with_offline n)]> (nodes w).
Proof.
  intros Hw En Ho. pose proof Hw as [H1 H2 H3 H4]. destruct (H3 i n En) as [Hok Hi].
  eexists. split; [apply (sv_close_eq growcap w i n En Ho (sv_node_ok_open n Hok Ho))|]. split; [|done].
  destruct (remove_elem_ok 0%nat growcap i (clients w) H1 H2) as (R1 & R2 & R3).
  destruct (node_ok_closed n Hok Ho) as [Hok' Ho'].
  split; simpl; try done.
  - intros j m. destruct (decide (i = j)) as [->|Hne].
    + rewrite lookup_insert_eq. by intros [= <-].
    + rewrite lookup_insert_ne by done. apply H3.
  - intros j. rewrite R3, H4. destruct (decide (i = j)) as [->|Hne].
    + rewrite lookup_insert_eq. split; [tauto|]. intros (m & [= <-] & Hm). congruence.
    + rewrite lookup_insert_ne by done. naive_solver.
Qed.

(** Steps on a node known in the current state. *)
Lemma sv_preserves_the_node {B} (I : server -> Prop) i (k : ClientNode -> M server B) :
  (forall w n, I w -> nodes w !! i = Some n -> I (fst (k n w))) ->
  preserves I (bind (the_node i) k).
Proof.
  intros Hk w Hw. destruct (nodes w !! i) as [n|] eqn:En.
  - rewrite (sv_bind_the_node _ _ _ _ En). by apply Hk.
  - unfold bind, the_node. by rewrite En.
Qed.

Lemma sv_preserves_upd i f :
  (forall n, node_ok n -> node_ok (f n) /\ online (f n) = online n) ->
  preserves server_ok (upd_node i f).
Proof.
  intros Hf. apply sv_preserves_the_node. intros w n Hw En. simpl.
  destruct (ok_nodes w Hw i n En) as [Hok _]. destruct (Hf n Hok). by eapply server_ok_put.
Qed.

Lemma preserves_close i : preserves server_ok (close growcap i).
Proof.
  intros w Hw. destruct (nodes w !! i) as [n|] eqn:En.
  - destruct (online n) eqn:Ho.
    + by destruct (server_ok_close w i n Hw En Ho) as (w' & -> & Hw' & _).
    + by rewrite (sv_close_offline growcap w i n).
  - unfold close, bind, the_node. by rewrite En.
Qed.

Lemma preserves_AsyncSend i msgID data : preserves server_ok (AsyncSend i msgID data).
Proof.
  apply sv_preserves_the_node. intros w n Hw En. destruct (online n) eqn:Ho; [|done]. cbn [negb]. cbv zeta.
  destruct (queueClosed n); [done|]. destruct (Z.ltb_spec (len (sendQueue n)) tcpMaxSendQueue); [|done].
  rewrite (sv_upd_node_eq _ _ _ _ En). simpl. destruct (ok_nodes w Hw i n En) as [[Hst _] _].
  eapply server_ok_put; [done|done| |done]. split; [exact Hst|].
  simpl. unfold len in *. rewrite length_app. simpl. lia.
Qed.

Lemma preserves_Send i msgID data : preserves server_ok (Send i msgID data).
Proof. apply sv_preserves_upd. by intros n. Qed.

Lemma sv_preserves_asyncSendService_turn i c :
  preserves server_ok (asyncSendService_turn growcap i c).
Proof.
  apply sv_preserves_the_node. intros w n Hw En. destruct (online n) eqn:Ho; [|done]. cbn [negb].
  destruct c as [wr|]; [|done]. destruct (sendQueue n) as [|m q] eqn:Eq; [by destruct (queueClosed n)|].
  rewrite (sv_bind_upd_node _ _ _ _ _ En).
  assert (Hq : server_ok (put_node i (with_queue q n) w)).
  { destruct (ok_nodes w Hw i n En) as [[Hst Hl] _]. eapply server_ok_put; [done|done| |done].
    split; [exact Hst|]. simpl. rewrite Eq in Hl. unfold len in *. simpl in Hl. lia. }
  destruct wr as [size|].
  - eapply preserves_bind; [|intros; apply preserves_ret|exact Hq]. apply sv_preserves_upd. by intros.
  - eapply preserves_bind; [apply preserves_close|intros; apply preserves_ret|exact Hq].
Qed.

(** Callbacks that keep the invariant - those that use the server through its
    methods - make a receive handler that keeps it. *)
Definition callbacks_ok : Prop :=
  forall f, f ∈ onMessageCallback -> forall i id c, preserves server_ok (f i id c).

Lemma preserves_node_act i id c : callbacks_ok -> preserves server_ok (node_act onMessageCallback i id c).
Proof.
  intros Hf. unfold node_act, callbacks_ok in *. induction onMessageCallback as [|f fs IH]; [apply preserves_ret|].
  apply preserves_bind; [apply Hf; by left|]. intros _. apply IH. intros g Hg. apply Hf. by right.
Qed.

Lemma preserves_node_onMessage i msg :
  callbacks_ok -> preserves server_ok (node_onMessage growcap onMessageCallback i msg).
Proof.
  intros Hf w Hw. unfold node_onMessage. destruct (nodes w !! i) as [n|] eqn:En; [|done]. cbv zeta.
  pose proof (preserves_zoom_onMessage (node_act onMessageCallback i) server_ok growcap msg
    (fun id c => preserves_node_act i id c Hf) (recvBuf n, w) Hw) as Hw1.
  set (r := onMessage _ _ _) in *. destruct (nodes r.1.2 !! i) as [n'|] eqn:En'; [|exact Hw1].
  destruct (ok_nodes _ Hw1 i n' En') as [Hok _]. exact (server_ok_put _ i n' (with_recvBuf _ n') Hw1 En' Hok eq_refl).
Qed.

Lemma preserves_accept c : preserves server_ok (accept growcap c).
Proof.
  intros w [H1 H2 H3 H4]. simpl. set (i := next_node w).
  assert (Hfresh : nodes w !! i = None).
  { destruct (nodes w !! i) as [m|] eqn:E; [|done]. apply H3 in E as [_ E]. unfold i in E. lia. }
  assert (Hni : i ∉ elems (clients w)).
  { intros Hi. apply H4 in Hi as (m & E & _). congruence. }
  split; simpl.
  - by apply sappend_wf.
  - rewrite sappend_elems by done. apply NoDup_app. split_and!; [done| |apply NoDup_singleton].
    intros x Hx ->%list_elem_of_singleton. done.
  - intros j m. destruct (decide (i = j)) as [->|Hne].
    + rewrite lookup_insert_eq. intros [= <-]. split; [|lia]. split; [by left|done].
    + rewrite lookup_insert_ne by done. intros Hj. destruct (H3 j m Hj). split; [done|lia].
  - intros j. rewrite sappend_elems by done. rewrite elem_of_app, list_elem_of_singleton, H4.
    destruct (decide (i = j)) as [->|Hne].
    + rewrite lookup_insert_eq. split; [intros _; by eexists|by right].
    + rewrite lookup_insert_ne by done. naive_solver.
Qed.

(** The accepting goroutine keeps the invariant, and lists who comes as long
    as the context is not done. *)
Lemma preserves_server_accept done conn : preserves server_ok (server_accept growcap done conn).
Proof.
  unfold server_accept. apply preserves_if; [apply preserves_ret|]. destruct conn as [c|]; [|apply preserves_ret].
  apply preserves_bind; [apply preserves_accept|intros _; apply preserves_ret].
Qed.

(** ** Everything that happens to the server *)
Inductive server_event :=
  | EvAccept (c : nat)                            (* a follower connects *)
  | EvRead (i : nat) (r : read_result)            (* the reader of a node makes a turn *)
  | EvService (i : nat) (c : select_case)         (* the sender of a node makes a turn *)
  | EvSend (i : nat) (msgID : Z) (data : bytes)   (* a direct answer to a node *)
  | EvBroadcast (msgID : Z) (data : bytes)
  | EvKeepalive
  | EvClose.

Definition on_server_event (e : server_event) : M server unit :=
  match e with
  | EvAccept c => accept growcap c
  | EvRead i r => readMessage_turn growcap onMessageCallback i r ;; ret tt
  | EvService i c => asyncSendService_turn growcap i c ;; ret tt
  | EvSend i msgID data => Send i msgID data
  | EvBroadcast msgID data => Broadcast msgID data
  | EvKeepalive => keepalive_turn
  | EvClose => Close growcap
  end.

Lemma preserves_to_all (f : nat -> M server unit) :
  (forall i, preserves server_ok (f i)) ->
  preserves server_ok (let! s := gets clients in range (elems s) f).
Proof. intros Hf. apply preserves_bind; [apply preserves_gets|]. intros s. by apply preserves_range. Qed.

Lemma preserves_on_server_event e : callbacks_ok -> preserves server_ok (on_server_event e).
Proof.
  intros Hf. destruct e as [c|i r|i c|i id d|id d| |].
  - apply preserves_accept.
  - destruct r; simpl; repeat (apply preserves_bind; [|intros; apply preserves_ret]);
      auto using preserves_node_onMessage, preserves_close.
  - apply preserves_bind; [apply sv_preserves_asyncSendService_turn|intros; apply preserves_ret].
  - apply preserves_Send.
  - apply preserves_to_all. intros. apply preserves_AsyncSend.
  - apply preserves_to_all. intros. apply preserves_AsyncSend.
  - apply preserves_bind; [apply preserves_gets|]. intros s.
    apply preserves_range_live, preserves_close.
Qed.

Lemma server_ok_init : server_ok NewServer.
Proof.
  split; simpl; try done.
  - unfold swf. simpl. lia.
  - apply NoDup_nil_2.
  - intros i. rewrite lookup_empty. split; [by intros ?%not_elem_of_nil|by intros (? & ? & _)].
Qed.

(** C21: Along every run of the agent's server, whatever callbacks it was given,
    as long as they use it through its methods - followers connecting, reads of
    arbitrary bytes, broadcasts, keepalives, sender turns, failures and
    closes - the client list holds exactly the online nodes, each once, every
    node's status, queue and connection agree, and no queue exceeds its
    bound. *)
Theorem server_invariant evs : callbacks_ok -> server_ok (run on_server_event evs NewServer).
Proof.
  intros Hf. apply preserves_run; [|apply server_ok_init]. intros e. by apply preserves_on_server_event.
Qed.

(** ** Calls for one node, seen from another *)
Section Elsewhere.
Variable i : nat.
Variable P : option ClientNode -> Prop.
Definition at_node (w : server) : Prop := P (nodes w !! i).

Lemma upd_elsewhere j f : j <> i -> preserves at_node (upd_node j f).
Proof.
  intros Hj w Hw. unfold upd_node, bind, the_node. destruct (nodes w !! j); [|done].
  unfold at_node. cbn. by rewrite lookup_insert_ne.
Qed.
Lemma the_node_elsewhere j : preserves at_node (the_node j).
Proof. intros w Hw. unfold the_node. by destruct (nodes w !! j). Qed.

Lemma close_elsewhere j : j <> i -> preserves at_node (close growcap j).
Proof.
  intros Hj. unfold close, close_queue, clients_remove.
  repeat first [apply upd_elsewhere; done | apply preserves_bind; [|intros ?] | apply preserves_if
    | apply the_node_elsewhere | apply preserves_ret | apply preserves_lift | by apply preserves_modify].
Qed.

Lemma service_elsewhere j c : j <> i -> preserves at_node (asyncSendService_turn growcap j c).
Proof.
  intros Hj. unfold asyncSendService_turn. apply preserves_bind; [apply the_node_elsewhere|]. intros m.
  apply preserves_if; [apply preserves_ret|]. destruct c as [wr|]; [|apply preserves_ret].
  destruct (sendQueue m); [apply preserves_if; [apply preserves_ret|apply preserves_lift]|].
  apply preserves_bind; [by apply upd_elsewhere|]. intros _. destruct wr.
  - apply preserves_bind; [by apply upd_elsewhere|]. intros _. apply preserves_ret.
  - apply preserves_bind; [by apply close_elsewhere|]. intros _. apply preserves_ret.
Qed.

Lemma accept_elsewhere c w : server_ok w -> is_Some (nodes w !! i) -> at_node w -> at_node (accept growcap c w).1.
Proof.
  intros Hw [n Hn] Hp. unfold at_node. cbn. destruct (ok_nodes w Hw i n Hn) as [_ Hi].
  rewrite lookup_insert_ne; [done|lia].
Qed.
End Elsewhere.

(** ** Broadcasting *)
Definition queued (d : bytes) (n : ClientNode) : ClientNode :=
  if online n then with_queue (sendQueue n ++ [d]) n else n.

Definition has_room (w : server) (i : nat) : Prop :=
  forall n, nodes w !! i = Some n -> len (sendQueue n) < tcpMaxSendQueue.

Lemma broadcast_list msgID data l : forall w,
  server_ok w -> NoDup l -> (forall i, i ∈ l -> is_Some (nodes w !! i) /\ has_room w i) ->
  exists w', range l (fun i => AsyncSend i msgID data) w = (w', Ret tt) /\
    server_ok w' /\ clients w' = clients w /\ next_node w' = next_node w /\
    forall i, nodes w' !! i = if decide (i ∈ l) then queued (Encode msgID data) <$> nodes w !! i
                             else nodes w !! i.
Proof.
  induction l as [|i l IH]; intros w Hw Hnd Hl.
  { exists w. by split_and!. }
  apply NoDup_cons in Hnd as [Hi Hnd]. destruct (Hl i) as [[n En] Hroom]; [by left|].
  assert (E : AsyncSend i msgID data w = (put_node i (queued (Encode msgID data) n) w, Ret tt)).
  { destruct (online n) eqn:Ho; unfold queued; rewrite Ho.
    - apply AsyncSend_online; auto. apply sv_node_ok_open; [|done]. by apply (ok_nodes w Hw i n).
    - unfold AsyncSend. rewrite (sv_bind_the_node _ _ _ _ En), Ho. unfold ret, put_node.
      rewrite insert_id by done. by destruct w. }
  set (w1 := put_node i (queued (Encode msgID data) n) w) in *.
  assert (Hw1 : server_ok w1).
  { change w1 with (w1, Ret tt : outcome unit).1. rewrite <- E. by apply preserves_AsyncSend. }
  destruct (IH w1 Hw1 Hnd) as (w2 & E2 & Hw2 & Ec & En2 & Hn2).
  { intros j Hj. destruct (Hl j) as [Hs Hr]; [by right|]. unfold has_room.
    unfold w1, put_node. cbn [nodes]. by rewrite lookup_insert_ne by congruence. }
  exists w2. cbn [range]. rewrite (bind_ret _ _ _ _ _ E). split_and!; try done.
  intros j. rewrite Hn2. unfold w1, put_node. cbn [nodes]. destruct (decide (i = j)) as [->|Hne].
  - rewrite decide_False, lookup_insert_eq, decide_True by (done || by left). by rewrite En.
  - rewrite lookup_insert_ne by done.
    destruct (decide (j ∈ l)); [by rewrite decide_True by (by right)|].
    by rewrite decide_False by (by intros [->|?]%elem_of_cons).
Qed.

(** As one connected follower sees it. *)
Lemma broadcast_node w msgID data i n :
  server_ok w -> (forall j, j ∈ elems (clients w) -> has_room w j) ->
  nodes w !! i = Some n -> online n = true ->
  exists w', Broadcast msgID data w = (w', Ret tt) /\ server_ok w' /\
    nodes w' !! i = Some (with_queue (sendQueue n ++ [Encode msgID data]) n).
Proof.
  intros Hw Hroom En Ho. pose proof Hw as [Hsw Hnd _ Hg].
  destruct (broadcast_list msgID data (elems (clients w)) w Hw Hnd) as (w' & E & Hw' & _ & _ & Hn).
  { intros j Hj. split; [|auto]. apply Hg in Hj as (m & Em & _). by exists m. }
  exists w'. split; [unfold Broadcast; erewrite bind_ret by reflexivity; exact E|]. split; [done|].
  rewrite Hn, decide_True by (apply Hg; by exists n). rewrite En. cbn. unfold queued. by rewrite Ho.
Qed.

(** Broadcasting queues the encoded packet once for every connected
    follower, behind what was queued before, and changes nothing else. *)
Theorem broadcast_delivers w msgID data :
  server_ok w -> (forall i, i ∈ elems (clients w) -> has_room w i) ->
  exists w', Broadcast msgID data w = (w', Ret tt) /\ clients w' = clients w /\
    forall i, nodes w' !! i =
      (fun n => if online n then with_queue (sendQueue n ++ [Encode msgID data]) n else n)
        <$> nodes w !! i.
Proof.
  intros Hw Hroom. pose proof Hw as [Hsw Hnd _ Hg].
  destruct (broadcast_list msgID data (elems (clients w)) w Hw Hnd) as (w' & E & _ & Ec & _ & Hn).
  { intros i Hi. split; [|auto]. apply Hg in Hi as (n & En & _). by exists n. }
  exists w'. unfold Broadcast. erewrite bind_ret by reflexivity. rewrite E. split_and!; try done.
  intros i. rewrite Hn. destruct (decide (i ∈ elems (clients w))) as [|Hi]; [done|].
  destruct (nodes w !! i) as [n|] eqn:En; [|done]. simpl. f_equal.
  destruct (online n) eqn:Ho; [|done]. exfalso. apply Hi, Hg. by exists n.
Qed.

(** One follower that stopped reading stalls the whole cluster: once its
    queue is full, a broadcast blocks at it, and the followers behind it in
    the list get nothing. *)
Theorem full_queue_blocks_broadcast w msgID data l1 i n l2 :
  server_ok w -> elems (clients w) = l1 ++ i :: l2 ->
  (forall j, j ∈ l1 -> has_room w j) ->
  nodes w !! i = Some n -> tcpMaxSendQueue <= len (sendQueue n) ->
  exists w', Broadcast msgID data w = (w', Block) /\
    forall j, j ∈ i :: l2 -> nodes w' !! j = nodes w !! j.
Proof.
  intros Hw E Hroom En Hfull. pose proof Hw as [Hsw Hnd _ Hg]. rewrite E in Hnd, Hg.
  apply NoDup_app in Hnd as (Hnd1 & Hdis & Hnd2).
  destruct (broadcast_list msgID data l1 w Hw Hnd1) as (w' & E1 & Hw' & _ & _ & Hn).
  { intros j Hj. split; [|auto]. assert (Hj' : j ∈ l1 ++ i :: l2) by (apply elem_of_app; by left).
    apply Hg in Hj' as (m & Em & _). by exists m. }
  exists w'. assert (Hrest : forall j, j ∈ i :: l2 -> nodes w' !! j = nodes w !! j).
  { intros j Hj. rewrite Hn. rewrite decide_False; [done|]. intros Hj1. by apply (Hdis j). }
  split; [|done]. unfold Broadcast. erewrite bind_ret by reflexivity. rewrite E.
  rewrite (range_app _ _ _ _ _ E1). cbn [range].
  assert (Hi : nodes w' !! i = Some n) by (rewrite Hrest by (by left); done).
  assert (Ho : online n = true).
  { assert (Hin : i ∈ l1 ++ i :: l2) by (apply elem_of_app; right; by left).
    apply Hg in Hin as (m & Em & Hm). congruence. }
  unfold bind, AsyncSend. rewrite (sv_bind_the_node _ _ _ _ Hi), Ho. cbn [negb]. cbv zeta.
  rewrite (sv_node_ok_open n) by (done || by apply (ok_nodes w Hw i n)).
  destruct (Z.ltb_spec (len (sendQueue n)) tcpMaxSendQueue); [lia|done].
Qed.

(** ** Closing *)
Definition is_open (w : server) (i : nat) : bool :=
  match nodes w !! i with Some n => online n | None => false end.

Lemma sv_close_closed w i :
  server_ok w -> is_Some (nodes w !! i) -> is_open w i = false -> close growcap i w = (w, Ret tt).
Proof.
  intros _ [n En] Ho. unfold is_open in Ho. rewrite En in Ho. by apply (sv_close_offline growcap w i n).
Qed.

Lemma sv_close_open w i :
  server_ok w -> is_Some (nodes w !! i) -> is_open w i = true ->
  exists w', close growcap i w = (w', Ret tt) /\ server_ok w' /\
    clients w' = remove_elem 0%nat growcap i (clients w) /\
    (forall j, is_Some (nodes w !! j) -> is_Some (nodes w' !! j)) /\
    forall j, is_open w' j = if decide (j = i) then false else is_open w j.
Proof.
  intros Hw [n En] Ho. unfold is_open in Ho. rewrite En in Ho.
  destruct (server_ok_close w i n Hw En Ho) as (w' & E & Hw' & Eg & Ens).
  exists w'. split_and!; try done; intros j; unfold is_open; rewrite Ens.
  - intros Hj. destruct (decide (i = j)) as [->|]; [rewrite lookup_insert_eq; by eexists|].
    by rewrite lookup_insert_ne.
  - destruct (decide (j = i)) as [->|]; [|by rewrite lookup_insert_ne].
    rewrite lookup_insert_eq. apply node_ok_closed; [|done]. by apply (ok_nodes w Hw i n).
Qed.

Lemma Close_spec w :
  server_ok w ->
  exists w', Close growcap w = (w', Ret tt) /\ server_ok w' /\
    forall i, i ∈ elems (clients w) ->
      ((i ∈ elems (clients w')) <-> i ∈ skipped (elems (clients w))).
Proof.
  intros Hw.
  destruct (range_live_closes 0%nat growcap clients (close growcap) server_ok is_open)
    with (known := fun w i => is_Some (nodes w !! i)) (w := w) as (w1 & E & Hw1 & Hx);
    auto using sv_close_closed, sv_close_open.
  - by intros ? [].
  - intros v i Hv Hi. apply (ok_clients v Hv) in Hi as (n & En & Ho). unfold is_open. by rewrite En.
  - intros v i Hv Hi. apply (ok_clients v Hv) in Hi as (n & En & Ho). by exists n.
  - exists w1. unfold Close, clients_close. erewrite bind_ret by reflexivity. rewrite E. split_and!; try done.
    intros i Hi. rewrite (ok_clients w1 Hw1). destruct (Hx i Hi) as [[n En] Ho].
    unfold is_open in Ho. rewrite En in Ho. rewrite <- (bool_decide_eq_true (i ∈ _)), <- Ho.
    rewrite En. naive_solver.
Qed.

(** Closing the server misses followers the same way closing the
    subscriber group does: every second one, the last excepted, stays
    connected and stays in the list. *)
Theorem server_close_leaks w :
  server_ok w ->
  exists w', Close growcap w = (w', Ret tt) /\ server_ok w' /\
    forall i, i ∈ elems (clients w) ->
      ((i ∈ elems (clients w')) <-> i ∈ skipped (elems (clients w))).
Proof. apply Close_spec. Qed.

(** ** A follower that hangs up *)

(** The end of a follower's stream is not noticed: the reader's turn
    changes nothing at all and the loop goes on, so the reader spins and the
    node stays in the list until a write to it fails. *)
Theorem eof_spins w i n :
  nodes w !! i = Some n -> swf (recvBuf n) -> elems (recvBuf n) = [] ->
  readMessage_turn growcap onMessageCallback i REOF w = (w, Ret true).
Proof.
  intros En Hw Eb. cbn [readMessage_turn].
  assert (Eapp : sappend Byte.x00 growcap (recvBuf n) [] = recvBuf n).
  { unfold sappend. destruct (Nat.leb_spec (sl_len (recvBuf n) + length ([] : bytes))
      (length (sl_arr (recvBuf n)))) as [_|Hgt].
    - simpl length. rewrite Nat.add_0_r. unfold elems. cbn [app]. rewrite take_drop. by destruct (recvBuf n).
    - unfold swf in Hw. simpl in Hgt. lia. }
  assert (Er : onMessage (HW:=zoom_host (node_act onMessageCallback i)) growcap [] (recvBuf n, w) = ((recvBuf n, w), Ret tt)).
  { unfold onMessage, recover. erewrite bind_ret by reflexivity. erewrite bind_ret by reflexivity.
    cbn [recvBuf_of set_recvBuf zoom_host fst snd]. rewrite Eapp.
    rewrite (recv_loop_stop (HW:=zoom_host (node_act onMessageCallback i)) growcap _ _ no_packet); try done.
    pose proof (elems_length _ Hw) as Hl. rewrite Eb in Hl.
    unfold Decode, slen. cbn [recvBuf_of zoom_host fst]. by rewrite <- Hl. }
  erewrite bind_ret; [reflexivity|]. unfold node_onMessage. rewrite En. cbv zeta. rewrite Er.
  cbn [fst snd]. rewrite En. f_equal. unfold put_node. rewrite insert_id; [by destruct w|]. rewrite En. by destruct n.
Qed.
End Invariant.

Lemma agent_callbacks_ok : callbacks_ok [onServerMessage].
Proof. intros f ->%list_elem_of_singleton i id c. apply preserves_ret. Qed.

(** ** Concrete instances: three followers *)
Section Instances.
#[local] Definition twice (c n : nat) : nat := (2 * n)%nat.
#[local] Definition three : server :=
  run (on_server_event twice [onServerMessage]) [EvAccept 7; EvAccept 8; EvAccept 9] NewServer.

#[local] Lemma sv_three_ok : server_ok three.
Proof.
  eapply (preserves_run server_ok); [|apply server_ok_init]. intros e.
  apply preserves_on_server_event, agent_callbacks_ok.
Qed.

#[local] Lemma three_room i : i ∈ [0; 1; 2]%nat -> has_room three i.
Proof.
  intros Hi n En. repeat apply elem_of_cons in Hi as [->|Hi];
    [vm_compute in En; simplify_eq; vm_compute; done..|]. by apply not_elem_of_nil in Hi.
Qed.

(** A server whose callback answers, with junk and a packet from its first
    follower. *)
Lemma server_invariant_witness :
  server_ok (run (on_server_event twice [Send])
    [EvAccept 7; EvAccept 8; EvRead 0 (RData (gostr "junk")); EvRead 0 (RData (Encode 2 (gostr "who")));
     EvBroadcast 1 (gostr "pos"); EvService 1 (SelMsg None); EvClose] NewServer).
Proof.
  apply (server_invariant twice [Send]). intros f ->%list_elem_of_singleton. apply preserves_Send.
Defined.

Lemma broadcast_delivers_witness :
  exists w', Broadcast 1 (gostr "pos") three = (w', Ret tt) /\ clients w' = clients three /\
    forall i, nodes w' !! i =
      (fun n => if online n then with_queue (sendQueue n ++ [Encode 1 (gostr "pos")]) n else n)
        <$> nodes three !! i.
Proof.
  apply (broadcast_delivers three 1 (gostr "pos") sv_three_ok). intros i Hi. by apply three_room.
Defined.

Lemma server_close_leaks_witness :
  exists w', Close twice three = (w', Ret tt) /\ server_ok w' /\
    forall i, i ∈ elems (clients three) ->
      ((i ∈ elems (clients w')) <-> i ∈ skipped (elems (clients three))).
Proof. apply (server_close_leaks twice three sv_three_ok). Defined.

Lemma eof_spins_witness : readMessage_turn twice [onServerMessage] 1 REOF three = (three, Ret true).
Proof.
  apply (eof_spins twice [onServerMessage] three 1 (newNode 8)); [reflexivity|unfold swf; simpl; lia|reflexivity].
Defined.

(** The second follower's queue filled up. *)
#[local] Definition stuck : ClientNode :=
  with_queue (replicate (Z.to_nat tcpMaxSendQueue) keepalivePackage) (newNode 8).

Lemma full_queue_blocks_broadcast_witness :
  exists w', Broadcast 1 (gostr "pos") (put_node 1 stuck three) = (w', Block) /\
    forall j, j ∈ [1; 2]%nat -> nodes w' !! j = nodes (put_node 1 stuck three) !! j.
Proof.
  assert (Hlen : len (sendQueue stuck) = tcpMaxSendQueue)
    by (unfold len, stuck; cbn [sendQueue with_queue]; rewrite length_replicate; vm_compute; reflexivity).
  apply (full_queue_blocks_broadcast (put_node 1 stuck three) 1 (gostr "pos") [0%nat] 1 stuck [2%nat]).
  - apply (server_ok_put three 1 (newNode 8) stuck sv_three_ok); [reflexivity| |reflexivity].
    split; [by left|]. rewrite Hlen. lia.
  - reflexivity.
  - intros j ->%list_elem_of_singleton n. unfold put_node. cbn [nodes].
    rewrite lookup_insert_ne by done. apply three_room. by left.
  - reflexivity.
  - rewrite Hlen. lia.
Defined.
End Instances.
