(* ===== verification/Announcing.v ===== *)
(** * Announcing while followers come and go

    [Broadcast] of [src/agent/server.go] runs in the goroutine of the leader's
    reader and holds no lock: its loop fixes the header of [tcp.clients] and
    reads one element after another from the array behind it, and [AsyncSend]
    of [src/agent/node.go] looks at the status and then sends.  Here both are
    taken apart into those steps, with the handlers of the other goroutines in
    between - the counterpart of [Interleave.v] for the leader's side. *)
From S2P Require Import Prelude.
From S2P Require Import GoSem.
From S2P Require Import SliceLoop.
From S2P Require Import Codec.
From S2P Require Import AgentRecv.
From S2P Require Import AgentServer.
Set Default Proof Using "Type".

Section Announcing.
Variable growcap : nat -> nat -> nat.
Variable onMessageCallback : list OnServerMessageFunc.
Context (Hcallbacks : callbacks_ok onMessageCallback).
Variable msgID : Z.
Variable data : bytes.
Implicit Types (s : server).

(** About to take the next element, or past the look at a node's status,
    waiting for room in its queue. *)
Inductive phase := Ranging | Sending (i : nat).

Record broadcast := mkBroadcast {
  bc_next : nat;
  bc_len : nat;                    (* the length in the slice header *)
  bc_arr : option (list nat);      (* the array, once [tcp.clients] has another one *)
  bc_phase : phase
}.
Implicit Types (b : broadcast).

Definition begin s : broadcast := mkBroadcast 0 (sl_len (clients s)) None Ranging.
Definition array b s : list nat := default (sl_arr (clients s)) (bc_arr b).
Definition at_step (k : nat) (ph : phase) b : broadcast := mkBroadcast k (bc_len b) (bc_arr b) ph.

(** A send on a closed channel panics, also when it was waiting. *)
Definition broadcast_step : M (server * broadcast) unit := fun x =>
  let '(s, b) := x in
  match bc_phase b with
  | Ranging =>
      if (bc_len b <=? bc_next b)%nat then (x, Ret tt)
      else match array b s !! bc_next b with
           | None => (x, Panic)
           | Some i =>
               match nodes s !! i with
               | None => (x, Panic)
               | Some n =>
                   ((s, if online n then at_step (bc_next b) (Sending i) b else at_step (S (bc_next b)) Ranging b), Ret tt)
               end
           end
  | Sending i =>
      match nodes s !! i with
      | None => (x, Panic)
      | Some n =>
          if queueClosed n then (x, Panic)
          else if len (sendQueue n) <? tcpMaxSendQueue
          then ((put_node i (with_queue (sendQueue n ++ [Encode msgID data]) n) s, at_step (S (bc_next b)) Ranging b), Ret tt)
          else (x, Ret tt)
      end
  end.

(** [append] moves to another array when a follower connects and there is no
    room; [remove] shifts the one there is. *)
Definition left_array (e : server_event) s : option (list nat) :=
  match e with
  | EvAccept _ => if (sl_len (clients s) <? length (sl_arr (clients s)))%nat then None else Some (sl_arr (clients s))
  | _ => None
  end.
Definition meanwhile (e : server_event) s b : broadcast :=
  mkBroadcast (bc_next b) (bc_len b) (match bc_arr b with Some a => Some a | None => left_array e s end) (bc_phase b).

Inductive move := Broadcaster | Other (e : server_event).
#[local] Abbreviation event e := (on_server_event growcap onMessageCallback e).
Definition on_move (m : move) : M (server * broadcast) unit :=
  match m with
  | Broadcaster => broadcast_step
  | Other e => fun x => (((event e x.1).1, meanwhile e x.1 x.2), (event e x.1).2)
  end.

Definition finished b : Prop := bc_phase b = Ranging /\ (bc_len b <= bc_next b)%nat.

(** ** On its own *)
Lemma open_member s i n : server_ok s -> nodes s !! i = Some n -> online n = true -> queueClosed n = false.
Proof. intros Hs En. apply sv_node_ok_open. by apply (ok_nodes s Hs i n En). Qed.

(** With nobody in between, the moves for some members are [AsyncSend] to one
    after the other. *)
Lemma alone l : forall s b,
  server_ok s -> NoDup l -> (forall i, i ∈ l -> is_Some (nodes s !! i) /\ has_room s i) ->
  bc_phase b = Ranging -> (bc_next b + length l <= bc_len b)%nat ->
  (forall k, (k < length l)%nat -> array b s !! (bc_next b + k)%nat = l !! k) ->
  exists m s', range (replicate m Broadcaster) on_move (s, b) = ((s', at_step (bc_next b + length l) Ranging b), Ret tt) /\
    range l (fun i => AsyncSend i msgID data) s = (s', Ret tt) /\ server_ok s' /\ clients s' = clients s.
Proof.
  induction l as [|i l IH]; intros s b Hs Hnd Hl Hph Hlen Harr.
  { exists 0%nat, s. cbn [replicate range length]. rewrite Nat.add_0_r. split_and!; try done. destruct b; cbn in *. by subst. }
  apply NoDup_cons in Hnd as [Hi Hnd]. cbn [length] in Hlen. destruct (Hl i) as [[n En] Hroom]; [by left|].
  pose proof (Harr 0%nat ltac:(cbn; lia)) as Hi0. rewrite Nat.add_0_r in Hi0. cbn in Hi0.
  assert (E1 : broadcast_step (s, b) =
    ((s, if online n then at_step (bc_next b) (Sending i) b else at_step (S (bc_next b)) Ranging b), Ret tt)).
  { unfold broadcast_step. rewrite Hph, (proj2 (Nat.leb_gt _ _)) by lia. by rewrite Hi0, En. }
  assert (Hone : exists m s1, range (replicate m Broadcaster) on_move (s, b) = ((s1, at_step (S (bc_next b)) Ranging b), Ret tt) /\
    AsyncSend i msgID data s = (s1, Ret tt) /\ clients s1 = clients s /\
    forall j, j <> i -> nodes s1 !! j = nodes s !! j).
  { destruct (online n) eqn:Ho.
    - pose proof (open_member s i n Hs En Ho) as Hq. specialize (Hroom n En).
      exists 2%nat. eexists. split_and!; [|by apply AsyncSend_online|done|intros j Hj; cbn; by rewrite lookup_insert_ne].
      cbn [replicate range on_move]. rewrite (bind_ret _ _ _ _ _ E1).
      erewrite bind_ret; [reflexivity|]. unfold broadcast_step. cbn [at_step bc_phase]. rewrite En, Hq.
      by rewrite (proj2 (Z.ltb_lt _ _) Hroom).
    - exists 1%nat, s. cbn [replicate range on_move]. rewrite (bind_ret _ _ _ _ _ E1). split_and!; try done.
      unfold AsyncSend. by rewrite (sv_bind_the_node _ _ _ _ En), Ho. }
  destruct Hone as (m1 & s1 & Er1 & Ea1 & Ec1 & Hn1).
  assert (Hs1 : server_ok s1).
  { change s1 with (s1, Ret tt : outcome unit).1. rewrite <- Ea1. by apply preserves_AsyncSend. }
  destruct (IH s1 (at_step (S (bc_next b)) Ranging b) Hs1 Hnd) as (m2 & s2 & Er2 & Ea2 & Hs2 & Ec2).
  { intros j Hj. destruct (Hl j) as [Hsj Hr]; [by right|]. unfold has_room. by rewrite Hn1 by congruence. }
  { done. }
  { cbn [at_step bc_next bc_len]. lia. }
  { intros k Hk. pose proof (Harr (S k) ltac:(cbn; lia)) as Hk'. unfold array in *. cbn [at_step bc_arr bc_next].
    rewrite Ec1. rewrite Nat.add_succ_r in Hk'. exact Hk'. }
  exists (m1 + m2)%nat, s2. split_and!; [|cbn [range]; by rewrite (bind_ret _ _ _ _ _ Ea1)|done|congruence].
  rewrite replicate_add, (range_app _ _ _ _ _ Er1), Er2. unfold at_step. cbn [bc_next bc_len bc_arr length].
  by rewrite Nat.add_succ_r.
Qed.

Lemma alone_begin s l1 l2 :
  server_ok s -> (forall i, i ∈ elems (clients s) -> has_room s i) -> elems (clients s) = l1 ++ l2 ->
  exists m s', range (replicate m Broadcaster) on_move (s, begin s) =
      ((s', at_step (length l1) Ranging (begin s)), Ret tt) /\
    range l1 (fun i => AsyncSend i msgID data) s = (s', Ret tt) /\ server_ok s' /\ clients s' = clients s.
Proof.
  intros Hs Hroom El. pose proof Hs as [Hsw Hnd _ Hg]. pose proof (elems_length _ Hsw) as Hl.
  assert (Hsub : forall i, i ∈ l1 -> i ∈ elems (clients s)) by (intros i Hi; rewrite El; apply elem_of_app; by left).
  apply (alone l1 s (begin s)); try done.
  - rewrite El in Hnd. by apply NoDup_app in Hnd as [? _].
  - intros i Hi. split; [|by apply Hroom, Hsub]. apply Hsub, Hg in Hi as (n & En & _). by exists n.
  - cbn. rewrite El, length_app in Hl. lia.
  - intros k Hk. cbn. assert (Hk' : (k < sl_len (clients s))%nat) by (rewrite El, length_app in Hl; lia).
    rewrite <- (lookup_take_lt (sl_arr (clients s)) (sl_len (clients s)) k Hk'). fold (elems (clients s)).
    rewrite El. by apply lookup_app_l.
Qed.

(** The loop taken apart and left alone is [Broadcast]. *)
Theorem alone_is_Broadcast s :
  server_ok s -> (forall i, i ∈ elems (clients s) -> has_room s i) ->
  exists m b', range (replicate m Broadcaster) on_move (s, begin s) = (((Broadcast msgID data s).1, b'), Ret tt) /\ finished b'.
Proof.
  intros Hs Hroom. destruct (alone_begin s (elems (clients s)) [] Hs Hroom) as (m & s' & Er & Ea & _ & _); [by rewrite app_nil_r|].
  exists m. eexists. split; [rewrite Er; unfold Broadcast; erewrite bind_ret by reflexivity; by rewrite Ea|].
  split; [done|]. cbn. rewrite elems_length by apply Hs. lia.
Qed.

(** ** A follower that leaves at the wrong moment *)

(** C16: When a connected follower's connection fails between the look at its
    status and the send, its queue is closed and the send panics: in the
    goroutine of the leader's reader, which does not recover. *)
Theorem leaving_panics_leader s i n :
  server_ok s -> nodes s !! i = Some n -> online n = true -> (forall j, j ∈ elems (clients s) -> has_room s j) ->
  exists m, (range (replicate m Broadcaster ++ [Other (EvRead i RErr); Broadcaster]) on_move (s, begin s)).2 = Panic.
Proof.
  intros Hs En Ho Hroom. pose proof Hs as [Hsw Hnd _ Hg]. pose proof (elems_length _ Hsw) as Hl.
  assert (Hi : i ∈ elems (clients s)) by (apply Hg; by exists n). apply list_elem_of_split in Hi as (l1 & l2 & El).
  destruct (alone_begin s l1 (i :: l2) Hs Hroom El) as (m & s1 & Er & Ea & Hs1 & Ec).
  assert (Hn1 : exists n1, nodes s1 !! i = Some n1 /\ online n1 = true).
  { apply (ok_clients _ Hs1). rewrite Ec, El. apply elem_of_app. right. by left. }
  destruct Hn1 as (n1 & En1 & Ho1).
  assert (E2 : broadcast_step (s1, at_step (length l1) Ranging (begin s)) =
    ((s1, at_step (length l1) (Sending i) (begin s)), Ret tt)).
  { unfold broadcast_step. cbn [at_step bc_phase bc_len bc_next begin]. rewrite (proj2 (Nat.leb_gt _ _)).
    2: { rewrite El, length_app in Hl. cbn in Hl. lia. }
    change (array (at_step (length l1) Ranging (begin s)) s1) with (sl_arr (clients s1)). rewrite Ec.
    assert (Hk : (length l1 < sl_len (clients s))%nat) by (rewrite El, length_app in Hl; cbn in Hl; lia).
    rewrite <- (lookup_take_lt (sl_arr (clients s)) _ _ Hk). fold (elems (clients s)). rewrite El, list_lookup_middle by done.
    by rewrite En1, Ho1. }
  destruct (server_ok_close growcap s1 i n1 Hs1 En1 Ho1) as (s2 & E3 & Hs2 & _ & Hn2).
  exists (m + 1)%nat. rewrite replicate_add, <- app_assoc, (range_app _ _ _ _ _ Er). cbn [replicate app range on_move].
  rewrite (bind_ret _ _ _ _ _ E2).
  assert (Ee : event (EvRead i RErr) s1 = (s2, Ret tt)) by (cbn [on_server_event readMessage_turn]; unfold bind; by rewrite E3).
  rewrite (bind_ret _ _ _ (s2, meanwhile (EvRead i RErr) s1 (at_step (length l1) (Sending i) (begin s))) tt)
    by (cbn [fst snd]; by rewrite Ee).
  unfold bind, broadcast_step. cbn [meanwhile at_step bc_phase]. rewrite Hn2, lookup_insert_eq. reflexivity.
Qed.

(** ** Nobody leaves *)

(** Schedules in which followers may connect and send and the other loops run,
    but nobody leaves, and nothing else happens to follower [i]. *)
Inductive calm (i : nat) : list move -> server * broadcast -> Prop :=
  | calm_end x : calm i [] x
  | calm_broadcaster ms x : calm i ms (on_move Broadcaster x).1 -> calm i (Broadcaster :: ms) x
  | calm_other e ms x :
      (event e x.1).2 = Ret tt -> elems (clients x.1) `prefix_of` elems (clients (event e x.1).1) ->
      nodes (event e x.1).1 !! i = nodes x.1 !! i ->
      calm i ms (on_move (Other e) x).1 -> calm i (Other e :: ms) x.

(** The broadcaster goes through [xs]; follower [i], which was [n], has got the
    packet once the loop is past it. *)
Record undisturbed (xs : list nat) (i : nat) (n : ClientNode) s b : Prop := {
  un_server : server_ok s;
  un_prefix : xs `prefix_of` elems (clients s);
  un_window : take (bc_len b) (array b s) = xs;
  un_length : bc_len b = length xs;
  un_next : (bc_next b <= length xs)%nat;
  un_sending j : bc_phase b = Sending j -> xs !! bc_next b = Some j;
  un_node : nodes s !! i = Some (if decide (i ∈ take (bc_next b) xs) then queued (Encode msgID data) n else n)
}.

Lemma undisturbed_member xs i n s b j : undisturbed xs i n s b -> j ∈ xs ->
  exists m, nodes s !! j = Some m /\ online m = true /\ queueClosed m = false.
Proof.
  intros [Hs [k Hp] _ _ _ _ _] Hj. destruct (proj1 (ok_clients s Hs j)) as (m & Em & Ho).
  { rewrite Hp. apply elem_of_app. by left. }
  exists m. split_and!; [done..|]. by apply (open_member s j).
Qed.

Lemma undisturbed_step xs i n s b : NoDup xs -> undisturbed xs i n s b ->
  exists s' b', broadcast_step (s, b) = ((s', b'), Ret tt) /\ undisturbed xs i n s' b'.
Proof.
  clear Hcallbacks. intros Hnd Hu. pose proof Hu as [Hs Hp Hw Hl Hk Hsend Hn]. unfold broadcast_step. destruct (bc_phase b) as [|j] eqn:Eph.
  - destruct (Nat.leb_spec (bc_len b) (bc_next b)); [by exists s, b|].
    destruct (lookup_lt_is_Some_2 xs (bc_next b)) as [j Ej]; [lia|].
    assert (Ea : array b s !! bc_next b = Some j) by (rewrite <- Ej, <- Hw; by rewrite lookup_take_lt). rewrite Ea.
    destruct (undisturbed_member xs i n s b j Hu) as (m & Em & Ho & _); [by eapply list_elem_of_lookup_2|]. rewrite Em, Ho.
    eexists _, _. split; [reflexivity|]. split; try done. by intros j' [= <-].
  - pose proof (Hsend j eq_refl) as Ej.
    destruct (undisturbed_member xs i n s b j Hu) as (m & Em & Ho & Hq); [by eapply list_elem_of_lookup_2|]. rewrite Em, Hq.
    destruct (Z.ltb_spec (len (sendQueue m)) tcpMaxSendQueue) as [Hroom|]; [|by exists s, b].
    eexists _, _. split; [reflexivity|]. pose proof (AsyncSend_online s j m msgID data Em Ho Hq Hroom) as Es.
    split; try done; cbn [at_step bc_next].
    + pose proof (preserves_AsyncSend j msgID data s Hs) as Hs'. by rewrite Es in Hs'.
    + apply lookup_lt_Some in Ej. lia.
    + rewrite (take_S_r xs _ j) by done. cbn [put_node nodes]. destruct (decide (j = i)) as [->|Hne].
      * rewrite lookup_insert_eq, decide_True by (apply elem_of_app; right; by left). f_equal.
        rewrite Hn, decide_False in Em; [injection Em as <-; unfold queued; by rewrite Ho|]. intros Hin.
        apply elem_of_take in Hin as (k & Ek & Hlt). pose proof (NoDup_lookup xs _ _ _ Hnd Ej Ek). lia.
      * rewrite lookup_insert_ne, Hn by done. f_equal. apply decide_ext.
        rewrite elem_of_app, list_elem_of_singleton. split; [by left|]. intros [?|?]; [done|congruence].
Qed.

Lemma undisturbed_event xs i n s b e : undisturbed xs i n s b -> (event e s).2 = Ret tt ->
  elems (clients s) `prefix_of` elems (clients (event e s).1) -> nodes (event e s).1 !! i = nodes s !! i ->
  undisturbed xs i n (event e s).1 (meanwhile e s b).
Proof using Hcallbacks.
  intros [Hs Hp Hw Hl Hk Hsend Hn] _ Hstay Hi. assert (Hp' : xs `prefix_of` elems (clients (event e s).1)) by (by etrans).
  split; try done.
  - by apply preserves_on_server_event.
  - assert (Hnow : forall s0, xs `prefix_of` elems (clients s0) -> take (bc_len b) (sl_arr (clients s0)) = xs).
    { intros s0 [k Ek]. rewrite Hl. assert (Hle : (length xs <= sl_len (clients s0))%nat).
      { apply (f_equal length) in Ek. unfold elems in Ek. rewrite length_take, length_app in Ek. lia. }
      unfold elems in Ek. transitivity (take (length xs) (xs ++ k)); [|apply take_app_length].
      rewrite <- Ek, take_take. f_equal. lia. }
    unfold array in *. cbn [meanwhile bc_len bc_arr]. destruct (bc_arr b) as [a|]; [done|]. cbn [default] in *.
    destruct (left_array e s) as [a|] eqn:Ea; cbn [default]; [|by apply Hnow].
    destruct e; try done. cbn [left_array] in Ea. case_match; [done|]. by injection Ea as <-.
  - cbn [meanwhile bc_next]. by rewrite Hi.
Qed.

Lemma calm_moves xs i n ms : NoDup xs -> forall x, calm i ms x -> undisturbed xs i n x.1 x.2 ->
  exists x', range ms on_move x = (x', Ret tt) /\ undisturbed xs i n x'.1 x'.2.
Proof using Hcallbacks.
  intros Hnd. induction ms as [|m ms IH]; intros [s b] Hc Hu; [by exists (s, b)|]. cbn [fst snd] in *.
  inversion Hc as [|? ? Hc'|e ? ? He Hstay Hi Hc']; subst; cbn [range fst snd] in *.
  - destruct (undisturbed_step xs i n s b Hnd Hu) as (s' & b' & E & Hu'). cbn [on_move] in *. rewrite E in Hc'.
    destruct (IH _ Hc' Hu') as (x' & E' & Hx'). exists x'. by rewrite (bind_ret _ _ _ _ _ E).
  - assert (Es : on_move (Other e) (s, b) = (((event e s).1, meanwhile e s b), Ret tt)) by (cbn [on_move fst snd]; by rewrite He).
    rewrite Es in Hc'. destruct (IH _ Hc' (undisturbed_event xs i n s b e Hu He Hstay Hi)) as (x' & E' & Hx').
    exists x'. by rewrite (bind_ret _ _ _ _ _ Es).
Qed.

(** As long as nobody leaves, announcing without a lock is as good as with
    one: however connecting followers, reads, sends and keepalives fall between
    the steps of the loop, as long as their handlers return, the loop does not
    panic, and when it is done a follower that nothing else happened to has got
    the packet exactly once if it was on the list at the start, and not
    otherwise. *)
Theorem announce_calm s i n ms :
  server_ok s -> nodes s !! i = Some n -> calm i ms (s, begin s) ->
  exists s' b', range ms on_move (s, begin s) = ((s', b'), Ret tt) /\ server_ok s' /\
    (finished b' -> nodes s' !! i = Some (if decide (i ∈ elems (clients s)) then queued (Encode msgID data) n else n)).
Proof using Hcallbacks.
  intros Hs En Hc. pose proof (ok_slice s Hs) as Hsw. pose proof (elems_length _ Hsw) as Hl.
  destruct (calm_moves (elems (clients s)) i n ms (ok_nodup s Hs) (s, begin s) Hc) as ([s' b'] & E & Hu).
  { cbn [fst snd]. split; try done; cbn; lia. }
  pose proof Hu as [Hs' _ _ Hlen _ _ Hn]. exists s', b'. split_and!; [done..|]. intros [_ Hf]. cbn [fst snd] in *.
  by rewrite Hn, (take_ge (elems (clients s))) by lia.
Qed.
End Announcing.

(** ** Concrete instances: three followers of [AgentServer], and a fourth that
    connects in the middle *)
Section AnnouncingInstances.
#[local] Abbreviation twice := AgentServer.twice.
#[local] Abbreviation three := AgentServer.three.
#[local] Definition some_moves : list move :=
  [Broadcaster; Other (EvAccept 9); Broadcaster; Broadcaster; Other (EvRead 0 (RData (gostr "??"))); Broadcaster;
   Other (EvService 0 (SelMsg (Some 19%nat))); Broadcaster; Broadcaster; Broadcaster].

#[local] Lemma three_has_room i : i ∈ elems (clients three) -> has_room three i.
Proof. intros Hi. by apply AgentServer.three_room. Qed.

Lemma alone_is_Broadcast_witness :
  exists m b', range (replicate m Broadcaster) (on_move twice [onServerMessage] 1 (gostr "pos")) (three, begin three) =
    (((Broadcast 1 (gostr "pos") three).1, b'), Ret tt) /\ finished b'.
Proof.
  apply (alone_is_Broadcast twice [onServerMessage] 1 (gostr "pos") three AgentServer.sv_three_ok three_has_room).
Defined.

Lemma leaving_panics_leader_witness :
  exists m, (range (replicate m Broadcaster ++ [Other (EvRead 1 RErr); Broadcaster])
    (on_move twice [onServerMessage] 1 (gostr "pos")) (three, begin three)).2 = Panic.
Proof.
  apply (leaving_panics_leader twice [onServerMessage] 1 (gostr "pos") three 1 (newNode 8) AgentServer.sv_three_ok);
    [reflexivity|reflexivity|exact three_has_room].
Defined.

Lemma announce_calm_witness :
  exists s' b', range some_moves (on_move twice [onServerMessage] 1 (gostr "pos")) (three, begin three) = ((s', b'), Ret tt) /\
    server_ok s' /\ (finished b' -> nodes s' !! 1%nat = Some (queued (Encode 1 (gostr "pos")) (newNode 8))).
Proof.
  apply (announce_calm twice [onServerMessage] agent_callbacks_ok 1 (gostr "pos") three 1 (newNode 8) some_moves
    AgentServer.sv_three_ok); [reflexivity|].
  repeat first [apply calm_end | apply calm_broadcaster | apply calm_other; [by vm_compute|eexists; vm_compute; reflexivity|by vm_compute|]].
Defined.

Example some_moves_finish :
  finished (range some_moves (on_move twice [onServerMessage] 1 (gostr "pos")) (three, begin three)).1.2.
Proof. split; vm_compute; [done|lia]. Qed.
End AnnouncingInstances.
