(* ===== verification/AgentClient.v ===== *)
(** * The agent's client: a follower's connection to the leader

    [src/agent/client.go].  The client keeps a receive buffer, the counter
    its message ids come from, and the waiters of the requests in flight: a
    map from message id to a waiter, whose channel holds one response.

    The callbacks act on a state [E] of their own. *)
From S2P Require Import Prelude.
From S2P Require Import GoSem.
From S2P Require Import Framing.
From S2P Require Import Codec.
From S2P Require Import AgentRecv.
Set Default Proof Using "Type".

(** ** Data *)
Definition statusConnect : Z := 1.
Definition asyncWriteChanLen : Z := 10000.
Definition keepalivePackage : bytes := [Z_byte 0].

Record Waiter := mkWaiter {
  w_msgID : Z;
  w_data : option bytes;     (* the channel's buffer, of capacity one *)
  w_closed : bool;           (* close(w.data) was called *)
  w_time : Z
}.

Definition with_data (d : option bytes) (w : Waiter) : Waiter :=
  mkWaiter (w_msgID w) d (w_closed w) (w_time w).
Definition with_closed (w : Waiter) : Waiter :=
  mkWaiter (w_msgID w) (w_data w) true (w_time w).

Record Client (E : Type) := mkClient {
  status : Z;
  writes : list bytes;               (* what was written to the connection *)
  asyncWriteChan : list bytes;
  msgID : Z;
  waiter : gmap Z nat;               (* message id to waiter, by pointer *)
  heap : gmap nat Waiter;            (* the waiters allocated *)
  next_waiter : nat;
  waiterGlobalTimeout : Z;
  env : E
}.
Arguments mkClient {E}.
Arguments status {E}.
Arguments writes {E}.
Arguments asyncWriteChan {E}.
Arguments msgID {E}.
Arguments waiter {E}.
Arguments heap {E}.
Arguments next_waiter {E}.
Arguments waiterGlobalTimeout {E}.
Arguments env {E}.

Section Client.
Context {E : Type}.
Implicit Types c : Client E.

Definition with_status (s : Z) c : Client E :=
  mkClient s (writes c) (asyncWriteChan c) (msgID c) (waiter c) (heap c) (next_waiter c)
    (waiterGlobalTimeout c) (env c).
Definition with_writes (l : list bytes) c : Client E :=
  mkClient (status c) l (asyncWriteChan c) (msgID c) (waiter c) (heap c) (next_waiter c)
    (waiterGlobalTimeout c) (env c).
Definition with_chan (l : list bytes) c : Client E :=
  mkClient (status c) (writes c) l (msgID c) (waiter c) (heap c) (next_waiter c)
    (waiterGlobalTimeout c) (env c).
Definition with_msgID (i : Z) c : Client E :=
  mkClient (status c) (writes c) (asyncWriteChan c) i (waiter c) (heap c) (next_waiter c)
    (waiterGlobalTimeout c) (env c).
Definition with_waiter (m : gmap Z nat) c : Client E :=
  mkClient (status c) (writes c) (asyncWriteChan c) (msgID c) m (heap c) (next_waiter c)
    (waiterGlobalTimeout c) (env c).
Definition with_heap (h : gmap nat Waiter) c : Client E :=
  mkClient (status c) (writes c) (asyncWriteChan c) (msgID c) (waiter c) h (next_waiter c)
    (waiterGlobalTimeout c) (env c).
Definition with_env (e : E) c : Client E :=
  mkClient (status c) (writes c) (asyncWriteChan c) (msgID c) (waiter c) (heap c) (next_waiter c)
    (waiterGlobalTimeout c) e.

(** [NewClient] with the defaults. *)
Definition NewClient (e : E) : Client E := mkClient 0 [] [] 1 ∅ ∅ 0 6000 e.

Definition connected c : bool := negb (Z.land (status c) statusConnect <=? 0).

(** ** Waiters *)
Definition the_waiter (p : nat) : M (Client E) Waiter := fun c =>
  match heap c !! p with Some w => (c, Ret w) | None => (c, Panic) end.
Definition put_waiter (p : nat) (w : Waiter) : M (Client E) unit :=
  modify (fun c => with_heap (<[p := w]> (heap c)) c).

(** [close(w.data)] *)
Definition close_waiter (p : nat) : M (Client E) unit :=
  let! w := the_waiter p in
  if w_closed w then lift Panic else put_waiter p (with_closed w).

(** [w.data <- data] *)
Definition chan_send (p : nat) (data : bytes) : M (Client E) unit :=
  let! w := the_waiter p in
  if w_closed w then lift Panic
  else match w_data w with
       | Some _ => lift Block
       | None => put_waiter p (with_data (Some data) w)
       end.

Definition delWaiter (id : Z) : M (Client E) unit :=
  let! m := gets waiter in
  match m !! id with
  | Some p => close_waiter p ;; modify (fun c => with_waiter (delete id (waiter c)) c)
  | None => ret tt
  end.

(** Which case [Wait]'s [select] took. *)
Inductive wait_case := WaitData | WaitTimeout.

Definition Wait (p : nat) (sel : wait_case) : M (Client E) (bytes * option goerr) :=
  match sel with
  | WaitData =>
      let! w := the_waiter p in
      match w_data w with
      | Some data =>
          put_waiter p (with_data None w) ;;
          let! hdr := lift (sub data 0 8) in
          delWaiter (s64 (le_val hdr)) ;;
          let! rest := lift (sub data 8 (len data)) in
          ret (rest, None)
      | None => if w_closed w then ret ([], Some ErrChanIsClosed) else lift Block
      end
  | WaitTimeout => ret ([], Some ErrWaitTimeout)
  end.

(** ** Sending *)

(** What [conn.Write] returned; the bytes it took are recorded. *)
Definition conn_Write (d : bytes) (wr : Z * option goerr) : M (Client E) (Z * option goerr) :=
  modify (fun c => with_writes (writes c ++ [take (Z.to_nat wr.1) d]) c) ;; ret wr.

(** [atomic.AddInt64(&tcp.msgID, 1)] and the check behind it. *)
Definition add_msgID : M (Client E) Z :=
  modify (fun c => with_msgID (s64 (msgID c + 1)) c) ;; gets msgID.
Definition next_msgID : M (Client E) Z :=
  let! id := add_msgID in
  if MaxInt64 <? id then modify (with_msgID 1) ;; add_msgID else ret id.

(** The waiter returned is a pointer into the heap. *)
Definition Send (data : bytes) (now : Z) (wr : Z * option goerr) :
    M (Client E) (option nat * Z * option goerr) :=
  let! c := gets id in
  if negb (connected c) then ret (None, 0, Some ErrNotConnect) else
  let! id := next_msgID in
  let! p := gets next_waiter in
  modify (fun c => mkClient (status c) (writes c) (asyncWriteChan c) (msgID c)
            (<[id := p]> (waiter c)) (<[p := mkWaiter id None false now]> (heap c)) (S p)
            (waiterGlobalTimeout c) (env c)) ;;
  let! r := conn_Write (Encode id data) wr in
  ret (Some p, r.1, r.2).

Definition Write (data : bytes) (wr : Z * option goerr) : M (Client E) (Z * option goerr) :=
  let! c := gets id in
  if negb (connected c) then ret (0, Some ErrNotConnect) else
  let! id := next_msgID in
  conn_Write (Encode id data) wr.

(** [asyncWriteChan <- data] *)
Definition AsyncSend (data : bytes) : M (Client E) unit :=
  let! c := gets id in
  if len (asyncWriteChan c) <? asyncWriteChanLen
  then modify (with_chan (asyncWriteChan c ++ [data])) else lift Block.

(** ** The three loops of [keep], a turn each *)
Definition keepalive_turn (wr : Z * option goerr) : M (Client E) unit :=
  Write keepalivePackage wr ;; ret tt.

Definition async_turn (wr : Z * option goerr) : M (Client E) unit :=
  let! c := gets id in
  match asyncWriteChan c with
  | [] => lift Block
  | d :: q => modify (with_chan q) ;; Write d wr ;; ret tt
  end.

Definition expired (now : Z) (c : Client E) (w : Waiter) : bool :=
  waiterGlobalTimeout c <=? now - w_time w.

Definition gc_one (now : Z) (kv : Z * nat) : M (Client E) unit :=
  let! w := the_waiter kv.2 in
  let! c := gets id in
  if expired now c w
  then close_waiter kv.2 ;; modify (fun c => with_waiter (delete kv.1 (waiter c)) c)
  else ret tt.

(** The map is visited in some order. *)
Definition gc_turn (now : Z) : M (Client E) unit :=
  let! m := gets waiter in
  range (map_to_list m) (gc_one now).

(** ** Connecting *)
Definition Connect (dial : option goerr) : M (Client E) (option goerr) :=
  let! c := gets id in
  if connected c then ret (Some ErrIsConnected) else
  match dial with
  | Some e => ret (Some e)
  | None =>
      (if Z.land (status c) statusConnect <=? 0
       then modify (fun c => with_status (Z.lor (status c) statusConnect) c) else ret tt) ;;
      ret None
  end.

Definition Disconnect : M (Client E) unit :=
  let! c := gets id in
  if negb (connected c) then ret tt
  else if 0 <? Z.land (status c) statusConnect
  then modify (fun c => with_status (Z.lxor (status c) statusConnect) c) else ret tt.

(** ** Receiving *)

(** A callback, on the state of its own. *)
Definition in_env {A} (m : M E A) : M (Client E) A := fun c =>
  (with_env (m (env c)).1 c, (m (env c)).2).

Variable onMessageCallback : list (bytes -> M E unit).
Variable growcap : nat -> nat -> nat.

(** What [onMessage] does with a packet. *)
Definition client_act (id : Z) (content : bytes) : M (Client E) unit :=
  (if 1 <? id then
     let data := le_bytes 8 (u64 id) ++ content in
     let! m := gets waiter in
     match m !! id with
     | Some p => chan_send p data
     | None => ret tt
     end
   else ret tt) ;;
  if decide (content = keepalivePackage) then ret tt
  else range onMessageCallback (fun f => in_env (f content)).

#[export] Instance client_host : PacketHost (slice byte * Client E) := zoom_host client_act.

Definition client_onMessage (msg : bytes) : M (slice byte * Client E) unit := onMessage growcap msg.

(** A call of the other methods, next to the receive buffer. *)
Definition on_client {A} (m : M (Client E) A) : M (slice byte * Client E) A := zoom m.

(** One turn of [readMessage]: what [Read] returned ([None] an error). *)
Definition readMessage_turn (r : option bytes) : M (slice byte * Client E) unit :=
  let! w := gets snd in
  if negb (connected w) then ret tt else
  match r with
  | None => on_client Disconnect
  | Some msg => if len msg <=? 0 then on_client Disconnect else client_onMessage msg
  end.
End Client.

(** ** The waiters' invariant *)
Section Invariant.
Context {E : Type} (onMessageCallback : list (bytes -> M E unit)) (growcap : nat -> nat -> nat).
Implicit Types (c : Client E) (w : Waiter).

(** The map and the open waiters are the same thing: a registered waiter is
    open and carries its id, an open waiter is registered, and a response in
    a channel starts with the waiter's id. *)
Record client_ok (c : Client E) : Prop := {
  ok_map id p : waiter c !! id = Some p ->
    exists w, heap c !! p = Some w /\ w_msgID w = id /\ w_closed w = false;
  ok_open p w : heap c !! p = Some w -> w_closed w = false -> waiter c !! w_msgID w = Some p;
  ok_heap p w : heap c !! p = Some w ->
    (p < next_waiter c)%nat /\ 1 < w_msgID w <= msgID c /\
    forall d, w_data w = Some d -> exists payload, d = le_bytes 8 (u64 (w_msgID w)) ++ payload;
  ok_msgID : 1 <= msgID c <= MaxInt64
}.

Lemma client_ok_init e : client_ok (NewClient e).
Proof. split; simpl; try done. Qed.

(** A call keeps the invariant and draws at most [k] message ids. *)
Definition draws {A} (k : Z) (m : M (Client E) A) : Prop := forall c,
  client_ok c -> msgID c + k <= MaxInt64 ->
  client_ok (m c).1 /\ msgID c <= msgID (m c).1 <= msgID c + k.

Lemma draws_ret {A} (a : A) : draws 0 (ret a).
Proof. intros c Hc _. simpl. split; [done|lia]. Qed.
Lemma draws_lift {A} (o : outcome A) : draws 0 (lift o).
Proof. intros c Hc _. simpl. split; [done|lia]. Qed.
Lemma draws_gets {A} (f : Client E -> A) : draws 0 (gets f).
Proof. intros c Hc _. simpl. split; [done|lia]. Qed.
Lemma draws_bind {A B} k1 k2 (m : M (Client E) A) (k : A -> M (Client E) B) :
  0 <= k2 -> draws k1 m -> (forall a, draws k2 (k a)) -> draws (k1 + k2) (bind m k).
Proof.
  intros H2 Hm Hk c Hc Hl. specialize (Hm c Hc ltac:(lia)). unfold bind.
  destruct (m c) as [c' [a| | |]]; simpl in *; try (split; [tauto|lia]).
  destruct Hm as [Hc' Hl']. destruct (Hk a c' Hc' ltac:(lia)). split; [done|lia].
Qed.
Lemma draws_bind0 {A B} k1 (m : M (Client E) A) (k : A -> M (Client E) B) :
  draws k1 m -> (forall a, draws 0 (k a)) -> draws k1 (bind m k).
Proof. intros Hm Hk. rewrite <- (Z.add_0_r k1). by apply draws_bind. Qed.
Lemma draws_bind00 {A B} k2 (m : M (Client E) A) (k : A -> M (Client E) B) :
  0 <= k2 -> draws 0 m -> (forall a, draws k2 (k a)) -> draws k2 (bind m k).
Proof. intros H2 Hm Hk. rewrite <- (Z.add_0_l k2). by apply draws_bind. Qed.
Lemma draws_weaken {A} k1 k2 (m : M (Client E) A) : k1 <= k2 -> draws k1 m -> draws k2 m.
Proof. intros Hk Hm c Hc Hl. destruct (Hm c Hc ltac:(lia)). split; [done|lia]. Qed.

(** Steps that leave waiters and ids alone. *)
Lemma draws_modify f :
  (forall c, waiter (f c) = waiter c /\ heap (f c) = heap c /\
             next_waiter (f c) = next_waiter c /\ msgID (f c) = msgID c) ->
  draws 0 (modify f).
Proof.
  intros Hf c [H1 H2 H3 H4] _. simpl. destruct (Hf c) as (E1 & E2 & E3 & E4).
  split; [|lia]. by split; rewrite ?E1, ?E2, ?E3, ?E4.
Qed.

(** Putting a response into a waiter's channel, or taking one out. *)
Lemma client_ok_data c p w d :
  client_ok c -> heap c !! p = Some w ->
  (forall d', d = Some d' -> exists payload, d' = le_bytes 8 (u64 (w_msgID w)) ++ payload) ->
  client_ok (with_heap (<[p := with_data d w]> (heap c)) c).
Proof.
  intros [H1 H2 H3 H4] Ep Hd. split; simpl; [| | |done].
  - intros id q Hq. destruct (H1 id q Hq) as (v & Ev & Hv). destruct (decide (p = q)) as [->|Hne].
    + rewrite lookup_insert_eq. exists (with_data d w). assert (v = w) as -> by congruence. by split.
    + rewrite lookup_insert_ne by done. eauto.
  - intros q v. destruct (decide (p = q)) as [->|Hne].
    + rewrite lookup_insert_eq. intros [= <-]. apply (H2 q w Ep).
    + rewrite lookup_insert_ne by done. apply H2.
  - intros q v. destruct (decide (p = q)) as [->|Hne].
    + rewrite lookup_insert_eq. intros [= <-]. destruct (H3 q w Ep) as (Ha & Hb & _). exact (conj Ha (conj Hb Hd)).
    + rewrite lookup_insert_ne by done. apply H3.
Qed.

(** Closing a registered waiter and taking it out of the map. *)
Definition closed_at (id : Z) (p : nat) w c : Client E :=
  with_waiter (delete id (waiter c)) (with_heap (<[p := with_closed w]> (heap c)) c).

Lemma client_ok_close c id p w :
  client_ok c -> waiter c !! id = Some p -> heap c !! p = Some w -> client_ok (closed_at id p w c).
Proof.
  intros Hc Hid Ep. pose proof Hc as [H1 H2 H3 H4]. split; simpl; [| | |done].
  - intros id' q. rewrite lookup_delete_Some. intros [Hne Hq].
    destruct (H1 _ _ Hq) as (v & Ev & Hv). exists v. split; [|done]. rewrite lookup_insert_ne; [done|].
    intros ->. destruct (H1 _ _ Hid) as (u & Eu & Hu & _). destruct Hv as [Hv _]. congruence.
  - intros q v. destruct (decide (p = q)) as [->|Hne].
    + rewrite lookup_insert_eq. by intros [= <-].
    + rewrite lookup_insert_ne by done. intros Ev Ho. rewrite lookup_delete_ne; [by apply H2|].
      intros Heq. specialize (H2 _ _ Ev Ho). rewrite <- Heq in H2. congruence.
  - intros q v. destruct (decide (p = q)) as [->|Hne].
    + rewrite lookup_insert_eq. intros [= <-]. by apply (H3 q w).
    + rewrite lookup_insert_ne by done. apply H3.
Qed.

(** Closing a registered waiter never hits a closed channel. *)
Lemma close_registered c id p :
  client_ok c -> waiter c !! id = Some p ->
  exists w, heap c !! p = Some w /\
    (close_waiter p ;; modify (fun c => with_waiter (delete id (waiter c)) c)) c
      = (closed_at id p w c, Ret tt).
Proof.
  intros Hc Hid. destruct (ok_map c Hc id p Hid) as (w & Ep & _ & Hcl). exists w. split; [done|].
  unfold close_waiter, the_waiter, bind, put_waiter, modify. by rewrite Ep, Hcl.
Qed.

Lemma draws_delWaiter id : draws 0 (delWaiter id).
Proof.
  intros c Hc _. unfold delWaiter. erewrite bind_ret by reflexivity.
  destruct (waiter c !! id) as [p|] eqn:Hid; [|simpl; split; [done|lia]].
  destruct (close_registered c id p Hc Hid) as (w & Ep & ->). simpl.
  split; [by apply client_ok_close|lia].
Qed.

Lemma draws_the_waiter {A} k p (f : Waiter -> M (Client E) A) :
  0 <= k ->
  (forall c w, client_ok c -> msgID c + k <= MaxInt64 -> heap c !! p = Some w ->
     client_ok (f w c).1 /\ msgID c <= msgID (f w c).1 <= msgID c + k) ->
  draws k (bind (the_waiter p) f).
Proof.
  intros Hk Hf c Hc Hl. unfold bind, the_waiter.
  destruct (heap c !! p) as [w|] eqn:Ep; [by apply Hf|]. simpl. split; [done|lia].
Qed.

Lemma draws_Wait p sel : draws 0 (Wait p sel).
Proof.
  destruct sel; [|apply draws_ret]. apply draws_the_waiter; [done|]. intros c w Hc Hl Ep.
  destruct (w_data w) as [d|] eqn:Ed.
  - unfold bind at 1, put_waiter, modify.
    assert (Hd : draws 0 (let! hdr := lift (sub d 0 8) in
      delWaiter (E:=E) (s64 (le_val hdr)) ;; let! rest := lift (sub d 8 (len d)) in
      ret (rest, None : option goerr))).
    { repeat first [apply draws_delWaiter | apply draws_bind0; [|intros ?] | apply draws_lift | apply draws_ret]. }
    apply (Hd (with_heap (<[p := with_data None w]> (heap c)) c)); [|done].
    by apply client_ok_data.
  - destruct (w_closed w); simpl; (split; [done|lia]).
Qed.

Lemma next_msgID_eq c : msgID c < MaxInt64 -> 1 <= msgID c ->
  next_msgID c = (with_msgID (msgID c + 1) c, Ret (msgID c + 1)).
Proof.
  intros Hl H1. unfold next_msgID, add_msgID, bind, modify, gets, ret. cbn [msgID with_msgID].
  rewrite s_wrap_small by lia. destruct (Z.ltb_spec MaxInt64 (msgID c + 1)); [lia|done].
Qed.

Lemma client_ok_msgID c : client_ok c -> msgID c + 1 <= MaxInt64 ->
  client_ok (with_msgID (msgID c + 1) c).
Proof.
  intros [H1 H2 H3 H4] Hl. split; simpl; try done; [|lia].
  intros p w Ep. destruct (H3 p w Ep) as (? & ? & ?). split_and!; try done; lia.
Qed.

Lemma draws_next_msgID : draws 1 (next_msgID (E:=E)).
Proof.
  intros c Hc Hl. destruct (ok_msgID c Hc). rewrite next_msgID_eq by lia. simpl.
  split; [by apply client_ok_msgID|lia].
Qed.

Lemma draws_conn_Write d wr : draws 0 (conn_Write (E:=E) d wr).
Proof. apply draws_bind0; [by apply draws_modify|intros; apply draws_ret]. Qed.

Lemma draws_Write d wr : draws 1 (Write (E:=E) d wr).
Proof.
  apply draws_bind00; [done|apply draws_gets|]. intros c. case_match.
  - eapply draws_weaken; [|apply draws_ret]. done.
  - apply draws_bind0; [apply draws_next_msgID|intros; apply draws_conn_Write].
Qed.

(** The state after [Send] registered its waiter. *)
Definition registered (now : Z) c : Client E :=
  mkClient (status c) (writes c) (asyncWriteChan c) (msgID c + 1)
    (<[msgID c + 1 := next_waiter c]> (waiter c))
    (<[next_waiter c := mkWaiter (msgID c + 1) None false now]> (heap c)) (S (next_waiter c))
    (waiterGlobalTimeout c) (env c).

Lemma client_ok_registered now c : client_ok c -> msgID c + 1 <= MaxInt64 ->
  client_ok (registered now c).
Proof.
  intros [H1 H2 H3 H4] Hl.
  assert (Hfresh : heap c !! next_waiter c = None).
  { destruct (heap c !! next_waiter c) as [w|] eqn:Ew; [|done]. apply H3 in Ew as [? _]. lia. }
  assert (Hid : waiter c !! (msgID c + 1) = None).
  { destruct (waiter c !! (msgID c + 1)) as [p|] eqn:Ew; [|done].
    apply H1 in Ew as (w & Ew & Hw & _). apply H3 in Ew as (_ & ? & _). lia. }
  split; simpl.
  - intros id p. rewrite lookup_insert_Some. intros [[<- <-]|[Hne Hp]].
    + rewrite lookup_insert_eq. by eexists.
    + destruct (H1 id p Hp) as (w & Ew & Hw). exists w. split; [|done].
      rewrite lookup_insert_ne; [done|congruence].
  - intros p w. rewrite lookup_insert_Some. intros [[<- <-]|[Hne Hp]] Ho; simpl.
    + apply lookup_insert_eq.
    + specialize (H2 p w Hp Ho). rewrite lookup_insert_ne; [done|]. congruence.
  - intros p w. rewrite lookup_insert_Some. intros [[<- <-]|[Hne Hp]]; simpl.
    + split_and!; try done; lia.
    + destruct (H3 p w Hp) as (? & ? & ?). split_and!; try done; lia.
  - lia.
Qed.

Lemma Send_eq c data now wr :
  client_ok c -> msgID c + 1 <= MaxInt64 -> connected c = true ->
  Send data now wr c =
    (with_writes (writes c ++ [take (Z.to_nat wr.1) (Encode (msgID c + 1) data)]) (registered now c),
     Ret (Some (next_waiter c), wr.1, wr.2)).
Proof.
  intros Hc Hl Hcon. destruct (ok_msgID c Hc). unfold Send.
  erewrite bind_ret by reflexivity. cbn [id]. rewrite Hcon. cbn [negb].
  rewrite (bind_ret _ _ _ _ _ (next_msgID_eq c ltac:(lia) ltac:(lia))). by destruct c.
Qed.

Lemma draws_Send data now wr : draws 1 (Send (E:=E) data now wr).
Proof.
  intros c Hc Hl. destruct (connected c) eqn:Hcon.
  - rewrite Send_eq by done. simpl. split; [|lia].
    pose proof (client_ok_registered now c Hc ltac:(lia)) as [H1 H2 H3 H4]. by split.
  - unfold Send. erewrite bind_ret by reflexivity. cbn [id]. rewrite Hcon. simpl. split; [done|lia].
Qed.

Definition swept (now : Z) c w : Waiter :=
  if negb (w_closed w) && expired now c w then with_closed w else w.

Lemma gc_range now l : forall c,
  NoDup l.*1 -> client_ok c -> (forall id p, (id, p) ∈ l -> waiter c !! id = Some p) ->
  exists c', range l (gc_one now) c = (c', Ret tt) /\ client_ok c' /\ msgID c' = msgID c /\
    forall p, heap c' !! p = (fun w => if bool_decide ((w_msgID w, p) ∈ l) && expired now c w
                                      then with_closed w else w) <$> heap c !! p.
Proof.
  induction l as [|[id q] l IH]; intros c Hnd Hc Hl.
  { exists c. split_and!; try done. intros p. by destruct (heap c !! p). }
  apply NoDup_cons in Hnd as [Hid Hnd]. assert (Hq : waiter c !! id = Some q) by (apply Hl; by left).
  destruct (close_registered c id q Hc Hq) as (w0 & E0 & Ec).
  destruct (ok_map c Hc id q Hq) as (w0' & E0' & Hw0 & _). assert (w0' = w0) as -> by congruence.
  assert (Hnl : forall r, (id, r) ∉ l).
  { intros r Hr. apply Hid. by apply (list_elem_of_fmap_2 fst _ (id, r)). }
  set (c1 := if expired now c w0 then closed_at id q w0 c else c).
  assert (E1 : gc_one now (id, q) c = (c1, Ret tt)).
  { unfold gc_one, c1. cbn [fst snd]. unfold bind at 1, the_waiter. rewrite E0.
    erewrite bind_ret by reflexivity. cbn [Datatypes.id]. destruct (expired now _ w0); [exact Ec|done]. }
  destruct (IH c1) as (c' & Er & Hc' & Hm & Hh); [done|..].
  - unfold c1. case_match; [by eapply client_ok_close|done].
  - intros id' p Hin. assert (Hp : waiter c !! id' = Some p) by (apply Hl; by right).
    unfold c1. case_match; [|done]. simpl. rewrite lookup_delete_ne; [done|]. intros <-. by apply (Hnl p).
  - exists c'. cbn [range]. rewrite (bind_ret _ _ _ _ _ E1). split_and!; try done.
    { rewrite Hm. unfold c1. by case_match. }
    intros p. rewrite Hh. unfold c1. destruct (expired now c w0) eqn:Ex.
    + simpl. destruct (decide (q = p)) as [->|Hne].
      * rewrite lookup_insert_eq, E0. simpl. rewrite Hw0.
        rewrite bool_decide_false by apply Hnl. rewrite bool_decide_true by (by left). by rewrite Ex.
      * rewrite lookup_insert_ne by done. destruct (heap c !! p) as [w|]; [|done]. simpl. f_equal.
        change (expired now (closed_at id q w0 c) w) with (expired now c w).
        rewrite (bool_decide_ext ((w_msgID w, p) ∈ (id, q) :: l) ((w_msgID w, p) ∈ l)); [done|].
        rewrite elem_of_cons. split; [intros [[= _ ->]|]; done|by right].
    + destruct (decide (q = p)) as [->|Hne].
      * rewrite E0. simpl. by rewrite Ex, !andb_false_r.
      * destruct (heap c !! p) as [w|]; [|done]. simpl. f_equal.
        rewrite (bool_decide_ext ((w_msgID w, p) ∈ (id, q) :: l) ((w_msgID w, p) ∈ l)); [done|].
        rewrite elem_of_cons. split; [intros [[= _ ->]|]; done|by right].
Qed.

(** A sweep closes exactly the open waiters that are too old. *)
Lemma gc_turn_spec now c :
  client_ok c -> exists c', gc_turn now c = (c', Ret tt) /\ client_ok c' /\ msgID c' = msgID c /\
    forall p, heap c' !! p = swept now c <$> heap c !! p.
Proof.
  intros Hc. unfold gc_turn. erewrite bind_ret by reflexivity.
  destruct (gc_range now (map_to_list (waiter c)) c) as (c' & Er & Hc' & Hm & Hh); try done.
  - apply NoDup_fst_map_to_list.
  - intros id p. by apply elem_of_map_to_list.
  - exists c'. split_and!; try done. intros p. rewrite Hh.
    destruct (heap c !! p) as [w|] eqn:Ep; [|done]. simpl. f_equal. unfold swept.
    destruct (w_closed w) eqn:Hcl; simpl.
    + rewrite bool_decide_false; [done|]. intros Hin%elem_of_map_to_list.
      destruct (ok_map c Hc _ _ Hin) as (w' & Ew & _ & Ho). congruence.
    + rewrite bool_decide_true; [done|]. apply elem_of_map_to_list. by eapply ok_open.
Qed.

Lemma draws_gc_turn now : draws 0 (gc_turn (E:=E) now).
Proof.
  intros c Hc _. destruct (gc_turn_spec now c Hc) as (c' & -> & Hc' & Hm & _). simpl.
  split; [done|lia].
Qed.

(** A packet of the leader's. *)
Lemma draws_in_env {A} (m : M E A) : draws 0 (in_env m).
Proof. intros c [H1 H2 H3 H4] _. simpl. split; [by split|lia]. Qed.

Lemma draws_range {A} (l : list A) (f : A -> M (Client E) unit) :
  (forall x, draws 0 (f x)) -> draws 0 (range l f).
Proof. intros Hf. induction l; simpl; [apply draws_ret|]. by apply draws_bind0. Qed.

Lemma draws_client_act id content : draws 0 (client_act onMessageCallback id content).
Proof.
  apply draws_bind0.
  - destruct (1 <? id); [|apply draws_ret]. cbv zeta. intros c Hc Hl.
    erewrite bind_ret by reflexivity. destruct (waiter c !! id) as [p|] eqn:Hid; [|by apply draws_ret].
    destruct (ok_map c Hc id p Hid) as (w & Ep & Hw & Hcl).
    unfold chan_send, the_waiter, bind, put_waiter, modify. rewrite Ep, Hcl.
    destruct (w_data w) as [d|]; simpl; (split; [|lia]); [done|].
    apply client_ok_data; [done|done|]. intros d [= <-]. rewrite Hw. by exists content.
  - intros _. case_match; [apply draws_ret|]. apply draws_range. intros f. apply draws_in_env.
Qed.

Lemma draws_preserves {A} k (m : M (Client E) A) :
  draws 0 m -> preserves (fun c => client_ok c /\ msgID c = k) m.
Proof.
  intros Hm c [Hc Hk]. destruct (ok_msgID c Hc). destruct (Hm c Hc ltac:(lia)). split; [done|lia].
Qed.

(** ** Everything that happens to a client *)
Inductive client_event :=
  | CSend (data : bytes) (now : Z) (wr : Z * option goerr)
  | CWrite (data : bytes) (wr : Z * option goerr)
  | CKeepalive (wr : Z * option goerr)
  | CAsync (data : bytes)
  | CAsyncTurn (wr : Z * option goerr)
  | CSweep (now : Z)
  | CWait (p : nat) (sel : wait_case)
  | CConnect (dial : option goerr)
  | CDisconnect
  | CRead (r : option bytes).

Definition on_client_event (e : client_event) : M (slice byte * Client E) unit :=
  match e with
  | CSend data now wr => on_client (Send data now wr ;; ret tt)
  | CWrite data wr => on_client (Write data wr ;; ret tt)
  | CKeepalive wr => on_client (keepalive_turn wr)
  | CAsync data => on_client (AsyncSend data)
  | CAsyncTurn wr => on_client (async_turn wr)
  | CSweep now => on_client (gc_turn now)
  | CWait p sel => on_client (Wait p sel ;; ret tt)
  | CConnect dial => on_client (Connect dial ;; ret tt)
  | CDisconnect => on_client Disconnect
  | CRead r => readMessage_turn onMessageCallback growcap r
  end.

Lemma draws_Disconnect : draws 0 (Disconnect (E:=E)).
Proof.
  apply draws_bind0; [apply draws_gets|]. intros c.
  repeat case_match; (apply draws_ret || by apply draws_modify).
Qed.

Lemma draws_Connect dial : draws 0 (Connect (E:=E) dial).
Proof.
  apply draws_bind0; [apply draws_gets|]. intros c. case_match; [apply draws_ret|].
  destruct dial; [apply draws_ret|].
  apply draws_bind0; [|intros; apply draws_ret]. case_match; [by apply draws_modify|apply draws_ret].
Qed.

Lemma draws_async_turn wr : draws 1 (async_turn (E:=E) wr).
Proof.
  apply draws_bind00; [done|apply draws_gets|]. intros c.
  destruct (asyncWriteChan c); [eapply draws_weaken; [|apply draws_lift]; done|].
  apply draws_bind00; [done|by apply draws_modify|]. intros _.
  apply draws_bind0; [apply draws_Write|intros; apply draws_ret].
Qed.

Lemma draws_AsyncSend data : draws 0 (AsyncSend (E:=E) data).
Proof.
  apply draws_bind0; [apply draws_gets|]. intros c. case_match; [by apply draws_modify|apply draws_lift].
Qed.

Lemma event_draws e (w : slice byte * Client E) :
  client_ok w.2 -> msgID w.2 + 1 <= MaxInt64 ->
  client_ok (on_client_event e w).1.2 /\ msgID (on_client_event e w).1.2 <= msgID w.2 + 1.
Proof.
  intros Hc Hl.
  assert (Hd : forall m : M (Client E) unit, draws 1 m ->
    client_ok (on_client m w).1.2 /\ msgID (on_client m w).1.2 <= msgID w.2 + 1).
  { intros m Hm. destruct (Hm w.2 Hc Hl). split; [done|simpl; lia]. }
  assert (Hd0 : forall m : M (Client E) unit, draws 0 m ->
    client_ok (on_client m w).1.2 /\ msgID (on_client m w).1.2 <= msgID w.2 + 1).
  { intros m Hm. apply Hd. eapply draws_weaken; [|exact Hm]. lia. }
  destruct e as [d n wr|d wr|wr|d|wr|n|p sel|dial| |r]; cbn [on_client_event].
  - apply Hd, draws_bind0; [apply draws_Send|intros; apply draws_ret].
  - apply Hd, draws_bind0; [apply draws_Write|intros; apply draws_ret].
  - apply Hd, draws_bind0; [apply draws_Write|intros; apply draws_ret].
  - apply Hd0, draws_AsyncSend.
  - apply Hd, draws_async_turn.
  - apply Hd0, draws_gc_turn.
  - apply Hd0, draws_bind0; [apply draws_Wait|intros; apply draws_ret].
  - apply Hd0, draws_bind0; [apply draws_Connect|intros; apply draws_ret].
  - apply Hd0, draws_Disconnect.
  - unfold readMessage_turn. erewrite bind_ret by reflexivity.
    destruct (negb (connected w.2)); [simpl; split; [done|lia]|].
    destruct r as [msg|]; [|apply Hd0, draws_Disconnect].
    destruct (len msg <=? 0); [apply Hd0, draws_Disconnect|].
    pose proof (preserves_zoom_onMessage (client_act onMessageCallback)
      (fun c => client_ok c /\ msgID c = msgID w.2) growcap msg) as Hp.
    destruct (Hp (fun id content => draws_preserves _ _ (draws_client_act id content)) w ltac:(by split)) as [H1 H2].
    split; [exact H1|]. unfold client_onMessage. change (client_host onMessageCallback)
      with (zoom_host (client_act onMessageCallback)). rewrite H2. lia.
Qed.

(** C22: Along every run of the agent's client in which the id counter does
    not run out - requests, writes, keepalives, responses and arbitrary bytes
    from the leader, waits, sweeps, reconnects - the map of waiters and the
    open waiters stay the same thing, and a response in a waiter's channel is
    one for its own request; so no channel is closed twice, and no request
    gets the answer to another. *)
Theorem client_invariant (e : E) evs :
  Z.of_nat (length evs) < MaxInt64 ->
  client_ok (run on_client_event evs (empty_slice, NewClient e)).2.
Proof.
  intros Hlen.
  enough (Hgen : forall evs (w : slice byte * Client E), client_ok w.2 -> msgID w.2 + Z.of_nat (length evs) <= MaxInt64 ->
    client_ok (run on_client_event evs w).2).
  { apply Hgen; [apply client_ok_init|]. simpl. lia. }
  clear evs Hlen. intros evs. induction evs as [|ev evs IH]; intros w Hc Hl; [done|].
  simpl length in Hl. destruct (event_draws ev w Hc ltac:(lia)) as [Hc1 Hl1]. apply IH; [done|]. lia.
Qed.

(** ** Requests and their responses *)

(** Callbacks that return change their own state only. *)
Lemma callbacks_env (content : bytes) fs : forall c,
  (forall f x e, f ∈ fs -> (f x e).2 = Ret tt) ->
  exists e, range fs (fun f : bytes -> M E unit => in_env (f content)) c = (with_env e c, Ret tt).
Proof.
  induction fs as [|f fs IH]; intros c Hcb; [exists (env c); by destruct c|]. cbn [range].
  destruct (IH (with_env (f content (env c)).1 c)) as [e He].
  { intros g x e' Hg. apply Hcb. by right. }
  exists e. rewrite (bind_ret _ _ _ (with_env (f content (env c)).1 c) tt); [exact He|].
  unfold in_env. by rewrite (Hcb f) by (by left).
Qed.

(** A response meets its waiter: the channel gets it, then the callbacks run. *)
Lemma client_act_response c id p w content :
  (forall f x e, f ∈ onMessageCallback -> (f x e).2 = Ret tt) ->
  1 < id -> waiter c !! id = Some p -> heap c !! p = Some w ->
  w_closed w = false -> w_data w = None ->
  exists e, client_act onMessageCallback id content c =
    (with_env e (with_heap (<[p := with_data (Some (le_bytes 8 (u64 id) ++ content)) w]> (heap c)) c),
     Ret tt).
Proof.
  intros Hcb Hid Ep Eh Hcl Hd. set (c1 := with_heap _ c).
  unfold client_act. rewrite (bind_ret _ _ _ c1 tt); cycle 1.
  { destruct (Z.ltb_spec 1 id); [|lia]. cbv zeta. erewrite bind_ret by reflexivity. rewrite Ep.
    unfold chan_send, bind, the_waiter, put_waiter, modify. by rewrite Eh, Hcl, Hd. }
  destruct (decide (content = keepalivePackage)); [exists (env c); by destruct c|].
  by apply callbacks_env.
Qed.

(** One packet on an empty buffer. *)
Lemma client_onMessage_one b c id payload c' :
  elems b = [] -> swf b -> packet_ok (id, payload) ->
  client_act onMessageCallback id payload c = (c', Ret tt) ->
  exists b', client_onMessage onMessageCallback growcap (Encode id payload) (b, c) = ((b', c'), Ret tt) /\
    elems b' = [] /\ swf b'.
Proof.
  intros Eb Hw Hok Ha. pose proof (zoom_host_laws (client_act onMessageCallback)) as HL.
  pose proof (elems_length _ Hw) as Hl. rewrite Eb in Hl. simpl in Hl.
  pose proof (Encode_length id payload) as Hel. destruct Hok as [Hid Hlen].
  destruct (onMessage_delivers (HW:=client_host onMessageCallback) growcap (b, c) (Encode id payload)
    [(id, payload)] [] [] []) as (b' & Er & Hwb & _ & Ebb);
    cbn [recvBuf_of client_host zoom_host fst]; try done.
  - apply warm_append; [done| |right]; rewrite Eb; simpl app; [|lia].
    apply (header_start_wire [(id, payload)] _ []). unfold wire. cbn [map concat]. by rewrite !app_nil_r.
  - simpl. unfold slen, len in *. simpl in Hlen. lia.
  - split; [done|]. split; [|done]. simpl. by rewrite Ha.
  - rewrite Eb. unfold wire. cbn [map concat app]. by rewrite !app_nil_r.
  - exists b'. split; [|done]. unfold client_onMessage. rewrite Er.
    cbn [foldl deliver_frame]. unfold deliver_frame. simpl. by rewrite Ha.
Qed.

(** The two parts of a response. *)
Lemma response_id (id : Z) (payload : bytes) : 0 <= id <= MaxInt64 ->
  sub (le_bytes 8 (u64 id) ++ payload) 0 8 = Ret (le_bytes 8 (u64 id)) /\
  s64 (le_val (le_bytes 8 (u64 id))) = id.
Proof.
  intros Hid. split; [|apply le_val_id; unfold MaxInt64 in *; lia]. unfold sub. rewrite length_app, le_bytes_length.
  destruct (_ && _ && _) eqn:Eb; [|lia]. f_equal.
Qed.
Lemma response_payload (id : Z) (payload : bytes) :
  sub (le_bytes 8 (u64 id) ++ payload) 8 (len (le_bytes 8 (u64 id) ++ payload)) = Ret payload.
Proof.
  unfold sub, len. rewrite length_app, le_bytes_length. destruct (_ && _ && _) eqn:Eb; [|lia]. f_equal.
  rewrite drop_app_length' by (by rewrite le_bytes_length). apply take_ge. lia.
Qed.

(** Taking a response out of its waiter, which thereby goes away. *)
Lemma Wait_response c id p w payload :
  client_ok c -> heap c !! p = Some w -> w_closed w = false -> w_msgID w = id ->
  w_data w = Some (le_bytes 8 (u64 id) ++ payload) ->
  Wait p WaitData c = (closed_at id p (with_data None w) (with_heap (<[p := with_data None w]> (heap c)) c),
                       Ret (payload, None)).
Proof.
  intros Hc Ep Hcl Hid Hd. destruct (ok_heap c Hc p w Ep) as (_ & Hrange & _).
  destruct (ok_msgID c Hc). pose proof (ok_open c Hc p w Ep Hcl) as Hm. rewrite Hid in *.
  cbn [Wait]. rewrite (bind_ret _ _ _ c w) by (unfold the_waiter; by rewrite Ep). rewrite Hd.
  set (c1 := with_heap (<[p := with_data None w]> (heap c)) c).
  rewrite (bind_ret _ _ _ c1 tt) by done.
  destruct (response_id id payload ltac:(lia)) as [E8 Eid].
  rewrite (bind_ret _ _ _ c1 (le_bytes 8 (u64 id))) by (unfold lift; by rewrite E8). rewrite Eid.
  assert (Hc1 : client_ok c1) by (by apply client_ok_data).
  destruct (close_registered c1 id p Hc1) as (w1 & E1 & Ec); [done|].
  assert (w1 = with_data None w) as -> by (simpl in E1; rewrite lookup_insert_eq in E1; by injection E1).
  rewrite (bind_ret _ _ _ (closed_at id p (with_data None w) c1) tt); cycle 1.
  { unfold delWaiter. erewrite bind_ret by reflexivity. change (waiter c1) with (waiter c). by rewrite Hm. }
  by rewrite (bind_ret _ _ _ (closed_at id p (with_data None w) c1) payload)
    by (unfold lift; by rewrite response_payload).
Qed.

(** A request gets its own answer: [Send] writes the packet under a fresh
    id; when a packet with that id comes back, [Wait] returns its payload and
    the waiter is gone from the map. *)
Theorem request_response b c data now wr payload :
  client_ok c -> connected c = true -> msgID c + 1 <= MaxInt64 ->
  (forall f x e, f ∈ onMessageCallback -> (f x e).2 = Ret tt) ->
  elems b = [] -> swf b -> packet_ok (msgID c + 1, payload) ->
  exists c1 p (w2 : slice byte * Client E) c3,
    Send data now wr c = (c1, Ret (Some p, wr.1, wr.2)) /\
    writes c1 = writes c ++ [take (Z.to_nat wr.1) (Encode (msgID c + 1) data)] /\
    client_onMessage onMessageCallback growcap (Encode (msgID c + 1) payload) (b, c1) = (w2, Ret tt) /\
    Wait p WaitData w2.2 = (c3, Ret (payload, None)) /\
    waiter c3 !! (msgID c + 1) = None.
Proof.
  intros Hc Hcon Hl Hcb Eb Hw Hok. pose proof (Send_eq c data now wr Hc Hl Hcon) as Es.
  destruct (ok_msgID c Hc) as [H1 _].
  pose proof (client_ok_registered now c Hc Hl) as Hc0. set (c0 := registered now c) in *.
  set (c1 := with_writes _ c0) in Es.
  assert (Hc1 : client_ok c1) by (destruct Hc0; by split).
  set (w := mkWaiter (msgID c + 1) None false now).
  assert (Eh : heap c1 !! next_waiter c = Some w) by apply lookup_insert_eq.
  assert (Em : waiter c1 !! (msgID c + 1) = Some (next_waiter c)) by apply lookup_insert_eq.
  destruct (client_act_response c1 (msgID c + 1) (next_waiter c) w payload Hcb ltac:(lia) Em Eh
              eq_refl eq_refl) as [e Ea].
  set (c2 := with_env _ _) in Ea.
  assert (Hc2 : client_ok c2).
  { pose proof (draws_client_act (msgID c + 1) payload c1 Hc1) as [Hd _]; [simpl; lia|].
    by rewrite Ea in Hd. }
  destruct (client_onMessage_one b c1 (msgID c + 1) payload c2) as (b' & Er & _); try done.
  assert (Eh2 : heap c2 !! next_waiter c =
    Some (with_data (Some (le_bytes 8 (u64 (msgID c + 1)) ++ payload)) w)) by apply lookup_insert_eq.
  exists c1, (next_waiter c), (b', c2). eexists. split_and!; try done.
  - eapply (Wait_response c2 (msgID c + 1)); done.
  - simpl. apply lookup_delete_eq.
Qed.

(** A second answer to the same request stops the client for good: its
    reader waits for room in the waiter's channel, which holds one response. *)
Theorem duplicate_response_blocks b c id p w d payload :
  client_ok c -> waiter c !! id = Some p -> heap c !! p = Some w -> w_data w = Some d ->
  elems b = [] -> swf b -> packet_ok (id, payload) ->
  (client_onMessage onMessageCallback growcap (Encode id payload) (b, c)).2 = Block.
Proof.
  intros Hc Em Eh Hd Eb Hw Hok.
  destruct (ok_map c Hc id p Em) as (w' & Ew & Hid & Hcl). assert (w' = w) as -> by congruence.
  destruct (ok_heap c Hc p w Eh) as (_ & Hrange & _).
  assert (Ha : client_act onMessageCallback id payload c = (c, Block)).
  { unfold client_act. destruct (Z.ltb_spec 1 id); [|lia]. cbv zeta. unfold bind at 1 2, gets. rewrite Em.
    unfold chan_send, bind, the_waiter. by rewrite Eh, Hcl, Hd. }
  unfold client_onMessage, onMessage, recover. erewrite bind_ret by reflexivity. erewrite bind_ret by reflexivity.
  cbn [recvBuf_of set_recvBuf client_host zoom_host fst snd].
  set (b1 := sappend Byte.x00 growcap b (Encode id payload)).
  assert (Hwb : swf b1) by (by apply sappend_wf).
  assert (Ebb : elems b1 = Encode id payload ++ []) by (unfold b1; by rewrite sappend_elems, Eb, app_nil_r).
  pose proof (elems_length b1 Hwb) as Hl. rewrite Ebb, app_nil_r, Encode_length in Hl.
  assert (Ed : Decode b1 = Ret (id, payload, len payload + 16, None)).
  { apply (Decode_at b1 [] id payload (drop (sl_len b1) (sl_arr b1))).
    - rewrite (arr_elems b1) at 1. by rewrite Ebb, app_nil_r.
    - by apply packet_ok_frame.
    - destruct Hok as [_ Hok]. simpl in Hok. unfold slen, len in *. lia.
    - eapply find_start_here. rewrite (arr_elems b1) at 1. rewrite Ebb, app_nil_r, Encode_header.
      by rewrite <- !app_assoc. }
  destruct (take_packet_spec growcap b1 _ _ Hwb Ebb) as (b' & Et & _).
  replace (len (Encode id payload)) with (len payload + 16) in Et
    by (unfold len; rewrite Encode_length; lia).
  erewrite (recv_loop_packet (HW:=client_host onMessageCallback)); [|reflexivity|exact Ed|lia|exact Et].
  unfold bind. cbn [deliver client_host zoom_host set_recvBuf]. unfold zoom. cbn [snd]. by rewrite Ha.
Qed.

(** A request nobody answers does not wait for ever: the sweep closes
    exactly the waiters that are older than the timeout, and [Wait] on such a
    waiter then reports the closed channel. *)
Theorem sweep_wakes_expired now c :
  client_ok c ->
  exists c', gc_turn now c = (c', Ret tt) /\ client_ok c' /\
    (forall p, heap c' !! p =
       (fun w => if negb (w_closed w) && (waiterGlobalTimeout c <=? now - w_time w)
                 then with_closed w else w) <$> heap c !! p) /\
    forall p w, heap c !! p = Some w -> w_data w = None ->
      waiterGlobalTimeout c <= now - w_time w ->
      Wait p WaitData c' = (c', Ret ([], Some ErrChanIsClosed)).
Proof.
  intros Hc. destruct (gc_turn_spec now c Hc) as (c' & Eg & Hc' & _ & Hh).
  exists c'. split_and!; try done. intros p w Ep Hd Hex.
  assert (Ep' : exists w', heap c' !! p = Some w' /\ w_closed w' = true /\ w_data w' = None).
  { rewrite Hh, Ep. eexists. split; [done|]. unfold swept, expired.
    rewrite (proj2 (Z.leb_le _ _) Hex), andb_true_r. by destruct (w_closed w) eqn:?; simpl. }
  destruct Ep' as (w' & Ep' & Hcl & Hd'). cbn [Wait].
  rewrite (bind_ret _ _ _ c' w') by (unfold the_waiter; by rewrite Ep'). by rewrite Hd', Hcl.
Qed.

(** The overflow check of the message ids is dead code: an [int64] never
    exceeds [MaxInt64], so after the last id the counter wraps around and the
    next request goes out under a negative id - which no receiver ever takes
    off its buffer. *)
Theorem msgID_overflow c data now wr :
  connected c = true -> msgID c = MaxInt64 ->
  exists c', Send data now wr c = (c', Ret (Some (next_waiter c), wr.1, wr.2)) /\
    msgID c' = - 2 ^ 63 /\
    writes c' = writes c ++ [take (Z.to_nat wr.1) (Encode (- 2 ^ 63) data)].
Proof.
  intros Hcon Hmax. unfold Send. erewrite bind_ret by reflexivity. cbn [Datatypes.id]. rewrite Hcon.
  cbn [negb]. rewrite (bind_ret _ _ _ (with_msgID (- 2 ^ 63) c) (- 2 ^ 63)); cycle 1.
  { unfold next_msgID, add_msgID, bind, modify, gets, ret. cbn [msgID with_msgID]. by rewrite Hmax. }
  eexists. split; [reflexivity|]. done.
Qed.
End Invariant.

(** ** Concrete instances: a client whose callback logs what it is given *)
Section Instances.
#[local] Definition log (content : bytes) : M (list bytes) unit :=
  modify (fun l => l ++ [content]).
#[local] Definition grow (c n : nat) : nat := (2 * n)%nat.
#[local] Definition sent : Z * option goerr := (1000, None).
#[local] Definition ready : Client (list bytes) := with_status statusConnect (NewClient []).

#[local] Lemma ready_ok : client_ok ready.
Proof. destruct (client_ok_init ([] : list bytes)). by split. Qed.

#[local] Lemma log_returns (f : bytes -> M (list bytes) unit) x e : f ∈ [log] -> (f x e).2 = Ret tt.
Proof. by intros ->%list_elem_of_singleton. Qed.

(** A request was sent at time 5 and is waiting. *)
#[local] Definition waiting : Client (list bytes) := (Send (gostr "who") 5 sent ready).1.

#[local] Lemma waiting_ok : client_ok waiting.
Proof. apply (draws_Send (gostr "who") 5 sent ready ready_ok). vm_compute. congruence. Qed.

(** Its answer has come in. *)
#[local] Definition answered : Client (list bytes) :=
  (client_act [log] 2 (gostr "me") waiting).1.

#[local] Lemma answered_ok : client_ok answered.
Proof. apply (draws_client_act [log] 2 (gostr "me") waiting waiting_ok). vm_compute. congruence. Qed.

Lemma client_invariant_witness :
  client_ok (run (on_client_event [log] grow)
    [CConnect None; CSend (gostr "who") 5 sent; CRead (Some (Encode 2 (gostr "me")));
     CWait 0 WaitData; CSweep 100000] (empty_slice, NewClient [])).2.
Proof. apply (client_invariant [log] grow []). vm_compute. reflexivity. Defined.

Lemma request_response_witness :
  exists c1 p (w2 : slice byte * Client (list bytes)) c3,
    Send (gostr "who") 5 sent ready = (c1, Ret (Some p, 1000, None)) /\
    writes c1 = writes ready ++ [take (Z.to_nat 1000) (Encode 2 (gostr "who"))] /\
    client_onMessage [log] grow (Encode 2 (gostr "me")) (empty_slice, c1) = (w2, Ret tt) /\
    Wait p WaitData w2.2 = (c3, Ret (gostr "me", None)) /\
    waiter c3 !! 2 = None.
Proof.
  apply (request_response [log] grow empty_slice ready (gostr "who") 5 sent (gostr "me"));
    [exact ready_ok|reflexivity|small|intros f x e; apply log_returns|reflexivity|unfold swf; simpl; lia|].
  split; small.
Defined.

Lemma duplicate_response_blocks_witness :
  (client_onMessage [log] grow (Encode 2 (gostr "me too")) (empty_slice, answered)).2 = Block.
Proof.
  apply (duplicate_response_blocks [log] grow empty_slice answered 2 0
           (mkWaiter 2 (Some (le_bytes 8 2 ++ gostr "me")) false 5) (le_bytes 8 2 ++ gostr "me"));
    [exact answered_ok|reflexivity|reflexivity|reflexivity|reflexivity|unfold swf; simpl; lia|].
  split; small.
Defined.

Lemma sweep_wakes_expired_witness :
  exists c', gc_turn 7000 waiting = (c', Ret tt) /\ client_ok c' /\
    (forall p, heap c' !! p =
       (fun w => if negb (w_closed w) && (waiterGlobalTimeout waiting <=? 7000 - w_time w)
                 then with_closed w else w) <$> heap waiting !! p) /\
    forall p w, heap waiting !! p = Some w -> w_data w = None ->
      waiterGlobalTimeout waiting <= 7000 - w_time w ->
      Wait p WaitData c' = (c', Ret ([], Some ErrChanIsClosed)).
Proof. apply (sweep_wakes_expired 7000 waiting waiting_ok). Defined.

Lemma msgID_overflow_witness :
  exists c', Send (gostr "last") 5 sent (with_msgID MaxInt64 ready)
               = (c', Ret (Some 0%nat, 1000, None)) /\
    msgID c' = - 2 ^ 63 /\ writes c' = [take (Z.to_nat 1000) (Encode (- 2 ^ 63) (gostr "last"))].
Proof. apply (msgID_overflow (with_msgID MaxInt64 ready) (gostr "last") 5 sent); reflexivity. Defined.
End Instances.
