(* ===== verification/Answers.v ===== *)
(** * The answers a client is owed

    Packets that come back to a client of [AgentClient] are answers to its
    requests when each carries what was asked under its id.  [answers] states
    that of the packets still on their way, the responses in the waiters'
    channels and the requests waiting; every call of the client keeps it. *)
From S2P Require Import Prelude.
From S2P Require Import GoSem.
From S2P Require Import Framing.
From S2P Require Import Codec.
From S2P Require Import AgentRecv.
From S2P Require Import AgentClient.
From S2P Require Import Link.
Set Default Proof Using "Type".

Section Answers.
Context {E : Type}.
Implicit Types (c : Client E) (v : Waiter) (asked : gmap nat bytes) (fs : list frame).

(** Ids above 1 belong to requests and writes of the client. *)
Definition drawn (fs : list frame) : list Z := filter (fun id => 1 < id) fs.*1.

Record answers c asked fs : Prop := {
  an_ids f : f ∈ fs -> f.1 <= msgID c;
  an_once : NoDup (drawn fs);
  an_unique p q v v' : heap c !! p = Some v -> heap c !! q = Some v' -> w_msgID v = w_msgID v' -> p = q;
  an_own p v f : heap c !! p = Some v -> f ∈ fs -> f.1 = w_msgID v -> asked !! p = Some f.2 /\ w_data v = None;
  an_held p v d : heap c !! p = Some v -> w_data v = Some d ->
    exists x, asked !! p = Some x /\ d = le_bytes 8 (u64 (w_msgID v)) ++ x;
  an_wait p v : heap c !! p = Some v -> w_closed v = false -> w_data v = None ->
    exists x, asked !! p = Some x /\ (w_msgID v, x) ∈ fs
}.

Lemma drawn_app fs1 fs2 : drawn (fs1 ++ fs2) = drawn fs1 ++ drawn fs2.
Proof. unfold drawn. by rewrite fmap_app, filter_app. Qed.
Lemma drawn_cons f fs : drawn (f :: fs) = drawn [f] ++ drawn fs.
Proof. apply (drawn_app [f] fs). Qed.
Lemma drawn_in f fs : f ∈ fs -> 1 < f.1 -> f.1 ∈ drawn fs.
Proof. intros Hf H1. apply list_elem_of_filter. split; [done|]. by apply list_elem_of_fmap_2. Qed.
Lemma in_drawn id fs : id ∈ drawn fs -> exists f, f ∈ fs /\ f.1 = id.
Proof. unfold drawn. intros [_ Hi]%list_elem_of_filter. apply list_elem_of_fmap in Hi as (f & -> & Hf). by exists f. Qed.
Lemma drawn_system x : drawn [(1, x)] = [].
Proof. done. Qed.

Lemma answers_start e : answers (NewClient e) ∅ [].
Proof. split; simpl; try done; [by intros f ?%not_elem_of_nil|apply NoDup_nil_2]. Qed.

(** It reads the counter and the waiters. *)
Lemma answers_ext c c' asked fs :
  heap c' = heap c -> msgID c' = msgID c -> answers c asked fs -> answers c' asked fs.
Proof. intros Eh Em [H1 H2 H3 H4 H5 H6]. by split; rewrite ?Eh, ?Em. Qed.

(** ** Sending *)

(** A fresh id at the end of the queue. *)
Lemma once_fresh c asked fs id x :
  answers c asked fs -> msgID c < id -> NoDup (drawn (fs ++ [(id, x)])).
Proof.
  intros Ha Hid. rewrite drawn_app. apply NoDup_app. split_and!; [apply Ha| |].
  - intros j Hj. apply in_drawn in Hj as (f & Hf & <-). intros Hj'. apply in_drawn in Hj' as (g & ->%list_elem_of_singleton & Hg).
    pose proof (an_ids _ _ _ Ha f Hf). cbn [fst] in Hg. lia.
  - apply NoDup_filter, NoDup_singleton.
Qed.

(** A packet nobody waits for. *)
Lemma answers_write c asked fs x :
  client_ok c -> answers c asked fs ->
  answers (with_msgID (msgID c + 1) c) asked (fs ++ [(msgID c + 1, x)]).
Proof.
  intros Hc Ha. split; cbn [msgID heap with_msgID].
  - intros f [Hf| ->%list_elem_of_singleton]%elem_of_app; [|cbn; lia]. pose proof (an_ids _ _ _ Ha f Hf). lia.
  - apply (once_fresh c asked); [done|lia].
  - apply (an_unique _ _ _ Ha).
  - intros p v f Hp [Hf| ->%list_elem_of_singleton]%elem_of_app Hid; [by eapply (an_own _ _ _ Ha)|].
    destruct (ok_heap c Hc p v Hp) as (_ & Hr & _). cbn in Hid. lia.
  - apply (an_held _ _ _ Ha).
  - intros p v Hp Ho Hd. destruct (an_wait _ _ _ Ha p v Hp Ho Hd) as (y & Ey & Hy).
    exists y. split; [done|]. apply elem_of_app. by left.
Qed.

(** A request. *)
Lemma answers_send c asked fs x now :
  client_ok c -> answers c asked fs ->
  answers (registered now c) (<[next_waiter c := x]> asked) (fs ++ [(msgID c + 1, x)]).
Proof.
  intros Hc Ha. assert (Hold : forall p v, heap c !! p = Some v -> p <> next_waiter c /\ w_msgID v <= msgID c).
  { intros p v Hp. destruct (ok_heap c Hc p v Hp) as (? & ? & _). lia. }
  split; cbn [msgID heap registered].
  - intros f [Hf| ->%list_elem_of_singleton]%elem_of_app; [|cbn; lia]. pose proof (an_ids _ _ _ Ha f Hf). lia.
  - apply (once_fresh c asked); [done|lia].
  - intros p q v v'. rewrite !lookup_insert_Some. intros [[<- <-]|[Hp Ep]] [[<- <-]|[Hq Eq]] Hid; try done; cbn in Hid.
    + destruct (Hold _ _ Eq). lia.
    + destruct (Hold _ _ Ep). lia.
    + by eapply (an_unique _ _ _ Ha).
  - intros p v f. rewrite lookup_insert_Some. intros [[<- <-]|[Hp Ep]] Hf Hid.
    + cbn in Hid. apply elem_of_app in Hf as [Hf| ->%list_elem_of_singleton].
      { pose proof (an_ids _ _ _ Ha f Hf). lia. } by rewrite lookup_insert_eq.
    + destruct (Hold _ _ Ep). rewrite lookup_insert_ne by done. apply elem_of_app in Hf as [Hf| ->%list_elem_of_singleton].
      { by eapply (an_own _ _ _ Ha). } cbn in Hid. lia.
  - intros p v d. rewrite lookup_insert_Some. intros [[<- <-]|[Hp Ep]] Hd; [done|].
    rewrite lookup_insert_ne by done. by eapply (an_held _ _ _ Ha).
  - intros p v. rewrite lookup_insert_Some. intros [[<- <-]|[Hp Ep]] Ho Hd.
    + exists x. rewrite lookup_insert_eq. split; [done|]. apply elem_of_app. right. by left.
    + destruct (an_wait _ _ _ Ha p v Ep Ho Hd) as (y & Ey & Hy). exists y. rewrite lookup_insert_ne by done.
      split; [done|]. apply elem_of_app. by left.
Qed.

(** A keepalive of the server's gets in between. *)
Lemma answers_insert c asked fs1 fs2 x :
  1 <= msgID c -> client_ok c -> answers c asked (fs1 ++ fs2) -> answers c asked ((fs1 ++ [(1, x)]) ++ fs2).
Proof.
  intros H1 Hc Ha. assert (Hin : forall f, f ∈ (fs1 ++ [(1, x)]) ++ fs2 -> f = (1, x) \/ f ∈ fs1 ++ fs2).
  { intros f. rewrite !elem_of_app, list_elem_of_singleton. tauto. }
  split.
  - intros f [-> |Hf]%Hin; [cbn; lia|by apply (an_ids _ _ _ Ha)].
  - rewrite !drawn_app, drawn_system, app_nil_r, <- drawn_app. apply Ha.
  - apply (an_unique _ _ _ Ha).
  - intros p v f Hp [-> |Hf]%Hin Hid; [|by eapply (an_own _ _ _ Ha)].
    destruct (ok_heap c Hc p v Hp) as (_ & Hr & _). cbn in Hid. lia.
  - apply (an_held _ _ _ Ha).
  - intros p v Hp Ho Hd. destruct (an_wait _ _ _ Ha p v Hp Ho Hd) as (y & Ey & Hy). exists y. split; [done|].
    rewrite !elem_of_app in *. tauto.
Qed.

(** ** Giving up, and taking an answer *)

(** A waiter as before, or closed, its response perhaps taken. *)
Definition shut v v' : Prop :=
  w_msgID v' = w_msgID v /\
  (v' = v \/ w_closed v' = true /\ (w_data v' = w_data v \/ w_data v' = None)).

Lemma answers_shut c c' asked fs :
  msgID c' = msgID c ->
  (forall p v', heap c' !! p = Some v' -> exists v, heap c !! p = Some v /\ shut v v') ->
  answers c asked fs -> answers c' asked fs.
Proof.
  intros Em Hh Ha. split; rewrite ?Em; try apply Ha.
  - intros p q v v' Hp Hq Hid. apply Hh in Hp as (u & Hp & Eu & _), Hq as (u' & Hq & Eu' & _).
    eapply (an_unique _ _ _ Ha); [done..|congruence].
  - intros p v f Hp Hf Hid. apply Hh in Hp as (u & Hp & Eu & Hs). rewrite Eu in Hid.
    destruct (an_own _ _ _ Ha p u f Hp Hf Hid) as [? Hd]. split; [done|].
    destruct Hs as [->|[_ [->| ->]]]; done.
  - intros p v d Hp Hd. apply Hh in Hp as (u & Hp & Eu & Hs). rewrite Eu.
    eapply (an_held _ _ _ Ha); [done|]. destruct Hs as [<-|[_ [<-|Hn]]]; [done..|congruence].
  - intros p v Hp Ho Hd. apply Hh in Hp as (u & Hp & Eu & Hs). rewrite Eu.
    destruct Hs as [->|[Hc _]]; [|congruence]. by eapply (an_wait _ _ _ Ha).
Qed.
(** What the network and the background loops see of a client. *)
Definition outside c : Z * list bytes * list bytes * Z := (status c, writes c, asyncWriteChan c, msgID c).

(** A call that only gives up on waiters or takes a response. *)
Definition settles c c' : Prop :=
  outside c' = outside c /\
  forall p v', heap c' !! p = Some v' -> exists v, heap c !! p = Some v /\ shut v v'.

Lemma settles_refl c : settles c c.
Proof. split; [done|]. intros p v Hp. exists v. split; [done|]. split; [done|by left]. Qed.

Lemma answers_settles c c' asked fs : settles c c' -> answers c asked fs -> answers c' asked fs.
Proof. intros [Ho Hh]. apply answers_shut; [|done]. by injection Ho. Qed.

Lemma gc_one_outside now o kv : preserves (fun c => outside c = o) (gc_one (E:=E) now kv).
Proof.
  assert (Hw : forall f, (forall c, outside (f c) = outside c) -> preserves (fun c => outside c = o) (modify f)).
  { intros f Hf. apply preserves_modify. intros c <-. apply Hf. }
  assert (Ht : forall p, preserves (fun c => outside c = o) (the_waiter (E:=E) p)).
  { intros p c Hc. unfold the_waiter. by destruct (heap c !! p). }
  unfold gc_one, close_waiter, put_waiter.
  repeat first [apply preserves_bind; [|intros ?] | apply Ht | apply preserves_gets | apply preserves_lift
    | apply preserves_ret | apply Hw; done | case_match].
Qed.

Lemma gc_settles now c : client_ok c -> settles c (gc_turn now c).1.
Proof.
  intros Hc. split.
  - apply (preserves_bind (fun c' => outside c' = outside c)); [apply preserves_gets| |done].
    intros m. apply preserves_range. intros kv. apply gc_one_outside.
  - destruct (gc_turn_spec now c Hc) as (c' & -> & _ & _ & Hh). intros p v'. cbn [fst]. rewrite Hh.
    destruct (heap c !! p) as [v|]; [|done]. cbn. intros [= <-]. exists v. split; [done|].
    unfold swept. destruct (negb (w_closed v) && expired now c v); split; try done; [|by left].
    right. split; [done|by left].
Qed.

(** A waiter's response is what was asked, whether the waiter is still
    registered or was given up meanwhile. *)
Lemma Wait_answer c asked fs p v d :
  client_ok c -> answers c asked fs -> heap c !! p = Some v -> w_data v = Some d ->
  exists x c', asked !! p = Some x /\ Wait p WaitData c = (c', Ret (x, None)) /\ settles c c' /\
    forall id q, waiter c !! id = Some q -> q <> p -> waiter c' !! id = Some q.
Proof.
  intros Hc Ha Ep Ed. destruct (an_held _ _ _ Ha p v d Ep Ed) as (x & Ex & ->).
  destruct (ok_heap c Hc p v Ep) as (_ & Hr & _). destruct (ok_msgID c Hc).
  assert (Hset : forall m v', shut v v' -> settles c (with_waiter m (with_heap (<[p:=v']> (heap c)) c))).
  { intros m v' Hs. split; [done|]. intros q u. cbn [heap with_waiter with_heap]. rewrite lookup_insert_Some.
    intros [[<- <-]|[_ Eq]]; [by exists v|]. exists u. split; [done|]. split; [done|by left]. }
  exists x. destruct (w_closed v) eqn:Ho.
  - exists (with_waiter (waiter c) (with_heap (<[p:=with_data None v]> (heap c)) c)). split; [done|].
    split; [|split; [apply Hset; split; [done|]; right; split; [exact Ho|by right]|done]].
    cbn [Wait]. rewrite (bind_ret _ _ _ c v) by (unfold the_waiter; by rewrite Ep). rewrite Ed.
    set (c1 := with_heap _ _). change (with_waiter (waiter c) c1) with c1.
    rewrite (bind_ret _ _ _ c1 tt) by done.
    destruct (response_id (w_msgID v) x ltac:(lia)) as [E8 Eid].
    rewrite (bind_ret _ _ _ c1 (le_bytes 8 (u64 (w_msgID v)))) by (unfold lift; by rewrite E8). rewrite Eid.
    rewrite (bind_ret _ _ _ c1 tt).
    + by rewrite (bind_ret _ _ _ c1 x) by (unfold lift; by rewrite response_payload).
    + unfold delWaiter. erewrite bind_ret by reflexivity. change (waiter c1) with (waiter c).
      destruct (waiter c !! w_msgID v) as [q|] eqn:Eq; [|done]. exfalso.
      destruct (ok_map c Hc _ q Eq) as (u & Eu & Hid & Hop).
      assert (q = p) as -> by (by eapply (an_unique _ _ _ Ha)). congruence.
  - eexists. split; [done|]. split; [by apply (Wait_response c (w_msgID v) p v x)|].
    split.
    + unfold closed_at. cbn [heap with_heap waiter]. rewrite insert_insert_eq. apply Hset.
      split; [done|]. right. split; [done|by right].
    + intros id q Hq Hne. cbn [waiter closed_at with_waiter with_heap]. rewrite lookup_delete_ne; [done|].
      intros <-. rewrite (ok_open c Hc p v Ep Ho) in Hq. congruence.
Qed.

(** Whatever [Wait] does. *)
Lemma Wait_settles c asked fs p sel :
  client_ok c -> answers c asked fs -> settles c (Wait p sel c).1.
Proof.
  intros Hc Ha. destruct sel; [|apply settles_refl]. destruct (heap c !! p) as [v|] eqn:Ep.
  - destruct (w_data v) as [d|] eqn:Ed.
    + by destruct (Wait_answer c asked fs p v d Hc Ha Ep Ed) as (x & c' & _ & -> & Hs & _).
    + cbn [Wait]. rewrite (bind_ret _ _ _ c v) by (unfold the_waiter; by rewrite Ep). rewrite Ed.
      destruct (w_closed v); apply settles_refl.
  - cbn [Wait]. unfold bind, the_waiter. rewrite Ep. apply settles_refl.
Qed.

(** ** An answer arrives *)
Section Deliver.
Variable callbacks : list (bytes -> M E unit).
Hypothesis callbacks_return : forall f x e, f ∈ callbacks -> (f x e).2 = Ret tt.

Lemma answers_pop c asked f fs :
  client_ok c -> 0 < f.1 -> answers c asked (f :: fs) ->
  exists c', client_act callbacks f.1 f.2 c = (c', Ret tt) /\ client_ok c' /\ answers c' asked fs /\
    outside c' = outside c /\ waiter c' = waiter c.
Proof using callbacks_return.
  intros Hc Hid Ha. destruct (ok_msgID c Hc) as [Hm1 Hm2].
  pose proof (draws_client_act callbacks f.1 f.2 c Hc ltac:(lia)) as [Hc' _].
  assert (Hrest : forall g, g ∈ fs -> g ∈ f :: fs) by (intros g Hg; by right).
  destruct (waiter c !! f.1) as [p|] eqn:Ew.
  - destruct (ok_map c Hc _ p Ew) as (v & Ep & Hv & Ho).
    destruct (ok_heap c Hc p v Ep) as (_ & Hr & _).
    destruct (an_own _ _ _ Ha p v f Ep ltac:(by left) ltac:(done)) as [Eask Ed].
    destruct (client_act_response callbacks c f.1 p v f.2 callbacks_return ltac:(lia) Ew Ep Ho Ed) as [e Ea].
    rewrite Ea in Hc' |- *. eexists. split; [done|]. split; [exact Hc'|]. split; [|split; done].
    eapply answers_ext; [done|done|]. set (v' := with_data _ v).
    split; cbn [msgID heap with_heap with_env].
    + intros g Hg. apply (an_ids _ _ _ Ha), Hrest, Hg.
    + pose proof (an_once _ _ _ Ha) as Hn. rewrite drawn_cons in Hn. by apply NoDup_app in Hn as (_ & _ & ?).
    + intros q q' u u'. rewrite !lookup_insert_Some.
      intros [[<- <-]|[Hq Eq]] [[<- <-]|[Hq' Eq']] Hu; try done; by eapply (an_unique _ _ _ Ha).
    + intros q u g. rewrite lookup_insert_Some. intros [[<- <-]|[Hq Eq]] Hg Hu.
      * exfalso. cbn in Hu. pose proof (an_once _ _ _ Ha) as Hn. rewrite drawn_cons in Hn.
        apply NoDup_app in Hn as (_ & Hn & _). apply (Hn g.1); [|apply drawn_in; [done|lia]].
        rewrite Hu, Hv. apply drawn_in; [by left|lia].
      * eapply (an_own _ _ _ Ha); [done|by apply Hrest|done].
    + intros q u d. rewrite lookup_insert_Some. intros [[<- <-]|[Hq Eq]] Hd; [|by eapply (an_held _ _ _ Ha)].
      cbn in Hd. injection Hd as <-. exists f.2. split; [done|]. cbn. by rewrite Hv.
    + intros q u. rewrite lookup_insert_Some. intros [[<- <-]|[Hq Eq]] Hop Hd; [done|].
      destruct (an_wait _ _ _ Ha q u Eq Hop Hd) as (x & Ex & Hx). exists x. split; [done|].
      apply elem_of_cons in Hx as [Hx|]; [|done]. exfalso. apply Hq.
      eapply (an_unique _ _ _ Ha p q v u); [done..|]. rewrite Hv, <- Hx. done.
  - assert (Ha' : answers c asked fs).
    { split.
      + intros g Hg. apply (an_ids _ _ _ Ha), Hrest, Hg.
      + pose proof (an_once _ _ _ Ha) as Hn. rewrite drawn_cons in Hn. by apply NoDup_app in Hn as (_ & _ & ?).
      + apply (an_unique _ _ _ Ha).
      + intros p v g Hp Hg. apply (an_own _ _ _ Ha p v g Hp), Hrest, Hg.
      + apply (an_held _ _ _ Ha).
      + intros p v Hp Ho Hd. destruct (an_wait _ _ _ Ha p v Hp Ho Hd) as (x & Ex & Hx). exists x. split; [done|].
        apply elem_of_cons in Hx as [Hx|]; [|done]. exfalso. pose proof (ok_open c Hc p v Hp Ho) as Hreg.
        rewrite <- Hx in Ew. cbn in Ew. congruence. }
    assert (exists e, client_act callbacks f.1 f.2 c = (with_env e c, Ret tt)) as [e Ea].
    { unfold client_act. rewrite (bind_ret _ _ _ c tt); cycle 1.
      { destruct (1 <? f.1); [|done]. cbv zeta. erewrite bind_ret by reflexivity. by rewrite Ew. }
      destruct (decide (f.2 = keepalivePackage)); [exists (env c); by destruct c|]. by apply callbacks_env. }
    rewrite Ea in Hc' |- *. eexists. split; [done|]. split; [exact Hc'|]. split; [|split; done]. by apply (answers_ext c).
Qed.

(** A run of packets. *)
Lemma answers_run asked fs1 : forall c fs2,
  client_ok c -> Forall packet_ok fs1 -> answers c asked (fs1 ++ fs2) ->
  let c' := foldl (after (client_act callbacks)) c fs1 in
  acts (client_act callbacks) c fs1 /\ client_ok c' /\ answers c' asked fs2 /\ outside c' = outside c /\ waiter c' = waiter c.
Proof using callbacks_return.
  induction fs1 as [|f fs1 IH]; intros c fs2 Hc Hok Ha; [done|]. apply Forall_cons in Hok as [[Hf _] Hok].
  destruct (answers_pop c asked f (fs1 ++ fs2) Hc ltac:(lia) Ha) as (c1 & E1 & Hc1 & Ha1 & Ho1 & Hw1).
  assert (E1' : after (client_act callbacks) c f = c1) by (unfold after; by rewrite E1).
  cbn [foldl acts]. rewrite E1', E1.
  destruct (IH c1 fs2 Hc1 Hok Ha1) as (H1 & H2 & H3 & H4 & H5). cbv zeta in *. split_and!; try done; [by rewrite H4|by rewrite H5].
Qed.
End Deliver.
End Answers.
