(* ===== verification/SyncClient.v ===== *)
(** * The synchronous client of the agent's protocol

    [src/agent/client_sync.go]: a client that sends a packet and waits for
    one answer.  The connection is the part of [net.Conn] the code uses: its
    two deadlines, whether it is closed, and a record of the calls with the
    deadline in force.  What the network answers are inputs. *)
From S2P Require Import Prelude.
From S2P Require Import GoSem.
From S2P Require Import Framing.
From S2P Require Import Codec.
From S2P Require Import AgentRecv.
From S2P Require Import AgentClient.
Set Default Proof Using "Type".

(** ** Data *)

(** [ICodec] and the implementation of [codec.go]. *)
Record ICodec := mkICodec {
  codec_Encode : Z -> bytes -> bytes;
  codec_Decode : slice byte -> outcome decoded
}.
Definition the_Codec : ICodec := mkICodec Encode Decode.

Record NetConn := mkConn {
  write_deadline : option Z;              (* [None]: the zero time *)
  read_deadline : option Z;
  conn_closed : bool;
  written : list (bytes * option Z);      (* what was written, under which deadline *)
  reads : list (option Z)                 (* the deadlines of the reads *)
}.
Definition fresh_conn : NetConn := mkConn None None false [] [].

Definition SetWriteDeadline (t : option Z) (n : NetConn) : NetConn :=
  mkConn t (read_deadline n) (conn_closed n) (written n) (reads n).
Definition SetReadDeadline (t : option Z) (n : NetConn) : NetConn :=
  mkConn (write_deadline n) t (conn_closed n) (written n) (reads n).
Definition conn_Write (b : bytes) (n : NetConn) : NetConn :=
  mkConn (write_deadline n) (read_deadline n) (conn_closed n) (written n ++ [(b, write_deadline n)]) (reads n).
Definition conn_Read (n : NetConn) : NetConn :=
  mkConn (write_deadline n) (read_deadline n) (conn_closed n) (written n) (reads n ++ [read_deadline n]).
Definition conn_Close (n : NetConn) : NetConn :=
  mkConn (write_deadline n) (read_deadline n) true (written n) (reads n).

Record SyncClient := mkSyncClient {
  status : Z;
  conn : option NetConn;
  ip : bytes;
  port : Z;
  codec : ICodec;
  bufferSize : Z;
  writeTimeout : Z;
  readTimeout : Z;
  connectTimeout : Z
}.
Implicit Types c : SyncClient.

Definition with_status (s : Z) c : SyncClient :=
  mkSyncClient s (conn c) (ip c) (port c) (codec c) (bufferSize c) (writeTimeout c) (readTimeout c) (connectTimeout c).
Definition with_conn (n : option NetConn) c : SyncClient :=
  mkSyncClient (status c) n (ip c) (port c) (codec c) (bufferSize c) (writeTimeout c) (readTimeout c) (connectTimeout c).

(** ** Options *)
Definition SyncClientOption : Type := SyncClient -> SyncClient.
Definition SetSyncCoder (k : ICodec) : SyncClientOption := fun c =>
  mkSyncClient (status c) (conn c) (ip c) (port c) k (bufferSize c) (writeTimeout c) (readTimeout c) (connectTimeout c).
Definition SetSyncBufferSize (size : Z) : SyncClientOption := fun c =>
  mkSyncClient (status c) (conn c) (ip c) (port c) (codec c) size (writeTimeout c) (readTimeout c) (connectTimeout c).
Definition SetWriteTimeout (t : Z) : SyncClientOption := fun c =>
  mkSyncClient (status c) (conn c) (ip c) (port c) (codec c) (bufferSize c) t (readTimeout c) (connectTimeout c).
Definition SetReadTimeout (t : Z) : SyncClientOption := fun c =>
  mkSyncClient (status c) (conn c) (ip c) (port c) (codec c) (bufferSize c) (writeTimeout c) t (connectTimeout c).
Definition SetConnectTimeout (t : Z) : SyncClientOption := fun c =>
  mkSyncClient (status c) (conn c) (ip c) (port c) (codec c) (bufferSize c) (writeTimeout c) (readTimeout c) t.

Definition NewSyncClient (ip : bytes) (port : Z) (opts : list SyncClientOption) : SyncClient :=
  foldl (fun c f => f c) (mkSyncClient 0 None ip port the_Codec 4096 0 0 0) opts.

(** ** Operations *)
Definition connected c : bool := negb (Z.land (status c) statusConnect <=? 0).

(** A method of the connection; on a nil interface it panics. *)
Definition on_conn (f : NetConn -> NetConn) : M SyncClient unit := fun c =>
  match conn c with
  | Some n => (with_conn (Some (f n)) c, Ret tt)
  | None => (c, Panic)
  end.

(** [defer d] in front of [m]: [d] runs when [m] returns and when it panics. *)
Definition deferred {A} (d : M SyncClient unit) (m : M SyncClient A) : M SyncClient A := fun c =>
  match m c with
  | (c', Ret a) => (d ;; ret a) c'
  | (c', Panic) => (d ;; lift Panic) c'
  | r => r
  end.

Definition make_size (n : Z) : outcome Z := if n <? 0 then Panic else Ret n.

(** What [Read] stored in the buffer of [size] bytes, sliced to it. *)
Definition read_buffer (size : Z) (got : bytes) : slice byte :=
  mkSlice (take (Z.to_nat size) got ++ replicate (Z.to_nat size - length got) Byte.x00)
    (Nat.min (Z.to_nat size) (length got)).

(** [Send], its parts behind the two [defer]s first.  [wr] and [rd]: what
    [Write] and [Read] gave; [now1], [now2]: the clock when the deadlines are
    set. *)
Definition Send_receive (c : SyncClient) (rd : bytes * option goerr) : M SyncClient (bytes * option goerr) :=
  on_conn conn_Read ;;
  let buf := read_buffer (bufferSize c) rd.1 in
  if bool_decide (is_Some rd.2) || (slen buf <=? 0) then ret ([], rd.2)
  else let! r := lift (codec_Decode (codec c) buf) in
       let '(_, res, _, err) := r in ret (res, err).

Definition Send_transmit (c : SyncClient) (data : bytes) (now2 : Z) (wr : Z * option goerr)
    (rd : bytes * option goerr) : M SyncClient (bytes * option goerr) :=
  on_conn (conn_Write (codec_Encode (codec c) 0 data)) ;;
  if (wr.1 <=? 0) || bool_decide (is_Some wr.2) then ret ([], wr.2) else
  lift (make_size (bufferSize c)) ;;
  if 0 <? readTimeout c
  then on_conn (SetReadDeadline (Some (now2 + readTimeout c))) ;;
       deferred (on_conn (SetReadDeadline None)) (Send_receive c rd)
  else Send_receive c rd.

Definition Send (data : bytes) (now1 now2 : Z) (wr : Z * option goerr) (rd : bytes * option goerr) :
    M SyncClient (bytes * option goerr) :=
  let! c := gets id in
  if negb (connected c) then ret ([], Some ErrNotConnect) else
  if 0 <? writeTimeout c
  then on_conn (SetWriteDeadline (Some (now1 + writeTimeout c))) ;;
       deferred (on_conn (SetWriteDeadline None)) (Send_transmit c data now2 wr rd)
  else Send_transmit c data now2 wr rd.

(** [dial]: what dialling the address with the timeout gave. *)
Definition Connect (dial : bytes -> Z -> option goerr) : M SyncClient (option goerr) :=
  let! c := gets id in
  if connected c then ret (Some ErrIsConnected) else
  match dial (ip c ++ gostr ":" ++ gostr (pretty.pretty (port c))) (connectTimeout c) with
  | Some e => ret (Some e)
  | None =>
      let! c := gets id in
      (if Z.land (status c) statusConnect <=? 0
       then modify (with_status (Z.lor (status c) statusConnect)) else ret tt) ;;
      modify (with_conn (Some fresh_conn)) ;;
      ret None
  end.

Definition Disconnect : M SyncClient unit :=
  let! c := gets id in
  if negb (connected c) then ret tt else
  on_conn conn_Close ;;
  let! c := gets id in
  if 0 <? Z.land (status c) statusConnect
  then modify (with_status (Z.lxor (status c) statusConnect)) else ret tt.

(** ** Deadlines and status *)

(** A client that is connected has a connection, an open one, and no call
    has left a deadline on it. *)
Definition idle_conn (n : NetConn) : Prop := write_deadline n = None /\ read_deadline n = None.
Record sync_ok (c : SyncClient) : Prop := {
  sy_conn : connected c = true -> exists n, conn c = Some n /\ conn_closed n = false;
  sy_idle n : conn c = Some n -> idle_conn n;
  sy_status : status c = 0 \/ status c = statusConnect
}.

(** The codec returns or panics. *)
Definition codec_ends (k : ICodec) : Prop := forall b,
  (exists r, codec_Decode k b = Ret r) \/ codec_Decode k b = Panic.

(** What a call has done to the connection: one write under the write
    deadline, at most one read under the read deadline. *)
Record used (c : SyncClient) (data : bytes) (now1 now2 : Z) (n n' : NetConn) : Prop := {
  us_idle : idle_conn n';
  us_closed : conn_closed n' = conn_closed n;
  us_written : written n' = written n ++ [(codec_Encode (codec c) 0 data,
    if 0 <? writeTimeout c then Some (now1 + writeTimeout c) else None)];
  us_reads : reads n' = reads n \/
    reads n' = reads n ++ [if 0 <? readTimeout c then Some (now2 + readTimeout c) else None]
}.

Lemma with_conn_conn c n n' : with_conn n (with_conn n' c) = with_conn n c.
Proof. done. Qed.

Lemma bind_on_conn {A} f (k : unit -> M SyncClient A) c n :
  bind (on_conn f) k (with_conn (Some n) c) = k tt (with_conn (Some (f n)) c).
Proof. done. Qed.

(** A call that has come to its end, with the connection it left. *)
Definition ended {A} (r : outcome A) : Prop := r = Panic \/ exists a, r = Ret a.

Lemma ended_ret {A} (a : A) : ended (Ret a).
Proof. right. by exists a. Qed.
#[local] Hint Resolve ended_ret : core.

Lemma deferred_conn {A} f (m : M SyncClient A) c0 c n r :
  m c0 = (with_conn (Some n) c, r) -> ended r ->
  deferred (on_conn f) m c0 = (with_conn (Some (f n)) c, r).
Proof. intros E Hr. unfold deferred. rewrite E. by destruct Hr as [->|[a ->]]; rewrite bind_on_conn. Qed.

Section Calls.
Context (c : SyncClient) (Hk : codec_ends (codec c)).

Lemma receive_eq rd n : exists r,
  Send_receive c rd (with_conn (Some n) c) = (with_conn (Some (conn_Read n)) c, r) /\ ended r.
Proof using Hk.
  unfold Send_receive. rewrite bind_on_conn. cbv zeta. destruct (_ || _); [by eauto|].
  destruct (Hk (read_buffer (bufferSize c) rd.1)) as [[[[[id res] pos] err] E]|E].
  - rewrite (bind_ret _ _ _ (with_conn (Some (conn_Read n)) c) (id, res, pos, err)) by (unfold lift; by rewrite E).
    by eauto.
  - rewrite (bind_panic _ _ _ (with_conn (Some (conn_Read n)) c)) by (unfold lift; by rewrite E).
    exists Panic. split; [done|by left].
Qed.

Lemma transmit_eq data now2 wr rd n : read_deadline n = None -> exists n' r,
  Send_transmit c data now2 wr rd (with_conn (Some n) c) = (with_conn (Some n') c, r) /\ ended r /\
  write_deadline n' = write_deadline n /\ read_deadline n' = None /\ conn_closed n' = conn_closed n /\
  written n' = written n ++ [(codec_Encode (codec c) 0 data, write_deadline n)] /\
  (reads n' = reads n \/
   reads n' = reads n ++ [if 0 <? readTimeout c then Some (now2 + readTimeout c) else None]).
Proof using Hk.
  intros Hn. unfold Send_transmit. rewrite bind_on_conn.
  set (n1 := conn_Write _ n). destruct (_ || _).
  { exists n1, (Ret ([], wr.2)). split_and!; try done; by left. }
  unfold make_size. destruct (bufferSize c <? 0).
  { exists n1, Panic. split_and!; try done; by left. }
  erewrite bind_ret by reflexivity. destruct (0 <? readTimeout c).
  - rewrite bind_on_conn.
    destruct (receive_eq rd (SetReadDeadline (Some (now2 + readTimeout c)) n1)) as (r & Er & Hr).
    rewrite (deferred_conn _ _ _ _ _ _ Er Hr). do 2 eexists. split; [done|]. split_and!; try done. by right.
  - destruct (receive_eq rd n1) as (r & Er & Hr). rewrite Er.
    do 2 eexists. split; [done|]. split_and!; try done. right. unfold n1. cbn. by rewrite Hn.
Qed.

Lemma sync_Send_eq data now1 now2 wr rd n :
  connected c = true -> conn c = Some n -> idle_conn n -> exists n' r,
  Send data now1 now2 wr rd c = (with_conn (Some n') c, r) /\ ended r /\ used c data now1 now2 n n'.
Proof using Hk.
  intros Hc En [Hw Hr]. assert (Ec : c = with_conn (Some n) c) by (destruct c; by cbn in *; subst).
  unfold Send. erewrite bind_ret by reflexivity. cbn [id]. rewrite Hc. cbn [negb].
  destruct (0 <? writeTimeout c) eqn:Ew.
  - replace (bind (on_conn (SetWriteDeadline (Some (now1 + writeTimeout c)))) _ c) with
      (deferred (on_conn (SetWriteDeadline None)) (Send_transmit c data now2 wr rd)
         (with_conn (Some (SetWriteDeadline (Some (now1 + writeTimeout c)) n)) c))
      by (unfold bind, on_conn at 2; by rewrite En).
    destruct (transmit_eq data now2 wr rd (SetWriteDeadline (Some (now1 + writeTimeout c)) n) Hr)
      as (n' & r & E & He & H1 & H2 & H3 & H4 & H5).
    rewrite (deferred_conn _ _ _ _ _ _ E He). do 2 eexists. split_and!; [done|done|].
    split; [by split|done| |done]. cbn. by rewrite H4, Ew.
  - destruct (transmit_eq data now2 wr rd n Hr) as (n' & r & E & He & H1 & H2 & H3 & H4 & H5).
    rewrite <- Ec in E. rewrite E. exists n', r. split_and!; [done|done|].
    split; [by split; congruence|done| |done]. by rewrite H4, Hw, Ew.
Qed.
End Calls.

(** Everything a program does with a client. *)
Inductive sync_event :=
  | SySend (data : bytes) (now1 now2 : Z) (wr : Z * option goerr) (rd : bytes * option goerr)
  | SyConnect (dial : bytes -> Z -> option goerr)
  | SyDisconnect.
Definition on_sync_event (e : sync_event) : M SyncClient unit :=
  match e with
  | SySend data now1 now2 wr rd => Send data now1 now2 wr rd ;; ret tt
  | SyConnect dial => Connect dial ;; ret tt
  | SyDisconnect => Disconnect
  end.

Lemma sync_new ip port opts :
  Forall (fun f : SyncClientOption => forall c, status (f c) = status c /\ conn (f c) = conn c) opts ->
  sync_ok (NewSyncClient ip port opts).
Proof.
  intros Ho. assert (H : status (NewSyncClient ip port opts) = 0 /\ conn (NewSyncClient ip port opts) = None).
  { unfold NewSyncClient. set (c0 := mkSyncClient _ _ _ _ _ _ _ _ _).
    assert (H0 : status c0 = 0 /\ conn c0 = None) by done. clearbody c0. revert c0 H0.
    induction Ho as [|f opts Hf _ IH]; intros c0 [H1 H2]; [done|]. apply IH.
    destruct (Hf c0) as [-> ->]. done. }
  destruct H as [Hs Hn]. split; [unfold connected; rewrite Hs; done|by rewrite Hn|by left].
Qed.

Lemma connected_status c : status c = 0 \/ status c = statusConnect ->
  connected c = true <-> status c = statusConnect.
Proof. unfold connected. by intros [-> | ->]. Qed.

Lemma sync_event_ok e c : codec_ends (codec c) -> sync_ok c ->
  sync_ok (on_sync_event e c).1 /\ codec (on_sync_event e c).1 = codec c /\ ended (on_sync_event e c).2.
Proof.
  intros Hk Hc. destruct Hc as [Hconn Hidle Hs].
  destruct e as [data now1 now2 wr rd|dial|]; cbn [on_sync_event].
  - destruct (connected c) eqn:Ec; cycle 1.
    { unfold Send, bind, gets. cbn [id]. rewrite Ec. cbn. split_and!; [|done|apply ended_ret].
      split; [by rewrite Ec|done..]. }
    destruct (Hconn eq_refl) as (n & En & Hcl).
    destruct (sync_Send_eq c Hk data now1 now2 wr rd n Ec En (Hidle n En)) as (n' & r & E & Hr & [Hi Hn' _ _]).
    unfold bind. rewrite E. assert (sync_ok (with_conn (Some n') c)).
    { split; cbn; [intros _; exists n'; split; [done|congruence]|by intros ? [= <-]|done]. }
    destruct Hr as [->|[a ->]]; cbn; (split_and!; [done|done|]); [by left|apply ended_ret].
  - unfold Connect, bind, gets. cbn [id]. destruct (connected c) eqn:Ec; cbn.
    { split_and!; [by split; [rewrite Ec|..]|done|apply ended_ret]. }
    destruct (dial _ _); cbn; [split_and!; [by split; [rewrite Ec|..]|done|apply ended_ret]|].
    assert (status c = 0) as E0 by (destruct Hs as [|E1]; [done|]; unfold connected in Ec; by rewrite E1 in Ec).
    rewrite E0. cbn. split_and!; [|done|apply ended_ret]. split; cbn; [by exists fresh_conn| |by right].
    intros n [= <-]. done.
  - unfold Disconnect, bind, gets. cbn [id]. destruct (connected c) eqn:Ec; cbn; cycle 1.
    { split_and!; [by split; [rewrite Ec|..]|done|apply ended_ret]. }
    destruct (Hconn eq_refl) as (n & En & _). unfold on_conn. rewrite En. cbn.
    apply connected_status in Ec; [|done]. rewrite Ec. cbn. split_and!; [|done|apply ended_ret].
    split; cbn; [done| |by left]. intros n' [= <-]. apply (Hidle n En).
Qed.

(** C23: Along every run of calls on a client: it counts as connected only with an
    open connection, no call dereferences a missing one, and no call leaves a
    deadline behind, whether it returns an answer, an error or panics. *)
Theorem sync_invariant ip port opts evs :
  Forall (fun f : SyncClientOption => forall c, status (f c) = status c /\ conn (f c) = conn c) opts ->
  codec_ends (codec (NewSyncClient ip port opts)) ->
  sync_ok (run on_sync_event evs (NewSyncClient ip port opts)).
Proof.
  intros Ho. pose proof (sync_new ip port opts Ho) as Hc. revert Hc. generalize (NewSyncClient ip port opts).
  induction evs as [|e evs IH]; intros c Hc Hk; [done|].
  destruct (sync_event_ok e c Hk Hc) as (H1 & H2 & _). cbn [run foldl]. apply IH; [done|]. by rewrite H2.
Qed.

(** A call writes its packet once, under the configured write deadline, and
    reads at most once, under the configured read deadline; both are cleared
    when it ends, whatever the network did. *)
Theorem Send_deadlines c data now1 now2 wr rd n :
  codec_ends (codec c) -> connected c = true -> conn c = Some n -> idle_conn n ->
  exists n' r, Send data now1 now2 wr rd c = (with_conn (Some n') c, r) /\ used c data now1 now2 n n' /\
    (r = Panic \/ exists a, r = Ret a).
Proof.
  intros Hk Hc En Hi. destruct (sync_Send_eq c Hk data now1 now2 wr rd n Hc En Hi) as (n' & r & E & Hr & Hu). eauto.
Qed.

(** ** Answers *)
Lemma the_Codec_ends : codec_ends the_Codec.
Proof.
  intros b. cbn. pose proof (Decode_fuel b). destruct (Decode b) as [r| | |] eqn:E; [by left; exists r|by right| |done].
  exfalso. revert E. unfold Decode, find_start, reslice. repeat (case_match; cbn [obind]; try done).
Qed.

Lemma read_buffer_elems size got : len got <= size -> elems (read_buffer size got) = got.
Proof.
  intros Hl. unfold elems, read_buffer, len in *. cbn [sl_arr sl_len].
  rewrite Nat.min_r, (take_ge got) by lia. apply take_app_length.
Qed.
Lemma read_buffer_wf size got : len got <= size -> swf (read_buffer size got).
Proof.
  intros Hl. unfold swf, read_buffer, len in *. cbn [sl_arr sl_len].
  rewrite length_app, length_take, length_replicate. lia.
Qed.

Section Answers.
Context (c : SyncClient) (Hconn : connected c = true).

(** What one [Read] gave, decoded. *)
Lemma Send_result data now1 now2 k rd n r :
  conn c = Some n -> idle_conn n -> 0 < k -> 0 <= bufferSize c -> 0 < len rd <= bufferSize c ->
  codec_Decode (codec c) (read_buffer (bufferSize c) rd) = Ret r ->
  (Send data now1 now2 (k, None) (rd, None) c).2 = Ret (r.1.1.2, r.2).
Proof using Hconn.
  intros En [Hw Hr] Hk Hb Hl Hd. destruct r as [[[i res] pos] err].
  assert (Hrecv : forall n, Send_receive c (rd, None) (with_conn (Some n) c) =
    (with_conn (Some (conn_Read n)) c, Ret (res, err))).
  { intros n0. unfold Send_receive. rewrite bind_on_conn. cbn [fst snd]. cbv zeta.
    rewrite bool_decide_false by (by intros [? ?]). cbn [orb].
    destruct (Z.leb_spec (slen (read_buffer (bufferSize c) rd)) 0) as [Hs|_].
    { unfold slen, read_buffer, len in *. cbn [sl_len] in Hs. lia. }
    by rewrite (bind_ret _ _ _ (with_conn (Some (conn_Read n0)) c) (i, res, pos, err)) by (unfold lift; by rewrite Hd). }
  assert (Htrans : forall n, exists n', Send_transmit c data now2 (k, None) (rd, None) (with_conn (Some n) c) =
    (with_conn (Some n') c, Ret (res, err))).
  { intros n0. unfold Send_transmit. rewrite bind_on_conn. cbn [fst snd].
    rewrite bool_decide_false by (by intros [? ?]). destruct (Z.leb_spec k 0); [lia|]. cbn [orb].
    unfold make_size. destruct (Z.ltb_spec (bufferSize c) 0); [lia|]. erewrite bind_ret by reflexivity.
    destruct (0 <? readTimeout c); [|by eexists].
    rewrite bind_on_conn, (deferred_conn _ _ _ _ _ _ (Hrecv _) (ended_ret _)). by eexists. }
  unfold Send. erewrite bind_ret by reflexivity. cbn [id]. rewrite Hconn. cbn [negb].
  assert (Ec : c = with_conn (Some n) c) by (destruct c; by cbn in *; subst).
  destruct (0 <? writeTimeout c).
  - rewrite (bind_ret _ _ _ (with_conn (Some (SetWriteDeadline (Some (now1 + writeTimeout c)) n)) c) tt)
      by (unfold on_conn; by rewrite En).
    destruct (Htrans (SetWriteDeadline (Some (now1 + writeTimeout c)) n)) as [n' E].
    by rewrite (deferred_conn _ _ _ _ _ _ E (ended_ret _)).
  - destruct (Htrans n) as [n' E]. rewrite <- Ec in E. by rewrite E.
Qed.

Context (Hcodec : codec c = the_Codec).

(** An answer that comes in one read is returned, whatever its message id:
    also when it is a keepalive or answers an earlier request. *)
Theorem Send_answer data now1 now2 k n id res :
  conn c = Some n -> idle_conn n -> 0 < k -> frame_ok (id, res) -> len res + 16 <= bufferSize c ->
  (Send data now1 now2 (k, None) (Encode id res, None) c).2 = Ret (res, None).
Proof using Hcodec Hconn.
  intros En Hi Hk Hf Hb. assert (Hl : len (Encode id res) = len res + 16) by (unfold len; rewrite Encode_length; lia).
  rewrite (Send_result data now1 now2 k (Encode id res) n (id, res, len res + 16, None)); rewrite ?Hcodec; try done; [unfold len in *; lia|unfold len in *; lia|].
  apply (Decode_Encode _ id res []); [apply read_buffer_wf; lia|rewrite read_buffer_elems by lia; by rewrite app_nil_r|done|].
  destruct Hf as [_ Hf]. cbn [snd] in Hf. unfold slen, read_buffer. cbn [sl_len]. unfold len in *. lia.
Qed.

(** An answer that comes in two pieces is lost: the call returns nothing, and
    no error either. *)
Theorem Send_split_answer data now1 now2 k n id res p q :
  conn c = Some n -> idle_conn n -> 0 < k -> p ++ q = Encode id res -> (4 <= length p)%nat -> q <> [] ->
  len res + 16 <= PackageMaxLength -> len p <= bufferSize c ->
  (Send data now1 now2 (k, None) (p, None) c).2 = Ret ([], None).
Proof using Hcodec Hconn.
  intros En Hi Hk E H4 Hq Hm Hb.
  rewrite (Send_result data now1 now2 k p n no_packet); rewrite ?Hcodec; try done; [unfold len in *; lia|unfold len in *; lia|].
  apply (Decode_incomplete _ id res p q); try done; [by apply read_buffer_wf|by apply read_buffer_elems|destruct q; [done|cbn; lia]|].
  apply warm_split. exists (drop 4 p ++ replicate (Z.to_nat (bufferSize c) - length p) Byte.x00).
  unfold read_buffer. cbn [sl_arr]. rewrite take_ge by (unfold len in *; lia).
  rewrite <- (take_drop 4 p) at 1. rewrite <- (take_app_le p q), E by lia. by rewrite <- app_assoc.
Qed.
End Answers.

(** ** The example of a raw protocol ([src/agent/examples/sync/client_sync.go]) *)

(** Bytes as they are. *)
Definition raw_codec : ICodec := mkICodec (fun msgID msg => msg)
  (fun data => Ret (0, elems data, slen data, None)).

Definition Second : Z := 1000000000.
Definition raw_client : SyncClient :=
  NewSyncClient (gostr "14.215.177.39") 80
    [SetWriteTimeout (Second * 3); SetReadTimeout (Second * 3); SetConnectTimeout Second; SetSyncCoder raw_codec].

(** [main]: connect, [defer client.Disconnect()], send. *)
Definition raw_main (data : bytes) (dial : bytes -> Z -> option goerr) (now1 now2 : Z) (wr : Z * option goerr)
    (rd : bytes * option goerr) : M SyncClient (bytes * option goerr) :=
  let! err := Connect dial in
  match err with
  | Some e => ret ([], Some e)
  | None => deferred Disconnect (Send data now1 now2 wr rd)
  end.

(** The connection at the end of the example. *)
Definition raw_conn (data : bytes) (now1 now2 : Z) : NetConn :=
  mkConn None None true [(data, Some (now1 + Second * 3))] [Some (now2 + Second * 3)].

(** With a codec of its own the client speaks any protocol of one request and
    one short answer: the request goes out as it is, once, within three
    seconds, what the first read brings is the answer, and the connection is
    closed at the end. *)
Theorem raw_exchange data rd now1 now2 k :
  0 < k -> 0 < len rd <= 4096 ->
  raw_main data (fun _ _ => None) now1 now2 (k, None) (rd, None) raw_client =
    (with_status 0 (with_conn (Some (raw_conn data now1 now2)) raw_client), Ret (rd, None)).
Proof.
  intros Hk Hl. unfold raw_main. set (c := with_conn (Some fresh_conn) (with_status statusConnect raw_client)).
  rewrite (bind_ret _ _ _ c None) by reflexivity.
  assert (Erecv : forall n, Send_receive c (rd, None) (with_conn (Some n) c) = (with_conn (Some (conn_Read n)) c, Ret (rd, None))).
  { intros n. unfold Send_receive. rewrite bind_on_conn. cbn [fst snd]. cbv zeta.
    change (bufferSize c) with 4096. rewrite bool_decide_false by (by intros [? ?]). cbn [orb].
    destruct (Z.leb_spec (slen (read_buffer 4096 rd)) 0) as [Hs|_].
    { unfold slen, read_buffer, len in *. cbn [sl_len] in Hs. lia. }
    change (codec_Decode (codec c)) with (codec_Decode raw_codec). cbn [codec_Decode raw_codec].
    rewrite read_buffer_elems by lia. by erewrite bind_ret by reflexivity. }
  set (n1 := conn_Write data (SetWriteDeadline (Some (now1 + Second * 3)) fresh_conn)).
  assert (Etrans : Send_transmit c data now2 (k, None) (rd, None)
      (with_conn (Some (SetWriteDeadline (Some (now1 + Second * 3)) fresh_conn)) c) =
    (with_conn (Some (SetReadDeadline None (conn_Read (SetReadDeadline (Some (now2 + Second * 3)) n1)))) c, Ret (rd, None))).
  { unfold Send_transmit. rewrite bind_on_conn. cbn [fst snd]. rewrite bool_decide_false by (by intros [? ?]).
    destruct (Z.leb_spec k 0); [lia|]. cbn [orb]. change (make_size (bufferSize c)) with (Ret 4096).
    erewrite bind_ret by reflexivity. change (0 <? readTimeout c) with true. cbn iota.
    rewrite bind_on_conn. change (readTimeout c) with (Second * 3).
    by rewrite (deferred_conn _ _ _ _ _ _ (Erecv _) (ended_ret _)). }
  assert (Es : Send data now1 now2 (k, None) (rd, None) c =
    (with_conn (Some (mkConn None None false [(data, Some (now1 + Second * 3))] [Some (now2 + Second * 3)])) c, Ret (rd, None))).
  { unfold Send. erewrite bind_ret by reflexivity. cbn [id]. change (negb (connected c)) with false. cbn iota.
    change (0 <? writeTimeout c) with true. cbn iota. change (writeTimeout c) with (Second * 3).
    erewrite bind_ret by reflexivity.
    by rewrite (deferred_conn _ _ _ _ _ _ Etrans (ended_ret _)). }
  unfold deferred. rewrite Es. reflexivity.
Qed.

(** ** Instances *)
Section SyncInstances.
#[local] Definition a_client : SyncClient :=
  NewSyncClient (gostr "127.0.0.1") 9998 [SetWriteTimeout 3; SetReadTimeout 5; SetSyncBufferSize 64].
#[local] Definition up : SyncClient := (Connect (fun _ _ => None) a_client).1.

Lemma sync_invariant_witness :
  sync_ok (run on_sync_event
    [SyConnect (fun _ _ => None); SySend (gostr "a") 1 2 (17, None) (Encode 0 (gostr "b"), None); SyDisconnect] a_client).
Proof.
  apply (sync_invariant (gostr "127.0.0.1") 9998 [SetWriteTimeout 3; SetReadTimeout 5; SetSyncBufferSize 64]).
  - by repeat constructor.
  - exact the_Codec_ends.
Defined.

Lemma Send_deadlines_witness :
  exists n' r, Send (gostr "a") 1 2 (17, None) ([], Some ErrExternal) up = (with_conn (Some n') up, r) /\
    used up (gostr "a") 1 2 fresh_conn n' /\ (r = Panic \/ exists a, r = Ret a).
Proof.
  apply (Send_deadlines up (gostr "a") 1 2 (17, None) ([], Some ErrExternal) fresh_conn);
    [exact the_Codec_ends|reflexivity|reflexivity|by split].
Defined.

Lemma Send_answer_witness :
  (Send (gostr "a") 1 2 (17, None) (Encode 7 (gostr "b"), None) up).2 = Ret (gostr "b", None).
Proof. apply (Send_answer up eq_refl eq_refl (gostr "a") 1 2 17 fresh_conn 7 (gostr "b")); [done|by split|lia|small|small]. Defined.

Lemma Send_split_answer_witness :
  (Send (gostr "a") 1 2 (17, None) (take 16 (Encode 7 (gostr "b")), None) up).2 = Ret ([], None).
Proof.
  apply (Send_split_answer up eq_refl eq_refl (gostr "a") 1 2 17 fresh_conn 7 (gostr "b") _ (drop 16 (Encode 7 (gostr "b"))));
    [done|by split|lia|by rewrite take_drop|by vm_compute; lia|by vm_compute|small|small].
Defined.

Lemma raw_exchange_witness :
  raw_main (gostr "GET / HTTP/1.1") (fun _ _ => None) 5 6 (14, None) (gostr "HTTP/1.1 400 Bad Request", None) raw_client =
    (with_status 0 (with_conn (Some (raw_conn (gostr "GET / HTTP/1.1") 5 6)) raw_client),
     Ret (gostr "HTTP/1.1 400 Bad Request", None)).
Proof. apply (raw_exchange (gostr "GET / HTTP/1.1") (gostr "HTTP/1.1 400 Bad Request") 5 6 14); [lia|]. small. Defined.
End SyncInstances.
