(* ===== verification/AgentOptions.v ===== *)
(** * The options of the agent's client and server

    [ClientOption] of [src/agent/client.go] and [TCPServerOption] of
    [src/agent/server.go], what the size of the read buffer means for the
    receive loop, and what a connection leaves behind for the next one. *)
From S2P Require Import Prelude.
From S2P Require Import GoSem.
From S2P Require Import Framing.
From S2P Require Import Codec.
From S2P Require Import AgentRecv.
From S2P Require Import AgentClient.
From S2P Require SyncClient.
From S2P Require AgentServer.
Set Default Proof Using "Type".

(** ** The client's options *)
Section Options.
Context {E : Type}.

(** A client with what its options set. *)
Record settings := mkSettings {
  bufferSize : Z;
  onMessageCallback : list (bytes -> M E unit);
  coder : SyncClient.ICodec;
  client : Client E
}.
Definition ClientOption : Type := settings -> settings.

Definition SetOnMessage (f : list (bytes -> M E unit)) : ClientOption := fun s =>
  mkSettings (bufferSize s) (onMessageCallback s ++ f) (coder s) (client s).
Definition SetCoder (k : SyncClient.ICodec) : ClientOption := fun s =>
  mkSettings (bufferSize s) (onMessageCallback s) k (client s).
Definition SetBufferSize (size : Z) : ClientOption := fun s =>
  mkSettings size (onMessageCallback s) (coder s) (client s).
Definition with_timeout (t : Z) (c : Client E) : Client E :=
  mkClient (status c) (writes c) (asyncWriteChan c) (msgID c) (waiter c) (heap c) (next_waiter c) t (env c).
Definition SetWaiterGlobalTimeout (t : Z) : ClientOption := fun s =>
  mkSettings (bufferSize s) (onMessageCallback s) (coder s) (with_timeout t (client s)).

Definition configured (opts : list ClientOption) (e : E) : settings :=
  foldl (fun s f => f s) (mkSettings 4096 [] SyncClient.the_Codec (NewClient e)) opts.

(** What [Read] puts into [make([]byte, bufferSize)] when [available] has
    arrived. *)
Definition read_into (size : Z) (available : bytes) : bytes := take (Z.to_nat size) available.
End Options.

(** ** The server's options *)

(** A server with what its options set. *)
Record server_settings := mkServerSettings {
  server_callbacks : list AgentServer.OnServerMessageFunc;
  server_codec : SyncClient.ICodec
}.
Definition TCPServerOption : Type := server_settings -> server_settings.
Definition SetOnServerMessage (f : list AgentServer.OnServerMessageFunc) : TCPServerOption := fun s =>
  mkServerSettings (server_callbacks s ++ f) (server_codec s).
Definition SetServerCodec (k : SyncClient.ICodec) : TCPServerOption := fun s =>
  mkServerSettings (server_callbacks s) k.

Definition server_configured (opts : list TCPServerOption) : server_settings :=
  foldl (fun s f => f s) (mkServerSettings [] SyncClient.the_Codec) opts.

(** The agent service's server. *)
Definition agent_settings : server_settings :=
  server_configured [SetOnServerMessage [AgentServer.onServerMessage]].

(** ** Small read buffers *)
Section Reading.
Context {E : Type} (callbacks : list (bytes -> M E unit)) (growcap : nat -> nat -> nat).

(** The loop of [readMessage] while a connection brings [pieces]: each is what
    had arrived when [Read] was called. *)
Definition read_all (size : Z) (pieces : list bytes) : M (slice byte * Client E) unit :=
  range pieces (fun p => readMessage_turn callbacks growcap (Some (read_into size p))).

(** A client whose read buffer is shorter than a packet header is deaf: every
    read is smaller than the header and is dropped, so whatever the leader
    sends and however it arrives, no callback is ever called. *)
Theorem small_buffer_deaf size pieces (c : Client E) :
  1 <= size <= 3 -> connected c = true -> Forall (fun p => p <> []) pieces ->
  read_all size pieces (empty_slice, c) = ((empty_slice, c), Ret tt).
Proof.
  intros Hs Hc Hp. induction Hp as [|p pieces Hp _ IH]; [done|]. unfold read_all in *. cbn [range].
  rewrite (bind_ret _ _ (empty_slice, c) (empty_slice, c) tt); [exact IH|].
  unfold readMessage_turn. erewrite bind_ret by reflexivity. cbn [snd]. rewrite Hc. cbn [negb].
  assert (Hl : (1 <= length (read_into size p) <= 3)%nat).
  { unfold read_into. rewrite length_take. destruct p; [done|]. cbn [length]. lia. }
  destruct (Z.leb_spec (len (read_into size p)) 0); [unfold len in *; lia|].
  unfold client_onMessage.
  apply (short_read_drops (HW:=client_host callbacks) (HL:=zoom_host_laws (client_act callbacks)) growcap (empty_slice, c));
    [done|exact Hl].
Qed.

(** ** The next connection *)

(** Bytes that complete a packet whose last part is not there yet. *)
Lemma Encode_tail id part lost more pre :
  pre ++ lost = Encode id (part ++ lost) -> length more = length lost -> pre ++ more = Encode id (part ++ more).
Proof.
  intros E0 Hl. rewrite Encode_header in E0 |- *. rewrite !app_assoc in E0. apply app_inv_tail in E0. subst pre.
  replace (len (part ++ more)) with (len (part ++ lost)) by (unfold len; rewrite !length_app; lia).
  by rewrite <- !app_assoc.
Qed.

(** A connection that is lost, the next one, and the first read from it. *)
Definition reconnection (more : bytes) : list client_event := [CDisconnect; CConnect None; CRead (Some more)].

(** C40: Disconnecting does not empty the receive buffer.  When a connection breaks
    inside a packet, the bytes received are completed with the first bytes of
    the next connection - to another leader, after a failover - and the
    callbacks get a packet nobody sent. *)
Theorem reconnect_mixes_leaders (b : slice byte) (c : Client E) id part lost more :
  swf b -> warm b -> elems b ++ lost = Encode id (part ++ lost) -> length more = length lost -> more <> [] ->
  packet_ok (id, part ++ more) -> status c = statusConnect ->
  (client_act callbacks id (part ++ more) c).2 = Ret tt ->
  exists b', range (reconnection more) (on_client_event callbacks growcap) (b, c) =
      ((b', (client_act callbacks id (part ++ more) c).1), Ret tt) /\ elems b' = [].
Proof.
  intros Hw Hwarm Eb Hm Hne Hok Hst Hact. pose proof (Encode_tail id part lost more (elems b) Eb Hm) as Em.
  destruct (onMessage_delivers (HW:=client_host callbacks) (HL:=zoom_host_laws (client_act callbacks)) growcap (b, c) more
    [(id, part ++ more)] [] [] []) as (b' & Er & _ & _ & Eb'); cbn [recvBuf_of client_host zoom_host fst]; try done.
  - apply warm_append; [done| |by left]. rewrite Em. apply (header_start_wire [(id, part ++ more)] _ []).
    unfold wire. cbn [map concat]. by rewrite !app_nil_r.
  - pose proof (f_equal (@length byte) Em) as Hlen. rewrite length_app, Encode_length in Hlen.
    rewrite (elems_length b Hw) in Hlen. destruct Hok as [_ Hmax]. cbn [snd] in Hmax. unfold slen, len in *. lia.
  - rewrite Em. unfold wire. cbn [map concat app]. by rewrite !app_nil_r.
  - exists b'. split; [|done]. cbn [range on_client_event].
    assert (Ed : Disconnect c = (with_status 0 c, Ret tt)).
    { unfold Disconnect. erewrite bind_ret by reflexivity. cbn [Datatypes.id]. unfold connected. rewrite Hst. unfold modify.
      change (negb (negb (Z.land statusConnect statusConnect <=? 0))) with false.
      change (0 <? Z.land statusConnect statusConnect) with true. cbv beta iota. by rewrite Hst. }
    unfold reconnection. cbn [range on_client_event]. rewrite (bind_ret _ _ (b, c) (b, with_status 0 c) tt); cycle 1.
    { unfold on_client, zoom. cbn [fst snd]. by rewrite Ed. }
    assert (Ec : (Connect (E:=E) None ;; ret tt) (with_status 0 c) = (c, Ret tt)).
    { destruct c. cbn in Hst. by subst. }
    rewrite (bind_ret _ _ (b, with_status 0 c) (b, c) tt); cycle 1.
    { unfold on_client, zoom. cbn [fst snd]. by rewrite Ec. }
    rewrite (bind_ret _ _ (b, c) (b', (client_act callbacks id (part ++ more) c).1) tt); [done|].
    unfold readMessage_turn. erewrite bind_ret by reflexivity. cbn [snd]. unfold connected. rewrite Hst.
    change (negb (negb (Z.land statusConnect statusConnect <=? 0))) with false. cbn iota.
    destruct (Z.leb_spec (len more) 0); [destruct more; [done|unfold len in *; cbn [length] in *; lia]|].
    unfold client_onMessage. rewrite Er. cbn [foldl]. unfold deliver_frame. by cbn.
Qed.
End Reading.

(** ** Concrete instances *)
Section OptionInstances.
#[local] Definition note (content : bytes) : M (list bytes) unit := modify (fun l => l ++ [content]).
#[local] Definition double (c n : nat) : nat := (2 * n)%nat.
#[local] Definition up : Client (list bytes) := with_status statusConnect (NewClient []).

Example configured_example :
  let s := configured [SetBufferSize 2; SetOnMessage [note]; SetWaiterGlobalTimeout 100; SetBufferSize 8] ([] : list bytes) in
  bufferSize s = 8 /\ length (onMessageCallback s) = 1%nat /\ waiterGlobalTimeout (client s) = 100.
Proof. done. Qed.

Lemma small_buffer_deaf_witness :
  read_all [note] double 3 [Encode 1 (gostr "pos"); gostr "x"] (empty_slice, up) = ((empty_slice, up), Ret tt).
Proof. apply small_buffer_deaf; [done|done|by repeat constructor]. Defined.

(** "leader one" breaks off after eight letters; the next leader's packet
    begins with a header. *)
#[local] Definition half : slice byte := sappend Byte.x00 double empty_slice (take 24 (Encode 1 (gostr "leader one"))).

Lemma reconnect_mixes_leaders_witness :
  exists b', range (reconnection (take 2 (Encode 1 (gostr "two"))))
      (on_client_event [note] double) (half, up) =
    ((b', AgentClient.with_env [gostr "leader o" ++ [Byte.xff; Byte.xff]] up), Ret tt).
Proof.
  destruct (reconnect_mixes_leaders [note] double half up 1 (gostr "leader o") (gostr "ne") (take 2 (Encode 1 (gostr "two"))))
    as (b' & E & _).
  - unfold swf. vm_compute. lia.
  - intros [|[|[|[|i]]]] Hi; try (by vm_compute); lia.
  - by vm_compute.
  - done.
  - done.
  - split; [done|]. by vm_compute.
  - done.
  - by vm_compute.
  - exists b'. rewrite E. reflexivity.
Defined.
End OptionInstances.
