(* ===== verification/Echo.v ===== *)
(** * The echo example: requests and answers over the network

    [src/agent/examples/server/server.go] is a server whose callback sends
    every packet back to its sender under the packet's id;
    [src/agent/examples/client/client.go] sends three requests, waits for the
    three answers and stops the program unless each is its request's data.
    Here the server of [AgentServer], the client of [AgentClient] and the two
    directions of their connection ([Link]) are put together: the bytes one end
    wrote reach the other in order and in pieces of any size, while both ends
    send their keepalives, the client sends in the background and gives up on
    old requests, and other clients come and go at the server. *)
From S2P Require Import Prelude.
From S2P Require Import GoSem.
From S2P Require Import Framing.
From S2P Require Import Codec.
From S2P Require Import AgentRecv.
From S2P Require Import AgentServer.
From S2P Require Import AgentClient.
From S2P Require Import AgentOptions.
From S2P Require Import Link.
From S2P Require Import Answers.
Set Default Proof Using "Type".

(** ** The two programs *)

(** The callback of the example's server. *)
Definition echo : OnServerMessageFunc := fun node msgID data => AgentServer.Send node msgID data.
Definition echo_server : server_settings := server_configured [SetOnServerMessage [echo]].

(** A write that is taken in full. *)
Definition in_full (data : bytes) : Z * option goerr := (len data + 16, None).

Section Echo.
Context {E : Type}.
Variable callbacks : list (bytes -> M E unit).
Variable growcap : nat -> nat -> nat.
(** The client's connection at the server. *)
Variable i : nat.

(** Both ends, how far each direction has been read, and what the client's
    program asked through each of its waiters. *)
Record world := mkWorld {
  srv : server;
  buf : slice byte;
  cli : Client E;
  up_read : nat;
  down_read : nat;
  asked : gmap nat bytes
}.

(** The bytes in flight: written at one end, not read at the other. *)
Definition up (w : world) : bytes := drop (up_read w) (concat (writes (cli w))).
Definition down (w : world) : bytes :=
  match nodes (srv w) !! i with
  | Some n => drop (down_read w) (concat (AgentServer.writes n))
  | None => []
  end.

Definition with_srv (s : server) (w : world) : world :=
  mkWorld s (buf w) (cli w) (up_read w) (down_read w) (asked w).
Definition with_cli (bc : slice byte * Client E) (w : world) : world :=
  mkWorld (srv w) bc.1 bc.2 (up_read w) (down_read w) (asked w).
Definition with_reads (u d : nat) (w : world) : world :=
  mkWorld (srv w) (buf w) (cli w) u d (asked w).
Definition with_asked (m : gmap nat bytes) (w : world) : world :=
  mkWorld (srv w) (buf w) (cli w) (up_read w) (down_read w) m.

(** A call at one end. *)
Definition at_server {A} (m : M server A) : M world A := fun w =>
  (with_srv (m (srv w)).1 w, (m (srv w)).2).
Definition at_client {A} (m : M (slice byte * Client E) A) : M world A := fun w =>
  (with_cli (m (buf w, cli w)).1 w, (m (buf w, cli w)).2).
Definition in_client {A} (m : M (Client E) A) : M world A := at_client (on_client m).

(** [w, _, _ := client.Send(data)]; the program knows what it asked. *)
Definition send (data : bytes) (now : Z) : M world (option nat) :=
  let! r := in_client (Send data now (in_full data)) in
  match r.1.1 with
  | Some p => modify (fun w => with_asked (<[p := data]> (asked w)) w) ;; ret (Some p)
  | None => ret None
  end.

(** [w.Wait(timeout)]; the method of a nil waiter panics. *)
Definition wait (p : option nat) (sel : wait_case) : M world (bytes * option goerr) :=
  match p with
  | Some p => in_client (Wait p sel)
  | None => lift Panic
  end.

(** *** What happens at the two ends and between them *)
Inductive event :=
  | ESend (data : bytes) (now : Z)           (* a request *)
  | EWait (p : nat) (sel : wait_case)        (* its answer *)
  | EWrite (data : bytes)
  | EKeepalive                               (* the loops of the client's [keep] *)
  | EAsync (data : bytes)
  | EAsyncTurn
  | ESweep (now : Z)
  | EServerTick                              (* the server's keepalive *)
  | EServerSend                              (* the sender of the connection *)
  | EOther (e : server_event)                (* the server's other connections *)
  | EUp (k : nat)                            (* the server reads [k] bytes *)
  | EDown (k : nat).                         (* the client reads [k] bytes *)

Definition on_event (e : event) : M world unit :=
  match e with
  | ESend data now => send data now ;; ret tt
  | EWait p sel => wait (Some p) sel ;; ret tt
  | EWrite data => in_client (Write data (in_full data)) ;; ret tt
  | EKeepalive => in_client (keepalive_turn (in_full keepalivePackage))
  | EAsync data => in_client (AsyncSend data)
  | EAsyncTurn =>
      let! w := gets id in
      in_client (async_turn (in_full (hd [] (asyncWriteChan (cli w)))))
  | ESweep now => in_client (gc_turn now)
  | EServerTick => at_server AgentServer.keepalive_turn
  | EServerSend =>
      let! w := gets id in
      let size := match nodes (srv w) !! i with Some n => length (hd [] (sendQueue n)) | None => 0%nat end in
      at_server (asyncSendService_turn growcap i (SelMsg (Some size))) ;; ret tt
  | EOther e => at_server (on_server_event growcap (server_callbacks echo_server) e)
  | EUp k =>
      let! w := gets id in
      at_server (AgentServer.readMessage_turn growcap (server_callbacks echo_server) i (RData (take k (up w)))) ;;
      modify (with_reads (up_read w + k) (down_read w))
  | EDown k =>
      let! w := gets id in
      at_client (readMessage_turn callbacks growcap (Some (take k (down w)))) ;;
      modify (with_reads (up_read w) (down_read w + k))
  end.

(** Data short enough for the receivers' buffers. *)
Definition fits (data : bytes) : bool := len data + 16 + 4096 <=? PackageMaxLength.

(** What another connection may do. *)
Definition elsewhere (e : server_event) : bool :=
  match e with
  | EvAccept _ => true
  | EvRead j _ | EvService j _ | EvSend j _ _ => bool_decide (j <> i)
  | EvBroadcast _ _ | EvKeepalive | EvClose => false
  end.

(** Requests are short and ids do not run out; reads are pieces of what is in
    flight. *)
Definition allowed (e : event) (w : world) : bool :=
  match e with
  | ESend data _ | EWrite data => fits data && (msgID (cli w) <? MaxInt64)
  | EKeepalive | EAsyncTurn => msgID (cli w) <? MaxInt64
  | EAsync data => fits data
  | EOther e => elsewhere e
  | EUp k => piece_size k && (k <=? length (up w))%nat
  | EDown k => piece_size k && (k <=? length (down w))%nat
  | _ => true
  end.

Fixpoint allowed_run (evs : list event) (w : world) : bool :=
  match evs with
  | [] => true
  | e :: evs => allowed e w && allowed_run evs (on_event e w).1
  end.

(** The condition on the network: the first read of each direction brings at
    least the four bytes of a packet header. *)
Definition headed (e : event) (w : world) : bool :=
  match e with
  | EUp k => header_whole (up_read w) k
  | EDown k => header_whole (down_read w) k
  | _ => true
  end.
Fixpoint headed_run (evs : list event) (w : world) : bool :=
  match evs with
  | [] => true
  | e :: evs => headed e w && headed_run evs (on_event e w).1
  end.

(** Both. *)
Definition smooth (e : event) (w : world) : bool := allowed e w && headed e w.
Fixpoint smooth_run (evs : list event) (w : world) : bool :=
  match evs with
  | [] => true
  | e :: evs => smooth e w && smooth_run evs (on_event e w).1
  end.
Lemma smooth_run_eq evs : forall w, smooth_run evs w = allowed_run evs w && headed_run evs w.
Proof.
  induction evs as [|e evs IH]; intros w; [done|]. cbn [smooth_run allowed_run headed_run]. rewrite IH. unfold smooth.
  by destruct (allowed e w), (headed e w), (allowed_run _ _).
Qed.
Lemma smooth_up k w : smooth (EUp k) w = piece_ok (up_read w) k && (k <=? length (up w))%nat.
Proof. unfold smooth, piece_ok. cbn [allowed headed]. by destruct (piece_size k), (header_whole _ _), (_ <=? _)%nat. Qed.
Lemma smooth_down k w : smooth (EDown k) w = piece_ok (down_read w) k && (k <=? length (down w))%nat.
Proof. unfold smooth, piece_ok. cbn [allowed headed]. by destruct (piece_size k), (header_whole _ _), (_ <=? _)%nat. Qed.

(** *** The loop of the example's client *)

(** Requests one after another; [s] happens behind each of them. *)
Fixpoint requests (l : list (bytes * Z * list event)) : M world (list (option nat)) :=
  match l with
  | [] => ret []
  | (data, now, s) :: l =>
      let! p := send data now in
      modify (run on_event s) ;;
      let! ps := requests l in
      ret (p :: ps)
  end.
Fixpoint collect (ps : list (option nat)) : M world (list bytes) :=
  match ps with
  | [] => ret []
  | p :: ps =>
      let! res := wait p WaitData in
      let! rs := collect ps in
      ret (res.1 :: rs)
  end.

(** The requests, the waits, and the check that stops the program. *)
Definition round (l : list (bytes * Z * list event)) : M world unit :=
  let! ps := requests l in
  let! rs := collect ps in
  if bool_decide (rs = map (fun r => r.1.1) l) then ret tt else lift Panic.

(** A turn of [main]'s loop; [t1], [t2], [t3]: the clock. *)
Definition main_turn (t1 t2 t3 : Z) (s1 s2 s3 : list event) : M world unit :=
  round [(gostr "hello", t1, s1); (gostr "word", t2, s2); (gostr "hahahahahahahahahahah", t3, s3)].

(** A server accepts the connection of a client that has just dialled. *)
Definition started (s : server) (c : nat) (e : E) : world :=
  mkWorld (accept growcap c s).1 empty_slice (Connect None (NewClient e)).1 0 0 ∅.

(** ** The invariant of the circuit

    Requests travel up, answers down; the server moves a packet from the end of
    one direction to the beginning of the other, so [fd ++ fu], the packets
    underway, is one queue. *)
Record circuit (w : world) (n : ClientNode) (fu fd : list frame) : Prop := {
  ci_server : server_ok (srv w);
  ci_node : nodes (srv w) !! i = Some n;
  ci_online : online n = true;
  ci_queue : Forall (eq (Encode 1 keepalivePackage)) (sendQueue n);
  ci_client : client_ok (cli w);
  ci_connected : connected (cli w) = true;
  ci_chan : Forall (fun d => fits d = true) (asyncWriteChan (cli w));
  ci_up : link_ok (recvBuf n) (up_read w) (up w) fu;
  ci_up_read : (up_read w <= length (concat (writes (cli w))))%nat;
  ci_down : link_ok (buf w) (down_read w) (down w) fd;
  ci_down_read : (down_read w <= length (concat (AgentServer.writes n)))%nat;
  ci_packets : Forall packet_ok (fd ++ fu);
  ci_answers : answers (cli w) (asked w) (fd ++ fu)
}.
Definition echo_ok (w : world) : Prop := exists n fu fd, circuit w n fu fd.

Lemma concat_wire (l : list bytes) gs : concat (l ++ map enc_frame gs) = concat l ++ wire enc_frame gs.
Proof. by rewrite concat_app. Qed.

(** A call of the client that leaves its buffer alone: it writes [gs] and
    settles the rest. *)
Lemma circuit_client w n fu fd c m gs :
  circuit w n fu fd -> client_ok c -> connected c = true ->
  Forall (fun d => fits d = true) (asyncWriteChan c) -> writes c = writes (cli w) ++ map enc_frame gs ->
  Forall packet_ok gs -> answers c m ((fd ++ fu) ++ gs) ->
  circuit (with_asked m (with_cli (buf w, c) w)) n (fu ++ gs) fd.
Proof.
  clear growcap. intros [] Hc Hcon Hch Ew Hg Ha. split; try done.
  - unfold up. cbn [cli with_asked with_cli snd up_read]. rewrite Ew, concat_wire, drop_app_le by done.
    by apply link_writes.
  - cbn [cli with_asked with_cli snd up_read]. rewrite Ew, concat_wire, length_app. lia.
  - rewrite app_assoc. by apply Forall_app.
  - by rewrite app_assoc.
Qed.

(** The same at the server's end. *)
Lemma circuit_node w n fu fd s n' gs :
  circuit w n fu fd -> server_ok s -> nodes s !! i = Some n' -> online n' = true ->
  Forall (eq (Encode 1 keepalivePackage)) (sendQueue n') -> recvBuf n' = recvBuf n ->
  AgentServer.writes n' = AgentServer.writes n ++ map enc_frame gs ->
  Forall packet_ok gs -> answers (cli w) (asked w) ((fd ++ gs) ++ fu) ->
  circuit (with_srv s w) n' fu (fd ++ gs).
Proof.
  clear growcap. intros [] Hs En' Hon Hq Eb Ew Hg Ha. split; try done.
  - by rewrite Eb.
  - unfold down in *. cbn [srv with_srv down_read buf]. rewrite En', Ew, concat_wire, drop_app_le by done.
    apply link_writes. by rewrite ci_node0 in ci_down0.
  - cbn [down_read with_srv]. rewrite Ew, concat_wire, length_app. lia.
  - rewrite !Forall_app in *. tauto.
Qed.

(** *** The client's calls *)
Lemma in_full_written id data : take (Z.to_nat (in_full data).1) (Encode id data) = Encode id data.
Proof. apply take_ge. rewrite Encode_length. unfold in_full, len. cbn [fst]. lia. Qed.

Lemma fits_packet id data : 0 < id <= MaxInt64 -> fits data = true -> packet_ok (id, data).
Proof. unfold fits, MaxInt64. intros Hid Hf. split; cbn [fst snd]; lia. Qed.

Lemma Write_eq (c : Client E) data wr :
  client_ok c -> msgID c + 1 <= MaxInt64 -> connected c = true ->
  Write data wr c =
    (with_writes (writes c ++ [take (Z.to_nat wr.1) (Encode (msgID c + 1) data)])
       (with_msgID (msgID c + 1) c), Ret wr).
Proof.
  intros Hc Hl Hcon. destruct (ok_msgID c Hc). unfold Write. erewrite bind_ret by reflexivity. cbn [id].
  rewrite Hcon. cbn [negb]. by rewrite (bind_ret _ _ _ _ _ (next_msgID_eq c ltac:(lia) ltac:(lia))).
Qed.

Lemma circuit_settles w n fu fd c :
  circuit w n fu fd -> client_ok c -> settles (cli w) c -> circuit (with_cli (buf w, c) w) n fu fd.
Proof.
  intros Hw Hc Hs. pose proof Hs as [Ho _]. injection Ho as E1 E2 E3 E4. pose proof Hw as [].
  rewrite <- (app_nil_r fu). apply (circuit_client w n fu fd c (asked w) []); try done.
  - unfold connected. by rewrite E1.
  - by rewrite E3.
  - by rewrite E2, app_nil_r.
  - rewrite app_nil_r. by eapply answers_settles.
Qed.

Lemma circuit_write w n fu fd data :
  circuit w n fu fd -> fits data = true -> msgID (cli w) < MaxInt64 ->
  exists c, Write data (in_full data) (cli w) = (c, Ret (in_full data)) /\
    circuit (with_cli (buf w, c) w) n (fu ++ [(msgID (cli w) + 1, data)]) fd.
Proof.
  intros Hw Hf Hl. pose proof Hw as []. destruct (ok_msgID _ ci_client0). eexists.
  split; [apply Write_eq; [done|lia|done]|]. rewrite in_full_written.
  eapply (circuit_client w n fu fd _ (asked w) [(msgID (cli w) + 1, data)]); try done.
  - pose proof (client_ok_msgID (cli w) ci_client0 ltac:(lia)) as [A B C D]. by split.
  - apply Forall_singleton. by apply fits_packet; [lia|].
  - eapply (answers_ext (with_msgID (msgID (cli w) + 1) (cli w))); [done..|]. by apply answers_write.
Qed.

Lemma circuit_send w n fu fd data now :
  circuit w n fu fd -> fits data = true -> msgID (cli w) < MaxInt64 ->
  exists w', send data now w = (w', Ret (Some (next_waiter (cli w)))) /\
    asked w' = <[next_waiter (cli w) := data]> (asked w) /\ down_read w' = down_read w /\ up_read w' = up_read w /\
    heap (cli w') = heap (registered now (cli w)) /\
    circuit w' n (fu ++ [(msgID (cli w) + 1, data)]) fd.
Proof.
  intros Hw Hf Hl. pose proof Hw as []. destruct (ok_msgID _ ci_client0). unfold send, in_client, on_client.
  erewrite bind_ret; [|unfold at_client, zoom; cbn [fst snd]; rewrite Send_eq by (done || lia); reflexivity].
  cbn [fst snd]. erewrite bind_ret by reflexivity. eexists. split; [reflexivity|].
  split; [done|]. split; [done|]. split; [done|]. split; [done|]. rewrite in_full_written.
  match goal with |- circuit (with_asked ?m (with_cli (?b, ?c) w)) _ _ _ =>
    eapply (circuit_client w n fu fd c m [(msgID (cli w) + 1, data)]) end; try done.
  - pose proof (client_ok_registered now (cli w) ci_client0 ltac:(lia)) as [A B C D]. by split.
  - apply Forall_singleton. by apply fits_packet; [lia|].
  - eapply (answers_ext (registered now (cli w))); [done..|]. by apply answers_send.
Qed.

(** *** The server reads *)

(** What the callback leaves of a node. *)
Definition wrote (gs : list frame) (n : ClientNode) : ClientNode :=
  mkClientNode (conn n) (sendQueue n) (queueClosed n) (recvBuf n) (AgentServer.status n) (connClosed n)
    (AgentServer.writes n ++ map enc_frame gs).

Lemma echo_acts fs : forall s n,
  server_ok s -> nodes s !! i = Some n -> connClosed n = false ->
  let act := node_act (server_callbacks echo_server) i in
  acts act s fs /\ server_ok (foldl (after act) s fs) /\
  nodes (foldl (after act) s fs) !! i = Some (wrote fs n).
Proof.
  induction fs as [|f fs IH]; intros s n Hs En Hc act.
  { split_and!; [done|done|]. cbn [foldl]. rewrite En. unfold wrote. cbn [map]. rewrite app_nil_r. by destruct n. }
  assert (Ea : act f.1 f.2 s = (put_node i (wrote [f] n) s, Ret tt)).
  { unfold act, node_act, echo_server, server_configured. cbn [server_callbacks foldl SetOnServerMessage app range].
    erewrite bind_ret; [|unfold echo, AgentServer.Send; by apply sv_upd_node_eq].
    unfold ret, with_write, wrote. by rewrite Hc. }
  assert (Ea' : after act s f = put_node i (wrote [f] n) s) by (unfold after; by rewrite Ea).
  cbn [acts foldl]. rewrite Ea', Ea.
  destruct (IH (put_node i (wrote [f] n) s) (wrote [f] n)) as (H1 & H2 & H3); try done.
  - destruct (ok_nodes s Hs i n En) as [Hok _]. by apply (server_ok_put s i n).
  - apply put_lookup.
  - split_and!; [done|exact H1|exact H2|]. fold act in H3. rewrite H3. unfold wrote. cbn [AgentServer.writes].
    by rewrite <- app_assoc.
Qed.

Lemma circuit_up w n fu fd k :
  circuit w n fu fd -> smooth (EUp k) w = true ->
  exists n' fu' fd' w', on_event (EUp k) w = (w', Ret tt) /\ circuit w' n' fu' fd' /\ fd' ++ fu' = fd ++ fu /\
    cli w' = cli w /\ asked w' = asked w /\ (length (up w') + k = length (up w))%nat.
Proof.
  rewrite smooth_up. intros Hw [Hp Hk]%andb_prop. apply Nat.leb_le in Hk. pose proof Hw as [].
  assert (Hl : length (take k (up w)) = k) by (rewrite length_take; lia).
  assert (Hcl : connClosed n = false).
  { destruct (ok_nodes _ ci_server0 i n ci_node0) as [[[(_&_&?)|(E0&_)] _] _]; [done|].
    unfold online in ci_online0. by rewrite E0 in ci_online0. }
  destruct (echo_acts fu (srv w) n ci_server0 ci_node0 Hcl) as (Ha & _ & _).
  rewrite <- (take_drop k (up w)) in ci_up0.
  destruct (link_read _ growcap _ _ _ _ _ (srv w) ci_up0 ltac:(by rewrite Hl)
    (proj2 (proj1 (Forall_app _ _ _) ci_packets0)) Ha) as (fs1 & fs2 & b' & -> & Er & Hlk).
  destruct (echo_acts fs1 (srv w) n ci_server0 ci_node0 Hcl) as (_ & Hs1 & En1).
  set (s1 := foldl _ (srv w) fs1) in *. set (n' := with_recvBuf b' (wrote fs1 n)).
  exists n', fs2, (fd ++ fs1), (with_reads (up_read w + k) (down_read w) (with_srv (put_node i n' s1) w)).
  split.
  { cbn [on_event]. erewrite bind_ret by reflexivity. cbn [id]. erewrite bind_ret; [reflexivity|].
    unfold at_server, AgentServer.readMessage_turn. cbn [srv]. erewrite bind_ret; [reflexivity|].
    unfold node_onMessage. rewrite ci_node0. cbv zeta. rewrite Er. cbn [fst snd]. by rewrite En1. }
  assert (Eup : up (with_reads (up_read w + k) (down_read w) (with_srv (put_node i n' s1) w)) = drop k (up w)).
  { unfold up. cbn [up_read cli with_reads with_srv]. by rewrite drop_drop. }
  split; [|split_and!; try done; [by rewrite <- app_assoc|rewrite Eup, length_drop; lia]].
  destruct (ok_nodes s1 Hs1 i _ En1) as [Hok _]. split; try done.
  - exact (server_ok_put s1 i (wrote fs1 n) n' Hs1 En1 Hok eq_refl).
  - apply put_lookup.
  - rewrite Eup. by rewrite Hl in Hlk.
  - cbn [up_read with_reads cli with_srv]. unfold up in Hk. rewrite length_drop in Hk. lia.
  - unfold down in *. cbn [srv with_reads with_srv down_read buf]. rewrite put_lookup. rewrite ci_node0 in ci_down0.
    cbn [AgentServer.writes n' with_recvBuf wrote]. rewrite concat_wire, drop_app_le by done. by apply link_writes.
  - cbn [down_read with_reads AgentServer.writes n' with_recvBuf wrote]. rewrite concat_wire, length_app. lia.
  - by rewrite <- app_assoc.
  - cbn [cli with_reads with_srv asked]. by rewrite <- app_assoc.
Qed.

(** *** The client reads *)
Hypothesis callbacks_return : forall f x e, f ∈ callbacks -> (f x e).2 = Ret tt.

Lemma circuit_down w n fu fd k :
  circuit w n fu fd -> smooth (EDown k) w = true ->
  exists fd1 fd2 w', fd = fd1 ++ fd2 /\ on_event (EDown k) w = (w', Ret tt) /\ circuit w' n fu fd2 /\
    up w' = up w /\ asked w' = asked w /\ (length (down w') + k = length (down w))%nat /\
    outside (cli w') = outside (cli w) /\ waiter (cli w') = waiter (cli w).
Proof using callbacks_return.
  rewrite smooth_down. intros Hw [Hp Hk]%andb_prop. apply Nat.leb_le in Hk. pose proof Hw as [].
  assert (Hl : length (take k (down w)) = k) by (rewrite length_take; lia).
  pose proof (proj1 (proj1 (Forall_app _ _ _) ci_packets0)) as Hfd.
  rewrite <- (take_drop k (down w)) in ci_down0.
  assert (Ha : acts (client_act callbacks) (cli w) fd).
  { by destruct (answers_run callbacks callbacks_return (asked w) fd (cli w) fu ci_client0 Hfd ci_answers0) as (? & _). }
  destruct (link_read _ growcap _ _ _ _ _ (cli w) ci_down0 ltac:(by rewrite Hl) Hfd Ha)
    as (fd1 & fd2 & b' & Efd & Er & Hlk). subst fd. rewrite Hl in Hlk.
  rewrite <- app_assoc in ci_answers0. apply Forall_app in Hfd as [Hfd1 Hfd2].
  destruct (answers_run callbacks callbacks_return (asked w) fd1 (cli w) (fd2 ++ fu) ci_client0 Hfd1 ci_answers0)
    as (_ & Hc' & Ha' & Ho & Hwt). set (c' := foldl _ (cli w) fd1) in *. pose proof Ho as Ho'. injection Ho as E1 E2 E3 E4.
  exists fd1, fd2, (with_reads (up_read w) (down_read w + k) (with_cli (b', c') w)). split; [done|]. split.
  { cbn [on_event]. erewrite bind_ret by reflexivity. cbn [id]. erewrite bind_ret; [reflexivity|].
    unfold at_client, readMessage_turn. erewrite bind_ret by reflexivity. cbn [snd]. rewrite ci_connected0. cbn [negb].
    destruct (Z.leb_spec (len (take k (down w))) 0) as [Hz|_].
    { unfold len in Hz. rewrite Hl in Hz. apply piece_ok_pos in Hp. lia. }
    unfold client_onMessage. change (client_host callbacks) with (zoom_host (client_act callbacks)). rewrite Er. reflexivity. }
  assert (Eup : up (with_reads (up_read w) (down_read w + k) (with_cli (b', c') w)) = up w).
  { unfold up. cbn [up_read cli with_reads with_cli snd]. by rewrite E2. }
  assert (Edown : down (with_reads (up_read w) (down_read w + k) (with_cli (b', c') w)) = drop k (down w)).
  { unfold down. cbn [srv down_read with_reads with_cli]. rewrite ci_node0. by rewrite drop_drop. }
  split; [|split_and!; try done; rewrite Edown, length_drop; lia].
  split; try done.
  - cbn [cli with_reads with_cli snd]. unfold connected in *. by rewrite E1.
  - cbn [cli with_reads with_cli snd]. by rewrite E3.
  - by rewrite Eup.
  - cbn [cli with_reads with_cli snd up_read]. by rewrite E2.
  - by rewrite Edown.
  - cbn [down_read with_reads]. unfold down in Hk. rewrite ci_node0, length_drop in Hk. lia.
  - apply Forall_app in ci_packets0 as [_ ?]. by apply Forall_app.
Qed.

(** *** The server's own loops *)
Lemma system_packet : packet_ok (1, keepalivePackage).
Proof. split; [cbn; lia|]. vm_compute. done. Qed.

(** Keepalives wait in the queue of the connection. *)
Definition ticking (n : ClientNode) (s : server) : Prop :=
  exists q, nodes s !! i = Some (with_queue q n) /\ Forall (eq (Encode 1 keepalivePackage)) q.

Lemma AsyncSend_ticks n j : preserves (ticking n) (AgentServer.AsyncSend j 1 keepalivePackage).
Proof.
  intros s (q & En & Hq). unfold AgentServer.AsyncSend, bind, the_node.
  destruct (nodes s !! j) as [m|] eqn:Em; [|by exists q].
  destruct (negb (AgentServer.online m)); [by exists q|]. cbv zeta. destruct (queueClosed m); [by exists q|].
  destruct (len (sendQueue m) <? tcpMaxSendQueue); [|by exists q]. rewrite (sv_upd_node_eq _ _ _ _ Em).
  unfold ticking, put_node. cbn [fst nodes]. destruct (decide (j = i)) as [->|Hne].
  - rewrite En in Em. injection Em as <-. exists (q ++ [Encode 1 keepalivePackage]).
    rewrite lookup_insert_eq. split; [done|]. apply Forall_app. split; [done|by apply Forall_singleton].
  - exists q. by rewrite lookup_insert_ne.
Qed.

Lemma circuit_tick w n fu fd :
  circuit w n fu fd -> exists n', circuit (on_event EServerTick w).1 n' fu fd.
Proof.
  intros Hw. pose proof Hw as []. cbn [on_event]. unfold at_server. cbn [fst].
  set (s' := (AgentServer.keepalive_turn (srv w)).1).
  assert (Hs : server_ok s').
  { apply (preserves_to_all (fun j => AgentServer.AsyncSend j 1 keepalivePackage)); [|done].
    intros j. apply preserves_AsyncSend. }
  assert (Ht : ticking n s').
  { apply (preserves_bind (ticking n)); [apply preserves_gets|intros l|].
    - apply preserves_range. intros j. apply AsyncSend_ticks.
    - exists (sendQueue n). rewrite ci_node0. split; [by destruct n|done]. }
  destruct Ht as (q & En & Hq). exists (with_queue q n). rewrite <- (app_nil_r fd).
  eapply (circuit_node w n fu fd s' (with_queue q n) []); try done.
  - by rewrite app_nil_r.
  - by rewrite app_nil_r.
Qed.

Lemma circuit_service w n fu fd :
  circuit w n fu fd -> exists n' fd', circuit (on_event EServerSend w).1 n' fu fd'.
Proof.
  intros Hw. pose proof Hw as [].
  assert (Hw' : exists n' fd', circuit w n' fu fd') by (by exists n, fd).
  cbn [on_event]. erewrite bind_ret by reflexivity. cbn [id]. rewrite ci_node0.
  unfold bind at 1, at_server, asyncSendService_turn. rewrite (sv_bind_the_node _ _ _ _ ci_node0).
  rewrite ci_online0. cbn [negb]. destruct (sendQueue n) as [|d q] eqn:Eq; cbn [hd].
  { rewrite (sv_node_ok_open n) by (done || by apply (ok_nodes _ ci_server0 i n)).
    unfold lift. cbn [fst snd]. replace (with_srv (srv w) w) with w by (by destruct w). exact Hw'. }
  apply Forall_cons in ci_queue0 as [<- Hq].
  rewrite (sv_bind_upd_node _ _ _ _ _ ci_node0). cbv beta.
  erewrite bind_ret by (apply sv_upd_node_eq, put_lookup). cbn [fst snd ret].
  destruct (ok_nodes _ ci_server0 i n ci_node0) as [Hok Hi].
  rewrite take_ge by done. set (n' := with_write _ _). exists n', (fd ++ [(1, keepalivePackage)]).
  assert (Hcl : connClosed n = false).
  { destruct Hok as [[(_&_&?)|(E0&_)] _]; [done|]. unfold online in ci_online0. by rewrite E0 in ci_online0. }
  eapply (circuit_node w n fu fd _ n' [(1, keepalivePackage)]); try done.
  - apply (server_ok_put _ i (with_queue q n)); [|apply put_lookup| |done].
    + apply (server_ok_put _ i n); try done. destruct Hok as [? Hl]. split; [done|]. cbn [sendQueue with_queue].
      rewrite Eq in Hl. unfold len in *. cbn [length] in Hl. lia.
    + destruct Hok as [? Hl]. split; [done|]. cbn [sendQueue with_queue n' with_write].
      rewrite Eq in Hl. unfold len in *. cbn [length] in Hl. lia.
  - apply put_lookup.
  - unfold n', with_write. cbn [AgentServer.writes connClosed with_queue]. by rewrite Hcl.
  - apply Forall_singleton, system_packet.
  - apply answers_insert; [|done..]. by destruct (ok_msgID _ ci_client0).
Qed.

(** *** The other connections *)
Lemma echo_callbacks_ok : callbacks_ok (server_callbacks echo_server).
Proof. intros f ->%list_elem_of_singleton j id c. apply preserves_Send. Qed.

Definition has_node (n : ClientNode) : server -> Prop := at_node i (fun o => o = Some n).

Lemma read_elsewhere n j d :
  j <> i -> preserves (has_node n) (node_onMessage growcap (server_callbacks echo_server) j d).
Proof.
  intros Hj s Hs. unfold node_onMessage. destruct (nodes s !! j) as [m|] eqn:Em; [|done]. cbv zeta.
  assert (Hr : has_node n (onMessage (HW:=zoom_host (node_act (server_callbacks echo_server) j)) growcap d (recvBuf m, s)).1.2).
  { apply (preserves_zoom_onMessage _ (has_node n) growcap d); [|done]. intros id c.
    apply preserves_bind; [apply upd_elsewhere; congruence|]. intros _. apply preserves_ret. }
  set (r := onMessage _ _ _) in *. destruct (nodes r.1.2 !! j); [|done].
  unfold has_node, at_node. cbn. by rewrite lookup_insert_ne.
Qed.

Lemma event_elsewhere n e :
  elsewhere e = true -> preserves (fun s => server_ok s /\ has_node n s)
    (on_server_event growcap (server_callbacks echo_server) e).
Proof.
  intros He s [Hs Hn]. split; [by apply preserves_on_server_event; [apply echo_callbacks_ok|]|].
  destruct e as [c|j r|j c|j id d|id d| |]; cbn [elsewhere] in He; try apply bool_decide_eq_true in He; try done;
    cbn [on_server_event].
  - apply accept_elsewhere; [done| |done]. rewrite Hn. by eexists.
  - apply (preserves_bind (has_node n)); [|intros _; apply preserves_ret|done].
    destruct r; (apply preserves_bind; [|intros _; apply preserves_ret]);
      by (apply close_elsewhere || apply read_elsewhere).
  - apply (preserves_bind (has_node n)); [by apply service_elsewhere|intros _; apply preserves_ret|done].
  - by apply upd_elsewhere.
Qed.

Lemma circuit_other w n fu fd e :
  circuit w n fu fd -> elsewhere e = true -> circuit (on_event (EOther e) w).1 n fu fd.
Proof.
  intros Hw He. pose proof Hw as []. cbn [on_event]. unfold at_server. cbn [fst].
  destruct (event_elsewhere n e He (srv w)) as [Hs Hn]; [done|]. rewrite <- (app_nil_r fd).
  eapply (circuit_node w n fu fd _ n []); try done; by rewrite app_nil_r.
Qed.

(** ** Every step keeps the circuit *)
Lemma chan_step w n fu fd q :
  circuit w n fu fd -> Forall (fun d => fits d = true) q ->
  circuit (with_cli (buf w, with_chan q (cli w)) w) n fu fd.
Proof.
  intros Hw Hq. pose proof Hw as []. rewrite <- (app_nil_r fu).
  apply (circuit_client w n fu fd (with_chan q (cli w)) (asked w) []); try done.
  - destruct ci_client0. by split.
  - cbn. by rewrite app_nil_r.
  - rewrite app_nil_r. by apply (answers_ext (cli w)).
Qed.

Lemma settles_step {A} w n fu fd (m : M (Client E) A) :
  circuit w n fu fd -> draws 0 m -> settles (cli w) (m (cli w)).1 -> circuit (in_client m w).1 n fu fd.
Proof.
  intros Hw Hd Hs. pose proof Hw as []. apply (circuit_settles w n fu fd (m (cli w)).1); try done.
  destruct (ok_msgID _ ci_client0). apply Hd; [done|lia].
Qed.

Lemma write_step w n fu fd data :
  circuit w n fu fd -> fits data = true -> msgID (cli w) < MaxInt64 ->
  echo_ok (in_client (Write data (in_full data)) w).1.
Proof.
  intros Hw Hf Hl. destruct (circuit_write w n fu fd data Hw Hf Hl) as (c & Ec & Hc).
  exists n, (fu ++ [(msgID (cli w) + 1, data)]), fd. unfold in_client, at_client, on_client, zoom. cbn [fst snd].
  by rewrite Ec.
Qed.

Lemma event_keeps e w : echo_ok w -> smooth e w = true -> echo_ok (on_event e w).1.
Proof using callbacks_return.
  intros (n & fu & fd & Hw) Hsm. pose proof Hsm as [He _]%andb_prop. pose proof Hw as [].
  assert (Hbind : forall A (m : M world A), echo_ok (m w).1 -> echo_ok ((m ;; ret tt) w).1).
  { intros A m. unfold bind. by destruct (m w) as [w' []]. }
  destruct e as [d now|p sel|d| |d| |now| | |e|k|k]; cbn [allowed] in He.
  - apply andb_prop in He as [Hf Hl%Z.ltb_lt].
    destruct (circuit_send w n fu fd d now Hw Hf Hl) as (w' & Es & _ & _ & _ & _ & Hc).
    cbn [on_event]. apply Hbind. rewrite Es. by exists n, (fu ++ [(msgID (cli w) + 1, d)]), fd.
  - apply Hbind. exists n, fu, fd. apply settles_step; [done|apply draws_Wait|by eapply Wait_settles].
  - apply andb_prop in He as [Hf Hl%Z.ltb_lt]. apply Hbind. by eapply write_step.
  - apply Z.ltb_lt in He. assert (Hf : fits keepalivePackage = true) by (by vm_compute).
    destruct (circuit_write w n fu fd keepalivePackage Hw Hf He) as (c & Ec & Hc).
    exists n, (fu ++ [(msgID (cli w) + 1, keepalivePackage)]), fd.
    cbn [on_event]. unfold keepalive_turn, in_client, at_client, on_client, zoom, bind. cbn [fst snd].
    rewrite Ec. exact Hc.
  - exists n, fu, fd. cbn [on_event]. unfold AsyncSend, in_client, at_client, on_client, zoom. cbn [fst snd].
    unfold bind, gets. destruct (_ <? _); cbn [fst]; [|by destruct w].
    apply chan_step; [done|]. apply Forall_app. split; [done|by apply Forall_singleton].
  - apply Z.ltb_lt in He. cbn [on_event]. erewrite bind_ret by reflexivity. cbn [id].
    destruct (asyncWriteChan (cli w)) as [|d q] eqn:Eq; cbn [hd].
    + exists n, fu, fd. unfold async_turn, in_client, at_client, on_client, zoom, bind, gets. cbn [fst snd].
      cbn [id]. rewrite Eq. by destruct w.
    + apply Forall_cons in ci_chan0 as [Hf Hq].
      pose proof (chan_step w n fu fd q Hw Hq) as Hw1.
      destruct (circuit_write _ n fu fd d Hw1 Hf He) as (c & Ec & Hc).
      exists n, (fu ++ [(msgID (cli w) + 1, d)]), fd.
      unfold async_turn, in_client, at_client, on_client, zoom, bind, gets, modify. cbn [fst snd].
      cbn [id]. rewrite Eq. cbn [cli with_cli snd] in Ec. rewrite Ec. exact Hc.
  - exists n, fu, fd. apply settles_step; [done|apply draws_gc_turn|by apply gc_settles].
  - destruct (circuit_tick w n fu fd Hw) as (n' & Hc). by exists n', fu, fd.
  - destruct (circuit_service w n fu fd Hw) as (n' & fd' & Hc). by exists n', fu, fd'.
  - exists n, fu, fd. by apply circuit_other.
  - destruct (circuit_up w n fu fd k Hw Hsm) as (n' & fu' & fd' & w' & -> & Hc & _). by exists n', fu', fd'.
  - destruct (circuit_down w n fu fd k Hw Hsm) as (fd1 & fd2 & w' & _ & -> & Hc & _). by exists n, fu, fd2.
Qed.

(** *** Runs *)
Lemma started_ok s c e : server_ok s -> next_node s = i -> echo_ok (started s c e).
Proof.
  intros Hs Ei. exists (newNode c), [], []. pose proof (preserves_accept growcap c s Hs) as Hs'.
  assert (En : nodes (accept growcap c s).1 !! i = Some (newNode c)) by (cbn; rewrite Ei; apply lookup_insert_eq).
  assert (Hd : down (started s c e) = []).
  { unfold down. cbn [srv started]. by rewrite En. }
  split; try done.
  - apply link_start.
  - rewrite Hd. apply link_start.
  - apply (answers_ext (NewClient e)); [done|done|]. apply answers_start.
Qed.

Lemma run_keeps evs : forall w, echo_ok w -> smooth_run evs w = true -> echo_ok (run on_event evs w).
Proof using callbacks_return.
  induction evs as [|e evs IH]; intros w Hw Ha; [done|]. apply andb_prop in Ha as [He Ha].
  apply (IH (on_event e w).1); [by apply event_keeps|done].
Qed.

Lemma smooth_app evs1 : forall evs2 w,
  smooth_run evs1 w = true -> smooth_run evs2 (run on_event evs1 w) = true -> smooth_run (evs1 ++ evs2) w = true.
Proof.
  induction evs1 as [|e evs1 IH]; intros evs2 w H1 H2; [done|]. apply andb_prop in H1 as [He H1].
  cbn [app smooth_run]. rewrite He. by apply IH.
Qed.

(** ** What a wait gives *)
Lemma wait_answer w p d :
  echo_ok w -> (wait (Some p) WaitData w).2 = Ret (d, None) -> asked w !! p = Some d.
Proof.
  intros (n & fu & fd & []) Hd. unfold wait, in_client, at_client, on_client, zoom in Hd. cbn [snd] in Hd.
  destruct (heap (cli w) !! p) as [v|] eqn:Ep.
  - destruct (w_data v) as [r|] eqn:Ed.
    + destruct (Wait_answer _ _ _ p v r ci_client0 ci_answers0 Ep Ed) as (x & c' & Ex & Ew & _).
      rewrite Ew in Hd. cbn in Hd. congruence.
    + cbn [Wait] in Hd. rewrite (bind_ret _ _ _ (cli w) v) in Hd by (unfold the_waiter; by rewrite Ep).
      rewrite Ed in Hd. by destruct (w_closed v).
  - cbn [Wait] in Hd. unfold bind, the_waiter in Hd. by rewrite Ep in Hd.
Qed.

(** ** Everything underway arrives *)
Lemma drain_up m : forall w n fu fd, circuit w n fu fd -> (length (up w) <= m)%nat ->
  exists evs n' fd', smooth_run evs w = true /\ Forall (fun e => exists k, e = EUp k) evs /\
    let w' := run on_event evs w in
    circuit w' n' [] fd' /\ up w' = [] /\ cli w' = cli w /\ asked w' = asked w.
Proof.
  induction m as [m IH] using lt_wf_ind. intros w n fu fd Hw Hm.
  destruct (up w) as [|x rest] eqn:Eu.
  - pose proof Hw as []. rewrite Eu in ci_up0. destruct (link_drained _ _ _ ci_up0) as [-> _].
    exists [], n, fd. by split_and!.
  - set (k := Nat.min readBufferLen (length (up w))).
    assert (Hk : (1 <= k <= length (up w))%nat) by (unfold k, readBufferLen; rewrite Eu; cbn [length]; lia).
    assert (Ha : smooth (EUp k) w = true).
    { rewrite smooth_up. apply andb_true_intro. split; [|apply Nat.leb_le; lia].
      apply (link_piece _ _ _ _ (ci_up _ _ _ _ Hw)). by rewrite Eu. }
    destruct (circuit_up w n fu fd k Hw Ha) as (n1 & fu1 & fd1 & w1 & Es & Hw1 & _ & Ec & Eask & El).
    destruct (IH (length (up w1)) ltac:(rewrite Eu in *; lia) w1 n1 fu1 fd1 Hw1 (le_n _))
      as (evs & n' & fd' & Hal & Hall & Hw' & Hup & Hc & Hask).
    exists (EUp k :: evs), n', fd'. cbn [smooth_run]. rewrite Ha, Es. cbn [andb fst].
    change (run on_event (EUp k :: evs) w) with (run on_event evs (on_event (EUp k) w).1). rewrite Es. cbn [fst].
    split_and!; [done|constructor; [by exists k|done]|exact Hw'|done|congruence|congruence].
Qed.

Lemma drain_down m : forall w n fd, circuit w n [] fd -> up w = [] -> (length (down w) <= m)%nat ->
  exists evs n', smooth_run evs w = true /\ Forall (fun e => exists k, e = EDown k) evs /\
    let w' := run on_event evs w in
    circuit w' n' [] [] /\ up w' = [] /\ down w' = [] /\ waiter (cli w') = waiter (cli w) /\ asked w' = asked w.
Proof using callbacks_return.
  induction m as [m IH] using lt_wf_ind. intros w n fd Hw Hup Hm.
  destruct (down w) as [|x rest] eqn:Eu.
  - pose proof Hw as []. rewrite Eu in ci_down0. destruct (link_drained _ _ _ ci_down0) as [-> _].
    exists [], n. by split_and!.
  - set (k := Nat.min readBufferLen (length (down w))).
    assert (Hk : (1 <= k <= length (down w))%nat) by (unfold k, readBufferLen; rewrite Eu; cbn [length]; lia).
    assert (Ha : smooth (EDown k) w = true).
    { rewrite smooth_down. apply andb_true_intro. split; [|apply Nat.leb_le; lia].
      apply (link_piece _ _ _ _ (ci_down _ _ _ _ Hw)). by rewrite Eu. }
    destruct (circuit_down w n [] fd k Hw Ha) as (fd1 & fd2 & w1 & _ & Es & Hw1 & Eup & Eask & El & _ & Ewt).
    destruct (IH (length (down w1)) ltac:(rewrite Eu in *; lia) w1 n fd2 Hw1 ltac:(congruence) (le_n _))
      as (evs & n' & Hal & Hall & Hw' & Hup' & Hdn & Hwt & Hask).
    exists (EDown k :: evs), n'. cbn [smooth_run]. rewrite Ha, Es. cbn [andb fst].
    change (run on_event (EDown k :: evs) w) with (run on_event evs (on_event (EDown k) w).1). rewrite Es. cbn [fst].
    split_and!; [done|constructor; [by exists k|done]|exact Hw'|done|done|congruence|congruence].
Qed.

(** An open request whose answer has nothing left to travel through. *)
Definition owed (w : world) (p : nat) (d : bytes) : Prop :=
  (exists id, waiter (cli w) !! id = Some p) /\ asked w !! p = Some d.

Lemma open_asked w id p : echo_ok w -> waiter (cli w) !! id = Some p -> exists d, asked w !! p = Some d.
Proof.
  intros (n & fu & fd & []) Hid. destruct (ok_map _ ci_client0 id p Hid) as (v & Ev & _ & Ho).
  destruct (w_data v) as [d|] eqn:Ed.
  - destruct (an_held _ _ _ ci_answers0 p v d Ev Ed) as (x & Ex & _). by exists x.
  - destruct (an_wait _ _ _ ci_answers0 p v Ev Ho Ed) as (x & Ex & _). by exists x.
Qed.

Lemma owed_wait w p d : echo_ok w -> owed w p d ->
  (exists w', wait (Some p) WaitData w = (w', Ret (d, None)) /\ echo_ok w' /\ up w' = up w /\ down w' = down w /\
     forall q x, owed w q x -> q <> p -> owed w' q x) \/
  (wait (Some p) WaitData w = (w, Block) /\ (up w <> [] \/ down w <> [])).
Proof.
  intros (n & fu & fd & Hw) [[id Hid] Hask]. pose proof Hw as [].
  destruct (ok_map _ ci_client0 id p Hid) as (v & Ev & _ & Ho).
  unfold wait, in_client, at_client, on_client, zoom. cbn [fst snd].
  destruct (w_data v) as [r|] eqn:Ed.
  - destruct (Wait_answer _ _ _ p v r ci_client0 ci_answers0 Ev Ed) as (x & c' & Ex & Ew & Hs & Hkeep).
    left. eexists. rewrite Ew. cbn [fst snd]. assert (x = d) as -> by congruence. split; [reflexivity|].
    pose proof Hs as [Hs' _]. injection Hs' as _ E2 _ _. split_and!; [|unfold up; cbn; by rewrite E2|done|].
    + exists n, fu, fd. apply (circuit_settles w n fu fd c'); [done| |done].
      change c' with (c', Ret (d, None : option goerr) : outcome _).1. rewrite <- Ew.
      destruct (ok_msgID _ ci_client0). apply draws_Wait; [done|lia].
    + intros q y [[id' Hq] Hy] Hne. split; [|done]. exists id'. by apply Hkeep.
  - right. split.
    + cbn [Wait]. rewrite (bind_ret _ _ _ (cli w) v) by (unfold the_waiter; by rewrite Ev).
      rewrite Ed, Ho. by destruct w.
    + destruct (an_wait _ _ _ ci_answers0 p v Ev Ho Ed) as (x & _ & Hx).
      destruct (up w) eqn:Eu; [|by left]. destruct (down w) eqn:Edn; [|by right].
      destruct (link_drained _ _ _ ci_up0) as [-> _], (link_drained _ _ _ ci_down0) as [-> _].
      by apply not_elem_of_nil in Hx.
Qed.

(** ** Steps that leave open requests open *)
Definition patient (e : event) (w : world) : bool :=
  match e with
  | ESweep now =>
      bool_decide (map_Forall (fun _ v => w_closed v = true \/ expired now (cli w) v = false) (heap (cli w)))
  | EWait _ _ => false
  | _ => true
  end.

Lemma waiter_old w p d : echo_ok w -> owed w p d ->
  exists id, waiter (cli w) !! id = Some p /\ id <= msgID (cli w) /\ (p < next_waiter (cli w))%nat.
Proof.
  intros (n & fu & fd & []) [[id Hid] _]. destruct (ok_map _ ci_client0 id p Hid) as (v & Ev & <- & _).
  destruct (ok_heap _ ci_client0 p v Ev) as (? & ? & _). exists (w_msgID v). split; [done|lia].
Qed.

Lemma owed_same w w' p d :
  waiter (cli w') = waiter (cli w) -> asked w' = asked w -> owed w p d -> owed w' p d.
Proof. intros Ew Ea [Hid Hask]. by rewrite <- Ew, <- Ea in *. Qed.

Lemma sweep_patient now (c : Client E) : client_ok c ->
  map_Forall (fun _ v => w_closed v = true \/ expired now c v = false) (heap c) ->
  forall id p, waiter c !! id = Some p -> waiter (gc_turn now c).1 !! id = Some p.
Proof.
  intros Hc Hp id p Hid. destruct (gc_turn_spec now c Hc) as (c' & -> & Hc' & _ & Hh). cbn [fst].
  destruct (ok_map c Hc id p Hid) as (v & Ev & <- & Ho). apply (ok_open c' Hc' p v); [|done].
  rewrite Hh, Ev. cbn. unfold swept. destruct (Hp p v Ev) as [? | ->]; [congruence|]. by rewrite andb_false_r.
Qed.

Lemma send_owed w d now p x :
  echo_ok w -> fits d = true -> msgID (cli w) < MaxInt64 -> owed w p x -> owed (send d now w).1 p x.
Proof.
  intros Hw Hf Hl Hp. pose proof (waiter_old w p x Hw Hp) as (id & Hid & Hle & Hlt).
  destruct Hw as (n & fu & fd & []). destruct (ok_msgID _ ci_client0), Hp as [_ Hask].
  unfold send, in_client, on_client. erewrite bind_ret; cycle 1.
  { unfold at_client, zoom. cbn [fst snd]. rewrite Send_eq by (done || lia). reflexivity. }
  split; cbn.
  - exists id. rewrite lookup_insert_ne; [done|lia].
  - rewrite lookup_insert_ne; [done|lia].
Qed.

Lemma patient_keeps e w p d :
  echo_ok w -> smooth e w = true -> patient e w = true -> owed w p d -> owed (on_event e w).1 p d.
Proof using callbacks_return.
  intros Hw Hsm Hp Ho. pose proof Hsm as [He _]%andb_prop. pose proof Hw as (n & fu & fd & Hci). pose proof Hci as [].
  assert (Hbind : forall A (m : M world A), owed (m w).1 p d -> owed ((m ;; ret tt) w).1 p d).
  { intros A m. unfold bind. by destruct (m w) as [w' []]. }
  assert (Hwrite : forall x w1 n fu fd, circuit w1 n fu fd -> fits x = true -> msgID (cli w1) < MaxInt64 ->
    owed w1 p d -> owed (in_client (Write x (in_full x)) w1).1 p d).
  { intros x w1 n1 fu1 fd1 [] Hf Hl Ho1. destruct (ok_msgID _ ci_client1). revert Ho1. apply owed_same; [|done].
    unfold in_client, at_client, on_client, zoom. cbn [fst snd]. by rewrite Write_eq by (done || lia). }
  destruct e as [x now|q sel|x| |x| |now| | |e|k|k]; cbn [allowed patient] in He, Hp; cbn [on_event]; try done.
  - apply andb_prop in He as [Hf Hl%Z.ltb_lt]. by apply Hbind, send_owed.
  - apply andb_prop in He as [Hf Hl%Z.ltb_lt]. apply Hbind. by eapply Hwrite.
  - apply Z.ltb_lt in He. assert (Hf : fits keepalivePackage = true) by (by vm_compute).
    pose proof (Hwrite keepalivePackage w n fu fd Hci Hf He Ho) as H. revert H.
    unfold keepalive_turn, in_client, at_client, on_client, zoom, bind. cbn [fst snd].
    by destruct (Write _ _ (cli w)) as [c []].
  - revert Ho. apply owed_same; [|by unfold in_client, at_client; cbn].
    unfold AsyncSend, in_client, at_client, on_client, zoom, bind, gets. cbn [fst snd]. by destruct (_ <? _).
  - apply Z.ltb_lt in He. erewrite bind_ret by reflexivity. cbn [id].
    destruct (asyncWriteChan (cli w)) as [|x q] eqn:Eq; cbn [hd].
    + revert Ho. apply owed_same; [|done].
      unfold async_turn, in_client, at_client, on_client, zoom, bind, gets. cbn [fst snd id]. by rewrite Eq.
    + apply Forall_cons in ci_chan0 as [Hf Hq]. pose proof (chan_step w n fu fd q Hci Hq) as Hw1.
      pose proof (Hwrite x _ n fu fd Hw1 Hf He (owed_same w _ p d eq_refl eq_refl Ho)) as H. revert H.
      unfold async_turn, in_client, at_client, on_client, zoom, bind, gets, modify. cbn [fst snd id].
      rewrite Eq. cbn [cli with_cli snd]. by destruct (Write _ _ (with_chan q (cli w))) as [c []].
  - apply bool_decide_eq_true in Hp. destruct Ho as [[id Hid] Hask]. split; [|done]. exists id.
    by apply (sweep_patient now (cli w)).
  - revert Ho. apply owed_same; by (erewrite bind_ret by reflexivity; unfold bind, at_server;
      destruct (asyncSendService_turn _ _ _ _) as [s []]).
  - destruct (circuit_up w n fu fd k Hci Hsm) as (n' & fu' & fd' & w' & Es & _ & _ & Ec & Ea & _).
    cbn [on_event] in Es. rewrite Es. cbn [fst]. revert Ho. apply owed_same; [by rewrite Ec|done].
  - destruct (circuit_down w n fu fd k Hci Hsm) as (fd1 & fd2 & w' & _ & Es & _ & _ & Ea & _ & _ & Ewt).
    cbn [on_event] in Es. rewrite Es. cbn [fst]. revert Ho. by apply owed_same.
Qed.

(** A schedule of such steps. *)
Fixpoint quiet (evs : list event) (w : world) : bool :=
  match evs with
  | [] => true
  | e :: evs => smooth e w && patient e w && quiet evs (on_event e w).1
  end.

Lemma quiet_keeps evs : forall w, echo_ok w -> quiet evs w = true ->
  echo_ok (run on_event evs w) /\ forall p d, owed w p d -> owed (run on_event evs w) p d.
Proof using callbacks_return.
  induction evs as [|e evs IH]; intros w Hw Hq; [done|].
  apply andb_prop in Hq as [[He Hp]%andb_prop Hq].
  destruct (IH (on_event e w).1 (event_keeps e w Hw He) Hq) as [H1 H2]. split; [exact H1|].
  intros p d Ho. apply H2. by apply patient_keeps.
Qed.

(** ** A round of requests *)
Fixpoint undisturbed (l : list (bytes * Z * list event)) (w : world) : bool :=
  match l with
  | [] => true
  | (data, now, s) :: l =>
      fits data && (msgID (cli w) <? MaxInt64) &&
      let w1 := (send data now w).1 in quiet s w1 && undisturbed l (run on_event s w1)
  end.

(** A waiter for each request, and each owed its own data. *)
Definition owes (w : world) (p : option nat) (r : bytes * Z * list event) : Prop :=
  exists q, p = Some q /\ owed w q r.1.1.

Lemma requests_owed l : forall w, echo_ok w -> undisturbed l w = true ->
  exists w' ps, requests l w = (w', Ret ps) /\ echo_ok w' /\ Forall2 (owes w') ps l /\ NoDup ps /\
    forall q x, owed w q x -> owed w' q x /\ Some q ∉ ps.
Proof using callbacks_return.
  induction l as [|[[data now] s] l IH]; intros w Hw Hu.
  { exists w, []. split_and!; [done|done|constructor|apply NoDup_nil_2|].
    intros q x Ho. split; [done|apply not_elem_of_nil]. }
  cbn [undisturbed] in Hu. apply andb_prop in Hu as [[Hf Hl%Z.ltb_lt]%andb_prop [Hq Hu]%andb_prop].
  pose proof Hw as (n & fu & fd & Hci).
  destruct (circuit_send w n fu fd data now Hci Hf Hl) as (w1 & Es & Eask & _ & _ & Eh & Hc1).
  assert (Hold : forall q x, owed w q x -> owed w1 q x /\ q <> next_waiter (cli w)).
  { intros q x Ho. split; [|destruct (waiter_old w q x Hw Ho) as (_ & _ & _ & ?); lia].
    change w1 with (w1, Ret (Some (next_waiter (cli w))) : outcome (option nat)).1.
    rewrite <- Es. by apply send_owed. }
  rewrite Es in Hq, Hu. cbn [fst] in Hq, Hu.
  assert (Hw1 : echo_ok w1) by (by eexists _, _, _).
  assert (Hnew : owed w1 (next_waiter (cli w)) data).
  { split; [|by rewrite Eask, lookup_insert_eq]. exists (msgID (cli w) + 1).
    apply (ok_open _ (ci_client _ _ _ _ Hc1) _ (mkWaiter (msgID (cli w) + 1) None false now)); [|done].
    rewrite Eh. apply lookup_insert_eq. }
  destruct (quiet_keeps s w1 Hw1 Hq) as [Hw2 Hk].
  destruct (IH _ Hw2 Hu) as (w' & ps & Er & Hw' & Hps & Hnd & Hkeep).
  destruct (Hkeep _ _ (Hk _ _ Hnew)) as [Hnew' Hni].
  exists w', (Some (next_waiter (cli w)) :: ps). cbn [requests].
  rewrite (bind_ret _ _ _ _ _ Es). cbn [modify]. erewrite bind_ret by reflexivity.
  rewrite (bind_ret _ _ _ _ _ Er). split_and!; [done|done| |by constructor|].
  - constructor; [|done]. by eexists.
  - intros q x Ho. destruct (Hold q x Ho) as [Ho1 Hne]. destruct (Hkeep _ _ (Hk _ _ Ho1)) as [? ?].
    split; [done|]. intros [[= ->]|?]%elem_of_cons; done.
Qed.

Lemma owes_keep w w1 ps l : (forall q x, owed w q x -> Some q ∈ ps -> owed w1 q x) ->
  Forall2 (owes w) ps l -> Forall2 (owes w1) ps l.
Proof.
  intros Hk. induction 1 as [|p r ps l (q & -> & Hq) _ IH]; [constructor|]. constructor.
  - exists q. split; [done|]. apply Hk; [done|by left].
  - apply IH. intros q' x Hq' Hin. apply Hk; [done|by right].
Qed.

Definition in_flight (w : world) : Prop := up w <> [] \/ down w <> [].

Lemma collect_owed l : forall w ps, echo_ok w -> Forall2 (owes w) ps l -> NoDup ps ->
  (exists w', collect ps w = (w', Ret (map (fun r => r.1.1) l))) \/
  ((collect ps w).2 = Block /\ in_flight w).
Proof.
  induction l as [|r l IH]; intros w ps Hw Hps Hnd; apply Forall2_cons_inv_r in Hps as Hinv || apply Forall2_nil_inv_r in Hps as ->.
  - left. by exists w.
  - destruct Hinv as (p & ps' & (q & -> & Hq) & Hps' & ->). apply NoDup_cons in Hnd as [Hni Hnd]. cbn [collect].
    destruct (owed_wait w q r.1.1 Hw Hq) as [(w1 & E1 & Hw1 & Eu & Ed & Hkeep)|[E1 Hf]].
    + rewrite (bind_ret _ _ _ _ _ E1). destruct (IH w1 ps' Hw1) as [[w' E2]|[E2 Hf]]; [|done|..].
      * apply (owes_keep w); [|done]. intros q' x Hq' Hin. apply Hkeep; [done|]. by intros ->.
      * left. exists w'. rewrite (bind_ret _ _ _ _ _ E2). done.
      * right. split; [|by unfold in_flight in *; rewrite Eu, Ed in Hf].
        unfold bind. by destruct (collect ps' w1) as [w' []].
    + right. split; [|done]. unfold bind. by rewrite E1.
Qed.

(** ** A connection that is gone *)
Lemma send_returns data now w : exists w' p, send data now w = (w', Ret p).
Proof.
  destruct (connected (cli w)) eqn:Hc; cycle 1.
  { exists w, None. unfold send, in_client, on_client, bind at 1, at_client, zoom. cbn [fst snd].
    unfold Send. erewrite bind_ret by reflexivity. cbn [id]. rewrite Hc. cbn. by destruct w. }
  unfold send, in_client, on_client, bind, at_client, zoom. cbn [fst snd].
  unfold Send, bind, gets. cbn [id]. rewrite Hc. cbn [negb]. unfold next_msgID, add_msgID, bind, modify, gets.
  destruct (MaxInt64 <? _); cbn; by eexists _, _.
Qed.
Lemma requests_return l : forall w, exists w' ps, requests l w = (w', Ret ps).
Proof.
  induction l as [|[[data now] s] l IH]; intros w; [by exists w, []|]. cbn [requests].
  destruct (send_returns data now w) as (w1 & p & E1). rewrite (bind_ret _ _ _ _ _ E1).
  erewrite bind_ret by reflexivity. destruct (IH (run on_event s w1)) as (w2 & ps & E2).
  rewrite (bind_ret _ _ _ _ _ E2). by eexists _, _.
Qed.

(** The example drops the errors of [Send] and [Wait]: once the connection is
    lost, the first request of the next round gets no waiter, and waiting on it
    stops the program. *)
Theorem lost_connection_stops w data now s l :
  connected (cli w) = false -> (round ((data, now, s) :: l) w).2 = Panic.
Proof.
  intros Hc. assert (E1 : send data now w = (w, Ret None)).
  { unfold send, in_client, on_client, bind at 1, at_client, zoom. cbn [fst snd].
    unfold Send. erewrite bind_ret by reflexivity. cbn [id]. rewrite Hc. cbn. by destruct w. }
  unfold round. cbn [requests]. destruct (requests_return l (run on_event s w)) as (w2 & ps & E2).
  erewrite bind_ret; cycle 1.
  { rewrite (bind_ret _ _ _ _ _ E1). erewrite bind_ret by reflexivity. rewrite (bind_ret _ _ _ _ _ E2). reflexivity. }
  reflexivity.
Qed.

(** ** The theorems *)

(** A connection that has just been accepted, and what happened on it. *)
Definition history (s : server) (c : nat) (e : E) (evs : list event) (w : world) : Prop :=
  server_ok s /\ next_node s = i /\ allowed_run evs (started s c e) = true /\ w = run on_event evs (started s c e).

Lemma history_ok s c e evs w : history s c e evs w -> headed_run evs (started s c e) = true -> echo_ok w.
Proof using callbacks_return.
  intros (Hs & Hi & Ha & ->) Hd. apply run_keeps; [by apply started_ok|]. by rewrite smooth_run_eq, Ha, Hd.
Qed.

(** C6: Nobody gets another's answer: whatever else happens at the two ends of a
    connection to the echo server - keepalives, background sends, expiring
    waiters, the server's other clients -, a wait that returns data returns
    the data its waiter was asked with.  The conditions on the run: the first
    read of each direction brings at least the four bytes of a packet header
    ([headed_run]; a shorter one is dropped by the codec and the stream is out
    of step, [split_request_lost]), and the network cuts both streams anywhere
    behind that; data fits the receivers' buffers, ids do not run out, the
    client's writes succeed, and the server is not closed and broadcasts
    nothing of its own but keepalives ([allowed]). *)
Theorem answers_are_own s c e evs w p d :
  history s c e evs w -> headed_run evs (started s c e) = true ->
  (wait (Some p) WaitData w).2 = Ret (d, None) -> asked w !! p = Some d.
Proof using callbacks_return. intros Hw Hd. apply wait_answer. by eapply history_ok. Qed.

(** C7: Every request is answered: under the conditions of [answers_are_own] on
    the run so far - the first read of each direction brought at least the four
    bytes of a packet header ([headed_run]), short data, ids left, writes that
    succeed -, from every state the two ends can get into finitely many reads
    empty the network, and then the wait of every request that was not given
    up returns what was asked. *)
Theorem every_request_answered s c e evs w :
  history s c e evs w -> headed_run evs (started s c e) = true ->
  exists more, Forall (fun ev => exists k, ev = EUp k \/ ev = EDown k) more /\ allowed_run more w = true /\
    let w' := run on_event more w in
    up w' = [] /\ down w' = [] /\
    forall id p, waiter (cli w) !! id = Some p ->
      exists d, asked w !! p = Some d /\ (wait (Some p) WaitData w').2 = Ret (d, None).
Proof using callbacks_return.
  intros Hh Hd. apply history_ok in Hh; [|done]. clear Hd. pose proof Hh as (n & fu & fd & Hw).
  destruct (drain_up _ w n fu fd Hw (le_n _)) as (evs1 & n1 & fd1 & Ha1 & He1 & Hw1 & Hu1 & Ec1 & Ea1).
  destruct (drain_down _ _ n1 fd1 Hw1 Hu1 (le_n _)) as (evs2 & n2 & Ha2 & He2 & Hw2 & Hu2 & Hd2 & Ew2 & Ea2).
  exists (evs1 ++ evs2). split.
  { apply Forall_app. split; eapply Forall_impl; [exact He1|intros ev [k ->]; exists k; auto|exact He2|].
    intros ev [k ->]. exists k. auto. }
  split; [pose proof (smooth_app _ _ _ Ha1 Ha2) as Ha; rewrite smooth_run_eq in Ha; by apply andb_prop in Ha as [? _]|]. cbv zeta. rewrite run_app. split_and!; [done..|]. intros id p Hid.
  destruct (open_asked w id p Hh Hid) as [d Hd]. exists d. split; [done|].
  destruct (owed_wait (run on_event evs2 (run on_event evs1 w)) p d) as [(w' & -> & _)|[_ [?|?]]]; try done.
  - by eexists _, _, _.
  - split; [exists id; by rewrite Ew2, Ec1|by rewrite Ea2, Ea1].
Qed.

(** C8: The example's client never stops with an error: under the conditions of
    [answers_are_own] on the run before it ([history], [headed_run]) and
    during it, when no request is given up meanwhile ([undisturbed], which
    asks the same of first reads), a round of requests and waits passes its
    check, or still waits for bytes that are in flight.  A first read shorter
    than the header loses a request ([split_request_lost]). *)
Theorem round_passes s c e evs w l :
  history s c e evs w -> headed_run evs (started s c e) = true -> undisturbed l w = true ->
  exists w1 ps, requests l w = (w1, Ret ps) /\
    ((round l w).2 = Ret tt \/ (round l w).2 = Block /\ in_flight w1).
Proof using callbacks_return.
  intros Hw Hd Hu. apply history_ok in Hw; [|done]. destruct (requests_owed l w Hw Hu) as (w1 & ps & Er & Hw1 & Hps & Hnd & _).
  exists w1, ps. split; [done|]. unfold round. rewrite (bind_ret _ _ _ _ _ Er).
  destruct (collect_owed l w1 ps Hw1 Hps Hnd) as [[w' Ec]|[Eb Hf]].
  - left. rewrite (bind_ret _ _ _ _ _ Ec). by rewrite bool_decide_true.
  - right. split; [|done]. unfold bind. by destruct (collect ps w1) as [w' []].
Qed.
End Echo.

(** ** Concrete instances: a client whose requests overtake each other in
    pieces *)
Section Instances.
#[local] Definition more (c n : nat) : nat := (2 * n)%nat.
#[local] Definition fresh_world : world (E:=unit) := started more NewServer 7 tt.

(** Two requests with a keepalive between them; the first is cut in two on its
    way up, the answers come down in three pieces around the server's
    keepalive, another client connects and leaves. *)
#[local] Definition some_events : list event :=
  [ESend (gostr "hello") 5; EUp 15; EKeepalive; EOther (EvAccept 8); EUp 6; ESend (gostr "word") 6; EDown 9;
   EServerTick; EUp 37; EServerSend; EOther (EvRead 1 RErr); EDown 20; ESweep 100].
#[local] Definition some_world : world (E:=unit) := run (on_event [] more 0) some_events fresh_world.

#[local] Lemma some_history : history [] more 0 NewServer 7 tt some_events some_world.
Proof.
  split; [apply server_ok_init|]. split; [done|]. split; [vm_compute; reflexivity|reflexivity].
Qed.

#[local] Lemma some_headed : headed_run [] more 0 some_events fresh_world = true.
Proof. vm_compute. reflexivity. Qed.

#[local] Lemma nothing_to_return (f : bytes -> M unit unit) x e : f ∈ [] -> (f x e).2 = Ret tt.
Proof. by intros ?%not_elem_of_nil. Qed.

Lemma answers_are_own_witness : asked some_world !! 0%nat = Some (gostr "hello").
Proof.
  apply (answers_are_own [] more 0 nothing_to_return NewServer 7 tt some_events some_world 0 (gostr "hello") some_history some_headed).
  vm_compute. reflexivity.
Defined.

Lemma every_request_answered_witness :
  exists evs, Forall (fun ev => exists k, ev = EUp k \/ ev = EDown k) evs /\ allowed_run [] more 0 evs some_world = true /\
    let w' := run (on_event [] more 0) evs some_world in
    up w' = [] /\ down 0 w' = [] /\
    forall id p, waiter (cli some_world) !! id = Some p ->
      exists d, asked some_world !! p = Some d /\ (wait (Some p) WaitData w').2 = Ret (d, None).
Proof. apply (every_request_answered [] more 0 nothing_to_return NewServer 7 tt some_events some_world some_history some_headed). Defined.

(** A turn of [main] behind that, with the network in between. *)
Lemma round_passes_witness :
  exists w1 ps,
    requests [] more 0 [(gostr "hello", 7, [EUp 15]); (gostr "word", 8, []); (gostr "hahahahahahahahahahah", 9, [EUp 63; EDown 124])]
      some_world = (w1, Ret ps) /\
    ((main_turn [] more 0 7 8 9 [EUp 15] [] [EUp 63; EDown 124] some_world).2 = Ret tt \/
     (main_turn [] more 0 7 8 9 [EUp 15] [] [EUp 63; EDown 124] some_world).2 = Block /\ in_flight 0 w1).
Proof.
  apply (round_passes [] more 0 nothing_to_return NewServer 7 tt some_events some_world _ some_history some_headed).
  vm_compute. reflexivity.
Defined.

Example main_turn_passes :
  (main_turn [] more 0 7 8 9 [EUp 15] [] [EUp 63; EDown 124] some_world).2 = Ret tt.
Proof. vm_compute. reflexivity. Qed.

(** The condition is needed: TCP may deliver the first three bytes of the first
    request on their own.  The server drops them: everything has been read, and
    there is nothing for the wait to return. *)
Example split_request_lost :
  let evs := [ESend (gostr "hello") 5; EUp 3; EUp 18] in
  let w := run (on_event [] more 0) evs fresh_world in
  allowed_run [] more 0 evs fresh_world = true /\ headed_run [] more 0 evs fresh_world = false /\
  up w = [] /\ down 0 w = [] /\ (wait (Some 0%nat) WaitData w).2 = Block.
Proof. split_and!; vm_compute; reflexivity. Qed.

Lemma lost_connection_stops_witness :
  (round [] more 0 [(gostr "hello", 7, [])] (in_client Disconnect some_world).1).2 = Panic.
Proof. apply (lost_connection_stops [] more 0 (in_client Disconnect some_world).1). vm_compute. reflexivity. Defined.
End Instances.
