(* ===== verification/Replica.v ===== *)
(** * A follower behind its leader, step by step

    What a leader's server broadcasts ([src/agent/server.go]) travels through
    the send queue of a follower's connection, the connection and the
    follower's receive buffer to the callbacks of its client
    ([src/agent/client.go]).  [LogPath.v] follows one stream from end to end;
    here the steps interleave: the leader announces, sends keepalives, serves
    other followers and closes on them while the follower reads whatever pieces
    the network brings.  When its first read brought a packet header, the
    follower has at every moment handled a prefix of the announcements, and
    the rest is on its way. *)
From S2P Require Import Prelude.
From S2P Require Import GoSem.
From S2P Require Import Framing.
From S2P Require Import Codec.
From S2P Require Import AgentRecv.
From S2P Require Import AgentServer.
From S2P Require Import AgentClient.
From S2P Require Import AgentOptions.
From S2P Require Import Link.
Set Default Proof Using "Type".

(** ** What a packet does to the state of the callbacks *)
Section Hearing.
Context {E : Type} (callbacks : list (bytes -> M E unit)).
Implicit Types (c : Client E) (e : E) (fs : list frame).

Definition heard_by (content : bytes) : M E unit :=
  if decide (content = keepalivePackage) then ret tt else range callbacks (fun f => f content).
Definition hears e (f : frame) : E := (heard_by f.2 e).1.

(** Callbacks that return, packet by packet. *)
Fixpoint hearable e fs : Prop :=
  match fs with
  | [] => True
  | f :: fs => f.1 = 1 /\ (heard_by f.2 e).2 = Ret tt /\ hearable (hears e f) fs
  end.

Lemma hearable_app fs1 : forall e fs2,
  hearable e (fs1 ++ fs2) <-> hearable e fs1 /\ hearable (foldl hears e fs1) fs2.
Proof. induction fs1 as [|f fs1 IH]; intros e fs2; cbn; [tauto|]. rewrite IH. tauto. Qed.

Lemma callbacks_in_env content (l : list (bytes -> M E unit)) : forall c,
  range l (fun f : bytes -> M E unit => in_env (f content)) c =
    (with_env (range l (fun f => f content) (env c)).1 c, (range l (fun f => f content) (env c)).2).
Proof.
  induction l as [|f l IH]; intros c; [by destruct c|]. cbn [range]. unfold bind, in_env at 1.
  destruct (f content (env c)) as [e [[]| | |]]; cbn [fst snd]; rewrite ?IH; done.
Qed.

(** A broadcast packet, whose id is the system's. *)
Lemma client_act_system content c :
  client_act callbacks 1 content c = (with_env (heard_by content (env c)).1 c, (heard_by content (env c)).2).
Proof.
  unfold client_act, heard_by. change (1 <? 1) with false. cbn iota. erewrite bind_ret by reflexivity.
  case_decide; [by destruct c|]. apply callbacks_in_env.
Qed.

Lemma hearable_acts fs : forall c, hearable (env c) fs ->
  acts (client_act callbacks) c fs /\
  foldl (after (client_act callbacks)) c fs = with_env (foldl hears (env c) fs) c.
Proof.
  induction fs as [|f fs IH]; intros c Hh; [by destruct c|]. destruct Hh as (Hid & Hr & Hh).
  assert (Ea : client_act callbacks f.1 f.2 c = (with_env (hears (env c) f) c, Ret tt)).
  { rewrite Hid, client_act_system, Hr. done. }
  assert (Ea' : after (client_act callbacks) c f = with_env (hears (env c) f) c) by (unfold after; by rewrite Ea).
  cbn [acts foldl]. rewrite Ea', Ea. destruct (IH (with_env (hears (env c) f) c) Hh) as [H1 H2].
  split; [done|]. by rewrite H2.
Qed.
End Hearing.

(** ** The leader, the connection and the follower *)
Section Replica.
Context {E : Type}.
Variable callbacks : list (bytes -> M E unit).
Variable growcap : nat -> nat -> nat.
(** The follower's connection at the leader. *)
Variable i : nat.

Record pipe := mkPipe {
  srv : server;
  buf : slice byte;
  cli : Client E;
  nread : nat
}.
Definition flight (w : pipe) : bytes :=
  match nodes (srv w) !! i with
  | Some n => drop (nread w) (concat (AgentServer.writes n))
  | None => []
  end.

Inductive pipe_event :=
  | PAnnounce (data : bytes)        (* the leader broadcasts *)
  | PTick                           (* the leader's keepalive *)
  | PSend                           (* the sender of the follower's connection *)
  | PServer (e : server_event)      (* the leader reads, and its other followers *)
  | PRead (k : nat)                 (* the follower reads [k] bytes *)
  | PKeepalive (wr : Z * option goerr)
  | PSweep (now : Z).               (* the loops of the follower's client *)

Definition agent_server : list OnServerMessageFunc := server_callbacks agent_settings.

Definition pipe_server {A} (m : M server A) : M pipe A := fun w =>
  (mkPipe (m (srv w)).1 (buf w) (cli w) (nread w), (m (srv w)).2).
Definition pipe_client {A} (m : M (slice byte * Client E) A) : M pipe A := fun w =>
  let r := m (buf w, cli w) in (mkPipe (srv w) r.1.1 r.1.2 (nread w), r.2).

Definition on_pipe_event (e : pipe_event) : M pipe unit :=
  match e with
  | PAnnounce data => pipe_server (Broadcast 1 data)
  | PTick => pipe_server AgentServer.keepalive_turn
  | PSend =>
      let! w := gets id in
      let size := match nodes (srv w) !! i with Some n => length (hd [] (sendQueue n)) | None => 0%nat end in
      pipe_server (asyncSendService_turn growcap i (SelMsg (Some size))) ;; ret tt
  | PServer e => pipe_server (on_server_event growcap agent_server e)
  | PRead k =>
      let! w := gets id in
      pipe_client (readMessage_turn callbacks growcap (Some (take k (flight w)))) ;;
      modify (fun w => mkPipe (srv w) (buf w) (cli w) (nread w + k))
  | PKeepalive wr => pipe_client (on_client (keepalive_turn wr))
  | PSweep now => pipe_client (on_client (gc_turn now))
  end.

(** The send queues have room. *)
Definition roomy (sv : server) : bool :=
  forallb (fun j => match nodes sv !! j with Some n => len (sendQueue n) <? tcpMaxSendQueue | None => true end)
    (elems (clients sv)).

Definition aside (e : server_event) : bool :=
  match e with
  | EvAccept _ => true
  | EvRead j (RData _) => true
  | EvRead j _ | EvService j _ | EvSend j _ _ => bool_decide (j <> i)
  | EvBroadcast _ _ | EvKeepalive | EvClose => false
  end.

Definition may (e : pipe_event) (w : pipe) : bool :=
  match e with
  | PAnnounce data => (len data + 16 + 4096 <=? PackageMaxLength) && roomy (srv w)
  | PTick => roomy (srv w)
  | PServer e => aside e
  | PRead k => piece_size k && (k <=? length (flight w))%nat
  | _ => true
  end.
(** The follower's first read brings a packet header. *)
Definition headed (e : pipe_event) (w : pipe) : bool :=
  match e with PRead k => header_whole (nread w) k | _ => true end.
Lemma read_headed k w : may (PRead k) w && headed (PRead k) w = piece_ok (nread w) k && (k <=? length (flight w))%nat.
Proof. cbn [may headed]. unfold piece_ok. by destruct (piece_size k), (header_whole _ _), (_ <=? _)%nat. Qed.

Fixpoint headed_run (evs : list pipe_event) (w : pipe) : bool :=
  match evs with
  | [] => true
  | e :: evs => headed e w && headed_run evs (on_pipe_event e w).1
  end.
Fixpoint may_run (evs : list pipe_event) (w : pipe) : bool :=
  match evs with
  | [] => true
  | e :: evs => may e w && may_run evs (on_pipe_event e w).1
  end.

(** What a run announces. *)
Definition announces (e : pipe_event) : list frame :=
  match e with PAnnounce data => [(1, data)] | PTick => [(1, keepalivePackage)] | _ => [] end.
Definition told (evs : list pipe_event) : list frame := concat (map announces evs).

(** A follower with a connection accepted just now. *)
Definition dialled (s : server) (conn : nat) (c : Client E) : pipe :=
  mkPipe (accept growcap conn s).1 empty_slice c 0.

(** ** The invariant

    [heard] has been handled, [gs] is in flight or in the follower's buffer,
    [q] waits in the send queue. *)
Record piping (e0 : E) (fs : list frame) (w : pipe) (n : ClientNode) (heard gs q : list frame) : Prop := {
  pi_server : server_ok (srv w);
  pi_node : nodes (srv w) !! i = Some n;
  pi_online : online n = true;
  pi_queue : sendQueue n = map enc_frame q;
  pi_connected : connected (cli w) = true;
  pi_link : link_ok (buf w) (nread w) (flight w) gs;
  pi_nread : (nread w <= length (concat (AgentServer.writes n)))%nat;
  pi_told : fs = heard ++ gs ++ q;
  pi_packets : Forall packet_ok fs;
  pi_env : env (cli w) = foldl (hears callbacks) e0 heard
}.

Lemma flight_node w n : nodes (srv w) !! i = Some n -> flight w = drop (nread w) (concat (AgentServer.writes n)).
Proof. intros En. unfold flight. by rewrite En. Qed.

(** The server's end changes; it wrote [ws] and queued [qs]. *)
Lemma piping_server e0 fs w n heard gs q s n' ws q' qs :
  piping e0 fs w n heard gs q -> server_ok s -> nodes s !! i = Some n' -> online n' = true ->
  sendQueue n' = map enc_frame q' -> AgentServer.writes n' = AgentServer.writes n ++ map enc_frame ws ->
  ws ++ q' = q ++ qs -> Forall packet_ok qs ->
  piping e0 (fs ++ qs) (mkPipe s (buf w) (cli w) (nread w)) n' heard (gs ++ ws) q'.
Proof.
  intros [] Hs En' Ho Eq Ew Hsplit Hqs. rewrite (flight_node _ _ pi_node0) in pi_link0.
  assert (Ec : concat (AgentServer.writes n') = concat (AgentServer.writes n) ++ wire enc_frame ws)
    by (rewrite Ew; by rewrite concat_app).
  split; try done; cbn [srv buf cli nread].
  - rewrite (flight_node _ n') by done. cbn [nread]. rewrite Ec, drop_app_le by done. by apply link_writes.
  - rewrite Ec, length_app. lia.
  - rewrite pi_told0, <- !app_assoc. by rewrite Hsplit.
  - by apply Forall_app.
Qed.

(** The follower's client changes, its buffer and what its callbacks heard
    excepted. *)
Lemma piping_client e0 fs w n heard gs q c :
  piping e0 fs w n heard gs q -> connected c = true -> env c = env (cli w) ->
  piping e0 fs (mkPipe (srv w) (buf w) c (nread w)) n heard gs q.
Proof. intros [] Hc He. split; try done. cbn [cli]. by rewrite He. Qed.

Lemma roomy_room sv : roomy sv = true -> forall j, j ∈ elems (clients sv) -> has_room sv j.
Proof.
  unfold roomy. rewrite forallb_forall. intros Hr j Hj m Em. apply list_elem_of_In, Hr in Hj. rewrite Em in Hj. lia.
Qed.

Lemma piping_broadcast e0 fs w n heard gs q data :
  piping e0 fs w n heard gs q -> roomy (srv w) = true -> packet_ok (1, data) ->
  exists n', piping e0 (fs ++ [(1, data)]) (mkPipe (Broadcast 1 data (srv w)).1 (buf w) (cli w) (nread w))
    n' heard gs (q ++ [(1, data)]).
Proof.
  intros Hw Hr Hp. pose proof Hw as [].
  destruct (broadcast_node (srv w) 1 data i n pi_server0 (roomy_room _ Hr) pi_node0 pi_online0) as (s & -> & Hs & En').
  exists (with_queue (sendQueue n ++ [Encode 1 data]) n). cbn [fst]. rewrite <- (app_nil_r gs).
  eapply (piping_server e0 fs w n heard gs q s _ [] _ [(1, data)]); try done.
  - cbn [sendQueue with_queue]. rewrite pi_queue0, map_app. done.
  - by rewrite app_nil_r.
  - by apply Forall_singleton.
Qed.

Lemma piping_send e0 fs w n heard gs q :
  piping e0 fs w n heard gs q ->
  exists w' n' ws q', (on_pipe_event PSend w).1 = w' /\ piping e0 fs w' n' heard (gs ++ ws) q' /\ q = ws ++ q' /\
    (length q' = length q - 1)%nat /\ cli w' = cli w.
Proof.
  intros Hw. pose proof Hw as []. destruct (ok_nodes _ pi_server0 i n pi_node0) as [Hok _].
  unfold on_pipe_event. erewrite bind_ret by reflexivity. cbn [id]. rewrite pi_node0.
  unfold bind at 1, pipe_server, asyncSendService_turn. rewrite (sv_bind_the_node _ _ _ _ pi_node0).
  rewrite pi_online0, pi_queue0. cbn [negb]. destruct q as [|f q]; cbn [map hd].
  { rewrite (sv_node_ok_open n) by done. exists w, n, [], []. unfold lift. cbn [fst].
    rewrite app_nil_r. split_and!; try done. by destruct w. }
  rewrite (sv_bind_upd_node _ _ _ _ _ pi_node0). cbv beta.
  erewrite bind_ret by (apply sv_upd_node_eq, put_lookup). cbn [fst snd ret].
  rewrite take_ge by done. set (n' := with_write _ _).
  assert (Hcl : connClosed n = false).
  { destruct Hok as [[(_&_&?)|(E0&_)] _]; [done|]. unfold online in pi_online0. by rewrite E0 in pi_online0. }
  assert (Hq : len (map enc_frame q) <= tcpMaxSendQueue).
  { destruct Hok as [_ Hl]. rewrite pi_queue0 in Hl. unfold len in *. cbn [map length] in Hl. lia. }
  eexists _, n', [f], q. split; [reflexivity|]. split; [|split_and!; [done|cbn [length]; lia|done]].
  rewrite <- (app_nil_r fs).
  eapply (piping_server e0 fs w n heard gs (f :: q) _ n' [f] q []); try done.
  - apply (server_ok_put _ i (with_queue (map enc_frame q) n)); [|apply put_lookup| |done].
    + apply (server_ok_put _ i n); try done. destruct Hok as [? _]. by split.
    + destruct Hok as [? _]. by split.
  - apply put_lookup.
  - unfold n', with_write. cbn [AgentServer.writes connClosed with_queue]. by rewrite Hcl.
  - by rewrite app_nil_r.
Qed.

(** *** The leader's other doings *)
Definition same_line (n : ClientNode) : server -> Prop := at_node i (fun o => exists b, o = Some (with_recvBuf b n)).

Lemma read_aside n j d : preserves (same_line n) (node_onMessage growcap agent_server j d).
Proof.
  intros s Hs. unfold node_onMessage. destruct (nodes s !! j) as [m|] eqn:Em; [|done]. cbv zeta.
  assert (Hr : same_line n (onMessage (HW:=zoom_host (node_act agent_server j)) growcap d (recvBuf m, s)).1.2).
  { apply (preserves_zoom_onMessage _ (same_line n) growcap d); [|done]. intros id c. apply preserves_ret. }
  set (r := onMessage _ _ _) in *. destruct (nodes r.1.2 !! j) as [m'|] eqn:Em'; [|done].
  destruct Hr as (b & Hb). unfold same_line, at_node. cbn. destruct (decide (j = i)) as [->|Hne].
  - exists r.1.1. rewrite lookup_insert_eq. rewrite Hb in Em'. by injection Em' as <-.
  - exists b. by rewrite lookup_insert_ne.
Qed.

Lemma event_aside n e :
  aside e = true -> preserves (fun s => server_ok s /\ same_line n s) (on_server_event growcap agent_server e).
Proof.
  intros He s [Hs Hn]. split; [by apply preserves_on_server_event; [apply agent_callbacks_ok|]|].
  destruct e as [c|j r|j c|j id d|id d| |]; cbn [aside] in He; try done; cbn [on_server_event].
  - apply accept_elsewhere; [done| |done]. destruct Hn as (b & ->). by eexists.
  - apply (preserves_bind (same_line n)); [|intros _; apply preserves_ret|done].
    destruct r; cbn [AgentServer.readMessage_turn]; (apply preserves_bind; [|intros _; apply preserves_ret]);
      try apply read_aside. apply bool_decide_eq_true in He. by apply close_elsewhere.
  - apply bool_decide_eq_true in He. apply (preserves_bind (same_line n)); [by apply service_elsewhere|intros _; apply preserves_ret|done].
  - apply bool_decide_eq_true in He. by apply upd_elsewhere.
Qed.

Lemma piping_aside e0 fs w n heard gs q e :
  piping e0 fs w n heard gs q -> aside e = true ->
  exists n', piping e0 fs (on_pipe_event (PServer e) w).1 n' heard gs q.
Proof.
  intros Hw He. pose proof Hw as [].
  destruct (event_aside n e He (srv w)) as (Hs & b & Hb).
  { split; [done|]. exists (recvBuf n). rewrite pi_node0. by destruct n. }
  exists (with_recvBuf b n). rewrite <- (app_nil_r fs), <- (app_nil_r gs).
  cbn [on_pipe_event]. unfold pipe_server. cbn [fst].
  eapply (piping_server e0 fs w n heard gs q _ _ [] q []); try done; by rewrite app_nil_r.
Qed.

(** *** The follower's own loops *)
Definition line (c : Client E) : Z * E := (AgentClient.status c, env c).

Lemma line_write o data wr : preserves (fun c => line c = o) (Write data wr).
Proof.
  unfold Write, next_msgID, add_msgID, conn_Write.
  repeat first [apply preserves_bind; [|intros ?] | apply preserves_gets | apply preserves_ret
    | by apply preserves_modify | case_match].
Qed.

Lemma line_sweep o now : preserves (fun c => line c = o) (gc_turn now).
Proof.
  unfold gc_turn. apply preserves_bind; [apply preserves_gets|]. intros m. apply preserves_range. intros kv.
  unfold gc_one, close_waiter, put_waiter, the_waiter.
  repeat first [apply preserves_bind; [|intros ?] | apply preserves_gets | apply preserves_ret | apply preserves_lift
    | by apply preserves_modify | case_match]; intros c Hc; by case_match.
Qed.

Lemma piping_loop e0 fs w n heard gs q (m : M (Client E) unit) :
  piping e0 fs w n heard gs q -> (forall o, preserves (fun c => line c = o) m) ->
  piping e0 fs (pipe_client (on_client m) w).1 n heard gs q.
Proof.
  intros Hw Hm. specialize (Hm (line (cli w)) (cli w) eq_refl) as Hl. injection Hl as Es Ee.
  unfold pipe_client, on_client, zoom. cbn [fst snd]. apply (piping_client _ _ _ _ _ _ _ _ Hw); [|done].
  unfold connected. rewrite Es. by apply Hw.
Qed.

(** *** The follower reads *)
Lemma piping_read e0 fs w n heard gs q k :
  piping e0 fs w n heard gs q -> hearable callbacks e0 fs -> may (PRead k) w && headed (PRead k) w = true ->
  exists gs1 gs2, gs = gs1 ++ gs2 /\ (on_pipe_event (PRead k) w).2 = Ret tt /\
    let w' := (on_pipe_event (PRead k) w).1 in
    piping e0 fs w' n (heard ++ gs1) gs2 q /\ (length (flight w') + k = length (flight w))%nat.
Proof.
  rewrite read_headed. intros Hw Hh [Hp Hk]%andb_prop. apply Nat.leb_le in Hk. pose proof Hw as [].
  assert (Hl : length (take k (flight w)) = k) by (rewrite length_take; lia).
  rewrite pi_told0 in Hh, pi_packets0. apply hearable_app in Hh as [Hh1 Hh]. apply hearable_app in Hh as [Hh Hhq].
  rewrite <- pi_env0 in Hh. apply Forall_app in pi_packets0 as [Hp1 [Hp2 Hp3]%Forall_app].
  destruct (hearable_acts callbacks gs (cli w) Hh) as [Ha _]. rewrite <- (take_drop k (flight w)) in pi_link0.
  destruct (link_read _ growcap _ _ _ _ _ (cli w) pi_link0 ltac:(by rewrite Hl) Hp2 Ha)
    as (gs1 & gs2 & b' & -> & Er & Hlk). rewrite Hl in Hlk.
  apply hearable_app in Hh as [Hh _]. destruct (hearable_acts callbacks gs1 (cli w) Hh) as [_ Ef]. rewrite Ef in Er.
  exists gs1, gs2. split; [done|].
  assert (Es : on_pipe_event (PRead k) w =
    (mkPipe (srv w) b' (with_env (foldl (hears callbacks) (env (cli w)) gs1) (cli w)) (nread w + k), Ret tt)).
  { cbn [on_pipe_event]. erewrite bind_ret by reflexivity. cbn [id].
    rewrite (bind_ret _ _ _ (mkPipe (srv w) b' (with_env (foldl (hears callbacks) (env (cli w)) gs1) (cli w)) (nread w)) tt);
      [reflexivity|].
    unfold pipe_client, AgentClient.readMessage_turn. erewrite bind_ret by reflexivity. cbn [snd]. rewrite pi_connected0. cbn [negb].
    destruct (Z.leb_spec (len (take k (flight w))) 0) as [Hz|_].
    { unfold len in Hz. rewrite Hl in Hz. apply piece_ok_pos in Hp. lia. }
    unfold client_onMessage. change (client_host callbacks) with (zoom_host (client_act callbacks)). by rewrite Er. }
  rewrite Es. cbn [fst snd]. split; [done|]. cbv zeta.
  set (w' := mkPipe _ _ _ _).
  assert (Efl : flight w' = drop k (flight w)).
  { unfold flight. cbn [srv nread w']. rewrite pi_node0. by rewrite drop_drop. }
  split; [|rewrite Efl, length_drop; lia]. split; try done.
  - by rewrite Efl.
  - cbn [nread w']. rewrite (flight_node w n pi_node0), length_drop in Hk. lia.
  - by rewrite pi_told0, <- !app_assoc.
  - rewrite pi_told0. apply Forall_app; split; [done|]. by apply Forall_app.
  - cbn [cli w' env with_env]. by rewrite pi_env0, foldl_app.
Qed.

(** *** A step *)
Lemma keepalive_frame : packet_ok (1, keepalivePackage).
Proof. split; [cbn; lia|]. vm_compute. done. Qed.

Lemma piping_step e0 fs w n heard gs q e :
  piping e0 fs w n heard gs q -> hearable callbacks e0 fs -> may e w && headed e w = true ->
  exists n' heard' gs' q', piping e0 (fs ++ announces e) (on_pipe_event e w).1 n' heard' gs' q'.
Proof.
  intros Hw Hh Hm. pose proof Hm as [He _]%andb_prop. destruct e as [data| | |e|k|wr|now]; cbn [announces]; rewrite ?app_nil_r.
  - apply andb_prop in He as [Hl%Z.leb_le Hr]. destruct (piping_broadcast e0 fs w n heard gs q data Hw Hr) as (n' & H).
    { split; cbn [fst snd]; lia. }
    by exists n', heard, gs, (q ++ [(1, data)]).
  - destruct (piping_broadcast e0 fs w n heard gs q keepalivePackage Hw He keepalive_frame) as (n' & H).
    by exists n', heard, gs, (q ++ [(1, keepalivePackage)]).
  - destruct (piping_send e0 fs w n heard gs q Hw) as (w' & n' & ws & q' & -> & H & _). by eexists _, _, _, _.
  - destruct (piping_aside e0 fs w n heard gs q e Hw He) as (n' & H). by eexists _, _, _, _.
  - destruct (piping_read e0 fs w n heard gs q k Hw Hh Hm) as (gs1 & gs2 & _ & _ & H & _). by eexists _, _, _, _.
  - exists n, heard, gs, q. apply (piping_loop _ _ _ _ _ _ _ (keepalive_turn wr) Hw). intros o.
    apply preserves_bind; [apply line_write|]. intros _. apply preserves_ret.
  - exists n, heard, gs, q. apply (piping_loop _ _ _ _ _ _ _ (gc_turn now) Hw). intros o. apply line_sweep.
Qed.

Lemma dialled_piping s conn c :
  server_ok s -> next_node s = i -> connected c = true -> piping (env c) [] (dialled s conn c) (newNode conn) [] [] [].
Proof.
  intros Hs Ei Hc. pose proof (preserves_accept growcap conn s Hs) as Hs'.
  assert (En : nodes (accept growcap conn s).1 !! i = Some (newNode conn)) by (cbn; rewrite Ei; apply lookup_insert_eq).
  assert (Hf : flight (dialled s conn c) = []) by (unfold flight; cbn [srv dialled]; by rewrite En).
  split; try done. rewrite Hf. apply link_start.
Qed.

Lemma piping_run e0 evs : forall fs w n heard gs q,
  piping e0 fs w n heard gs q -> hearable callbacks e0 (fs ++ told evs) -> may_run evs w && headed_run evs w = true ->
  exists n' heard' gs' q', piping e0 (fs ++ told evs) (run on_pipe_event evs w) n' heard' gs' q'.
Proof.
  induction evs as [|e evs IH]; intros fs w n heard gs q Hw Hh Hm.
  { exists n, heard, gs, q. by rewrite app_nil_r. }
  cbn [may_run headed_run] in Hm. apply andb_prop in Hm as [[He Hm]%andb_prop [Hd Hmd]%andb_prop].
  change (told (e :: evs)) with (announces e ++ told evs) in *.
  rewrite app_assoc in *. destruct (piping_step e0 fs w n heard gs q e Hw) as (n' & heard' & gs' & q' & Hw'); try done.
  { apply hearable_app in Hh as [Hh _]. by apply hearable_app in Hh as [? _]. }
  { by rewrite He, Hd. }
  apply (IH _ _ n' heard' gs' q'); [done|done|by rewrite Hm, Hmd].
Qed.

Lemma may_run_app l : forall evs w,
  may_run l w = true -> may_run evs (run on_pipe_event l w) = true -> may_run (l ++ evs) w = true.
Proof.
  induction l as [|e l IH]; intros evs w H1 H2; [done|]. cbn [may_run app] in *.
  apply andb_prop in H1 as [-> H1]. by apply IH.
Qed.

(** *** Everything announced arrives *)
Lemma empty_queue e0 fs q : forall w n heard gs, piping e0 fs w n heard gs q ->
  exists n' gs', piping e0 fs (run on_pipe_event (repeat PSend (length q)) w) n' heard gs' [] /\
    may_run (repeat PSend (length q)) w = true.
Proof.
  induction q as [|f q IH]; intros w n heard gs Hw; [by exists n, gs|].
  destruct (piping_send e0 fs w n heard gs (f :: q) Hw) as (w' & n' & ws & q' & Es & Hw' & Eq & El & _).
  assert (q' = q) as ->.
  { destruct ws as [|g ws]; cbn [app] in Eq; [rewrite <- Eq in El; cbn [length] in El; lia|].
    injection Eq as _ Eq. rewrite Eq in El. cbn [length] in El. rewrite length_app in El. destruct ws; [done|cbn [length] in El; lia]. }
  destruct (IH w' n' heard _ Hw') as (n2 & gs2 & H & Hm). exists n2, gs2. cbn [length repeat may_run may andb].
  change (run on_pipe_event (PSend :: repeat PSend (length q)) w)
    with (run on_pipe_event (repeat PSend (length q)) (on_pipe_event PSend w).1). by rewrite Es.
Qed.

Lemma empty_flight e0 fs m : forall w n heard gs,
  piping e0 fs w n heard gs [] -> hearable callbacks e0 fs -> (length (flight w) <= m)%nat ->
  exists evs, Forall (fun e => exists k, e = PRead k) evs /\ may_run evs w = true /\
    exists n', piping e0 fs (run on_pipe_event evs w) n' fs [] [].
Proof.
  induction m as [m IH] using lt_wf_ind. intros w n heard gs Hw Hh Hm.
  destruct (decide (flight w = [])) as [Ef|Ef].
  - pose proof Hw as []. rewrite Ef in pi_link0. destruct (link_drained _ _ _ pi_link0) as [-> _].
    exists []. split_and!; try done. exists n. rewrite pi_told0 at 2. by rewrite !app_nil_r.
  - set (k := Nat.min readBufferLen (length (flight w))).
    assert (Hk : (1 <= k <= length (flight w))%nat).
    { unfold k, readBufferLen. destruct (flight w); [done|cbn [length]; lia]. }
    assert (Ha : may (PRead k) w && headed (PRead k) w = true).
    { rewrite read_headed. apply andb_true_intro. split; [|apply Nat.leb_le; lia]. by apply (link_piece _ _ _ _ (pi_link _ _ _ _ _ _ _ Hw)). }
    destruct (piping_read e0 fs w n heard gs [] k Hw Hh Ha) as (gs1 & gs2 & _ & _ & Hw1 & El).
    destruct (IH (length (flight (on_pipe_event (PRead k) w).1)) ltac:(lia) _ n (heard ++ gs1) gs2 Hw1 Hh (le_n _))
      as (evs & Hall & Hal & H).
    exists (PRead k :: evs). split; [constructor; [by exists k|done]|]. cbn [may_run]. apply andb_prop in Ha as [-> _]. by rewrite Hal.
Qed.

Lemma catches_up e0 fs w n heard gs q :
  piping e0 fs w n heard gs q -> hearable callbacks e0 fs ->
  exists more, Forall (fun e => e = PSend \/ exists k, e = PRead k) more /\ may_run more w = true /\
    env (cli (run on_pipe_event more w)) = foldl (hears callbacks) e0 fs.
Proof.
  intros Hw Hh. destruct (empty_queue _ _ q w n heard gs Hw) as (n1 & gs1 & Hw1 & Hm1).
  destruct (empty_flight _ _ _ _ n1 heard gs1 Hw1 Hh (le_n _)) as (evs2 & Hall & Hm2 & n2 & Hw2).
  exists (repeat PSend (length q) ++ evs2). split_and!.
  - apply Forall_app. split; [|eapply Forall_impl; [exact Hall|by right]].
    apply Forall_forall. intros e He%list_elem_of_In%repeat_spec. by left.
  - by apply may_run_app.
  - rewrite run_app. by apply pi_env in Hw2.
Qed.

(** ** The theorems *)

(** A follower that has just been accepted, and what happened since; its first
    read brought a packet header. *)
Definition followed (s : server) (conn : nat) (c : Client E) (evs : list pipe_event) (w : pipe) : Prop :=
  server_ok s /\ next_node s = i /\ connected c = true /\ hearable callbacks (env c) (told evs) /\
  may_run evs (dialled s conn c) = true /\ headed_run evs (dialled s conn c) = true /\ w = run on_pipe_event evs (dialled s conn c).

Lemma followed_piping s conn c evs w :
  followed s conn c evs w -> exists n heard gs q, piping (env c) (told evs) w n heard gs q.
Proof.
  intros (Hs & Ei & Hc & Hh & Hm & Hd & ->).
  apply (piping_run (env c) evs [] _ _ _ _ _ (dialled_piping s conn c Hs Ei Hc)); [done|by rewrite Hm, Hd].
Qed.

(** Whatever the leader's other followers do and however the network cuts
    the stream behind the first header, a follower has always handled exactly a prefix of what the
    leader announced since it connected, packet by packet and in order; and it
    has handled all of it when its queue at the leader and the connection are
    empty. *)
Theorem follower_hears s conn c evs w :
  followed s conn c evs w ->
  exists heard rest, told evs = heard ++ rest /\ env (cli w) = foldl (hears callbacks) (env c) heard /\
    connected (cli w) = true /\
    ((forall n, nodes (srv w) !! i = Some n -> sendQueue n = []) -> flight w = [] -> rest = []).
Proof.
  intros Hf. destruct (followed_piping s conn c evs w Hf) as (n & heard & gs & q & []).
  exists heard, (gs ++ q). split_and!; try done. intros Hq Efl. rewrite Efl in pi_link0.
  destruct (link_drained _ _ _ pi_link0) as [-> _]. specialize (Hq n pi_node0). rewrite pi_queue0 in Hq. by destruct q.
Qed.

(** A follower catches up: from every state the leader and the follower can
    get into when the follower's first read brought the header, finitely many
    turns of the connection's sender and reads of the follower bring it to
    what the announcements make of its state. *)
Theorem follower_catches_up s conn c evs w :
  followed s conn c evs w ->
  exists more, Forall (fun e => e = PSend \/ exists k, e = PRead k) more /\ may_run more w = true /\
    env (cli (run on_pipe_event more w)) = foldl (hears callbacks) (env c) (told evs).
Proof.
  intros Hf. destruct (followed_piping s conn c evs w Hf) as (n & heard & gs & q & Hw).
  destruct Hf as (_ & _ & _ & Hh & _). by apply (catches_up _ _ w n heard gs q).
Qed.
End Replica.

(** ** Concrete instances: a follower whose callback logs what it is given *)
Section Instances.
#[local] Definition note (content : bytes) : M (list bytes) unit := modify (fun l => l ++ [content]).
#[local] Definition more (c n : nat) : nat := (2 * n)%nat.
#[local] Definition ready : Client (list bytes) := (Connect None (NewClient [])).1.

(** Three announcements and a keepalive; another follower comes, sends bytes
    and goes; the first packet arrives in two pieces and the last is still in
    the leader's queue. *)
#[local] Definition some_events : list pipe_event :=
  [PAnnounce (gostr "one"); PServer (EvAccept 8); PSend; PRead 7; PTick; PServer (EvRead 1 (RData (gostr "??")));
   PAnnounce (gostr "two"); PSend; PSend; PKeepalive (20, None); PRead 30; PServer (EvRead 1 RErr);
   PAnnounce (gostr "three"); PSweep 100].
#[local] Definition some_pipe : pipe (E:=list bytes) :=
  run (on_pipe_event [note] more 0) some_events (dialled more NewServer 7 ready).

#[local] Lemma some_followed : followed [note] more 0 NewServer 7 ready some_events some_pipe.
Proof.
  split; [apply server_ok_init|]. split; [done|]. split; [done|]. split; [vm_compute; tauto|].
  split; [vm_compute; reflexivity|]. split; [vm_compute; reflexivity|reflexivity].
Qed.

(** The condition is needed: a first read of two bytes is one TCP may make, and
    with it the follower hears nothing of what it was told, however much it
    reads afterwards - its queue at the leader and the connection are empty. *)
Example split_header_loses :
  let evs := [PAnnounce (gostr "one"); PSend; PRead 2; PRead 17] in
  let w := run (on_pipe_event [note] more 0) evs (dialled more NewServer 7 ready) in
  may_run [note] more 0 evs (dialled more NewServer 7 ready) = true /\
  headed_run [note] more 0 evs (dialled more NewServer 7 ready) = false /\
  flight 0 w = [] /\ AgentClient.env (cli w) = [].
Proof. split_and!; vm_compute; reflexivity. Qed.

Lemma follower_hears_witness :
  exists heard rest, told some_events = heard ++ rest /\
    AgentClient.env (cli some_pipe) = foldl (hears [note]) [] heard /\ connected (cli some_pipe) = true /\
    ((forall n, nodes (srv some_pipe) !! 0%nat = Some n -> sendQueue n = []) -> flight 0 some_pipe = [] -> rest = []).
Proof. apply (follower_hears [note] more 0 NewServer 7 ready some_events some_pipe some_followed). Defined.

Lemma follower_catches_up_witness :
  exists evs, Forall (fun e => e = PSend \/ exists k, e = PRead k) evs /\ may_run [note] more 0 evs some_pipe = true /\
    AgentClient.env (cli (run (on_pipe_event [note] more 0) evs some_pipe)) = foldl (hears [note]) [] (told some_events).
Proof. apply (follower_catches_up [note] more 0 NewServer 7 ready some_events some_pipe some_followed). Defined.

Example some_pipe_heard : AgentClient.env (cli some_pipe) = [gostr "one"] /\ foldl (hears [note]) [] (told some_events) =
  [gostr "one"; gostr "two"; gostr "three"].
Proof. split; vm_compute; reflexivity. Qed.
End Instances.
