(* ===== verification/AgentService.v ===== *)
(** * The agent service of a node

    [src/agent/agent.go]: what a node does with the leader's messages, with
    an election result and with what it has to broadcast.  [json.Unmarshal]
    is a parameter, the callbacks act on a state [E] of their own, and the
    answers of service discovery are inputs. *)
From S2P Require Import Prelude.
From S2P Require Import GoSem.
From S2P Require Import Framing.
From S2P Require Import Frame.
From S2P Require Import Codec.
From S2P Require Import AgentRecv.
From S2P Require Import AgentServer.
From S2P Require Import AgentClient.
Set Default Proof Using "Type".

(** The values of a decoded JSON object, as far as the agent looks at them. *)
Inductive jval := JString (s : bytes) | JOther.

(** [raw[k].(string)]: a value that is missing or of another type panics. *)
Definition string_field (raw : gmap bytes jval) (k : bytes) : outcome bytes :=
  match raw !! k with Some (JString s) => Ret s | _ => Panic end.

Record AgentService (E : Type) := mkAgentService {
  enable : bool;
  onLeader : list (bool -> M E unit);
  onEvent : list (bytes -> bytes -> M E bool);
  onPos : list (bytes -> M E unit)
}.
Arguments mkAgentService {E}.
Arguments enable {E}.
Arguments onLeader {E}.
Arguments onEvent {E}.
Arguments onPos {E}.

Section AgentService.
Context {E : Type}.
Implicit Types s : AgentService E.

(** ** Options *)
Definition OnPos (f : bytes -> M E unit) s : AgentService E :=
  if negb (enable s) then s else mkAgentService (enable s) (onLeader s) (onEvent s) (onPos s ++ [f]).
Definition OnEvent (f : bytes -> bytes -> M E bool) s : AgentService E :=
  if negb (enable s) then s else mkAgentService (enable s) (onLeader s) (onEvent s ++ [f]) (onPos s).
(** [OnRaw] registers nothing in either case. *)
Definition OnRaw (f : bytes -> M E bool) s : AgentService E := s.
(** A disabled agent is the leader of a cluster of one, at once. *)
Definition OnLeader (f : bool -> M E unit) s : M E (AgentService E) :=
  if negb (enable s) then f true ;; ret s
  else ret (mkAgentService (enable s) (onLeader s ++ [f]) (onEvent s) (onPos s)).

(** [NewAgentServer] before its options. *)
Definition NewAgentServer (enabled : bool) : AgentService E := mkAgentService enabled [] [] [].

(** ** Messages from the leader *)
Variable Unmarshal : bytes -> option (gmap bytes jval).

Definition onClientMessage s (content : bytes) : M E unit :=
  let! u := lift (Unpack content) in
  let '(cmd, data, err) := u in
  match err with
  | Some _ => ret tt
  | None =>
      if cmd =? CMD_EVENT then
        match Unmarshal data with
        | None => ret tt
        | Some raw =>
            let! database := lift (string_field raw (gostr "database")) in
            let! name := lift (string_field raw (gostr "table")) in
            let table := database ++ gostr "." ++ name in
            range (onEvent s) (fun f => f table data ;; ret tt)
        end
      else if cmd =? CMD_POS then range (onPos s) (fun f => f data)
      else ret tt
  end.

(** ** Election results

    The callback [Start] hands to [Select].  [answers] are what
    [sService.Get] returns in turn ([None]: no leader yet); the loop waits for
    the first one that names a leader.  [dial] is what dialling it gave. *)
Fixpoint await_leader (answers : list (option bytes)) : M (Client E) bytes :=
  match answers with
  | [] => lift Block
  | Some addr :: _ => ret addr
  | None :: answers => await_leader answers
  end.

Definition on_selected s (isLeader : bool) (answers : list (option bytes)) (dial : bytes -> option goerr) :
    M (Client E) unit :=
  range (onLeader s) (fun f => in_env (f isLeader)) ;;
  if isLeader then ret tt
  else let! addr := await_leader answers in
       Connect (dial addr) ;; ret tt.
End AgentService.

(** ** Broadcasting to the followers *)
Definition Sync (enabled : bool) (data : bytes) : M server unit :=
  if negb enabled then ret tt else Broadcast 1 data.

(** [Close] as far as the server goes. *)
Definition Close (growcap : nat -> nat -> nat) (enabled : bool) : M server unit :=
  if negb enabled then ret tt else AgentServer.Close growcap.
