(* ===== verification/PosCodec.v ===== *)
(** * Replication positions as bytes

    [packPos] and [unpackPos] of [src/binlog/binlog_util.go]: two bytes of
    length, the offset and the event index as 64-bit words, the file name. *)
From S2P Require Import Prelude.
From S2P Require Import GoSem.

Definition packPos (binFile : bytes) (pos eventIndex : Z) : bytes :=
  let l := 16 + len binFile in
  [Z_byte l; Z_byte (Z.shiftr l 8);
   Z_byte pos; Z_byte (Z.shiftr pos 8); Z_byte (Z.shiftr pos 16); Z_byte (Z.shiftr pos 24);
   Z_byte (Z.shiftr pos 32); Z_byte (Z.shiftr pos 40); Z_byte (Z.shiftr pos 48);
   Z_byte (Z.shiftr pos 56);
   Z_byte eventIndex; Z_byte (Z.shiftr eventIndex 8); Z_byte (Z.shiftr eventIndex 16);
   Z_byte (Z.shiftr eventIndex 24); Z_byte (Z.shiftr eventIndex 32);
   Z_byte (Z.shiftr eventIndex 40); Z_byte (Z.shiftr eventIndex 48);
   Z_byte (Z.shiftr eventIndex 56)] ++ binFile.

(** [int64(b0) | int64(b1)<<8 | ... | int64(b7)<<56]: the last shift moves a
    bit into the sign. *)
Definition word64 (b0 b1 b2 b3 b4 b5 b6 b7 : byte) : Z :=
  Z.lor (Z.lor (Z.lor (Z.lor (Z.lor (Z.lor (Z.lor
    (byte_Z b0) (Z.shiftl (byte_Z b1) 8)) (Z.shiftl (byte_Z b2) 16))
    (Z.shiftl (byte_Z b3) 24)) (Z.shiftl (byte_Z b4) 32)) (Z.shiftl (byte_Z b5) 40))
    (Z.shiftl (byte_Z b6) 48)) (s64 (Z.shiftl (byte_Z b7) 56)).

(** The eight bytes at [i]. *)
Definition read_word64 (data : bytes) (i : Z) : outcome Z :=
  obind (index data i) (fun b0 => obind (index data (i + 1)) (fun b1 =>
  obind (index data (i + 2)) (fun b2 => obind (index data (i + 3)) (fun b3 =>
  obind (index data (i + 4)) (fun b4 => obind (index data (i + 5)) (fun b5 =>
  obind (index data (i + 6)) (fun b6 => obind (index data (i + 7)) (fun b7 =>
  Ret (word64 b0 b1 b2 b3 b4 b5 b6 b7))))))))).

Definition unpackPos (data : bytes) : outcome (bytes * Z * Z) :=
  obind (index data 0) (fun d0 => obind (index data 1) (fun d1 =>
  let dl := Z.lor (byte_Z d0) (Z.shiftl (byte_Z d1) 8) in
  obind (read_word64 data 2) (fun pos =>
  obind (read_word64 data 10) (fun eventIndex =>
  if (dl + 2 <? 18) || (len data - 2 <? dl) then Ret ([], 0, 0)
  else obind (sub data 18 (dl + 2)) (fun file => Ret (file, pos, eventIndex)))))).

(** ** The words *)
Lemma word64_val b0 b1 b2 b3 b4 b5 b6 b7 :
  word64 b0 b1 b2 b3 b4 b5 b6 b7 = s64 (le_val [b0; b1; b2; b3; b4; b5; b6; b7]).
Proof.
  pose proof (byte_Z_range b0). pose proof (byte_Z_range b1). pose proof (byte_Z_range b2).
  pose proof (byte_Z_range b3). pose proof (byte_Z_range b4). pose proof (byte_Z_range b5).
  pose proof (byte_Z_range b6). pose proof (byte_Z_range b7).
  unfold word64. cbn [le_val].
  rewrite (lor_shiftl_add (byte_Z b0)) by lia.
  rewrite (lor_shiftl_add (byte_Z b0 + _)) by lia.
  rewrite (lor_shiftl_add (byte_Z b0 + _ + _)) by lia.
  rewrite (lor_shiftl_add (byte_Z b0 + _ + _ + _)) by lia.
  rewrite (lor_shiftl_add (byte_Z b0 + _ + _ + _ + _)) by lia.
  rewrite (lor_shiftl_add (byte_Z b0 + _ + _ + _ + _ + _)) by lia.
  set (low := byte_Z b0 + _ + _ + _ + _ + _ + _).
  assert (Hlow : 0 <= low < 2 ^ 56) by (unfold low; lia).
  rewrite (Z.shiftl_mul_pow2 _ 56) by lia. set (h := byte_Z b7) in *.
  assert (Es : s64 (h * 2 ^ 56) = Z.shiftl (if h <? 128 then h else h - 256) 56).
  { rewrite Z.shiftl_mul_pow2 by lia. unfold s_wrap. change (2 ^ (64 - 1)) with (2 ^ 63).
    destruct (Z.ltb_spec h 128).
    - rewrite Z.mod_small by lia. lia.
    - rewrite <- (Z.mod_add _ (-1)) by lia. rewrite Z.mod_small by lia. lia. }
  rewrite Es, lor_shiftl_add by lia.
  replace (byte_Z b0 + _) with (low + h * 2 ^ 56) by (unfold low, h; lia).
  unfold s_wrap. change (2 ^ (64 - 1)) with (2 ^ 63). destruct (Z.ltb_spec h 128).
  - rewrite Z.mod_small by lia. lia.
  - rewrite <- (Z.mod_add _ (-1)) by lia. rewrite Z.mod_small by lia. lia.
Qed.

Lemma packPos_le f p i :
  packPos f p i = le_bytes 2 (16 + len f) ++ le_bytes 8 p ++ le_bytes 8 i ++ f.
Proof.
  unfold packPos. cbn [le_bytes app]. rewrite !Z.shiftr_shiftr by lia. done.
Qed.

Lemma packPos_length f p i : length (packPos f p i) = (18 + length f)%nat.
Proof. done. Qed.

Lemma index_app {A} (h r : list A) k :
  0 <= k -> index (h ++ r) (len h + k) = index r k.
Proof.
  intros Hk. unfold index, len. destruct (Z.ltb_spec (Z.of_nat (length h) + k) 0); [lia|].
  destruct (Z.ltb_spec k 0); [lia|]. rewrite lookup_app_r by lia.
  by replace (Z.to_nat (Z.of_nat (length h) + k) - length h)%nat with (Z.to_nat k) by lia.
Qed.

Lemma read_word64_at h z r i :
  i = len h -> read_word64 (h ++ le_bytes 8 z ++ r) i = Ret (s64 z).
Proof.
  intros ->. unfold read_word64. rewrite <- (Z.add_0_r (len h)) at 1. rewrite !index_app by lia.
  pose proof (le_val_le_bytes 8 z) as E. cbn [le_bytes] in E. cbn [le_bytes app].
  unfold index. simpl. rewrite word64_val, E.
  change (8 * Z.of_nat 8) with 64. change (z mod 2 ^ 64) with (u_wrap 64 z).
  by rewrite s_wrap_u_wrap by lia.
Qed.

Lemma index_ret {A} (l : list A) i : 0 <= i < len l -> exists x, index l i = Ret x.
Proof.
  intros Hi. unfold index. destruct (Z.ltb_spec i 0); [lia|].
  destruct (lookup_lt_is_Some_2 l (Z.to_nat i)) as [x Ex]; [unfold len in Hi; lia|].
  exists x. by rewrite Ex.
Qed.

Lemma read_word64_ret data i : 0 <= i -> i + 8 <= len data -> exists z, read_word64 data i = Ret z.
Proof.
  intros H0 Hl. unfold read_word64.
  repeat match goal with |- context [index data ?k] =>
    let x := fresh in let E := fresh in
    destruct (index_ret data k) as [x E]; [lia|]; rewrite E; cbn [obind] end.
  by eexists.
Qed.

(** A packed position at the front of the data, whatever follows it. *)
Lemma unpackPos_app f p i rest :
  len f + 16 < 2 ^ 16 -> - 2 ^ 63 <= p < 2 ^ 63 -> - 2 ^ 63 <= i < 2 ^ 63 ->
  unpackPos (packPos f p i ++ rest) = Ret (f, p, i).
Proof.
  intros Hf Hp Hi. rewrite packPos_le, <- !app_assoc. set (l := 16 + len f).
  set (data := le_bytes 2 l ++ le_bytes 8 p ++ le_bytes 8 i ++ f ++ rest).
  assert (El : Z.lor (byte_Z (Z_byte l)) (Z.shiftl (byte_Z (Z_byte (Z.shiftr l 8))) 8) = l).
  { rewrite lor_shiftl_add by (try lia; apply byte_Z_range).
    pose proof (le_val_le_bytes 2 l) as E. cbn [le_bytes le_val] in E.
    rewrite Z.mod_small in E by (unfold l, len in *; lia). change (2 ^ 8) with 256. lia. }
  assert (E0 : index data 0 = Ret (Z_byte l)) by reflexivity.
  assert (E1 : index data 1 = Ret (Z_byte (Z.shiftr l 8))) by reflexivity.
  assert (E2 : read_word64 data 2 = Ret p).
  { unfold data. rewrite read_word64_at by done. by rewrite s_wrap_small by lia. }
  assert (E3 : read_word64 data 10 = Ret i).
  { unfold data. rewrite (app_assoc (le_bytes 2 l)), read_word64_at by done.
    by rewrite s_wrap_small by lia. }
  assert (Es : sub data 18 (l + 2) = Ret f).
  { unfold data. rewrite (app_assoc (le_bytes 2 l)), (app_assoc (le_bytes 2 l ++ _)).
    unfold sub, l, len. rewrite !length_app, !le_bytes_length. destruct (_ && _ && _) eqn:Eb; [|lia].
    f_equal. change (Z.to_nat 18) with (length ((le_bytes 2 (16 + Z.of_nat (length f)) ++ le_bytes 8 p) ++ le_bytes 8 i)).
    rewrite drop_app_length. replace (Z.to_nat _) with (length f) by lia. apply take_app_length. }
  assert (Hlen : len data = 18 + len f + len rest).
  { unfold data, len. rewrite !length_app, !le_bytes_length. lia. }
  clearbody data. unfold unpackPos. rewrite E0, E1. cbn [obind]. cbv zeta. rewrite El, E2, E3. cbn [obind].
  destruct (_ || _) eqn:Eb; [exfalso; unfold l, len in *; lia|]. by rewrite Es.
Qed.

(** [unpackPos] inverts [packPos] for every 64-bit offset and event index
    and every file name whose length fits two bytes, whatever bytes follow -
    as they do when the position is read back from the cache file. *)
Theorem unpackPos_packPos f p i rest :
  len f + 16 < 2 ^ 16 -> - 2 ^ 63 <= p < 2 ^ 63 -> - 2 ^ 63 <= i < 2 ^ 63 ->
  unpackPos (packPos f p i ++ rest) = Ret (f, p, i).
Proof. apply unpackPos_app. Qed.

Lemma unpackPos_packPos_witness :
  unpackPos (packPos (gostr "mysql-bin.000059") 123456 (-1) ++ gostr "old") =
    Ret (gostr "mysql-bin.000059", 123456, -1).
Proof.
  apply (unpackPos_packPos (gostr "mysql-bin.000059") 123456 (-1)); vm_compute; intuition congruence.
Defined.

(** [unpackPos] panics exactly on data shorter than the eighteen bytes of
    the header; any other data yields a position, the empty one when the
    length field does not fit the data. *)
Theorem unpackPos_panics_iff data :
  unpackPos data = Panic <-> (length data < 18)%nat.
Proof.
  split; [|intros Hs; do 18 (destruct data as [|? data]; [reflexivity|]); simpl in Hs; lia].
  intros Hp. destruct (decide (length data < 18)%nat) as [|Hl]; [done|]. exfalso.
  assert (Hlen : 18 <= len data) by (unfold len; lia).
  destruct (index_ret data 0) as [d0 E0]; [lia|]. destruct (index_ret data 1) as [d1 E1]; [lia|].
  destruct (read_word64_ret data 2 ltac:(lia) ltac:(lia)) as [p E2].
  destruct (read_word64_ret data 10 ltac:(lia) ltac:(lia)) as [i E3].
  unfold unpackPos in Hp. rewrite E0, E1, E2, E3 in Hp. cbn [obind] in Hp. cbv zeta in Hp.
  destruct (_ || _) eqn:Eb; [done|]. unfold sub in Hp.
  destruct (_ && _ && _) eqn:Ec; [done|]. unfold len in *. lia.
Qed.
