(* ===== verification/FieldDecode.v ===== *)
(** * Decoding the fields of a row

    [fieldDecode] of [src/binlog/binlog_util.go].  An [interface{}] that holds
    a field is a [gval]; floats and values of other types are passed through
    and are opaque. *)
From S2P Require Import Prelude.
From S2P Require Import GoSem.

(** ** Data *)
Inductive gval :=
  | VNil
  | VString (s : bytes)
  | VBytes (s : bytes)
  | VInt (z : Z) | VInt8 (z : Z) | VInt16 (z : Z) | VInt32 (z : Z) | VInt64 (z : Z)
  | VUint (z : Z) | VUint8 (z : Z) | VUint16 (z : Z) | VUint32 (z : Z) | VUint64 (z : Z)
  | VFloat32 (bits : Z) | VFloat64 (bits : Z)
  | VOther (tag : nat).

(** The part of [schema.TableColumn] the code reads. *)
Record column := mkColumn {
  Name : bytes;
  RawType : bytes;
  IsUnsigned : bool;
  EnumValues : list bytes;
  SetValues : list bytes
}.

(** [len(RawType) > n && RawType[0:n] == p] *)
Definition raw_prefix (c : column) (p : bytes) : bool :=
  (len p <? len (RawType c)) && bool_decide (take (length p) (RawType c) = p).

(** The loop over the members of a set, from member [i] on. *)
Fixpoint set_loop (v : Z) (i : Z) (vals : list bytes) (res : bytes) : bytes :=
  match vals with
  | [] => res
  | x :: vals =>
      set_loop v (i + 1) vals
        (if 0 <? Z.land v (u64 (Z.shiftl 1 i))
         then (if bool_decide (res = []) then res else res ++ gostr ",") ++ x
         else res)
  end.

(** The first three bytes of [RawType] tell [int] from [mediumint].  A
    slice expression is bounded by the capacity and not by the length, and
    the conversion, which does not escape, has a buffer of thirty-two bytes:
    on a shorter name it is no panic, and the zero bytes read make it differ
    from [int], as [take] does here. *)
Definition fieldDecode (edata : gval) (c : column) : outcome gval :=
  match edata with
  | VString _ | VBytes _ | VInt _ => Ret edata
  | VInt8 z =>
      Ret (VInt64 (if IsUnsigned c && (z <? 0) then 256 + z else z))
  | VInt16 z =>
      Ret (VInt64 (if IsUnsigned c && (z <? 0) then 65536 + z else z))
  | VInt32 z =>
      Ret (VInt64 (if IsUnsigned c && (z <? 0)
                   then if bool_decide (take 3 (RawType c) = gostr "int")
                        then 4294967296 + z else Z.shiftl 1 24 + z
                   else z))
  | VInt64 z =>
      if raw_prefix c (gostr "enum") then
        obind (index (EnumValues c) (z - 1)) (fun s => Ret (VString s))
      else if raw_prefix c (gostr "set") then
        Ret (VString (set_loop (u64 z) 0 (SetValues c) []))
      else if IsUnsigned c then Ret (VUint64 (u64 z))
      else Ret edata
  | VUint _ | VUint8 _ | VUint16 _ | VUint32 _ | VUint64 _ | VFloat32 _ | VFloat64 _ => Ret edata
  | VNil | VOther _ => Ret edata
  end.

(** ** What the decoding means *)

(** The value of an integer column, as the database has it: the bit pattern
    read as signed or unsigned. *)
Definition int_value (unsigned : bool) (w z : Z) : Z := if unsigned then u_wrap w z else z.

Lemma unsigned_fix w z (b : bool) :
  0 < w -> - 2 ^ (w - 1) <= z < 2 ^ (w - 1) ->
  (if b && (z <? 0) then 2 ^ w + z else z) = int_value b w z.
Proof.
  intros Hw Hz. unfold int_value. destruct b; [|done]. cbn [andb]. unfold u_wrap.
  assert (2 ^ w = 2 * 2 ^ (w - 1)) by (rewrite <- Z.pow_succ_r by lia; f_equal; lia).
  destruct (Z.ltb_spec z 0).
  - rewrite <- (Z.mod_add z 1) by lia. rewrite Z.mod_small by lia. lia.
  - by rewrite Z.mod_small by lia.
Qed.

(** The integer types of the database and the width the decoder assumes. *)
Inductive int_field : gval -> column -> Z -> Z -> Prop :=
  | f_tiny z c : int_field (VInt8 z) c 8 z
  | f_small z c : int_field (VInt16 z) c 16 z
  | f_medium z c : take 3 (RawType c) <> gostr "int" -> int_field (VInt32 z) c 24 z
  | f_int z c : take 3 (RawType c) = gostr "int" -> int_field (VInt32 z) c 32 z
  | f_big z c : raw_prefix c (gostr "enum") = false -> raw_prefix c (gostr "set") = false ->
      int_field (VInt64 z) c 64 z.

(** The Go value of a number: an [int64], but a [uint64] for an unsigned
    column of sixty-four bits. *)
Definition int_out (unsigned : bool) (w z : Z) : gval :=
  if unsigned && (w =? 64) then VUint64 (int_value unsigned w z) else VInt64 (int_value unsigned w z).

(** C36: An integer field comes out as the number its column holds: unchanged
    in a signed column, reduced modulo the width of its type - eight, sixteen,
    twenty-four, thirty-two or sixty-four bits - in an unsigned one; as an
    [int64], except for the unsigned sixty-four bits, which come out as a
    [uint64].  A field of type [int64] is an integer when its column is
    neither an enum nor a set. *)
Theorem fieldDecode_int v c w z :
  int_field v c w z -> - 2 ^ (w - 1) <= z < 2 ^ (w - 1) ->
  fieldDecode v c = Ret (int_out (IsUnsigned c) w z).
Proof.
  intros Hf Hz. unfold int_out. destruct Hf as [z c|z c|z c Ht|z c Ht|z c He Hs]; cbn [fieldDecode].
  5: { rewrite He, Hs. by destruct (IsUnsigned c). }
  all: rewrite andb_false_r; do 2 f_equal; rewrite <- unsigned_fix by (done || lia); try done.
  - by rewrite bool_decide_false.
  - by rewrite bool_decide_true.
Qed.

Definition c_uint : column := mkColumn (gostr "n") (gostr "int(10) unsigned") true [] [].
Definition c_ubig : column := mkColumn (gostr "n") (gostr "bigint(20) unsigned") true [] [].

Lemma fieldDecode_int_witness :
  fieldDecode (VInt32 (-1)) c_uint = Ret (VInt64 4294967295) /\
  fieldDecode (VInt64 (-1)) c_ubig = Ret (VUint64 18446744073709551615).
Proof.
  split.
  - apply (fieldDecode_int (VInt32 (-1)) c_uint 32 (-1)); [by apply f_int|lia].
  - apply (fieldDecode_int (VInt64 (-1)) c_ubig 64 (-1)); [by apply f_big|lia].
Defined.

(** The members of a set value, in the order of the column. *)
Fixpoint members (v : Z) (i : Z) (vals : list bytes) : list bytes :=
  match vals with
  | [] => []
  | x :: vals => if Z.testbit v i then x :: members v (i + 1) vals else members v (i + 1) vals
  end.

Fixpoint join (l : list bytes) : bytes :=
  match l with
  | [] => []
  | [x] => x
  | x :: l => x ++ gostr "," ++ join l
  end.

Lemma bit_set v i : 0 <= v < 2 ^ 64 -> 0 <= i -> (0 <? Z.land v (u64 (Z.shiftl 1 i))) = Z.testbit v i.
Proof.
  intros Hv Hi. rewrite Z.shiftl_1_l. unfold u_wrap. destruct (Z.lt_ge_cases i 64) as [Hlt|Hge].
  - rewrite Z.mod_small by (split; [lia|apply Z.pow_lt_mono_r; lia]).
    destruct (Z.testbit v i) eqn:Et.
    + apply Z.ltb_lt. assert (Z.land v (2 ^ i) <> 0).
      { intros E. apply (f_equal (fun z => Z.testbit z i)) in E.
        rewrite Z.land_spec, Et, Z.pow2_bits_true, Z.bits_0 in E by lia. done. }
      assert (0 <= Z.land v (2 ^ i)) by (apply Z.land_nonneg; lia). lia.
    + apply Z.ltb_ge. enough (Z.land v (2 ^ i) = 0) by lia. apply Z.bits_inj'. intros k Hk.
      rewrite Z.land_spec, Z.bits_0. destruct (Z.eq_dec k i) as [->|]; [by rewrite Et|].
      rewrite Z.pow2_bits_false by lia. apply andb_false_r.
  - replace (2 ^ i mod 2 ^ 64) with 0; cycle 1.
    { symmetry. apply Z.mod_divide; [lia|]. exists (2 ^ (i - 64)). rewrite <- Z.pow_add_r by lia. f_equal. lia. }
    rewrite Z.land_0_r. symmetry. destruct (Z.eq_dec v 0) as [->|]; [by rewrite Z.bits_0|].
    apply Z.bits_above_log2; [lia|]. apply Z.log2_lt_pow2; [lia|].
    eapply Z.lt_le_trans; [apply Hv|]. apply Z.pow_le_mono_r; lia.
Qed.

Lemma join_app l x : l <> [] -> join (l ++ [x]) = join l ++ gostr "," ++ x.
Proof.
  induction l as [|a l IH]; [done|]. intros _. destruct l as [|b l]; [done|].
  change (join ((a :: b :: l) ++ [x])) with (a ++ gostr "," ++ join ((b :: l) ++ [x])).
  rewrite IH by done. change (join (a :: b :: l)) with (a ++ gostr "," ++ join (b :: l)).
  by rewrite <- !app_assoc.
Qed.

Lemma join_nil l : Forall (fun x => x <> []) l -> join l = [] -> l = [].
Proof. destruct l as [|a [|b l]]; [done| |]; intros H E; apply Forall_cons in H as [Ha _]; by destruct a. Qed.

Lemma set_loop_join v vals : forall i acc,
  0 <= v < 2 ^ 64 -> 0 <= i -> Forall (fun x => x <> []) vals -> Forall (fun x => x <> []) acc ->
  set_loop v i vals (join acc) = join (acc ++ members v i vals).
Proof.
  induction vals as [|x vals IH]; intros i acc Hv Hi Hvals Hacc; cbn [set_loop members].
  { by rewrite app_nil_r. }
  apply Forall_cons in Hvals as [Hx Hvals]. rewrite bit_set by done.
  destruct (Z.testbit v i); [|by apply IH; [|lia|..]].
  assert (E : (if bool_decide (join acc = []) then join acc else join acc ++ gostr ",") ++ x
              = join (acc ++ [x])).
  { case_bool_decide as Hj.
    - apply join_nil in Hj as ->; done.
    - rewrite join_app by (by intros ->). by rewrite <- app_assoc. }
  rewrite E, IH; try done; [|lia|by apply Forall_app_2; [|apply Forall_singleton]].
  by rewrite <- app_assoc.
Qed.

(** A [SET] field comes out as its members in column order, separated by
    commas, and an [ENUM] field as the value its one-based number names - when
    there is one: the number 0, which the database stores for an invalid
    value, and any number out of range make the handler panic. *)
Theorem fieldDecode_set_enum z c :
  - 2 ^ 63 <= z < 2 ^ 63 ->
  (raw_prefix c (gostr "set") = true -> raw_prefix c (gostr "enum") = false ->
   Forall (fun x => x <> []) (SetValues c) ->
   fieldDecode (VInt64 z) c = Ret (VString (join (members (u64 z) 0 (SetValues c))))) /\
  (raw_prefix c (gostr "enum") = true ->
   fieldDecode (VInt64 z) c =
     match EnumValues c !! Z.to_nat (z - 1) with
     | Some s => if z <=? 0 then Panic else Ret (VString s)
     | None => Panic
     end).
Proof.
  intros Hz. split.
  - intros Hs He Hn. cbn [fieldDecode]. rewrite He, Hs. do 2 f_equal.
    apply (set_loop_join (u64 z) (SetValues c) 0 []); try done.
    apply (Z.mod_pos_bound z (2 ^ 64)). lia.
  - intros He. cbn [fieldDecode]. rewrite He. unfold index.
    destruct (Z.ltb_spec (z - 1) 0), (Z.leb_spec z 0); try lia; by destruct (_ !! _).
Qed.

Definition c_set : column :=
  mkColumn (gostr "s") (gostr "set('a','b','c')") false [] [gostr "a"; gostr "b"; gostr "c"].

Lemma fieldDecode_set_enum_witness :
  fieldDecode (VInt64 5) c_set = Ret (VString (join [gostr "a"; gostr "c"])).
Proof.
  apply (fieldDecode_set_enum 5 c_set); [lia|reflexivity|reflexivity|]. by repeat constructor.
Defined.
