(* ===== verification/Binlog.v ===== *)
(** * The binlog reader

    [src/binlog/binlog.go] and [src/binlog/binlog_handler.go]: the position
    cache, the row events, and the start/stop machinery that leader election
    drives.  MySQL's replication protocol and [json.Marshal] are parameters;
    the registered services and callbacks act on a state [E] of their own. *)
From S2P Require Import Prelude.
From S2P Require Import GoSem.
From S2P Require Import PosCodec.
From S2P Require Import FieldDecode.
Set Default Proof Using "Type".

(** ** Data *)
Definition binlogIsRunning : Z := 1.
Definition binlogIsExit : Z := 2.
Definition cacheHandlerIsOpened : Z := 4.
(** [bytes.MinRead] *)
Definition MinRead : nat := 512.
(** The capacity of the start and stop channels. *)
Definition chanLen : nat := 100.

(** A position in the master's log. *)
Record Position := mkPosition { PosName : bytes; Pos : Z }.

(** A [canal.RowsEvent]: the table and the rows, each a list of fields. *)
Record RowsEvent := mkRowsEvent {
  Schema : bytes;
  Table : bytes;
  Columns : list column;
  Action : bytes;
  Rows : list (list gval)
}.

(** The [event] entry of a notification. *)
Inductive event_data :=
  | Changed (old_data new_data : gmap bytes gval)
  | Plain (data : gmap bytes gval).

(** The map that is marshalled for the subscribers. *)
Record row_data := mkRowData {
  rd_database : bytes;
  rd_event_type : bytes;
  rd_time : Z;
  rd_table : bytes;
  rd_event_index : Z;
  rd_event : event_data
}.

Record Binlog (E : Type) := mkBinlog {
  EventIndex : Z;
  cacheFile : bytes;               (* the contents of the cache file *)
  lastPos : Z;
  lastBinFile : bytes;
  startServiceChan : nat;          (* signals in the channel's buffer *)
  stopServiceChan : list bool;
  status : Z;
  handlers : nat;                  (* how often [setHandler] made a canal *)
  starting : nat;                  (* goroutines that have not called [RunFrom] yet *)
  runs : list Position;            (* the positions [RunFrom] was called with *)
  BinlogFile : bytes;              (* ctx.Config.Database *)
  BinlogPos : Z;
  env : E
}.
Arguments mkBinlog {E}.
Arguments EventIndex {E}.
Arguments cacheFile {E}.
Arguments lastPos {E}.
Arguments lastBinFile {E}.
Arguments startServiceChan {E}.
Arguments stopServiceChan {E}.
Arguments status {E}.
Arguments handlers {E}.
Arguments starting {E}.
Arguments runs {E}.
Arguments BinlogFile {E}.
Arguments BinlogPos {E}.
Arguments env {E}.

Section Binlog.
Context {E : Type}.
Implicit Types h : Binlog E.

Definition with_index (i : Z) h : Binlog E :=
  mkBinlog i (cacheFile h) (lastPos h) (lastBinFile h) (startServiceChan h) (stopServiceChan h)
    (status h) (handlers h) (starting h) (runs h) (BinlogFile h) (BinlogPos h) (env h).
Definition with_file (f : bytes) h : Binlog E :=
  mkBinlog (EventIndex h) f (lastPos h) (lastBinFile h) (startServiceChan h) (stopServiceChan h)
    (status h) (handlers h) (starting h) (runs h) (BinlogFile h) (BinlogPos h) (env h).
Definition with_last (f : bytes) (p : Z) h : Binlog E :=
  mkBinlog (EventIndex h) (cacheFile h) p f (startServiceChan h) (stopServiceChan h)
    (status h) (handlers h) (starting h) (runs h) (BinlogFile h) (BinlogPos h) (env h).
Definition with_start (n : nat) h : Binlog E :=
  mkBinlog (EventIndex h) (cacheFile h) (lastPos h) (lastBinFile h) n (stopServiceChan h)
    (status h) (handlers h) (starting h) (runs h) (BinlogFile h) (BinlogPos h) (env h).
Definition with_stop (l : list bool) h : Binlog E :=
  mkBinlog (EventIndex h) (cacheFile h) (lastPos h) (lastBinFile h) (startServiceChan h) l
    (status h) (handlers h) (starting h) (runs h) (BinlogFile h) (BinlogPos h) (env h).
Definition with_status (s : Z) h : Binlog E :=
  mkBinlog (EventIndex h) (cacheFile h) (lastPos h) (lastBinFile h) (startServiceChan h)
    (stopServiceChan h) s (handlers h) (starting h) (runs h) (BinlogFile h) (BinlogPos h) (env h).
Definition with_handlers (n : nat) h : Binlog E :=
  mkBinlog (EventIndex h) (cacheFile h) (lastPos h) (lastBinFile h) (startServiceChan h)
    (stopServiceChan h) (status h) n (starting h) (runs h) (BinlogFile h) (BinlogPos h) (env h).
Definition with_goroutines (n : nat) (l : list Position) h : Binlog E :=
  mkBinlog (EventIndex h) (cacheFile h) (lastPos h) (lastBinFile h) (startServiceChan h)
    (stopServiceChan h) (status h) (handlers h) n l (BinlogFile h) (BinlogPos h) (env h).
Definition with_config (f : bytes) (p : Z) h : Binlog E :=
  mkBinlog (EventIndex h) (cacheFile h) (lastPos h) (lastBinFile h) (startServiceChan h)
    (stopServiceChan h) (status h) (handlers h) (starting h) (runs h) f p (env h).
Definition with_env (e : E) h : Binlog E :=
  mkBinlog (EventIndex h) (cacheFile h) (lastPos h) (lastBinFile h) (startServiceChan h)
    (stopServiceChan h) (status h) (handlers h) (starting h) (runs h) (BinlogFile h) (BinlogPos h) e.

(** [h.status&bit > 0] *)
Definition has (bit : Z) h : bool := 0 <? Z.land (status h) bit.
Definition set_bit (bit : Z) : M (Binlog E) unit :=
  modify (fun h => with_status (Z.lor (status h) bit) h).
Definition flip_bit (bit : Z) : M (Binlog E) unit :=
  modify (fun h => with_status (Z.lxor (status h) bit) h).

(** A callback or a service, on the state of its own. *)
Definition in_env {A} (m : M E A) : M (Binlog E) A := fun h =>
  (with_env (m (env h)).1 h, (m (env h)).2).

(** The registered services and callbacks, the JSON encoder. *)
Context (SendAll : list (bytes -> bytes -> M E bool)) (service_Close : list (M E unit)).
Context (onEvent : list (bytes -> bytes -> M E unit)) (onPosChanges : list (bytes -> M E unit)).
Context (Marshal : row_data -> option bytes).

(** ** The position cache *)

(** [WriteAt(r, 0)], of which the system wrote [wn] bytes. *)
Definition write_at (r : bytes) (wn : nat) (file : bytes) : bytes :=
  take wn r ++ drop (length (take wn r)) file.

Definition saveBinlogPositionCache (r : bytes) (wn : nat) : M (Binlog E) unit :=
  let! h := gets id in
  if has binlogIsExit h then ret tt else
  (if has cacheHandlerIsOpened h
   then modify (fun h => with_file (write_at r wn (cacheFile h)) h)
   else ret tt) ;;
  range onPosChanges (fun f => in_env (f r)).

(** A buffer of [MinRead] zero bytes, filled from the file's start. *)
Definition getBinlogPositionCache (h : Binlog E) : outcome (bytes * Z * Z) :=
  if Z.land (status h) cacheHandlerIsOpened <=? 0 then Ret ([], 0, 0) else
  let n := Nat.min MinRead (length (cacheFile h)) in
  if (n <=? 0)%nat then Ret ([], 0, 0)
  else unpackPos (take MinRead (cacheFile h) ++ replicate (MinRead - n) Byte.x00).

Definition OnPosSynced (p : Position) (wn : nat) : M (Binlog E) unit :=
  let! h := gets id in
  saveBinlogPositionCache (packPos (PosName p) (Pos p) (EventIndex h)) wn ;;
  modify (with_last (PosName p) (Pos p)).

Definition SaveBinlogPosition (r : bytes) (wn : nat) : M (Binlog E) unit :=
  let! u := lift (unpackPos r) in
  let '(file, pos, index) := u in
  modify (with_last file (u32 pos)) ;;
  modify (with_index index) ;;
  saveBinlogPositionCache r wn.

(** ** Starting up *)

(** [made]: whether [canal.NewCanal] gave a canal. *)
Definition setHandler_from (made : bool) : M (Binlog E) unit :=
  if made then modify (fun h => with_handlers (S (handlers h)) h) else lift Panic.
Definition setHandler : M (Binlog E) unit := setHandler_from true.

(** [opened]: whether [os.OpenFile] opened the cache file; [masterPos] is what
    the master answered, [None] an error. *)
Definition handlerInit_from (opened made : bool) (masterPos : option Position) : M (Binlog E) unit :=
  (if opened then ret tt else lift Panic) ;;
  set_bit cacheHandlerIsOpened ;;
  let! h := gets id in
  let! u := lift (getBinlogPositionCache h) in
  let '(f, p, index) := u in
  modify (with_index index) ;;
  setHandler_from made ;;
  match masterPos with
  | None => lift Panic
  | Some currentPos =>
      (if negb (bool_decide (f = [])) && (0 <? p) then
         let p32 := u32 p in
         modify (with_config f
           (if bool_decide (f = PosName currentPos) && (Pos currentPos <? p32)
            then Pos currentPos else p32))
       else modify (with_config (PosName currentPos) (Pos currentPos))) ;;
      modify (fun h => with_last (BinlogFile h) (BinlogPos h) h)
  end.

(** The file opens and the canal is made; [handlerInit_fails] is the rest. *)
Definition handlerInit : option Position -> M (Binlog E) unit := handlerInit_from true true.

(** [NewBinlog] over a cache file with contents [file]. *)
Definition fresh (file : bytes) (e : E) : Binlog E :=
  mkBinlog 0 file 0 [] 0 [] 0 0 0 [] [] 0 e.
Definition NewBinlog (file : bytes) (e : E) (masterPos : option Position) : Binlog E * outcome unit :=
  handlerInit masterPos (fresh file e).

(** ** Row events *)
Definition notify (data : row_data) : M (Binlog E) unit :=
  match Marshal data with
  | None => ret tt
  | Some jsonData =>
      let table := rd_database data ++ gostr "." ++ rd_table data in
      range SendAll (fun f => in_env (f table jsonData) ;; ret tt) ;;
      range onEvent (fun f => in_env (f table jsonData))
  end.

(** [atomic.AddInt64(&h.EventIndex, 1)] *)
Definition add_index : M (Binlog E) Z :=
  modify (fun h => with_index (s64 (EventIndex h + 1)) h) ;; gets EventIndex.

(** The fields of a row by column name; columns without a field are [nil]. *)
Fixpoint decode_row (cols : list column) (row : list gval) (m : gmap bytes gval) :
    outcome (gmap bytes gval) :=
  match cols, row with
  | [], _ => Ret m
  | c :: cols, [] => decode_row cols [] (<[Name c := VNil]> m)
  | c :: cols, v :: row =>
      obind (fieldDecode v c) (fun d => decode_row cols row (<[Name c := d]> m))
  end.

Definition mk_row_data (e : RowsEvent) (now i : Z) (ev : event_data) : row_data :=
  mkRowData (Schema e) (Action e) now (Table e) i ev.

(** The two loops over the rows; an update without its second row reads past
    the list. *)
Fixpoint update_rows (e : RowsEvent) (now : Z) (rows : list (list gval)) : M (Binlog E) unit :=
  match rows with
  | [] => ret tt
  | old :: rows =>
      let! i := add_index in
      let! oldData := lift (decode_row (Columns e) old ∅) in
      match rows with
      | [] => lift Panic
      | new :: rows =>
          let! newData := lift (decode_row (Columns e) new ∅) in
          notify (mk_row_data e now i (Changed oldData newData)) ;;
          update_rows e now rows
      end
  end.

Fixpoint other_rows (e : RowsEvent) (now : Z) (rows : list (list gval)) (data : gmap bytes gval) :
    M (Binlog E) unit :=
  match rows with
  | [] => ret tt
  | row :: rows =>
      let! i := add_index in
      let! data := lift (decode_row (Columns e) row data) in
      notify (mk_row_data e now i (Plain data)) ;;
      other_rows e now rows data
  end.

Definition OnRow (e : RowsEvent) (now : Z) : M (Binlog E) unit :=
  let! h := gets id in
  if has binlogIsExit h then ret tt
  else if bool_decide (Action e = gostr "update") then update_rows e now (Rows e)
  else other_rows e now (Rows e) ∅.

(** ** Starting and stopping *)
Definition StartService : M (Binlog E) unit :=
  let! h := gets id in
  if (startServiceChan h <? chanLen)%nat then modify (with_start (S (startServiceChan h)))
  else lift Block.

Definition StopService (exit : bool) : M (Binlog E) unit :=
  let! h := gets id in
  if (length (stopServiceChan h) <? chanLen)%nat
  then modify (with_stop (stopServiceChan h ++ [exit])) else lift Block.

Definition OnLeader (isLeader : bool) : M (Binlog E) unit :=
  if isLeader then StartService else StopService false.

(** A signal taken by [lookStartService]; the goroutine it starts makes its
    own steps. *)
Definition lookStartService_turn : M (Binlog E) unit :=
  let! h := gets id in
  match startServiceChan h with
  | O => lift Block
  | S n =>
      modify (with_start n) ;;
      if has binlogIsRunning h then ret tt
      else set_bit binlogIsRunning ;;
           modify (fun h => with_goroutines (S (starting h)) (runs h) h)
  end.

(** The goroutine calls [RunFrom], or gives up after three seconds without a
    file name. *)
Definition runner_start : M (Binlog E) unit :=
  let! h := gets id in
  match starting h with
  | O => lift Block
  | S n =>
      if bool_decide (lastBinFile h = []) then lift Panic
      else modify (with_goroutines n (runs h ++ [mkPosition (lastBinFile h) (lastPos h)]))
  end.

(** [RunFrom] returned, [err] with an error. *)
Definition runner_exit (err : bool) : M (Binlog E) unit :=
  if err then flip_bit binlogIsRunning else ret tt.

(** A signal taken by [lookStopService]; [wn] as for the position cache. *)
Definition lookStopService_turn (wn : nat) : M (Binlog E) unit :=
  let! h := gets id in
  match stopServiceChan h with
  | [] => lift Block
  | exit :: l =>
      modify (with_stop l) ;;
      (if has binlogIsRunning h && negb exit then setHandler else ret tt) ;;
      (if exit then
         let! h := gets id in
         saveBinlogPositionCache (packPos (lastBinFile h) (lastPos h) (EventIndex h)) wn ;;
         let! h := gets id in
         if has cacheHandlerIsOpened h then flip_bit cacheHandlerIsOpened else ret tt
       else ret tt) ;;
      let! h := gets id in
      if has binlogIsRunning h then flip_bit binlogIsRunning else ret tt
  end.

(** [Close] up to [wg.Wait()], which waits for the two loops. *)
Definition Close : M (Binlog E) unit :=
  let! h := gets id in
  if has binlogIsExit h then ret tt
  else
    set_bit binlogIsExit ;;
    StopService true ;;
    range service_Close in_env.
End Binlog.

(** ** The position survives a restart *)
Section Positions.
Context {E : Type} (onPosChanges : list (bytes -> M E unit)).
Implicit Types h : Binlog E.

(** A position the cache can hold: its file name fits the read buffer. *)
Record pos_ok (f : bytes) (p i : Z) : Prop := {
  pos_file : len f + 18 <= Z.of_nat MinRead;
  pos_pos : 0 <= p < 2 ^ 32;
  pos_index : - 2 ^ 63 <= i < 2 ^ 63
}.

(** Callbacks that return change their own state only. *)
Lemma pos_callbacks r fs : forall h,
  (forall f x e, f ∈ fs -> (f x e).2 = Ret tt) ->
  exists e, range fs (fun f : bytes -> M E unit => in_env (f r)) h = (with_env e h, Ret tt).
Proof.
  induction fs as [|f fs IH]; intros h Hcb; [exists (env h); by destruct h|]. cbn [range].
  destruct (IH (with_env (f r (env h)).1 h)) as [e He].
  { intros g x e' Hg. apply Hcb. by right. }
  exists e. rewrite (bind_ret _ _ _ (with_env (f r (env h)).1 h) tt); [exact He|].
  unfold in_env. by rewrite (Hcb f) by (by left).
Qed.

Lemma save_eq h r wn :
  has binlogIsExit h = false -> has cacheHandlerIsOpened h = true ->
  (forall f x e, f ∈ onPosChanges -> (f x e).2 = Ret tt) ->
  exists e, saveBinlogPositionCache onPosChanges r wn h =
    (with_env e (with_file (write_at r wn (cacheFile h)) h), Ret tt).
Proof.
  intros Hx Ho Hcb. unfold saveBinlogPositionCache. erewrite bind_ret by reflexivity. cbn [id].
  rewrite Hx, Ho. rewrite (bind_ret _ _ _ (with_file (write_at r wn (cacheFile h)) h) tt) by done.
  by apply pos_callbacks.
Qed.

(** Reading back what was written over any older contents. *)
Lemma get_written h f p i wn old :
  pos_ok f p i -> (length (packPos f p i) <= wn)%nat ->
  has cacheHandlerIsOpened h = true -> cacheFile h = write_at (packPos f p i) wn old ->
  getBinlogPositionCache h = Ret (f, p, i).
Proof.
  intros [Hf Hp Hi] Hwn Ho Efile. unfold getBinlogPositionCache.
  destruct (Z.leb_spec (Z.land (status h) cacheHandlerIsOpened) 0); [unfold has in Ho; lia|].
  rewrite Efile. unfold write_at. rewrite (take_ge (packPos f p i) wn) by done.
  pose proof (packPos_length f p i) as Hlen. cbv zeta.
  destruct (Nat.leb_spec (Nat.min MinRead (length (packPos f p i ++
    drop (length (packPos f p i)) old))) 0) as [H0|_].
  { rewrite length_app, Hlen in H0. unfold MinRead in H0. lia. }
  rewrite take_app_ge by (unfold MinRead, len in *; lia). rewrite <- app_assoc.
  apply unpackPos_app; unfold MinRead in *; lia.
Qed.

(** What the reader saves at one position it finds again: after
    [OnPosSynced], reading the cache gives that position and event index back,
    whatever longer position the file held before. *)
Theorem position_cache_roundtrip h p wn :
  has binlogIsExit h = false -> has cacheHandlerIsOpened h = true ->
  (forall f x e, f ∈ onPosChanges -> (f x e).2 = Ret tt) ->
  pos_ok (PosName p) (Pos p) (EventIndex h) ->
  (length (packPos (PosName p) (Pos p) (EventIndex h)) <= wn)%nat ->
  exists h', OnPosSynced onPosChanges p wn h = (h', Ret tt) /\
    lastBinFile h' = PosName p /\ lastPos h' = Pos p /\
    getBinlogPositionCache h' = Ret (PosName p, Pos p, EventIndex h).
Proof.
  intros Hx Ho Hcb Hok Hwn.
  destruct (save_eq h (packPos (PosName p) (Pos p) (EventIndex h)) wn Hx Ho Hcb) as [e Es].
  eexists. split.
  - unfold OnPosSynced. erewrite bind_ret by reflexivity. cbn [id].
    rewrite (bind_ret _ _ _ _ _ Es). reflexivity.
  - split_and!; try done. by eapply (get_written _ _ _ _ wn (cacheFile h)).
Qed.

(** What [handlerInit] makes of a written cache file, whatever the
    configuration said before. *)
Definition resume_at (f : bytes) (p : Z) (m : Position) : Z :=
  if bool_decide (f = PosName m) && (Pos m <? p) then Pos m else p.
Definition resumed (f : bytes) (p i : Z) (m : Position) h : Binlog E :=
  with_last f (resume_at f p m) (with_config f (resume_at f p m) (with_handlers (S (handlers h))
    (with_index i (with_status (Z.lor (status h) cacheHandlerIsOpened) h)))).

Lemma handlerInit_resumes f p i wn old m h :
  pos_ok f p i -> (length (packPos f p i) <= wn)%nat -> f <> [] -> 0 < p ->
  cacheFile h = write_at (packPos f p i) wn old -> status h = 0 ->
  handlerInit (Some m) h = (resumed f p i m h, Ret tt).
Proof.
  intros Hok Hwn Hf Hp Hc Hs. pose proof Hok as [_ Hp32 _].
  set (h0 := with_status (Z.lor (status h) cacheHandlerIsOpened) h).
  assert (Hget : getBinlogPositionCache h0 = Ret (f, p, i)).
  { eapply get_written; [done|done| |exact Hc]. unfold has. cbn [h0 status with_status]. by rewrite Hs. }
  unfold handlerInit, handlerInit_from. rewrite (bind_ret _ _ _ h tt) by reflexivity.
  rewrite (bind_ret _ _ _ h0 tt) by reflexivity.
  erewrite bind_ret by reflexivity. cbn [id].
  rewrite (bind_ret _ _ _ h0 (f, p, i)) by (unfold lift; by rewrite Hget). cbv iota beta.
  erewrite bind_ret by reflexivity. erewrite bind_ret by reflexivity.
  rewrite bool_decide_false by done. rewrite (proj2 (Z.ltb_lt 0 p)) by done. cbn [negb andb].
  cbv zeta. rewrite u_wrap_small by done. reflexivity.
Qed.

(** Without its cache file, its canal or an answer of the master the program
    does not come up, and the file is as it was. *)
Lemma handlerInit_fails opened made m h :
  opened = false \/ made = false \/ m = None ->
  (handlerInit_from opened made m h).2 <> Ret tt /\ cacheFile (handlerInit_from opened made m h).1 = cacheFile h.
Proof.
  intros H. unfold handlerInit_from, setHandler_from, set_bit, bind, modify, lift, gets, ret.
  destruct opened; [|done]. destruct H as [H|H]; [done|]. cbn [id].
  destruct (getBinlogPositionCache _) as [[[f p] i]| | |]; try done.
  destruct made; [|done]. by destruct H as [H| ->].
Qed.

(** C20: A restart resumes where the last run left off: over a cache file
    written by [OnPosSynced] or [SaveBinlogPosition], [NewBinlog] restores
    the event index and starts from the saved position - unless the master is
    still in the same file and has not got that far, in which case it starts
    from the master's end. *)
Theorem restart_resumes f p i wn old e m :
  pos_ok f p i -> (length (packPos f p i) <= wn)%nat -> f <> [] -> 0 < p -> 0 <= Pos m < 2 ^ 32 ->
  exists h, NewBinlog (write_at (packPos f p i) wn old) e (Some m) = (h, Ret tt) /\
    EventIndex h = i /\ lastBinFile h = f /\
    lastPos h = (if bool_decide (f = PosName m) && (Pos m <? p) then Pos m else p).
Proof.
  intros Hok Hwn Hf Hp Hm. eexists. split; [by apply (handlerInit_resumes f p i wn old m)|]. done.
Qed.

(** A follower mirrors its leader: a position message makes the leader's
    position and event index the follower's own, in memory and in its cache
    file. *)
Theorem follower_mirrors h f p i wn :
  has binlogIsExit h = false -> has cacheHandlerIsOpened h = true ->
  (forall f x e, f ∈ onPosChanges -> (f x e).2 = Ret tt) ->
  pos_ok f p i -> (length (packPos f p i) <= wn)%nat ->
  exists h', SaveBinlogPosition onPosChanges (packPos f p i) wn h = (h', Ret tt) /\
    lastBinFile h' = f /\ lastPos h' = p /\ EventIndex h' = i /\
    getBinlogPositionCache h' = Ret (f, p, i).
Proof.
  intros Hx Ho Hcb Hok Hwn. pose proof Hok as [Hf Hp Hi].
  assert (Hu : unpackPos (packPos f p i) = Ret (f, p, i)).
  { rewrite <- (app_nil_r (packPos f p i)). apply unpackPos_app; unfold MinRead in *; lia. }
  set (h1 := with_index i (with_last f p h)).
  destruct (save_eq h1 (packPos f p i) wn Hx Ho Hcb) as [e Es].
  eexists. split.
  - unfold SaveBinlogPosition. rewrite (bind_ret _ _ _ h (f, p, i)) by (unfold lift; by rewrite Hu).
    cbv iota beta. erewrite bind_ret by reflexivity. erewrite bind_ret by reflexivity.
    rewrite u_wrap_small by done. exact Es.
  - split_and!; try done. by eapply (get_written _ _ _ _ wn (cacheFile h)).
Qed.

(** A position message that does not decode wipes the follower's
    position: memory and cache file forget where replication was. *)
Theorem bad_position_wipes h r wn :
  unpackPos r = Ret ([], 0, 0) ->
  has binlogIsExit h = false -> has cacheHandlerIsOpened h = true ->
  (forall f x e, f ∈ onPosChanges -> (f x e).2 = Ret tt) ->
  exists h', SaveBinlogPosition onPosChanges r wn h = (h', Ret tt) /\
    lastBinFile h' = [] /\ lastPos h' = 0 /\ EventIndex h' = 0 /\
    cacheFile h' = write_at r wn (cacheFile h).
Proof.
  intros Hu Hx Ho Hcb. set (h1 := with_index 0 (with_last [] 0 h)).
  destruct (save_eq h1 r wn Hx Ho Hcb) as [e Es]. eexists. split.
  - unfold SaveBinlogPosition. rewrite (bind_ret _ _ _ h ([], 0, 0)) by (unfold lift; by rewrite Hu).
    cbv iota beta. erewrite bind_ret by reflexivity. erewrite bind_ret by reflexivity. exact Es.
  - done.
Qed.
End Positions.

(** ** Row events reach the subscribers *)
Section RowEvents.
Context {E : Type} (SendAll : list (bytes -> bytes -> M E bool)).
Context (onEvent : list (bytes -> bytes -> M E unit)) (Marshal : row_data -> option bytes).
Implicit Types h : Binlog E.

(** The specification: one row at a time, every row decoded on its own. *)
Fixpoint update_events (e : RowsEvent) (now idx : Z) (rows : list (list gval)) :
    outcome (list row_data) :=
  match rows with
  | [] => Ret []
  | [_] => Panic
  | old :: new :: rows =>
      obind (decode_row (Columns e) old ∅) (fun oldData =>
      obind (decode_row (Columns e) new ∅) (fun newData =>
      obind (update_events e now (idx + 1) rows) (fun l =>
      Ret (mk_row_data e now (idx + 1) (Changed oldData newData) :: l))))
  end.

Fixpoint other_events (e : RowsEvent) (now idx : Z) (rows : list (list gval)) :
    outcome (list row_data) :=
  match rows with
  | [] => Ret []
  | row :: rows =>
      obind (decode_row (Columns e) row ∅) (fun data =>
      obind (other_events e now (idx + 1) rows) (fun l =>
      Ret (mk_row_data e now (idx + 1) (Plain data) :: l)))
  end.

Definition events_of (e : RowsEvent) (now idx : Z) : outcome (list row_data) :=
  if bool_decide (Action e = gostr "update") then update_events e now idx (Rows e)
  else other_events e now idx (Rows e).

(** Handing one event to every service, then to every callback. *)
Definition publish (env : E) (d : row_data) : E :=
  match Marshal d with
  | None => env
  | Some json =>
      let table := rd_database d ++ gostr "." ++ rd_table d in
      foldl (fun env f => (f table json env).1)
        (foldl (fun env f => (f table json env).1) env SendAll) onEvent
  end.

Context (SendAll_ret : forall f t d e, f ∈ SendAll -> exists b, (f t d e).2 = Ret b).
Context (onEvent_ret : forall f t d e, f ∈ onEvent -> (f t d e).2 = Ret tt).

(** Calls that return, one after another, on the state of the callbacks. *)
Lemma range_in_env {A B} (g : A -> M E B) (fs : list A) : forall h,
  (forall f e, f ∈ fs -> exists b, (g f e).2 = Ret b) ->
  range fs (fun f => in_env (g f) ;; ret tt) h =
    (with_env (foldl (fun env f => (g f env).1) (env h) fs) h, Ret tt).
Proof.
  induction fs as [|f fs IH]; intros h Hf; [by destruct h|]. cbn [range foldl].
  destruct (Hf f (env h)) as [b Hb]; [by left|].
  rewrite (bind_ret _ _ _ (with_env (g f (env h)).1 h) tt); cycle 1.
  { unfold bind, in_env. by rewrite Hb. }
  rewrite IH; [done|]. intros g' e' Hg'. apply Hf. by right.
Qed.

Lemma range_ret_tt {S A} (f : A -> M S unit) l (s : S) :
  range l (fun x => f x ;; ret tt) s = range l f s.
Proof.
  revert s. induction l as [|x l IH]; intros s; [done|]. cbn [range].
  destruct (f x s) as [s1 [[]| | |]] eqn:Ef; [|by unfold bind; rewrite Ef..].
  rewrite (bind_ret _ _ _ s1 tt) by (by rewrite (bind_ret _ _ _ _ _ Ef)).
  rewrite (bind_ret _ _ _ _ _ Ef). apply IH.
Qed.

Lemma notify_eq d h : notify SendAll onEvent Marshal d h = (with_env (publish (env h) d) h, Ret tt).
Proof using SendAll_ret onEvent_ret.
  unfold notify, publish. destruct (Marshal d) as [json|]; [|by destruct h]. cbv zeta.
  rewrite (bind_ret _ _ _ _ _ (range_in_env _ SendAll h (fun f e Hf => SendAll_ret f _ _ e Hf))).
  rewrite <- (range_ret_tt (fun f => in_env (f _ json))), (range_in_env (fun f => f _ json)); [done|].
  intros f e Hf. exists tt. by apply onEvent_ret.
Qed.

Lemma bind_add_index {B} (k : Z -> M (Binlog E) B) h :
  - 2 ^ 63 <= EventIndex h -> EventIndex h < MaxInt64 ->
  bind add_index k h = k (EventIndex h + 1) (with_index (EventIndex h + 1) h).
Proof.
  intros H0 H1. unfold bind, add_index, bind, modify, gets. simpl.
  by rewrite s_wrap_small by lia.
Qed.

(** Every column of a row is written, so what the map held before is gone. *)
Lemma decode_row_agree cols : forall row m1 m2,
  (forall k, k ∉ map Name cols -> m1 !! k = m2 !! k) ->
  decode_row cols row m1 = decode_row cols row m2.
Proof.
  induction cols as [|c cols IH]; intros row m1 m2 Hk; simpl.
  - f_equal. apply map_eq. intros k. apply Hk, not_elem_of_nil.
  - assert (Hc : forall d k, k ∉ map Name cols -> <[Name c := d]> m1 !! k = <[Name c := d]> m2 !! k).
    { intros d k Hnk. destruct (decide (Name c = k)) as [->|Hne]; [by rewrite !lookup_insert_eq|].
      rewrite !lookup_insert_ne by done. apply Hk. simpl. by apply not_elem_of_cons. }
    destruct row as [|v row]; [apply IH, Hc|].
    destruct (fieldDecode v c); simpl; try done. apply IH, Hc.
Qed.

Lemma decode_row_dom cols : forall row m m',
  decode_row cols row m = Ret m' -> forall k, k ∉ map Name cols -> m' !! k = m !! k.
Proof.
  induction cols as [|c cols IH]; intros row m m' Hd k Hk; simpl in *.
  - by injection Hd as <-.
  - apply not_elem_of_cons in Hk as [Hne Hk]. destruct row as [|v row].
    + rewrite (IH _ _ _ Hd k Hk). by rewrite lookup_insert_ne.
    + destruct (fieldDecode v c) as [d| | |]; simpl in Hd; try done.
      rewrite (IH _ _ _ Hd k Hk). by rewrite lookup_insert_ne.
Qed.

Lemma decode_row_reuse cols row data :
  (forall k, k ∉ map Name cols -> data !! k = None) ->
  decode_row cols row data = decode_row cols row ∅.
Proof. intros Hk. apply decode_row_agree. intros k Hnk. by rewrite lookup_empty, Hk. Qed.

(** The callbacks take an event, or a list of them one after another, and
    their state is then [e']. *)
Definition takes d (e e' : E) : Prop :=
  forall h, env h = e -> notify SendAll onEvent Marshal d h = (with_env e' h, Ret tt).

Inductive takes_all : list row_data -> E -> E -> Prop :=
  | takes_nil e : takes_all [] e e
  | takes_cons d l e1 e2 e3 : takes d e1 e2 -> takes_all l e2 e3 -> takes_all (d :: l) e1 e3.

Lemma takes_all_publish l : forall e, takes_all l e (foldl publish e l).
Proof using SendAll_ret onEvent_ret.
  induction l as [|d l IH]; intros e; cbn [foldl]; econstructor; [|apply IH].
  intros h <-. apply notify_eq.
Qed.

(** The loops publish the events of the specification, in order. *)
Definition moved (k : Z) (e' : E) h : Binlog E := with_index (EventIndex h + k) (with_env e' h).

Lemma moved_0 h : moved 0 (env h) h = h.
Proof. unfold moved. rewrite Z.add_0_r. by destruct h. Qed.

Lemma moved_cons (d : row_data) (l : list row_data) e1 e2 h :
  moved (len l) e2 (with_env e1 (with_index (EventIndex h + 1) h)) = moved (len (d :: l)) e2 h.
Proof. unfold moved, with_index, with_env, len. simpl. f_equal. lia. Qed.

Lemma other_rows_publish e now rows : forall data h l e',
  - 2 ^ 63 <= EventIndex h -> EventIndex h + len rows <= MaxInt64 ->
  (forall k, k ∉ map Name (Columns e) -> data !! k = None) ->
  other_events e now (EventIndex h) rows = Ret l -> takes_all l (env h) e' ->
  other_rows SendAll onEvent Marshal e now rows data h = (moved (len l) e' h, Ret tt).
Proof using.
  induction rows as [|row rows IH]; intros data h l e' H0 H1 Hd Hl He; cbn [other_events] in Hl.
  { injection Hl as <-. inversion He; subst. by rewrite moved_0. }
  unfold len in H1. simpl length in H1. cbn [other_rows]. rewrite bind_add_index by lia.
  destruct (decode_row (Columns e) row ∅) as [data'| | |] eqn:Ed; cbn [obind] in Hl; try done.
  destruct (other_events e now (EventIndex h + 1) rows) as [l'| | |] eqn:El; cbn [obind] in Hl; try done.
  injection Hl as <-. set (h1 := with_index (EventIndex h + 1) h).
  inversion He as [|? ? ? e2 ? Hd1 Hl1]; subst.
  rewrite (bind_ret _ _ _ h1 data') by (unfold lift; by rewrite decode_row_reuse, Ed).
  rewrite (bind_ret _ _ _ _ _ (Hd1 h1 eq_refl)).
  rewrite (IH data' _ l' e'); [|simpl; lia|unfold len; simpl; lia| |exact El|exact Hl1].
  - by rewrite <- moved_cons with (e1 := e2).
  - intros k Hk. rewrite (decode_row_dom _ _ _ _ Ed k Hk). apply lookup_empty.
Qed.

Lemma update_rows_publish e now n : forall rows h l e',
  (length rows <= n)%nat -> - 2 ^ 63 <= EventIndex h -> EventIndex h + len rows <= MaxInt64 ->
  update_events e now (EventIndex h) rows = Ret l -> takes_all l (env h) e' ->
  update_rows SendAll onEvent Marshal e now rows h = (moved (len l) e' h, Ret tt).
Proof using.
  induction n as [|n IH]; intros [|old [|new rows]] h l e' Hn H0 H1 Hl He; simpl in Hn; try lia;
    try (injection Hl as <-; inversion He; subst; by rewrite moved_0); [discriminate Hl|].
  cbn [update_events] in Hl. unfold len in H1. simpl length in H1.
  destruct (decode_row (Columns e) old ∅) as [d1| | |] eqn:E1; cbn [obind] in Hl; try done.
  destruct (decode_row (Columns e) new ∅) as [d2| | |] eqn:E2; cbn [obind] in Hl; try done.
  destruct (update_events e now (EventIndex h + 1) rows) as [l'| | |] eqn:El; cbn [obind] in Hl; try done.
  injection Hl as <-. cbn [update_rows]. rewrite bind_add_index by lia.
  set (h1 := with_index (EventIndex h + 1) h).
  inversion He as [|? ? ? e2 ? Hd1 Hl1]; subst.
  rewrite (bind_ret _ _ _ h1 d1) by (unfold lift; by rewrite E1).
  rewrite (bind_ret _ _ _ h1 d2) by (unfold lift; by rewrite E2).
  rewrite (bind_ret _ _ _ _ _ (Hd1 h1 eq_refl)).
  rewrite (IH rows _ l' e');
    [by rewrite <- moved_cons with (e1 := e2)|lia|simpl; lia|unfold len; simpl; lia|exact El|exact Hl1].
Qed.

Lemma OnRow_takes e now h l e' :
  has binlogIsExit h = false ->
  - 2 ^ 63 <= EventIndex h -> EventIndex h + len (Rows e) <= MaxInt64 ->
  events_of e now (EventIndex h) = Ret l -> takes_all l (env h) e' ->
  OnRow SendAll onEvent Marshal e now h = (moved (len l) e' h, Ret tt).
Proof using.
  intros Hx H0 H1 Hl He. unfold OnRow. erewrite bind_ret by reflexivity. cbn [id]. rewrite Hx.
  unfold events_of in Hl. case_bool_decide.
  - by apply (update_rows_publish e now (length (Rows e))).
  - by apply other_rows_publish.
Qed.

(** C19: Every row the master logs is published once: the reader hands each
    event of the specification - one per row, or one per pair of rows of an
    update, every one decoded on its own and numbered consecutively - to all
    services and callbacks, in order. *)
Theorem OnRow_publishes e now h l :
  has binlogIsExit h = false ->
  - 2 ^ 63 <= EventIndex h -> EventIndex h + len (Rows e) <= MaxInt64 ->
  events_of e now (EventIndex h) = Ret l ->
  OnRow SendAll onEvent Marshal e now h =
    (with_index (EventIndex h + len l) (with_env (foldl publish (env h) l) h), Ret tt).
Proof using SendAll_ret onEvent_ret.
  intros Hx H0 H1 Hl. apply (OnRow_takes e now h l); try done. apply takes_all_publish.
Qed.
End RowEvents.

(** ** Starting and stopping *)
Section Lifecycle.
Context {E : Type} (SendAll : list (bytes -> bytes -> M E bool)) (service_Close : list (M E unit)).
Context (onEvent : list (bytes -> bytes -> M E unit)) (onPosChanges : list (bytes -> M E unit)).
Context (Marshal : row_data -> option bytes).
Implicit Types h : Binlog E.

(** Everything that happens to a reader once it is set up. *)
Inductive binlog_event :=
  | BPosSynced (p : Position) (wn : nat)      (* the master's log advanced *)
  | BSavePosition (r : bytes) (wn : nat)      (* the leader's position arrived *)
  | BRow (e : RowsEvent) (now : Z)
  | BLeader (isLeader : bool)                 (* an election result *)
  | BStartTurn
  | BStopTurn (wn : nat)
  | BRunner                                   (* a goroutine calls [RunFrom] *)
  | BRunnerExit (err : bool)                  (* [RunFrom] returned *)
  | BClose.

Definition on_binlog_event (ev : binlog_event) : M (Binlog E) unit :=
  match ev with
  | BPosSynced p wn => OnPosSynced onPosChanges p wn
  | BSavePosition r wn => SaveBinlogPosition onPosChanges r wn
  | BRow e now => OnRow SendAll onEvent Marshal e now
  | BLeader b => OnLeader b
  | BStartTurn => lookStartService_turn
  | BStopTurn wn => lookStopService_turn onPosChanges wn
  | BRunner => runner_start
  | BRunnerExit err => runner_exit err
  | BClose => Close service_Close
  end.

Lemma land_lxor_other s b c : Z.land b c = 0 -> Z.land (Z.lxor s b) c = Z.land s c.
Proof.
  intros H. apply Z.bits_inj'. intros k _. apply (f_equal (fun z => Z.testbit z k)) in H.
  rewrite Z.land_spec, Z.bits_0 in H. rewrite !Z.land_spec, Z.lxor_spec.
  by destruct (Z.testbit s k), (Z.testbit b k), (Z.testbit c k).
Qed.

Lemma land_lor_other s b c : Z.land b c = 0 -> Z.land (Z.lor s b) c = Z.land s c.
Proof. intros H. by rewrite Z.land_lor_distr_l, H, Z.lor_0_r. Qed.

(** A closed reader, and what its cache file holds. *)
Definition closed_with (f : bytes) h : Prop := has binlogIsExit h = true /\ cacheFile h = f.

Section Closed.
Context (f : bytes).

Lemma closed_modify (g : Binlog E -> Binlog E) :
  (forall h, Z.land (status (g h)) binlogIsExit = Z.land (status h) binlogIsExit /\
             cacheFile (g h) = cacheFile h) -> preserves (closed_with f) (modify g).
Proof. intros Hg h [Hx Hf]. destruct (Hg h) as [E1 E2]. unfold closed_with, has in *. simpl. by rewrite E1, E2. Qed.

Lemma closed_flip b : Z.land b binlogIsExit = 0 -> preserves (closed_with f) (flip_bit (E:=E) b).
Proof. intros Hb. apply closed_modify. intros h. simpl. by rewrite land_lxor_other. Qed.

Lemma closed_set b : Z.land b binlogIsExit = 0 -> preserves (closed_with f) (set_bit (E:=E) b).
Proof. intros Hb. apply closed_modify. intros h. simpl. by rewrite land_lor_other. Qed.

Lemma closed_in_env {A} (m : M E A) : preserves (closed_with f) (in_env m).
Proof. by intros h Hh. Qed.

(** Looking at the state of a closed reader. *)
Lemma closed_gets {B} (k : Binlog E -> M (Binlog E) B) :
  (forall h, closed_with f h -> closed_with f (k h h).1) ->
  preserves (closed_with f) (let! h := gets id in k h).
Proof. intros Hk h Hh. unfold bind, gets. by apply Hk. Qed.

Lemma closed_save r wn : preserves (closed_with f) (saveBinlogPositionCache onPosChanges r wn).
Proof. apply closed_gets. intros h [Hx Hf]. rewrite Hx. by split. Qed.

Lemma closed_gets' {B} (k : Binlog E -> M (Binlog E) B) :
  (forall h, preserves (closed_with f) (k h)) -> preserves (closed_with f) (let! h := gets id in k h).
Proof. intros Hk. apply closed_gets. intros h Hh. by apply Hk. Qed.

Lemma closed_event ev : preserves (closed_with f) (on_binlog_event ev).
Proof.
  destruct ev as [p wn|r wn|e now|b| |wn| |err| ]; cbn [on_binlog_event].
  - apply closed_gets'. intros h. apply preserves_bind; [apply closed_save|].
    intros _. by apply closed_modify.
  - apply preserves_bind; [apply preserves_lift|]. intros [[file pos] index].
    apply preserves_bind; [by apply closed_modify|]. intros _.
    apply preserves_bind; [by apply closed_modify|]. intros _. apply closed_save.
  - apply closed_gets. intros h [Hx Hf]. rewrite Hx. by split.
  - destruct b; apply closed_gets'; intros h; (apply preserves_if; [by apply closed_modify|apply preserves_lift]).
  - apply closed_gets'. intros h. destruct (startServiceChan h); [apply preserves_lift|].
    apply preserves_bind; [by apply closed_modify|]. intros _.
    apply preserves_if; [apply preserves_ret|].
    apply preserves_bind; [by apply closed_set|]. intros _. by apply closed_modify.
  - apply closed_gets'. intros h. destruct (stopServiceChan h) as [|exit l]; [apply preserves_lift|].
    apply preserves_bind; [by apply closed_modify|]. intros _.
    apply preserves_bind; [apply preserves_if; [by apply closed_modify|apply preserves_ret]|]. intros _.
    apply preserves_bind; [|intros _; apply closed_gets'; intros h2;
      apply preserves_if; [by apply closed_flip|apply preserves_ret]].
    apply preserves_if; [|apply preserves_ret]. apply closed_gets'. intros h2.
    apply preserves_bind; [apply closed_save|]. intros _. apply closed_gets'. intros h3.
    apply preserves_if; [by apply closed_flip|apply preserves_ret].
  - apply closed_gets'. intros h. destruct (starting h); [apply preserves_lift|].
    apply preserves_if; [apply preserves_lift|by apply closed_modify].
  - apply preserves_if; [by apply closed_flip|apply preserves_ret].
  - apply closed_gets. intros h [Hx Hf]. rewrite Hx. by split.
Qed.
End Closed.

(** [Close] leaves a closed reader. *)
Lemma Close_closed h : closed_with (cacheFile h) (Close service_Close h).1.
Proof.
  unfold Close. erewrite bind_ret by reflexivity. cbn [id].
  destruct (has binlogIsExit h) eqn:Hx; [by split|].
  assert (Hs : closed_with (cacheFile h) (with_status (Z.lor (status h) binlogIsExit) h)).
  { split; [|done]. unfold has, closed_with in *. simpl. rewrite Z.land_lor_distr_l.
    change (Z.land binlogIsExit binlogIsExit) with 2.
    assert (0 <= Z.land (status h) binlogIsExit) by (apply Z.land_nonneg; right; done).
    apply Z.ltb_lt. destruct (Z.lor_nonneg (Z.land (status h) binlogIsExit) 2) as [_ Hn].
    specialize (Hn ltac:(lia)). enough (Z.lor (Z.land (status h) binlogIsExit) 2 <> 0) by lia.
    intros [_ ?]%Z.lor_eq_0_iff. done. }
  rewrite (bind_ret _ _ _ _ tt (eq_refl : set_bit binlogIsExit h = (_, Ret tt))).
  revert Hs. generalize (with_status (Z.lor (status h) binlogIsExit) h). intros h' Hs.
  eapply preserves_bind; [| |exact Hs].
  - apply closed_gets'. intros h2. apply preserves_if; [by apply closed_modify|apply preserves_lift].
  - intros _. apply preserves_range. intros m. apply closed_in_env.
Qed.

(** Closing the reader drops its final position: once [Close] was called,
    nothing that happens afterwards - the stop signal that is meant to save
    the position included - changes the cache file. *)
Theorem close_never_saves h evs :
  cacheFile (run on_binlog_event evs (Close service_Close h).1) = cacheFile h.
Proof. apply (preserves_run _ on_binlog_event evs _ (closed_event (cacheFile h)) (Close_closed h)). Qed.

(** What the callbacks keep of their state, the reader keeps. *)
Section EnvKept.
Context (I : E -> Prop).
Context (I_SendAll : forall f t d, f ∈ SendAll -> preserves I (f t d)).
Context (I_Close : forall m, m ∈ service_Close -> preserves I m).
Context (I_onEvent : forall f t d, f ∈ onEvent -> preserves I (f t d)).
Context (I_onPos : forall f r, f ∈ onPosChanges -> preserves I (f r)).
#[local] Abbreviation J := (fun h : Binlog E => I (env h)).

Lemma env_in_env {A} (m : M E A) : preserves I m -> preserves J (in_env m).
Proof. intros Hm h Hh. by apply Hm. Qed.
Lemma env_modify (g : Binlog E -> Binlog E) : (forall h, env (g h) = env h) -> preserves J (modify g).
Proof. intros Hg h Hh. cbn. by rewrite Hg. Qed.
Lemma env_get {B} (k : Binlog E -> M (Binlog E) B) :
  (forall h, preserves J (k h)) -> preserves J (let! h := gets id in k h).
Proof. intros Hk. apply preserves_bind; [apply preserves_gets|exact Hk]. Qed.
Lemma env_range {A} (g : A -> M E unit) l : (forall x, x ∈ l -> preserves I (g x)) -> preserves J (range l (fun x => in_env (g x))).
Proof.
  induction l as [|x l IH]; intros Hg; [apply preserves_ret|]. cbn [range].
  apply preserves_bind; [apply env_in_env, Hg; by left|intros _]. apply IH. intros y Hy. apply Hg. by right.
Qed.

Lemma env_save r wn : preserves J (saveBinlogPositionCache onPosChanges r wn).
Proof using I_onPos.
  apply env_get. intros h. apply preserves_if; [apply preserves_ret|].
  apply preserves_bind; [apply preserves_if; [by apply env_modify|apply preserves_ret]|].
  intros _. apply (env_range (fun f => f r)). intros f Hf. by apply I_onPos.
Qed.

Lemma env_notify d : preserves J (notify SendAll onEvent Marshal d).
Proof using I_SendAll I_onEvent.
  unfold notify. destruct (Marshal d) as [json|]; [|apply preserves_ret]. cbv zeta.
  apply preserves_bind; [|intros _; apply (env_range (fun f => f _ json)); intros f Hf; by apply I_onEvent].
  clear -I_SendAll. generalize (rd_database d ++ gostr "." ++ rd_table d). intros t.
  induction SendAll as [|f fs IH]; [apply preserves_ret|]. cbn [range].
  apply preserves_bind; [|intros _; apply IH; intros g u e Hg; apply I_SendAll; by right].
  apply preserves_bind; [apply env_in_env, I_SendAll; by left|intros _; apply preserves_ret].
Qed.

Lemma env_index : preserves J add_index.
Proof. apply preserves_bind; [by apply env_modify|intros _; apply preserves_gets]. Qed.

Lemma env_update_rows e now n : forall rows, (length rows <= n)%nat ->
  preserves J (update_rows SendAll onEvent Marshal e now rows).
Proof using I_SendAll I_onEvent.
  induction n as [|n IH]; intros [|old rows] Hn; cbn [update_rows]; try apply preserves_ret; cbn in Hn; [lia|].
  apply preserves_bind; [apply env_index|intros i]. apply preserves_bind; [apply preserves_lift|intros o].
  destruct rows as [|new rows]; [apply preserves_lift|].
  apply preserves_bind; [apply preserves_lift|intros nw]. apply preserves_bind; [apply env_notify|intros _].
  apply IH. cbn in Hn. lia.
Qed.

Lemma env_other_rows e now rows : forall data, preserves J (other_rows SendAll onEvent Marshal e now rows data).
Proof using I_SendAll I_onEvent.
  induction rows as [|row rows IH]; intros data; cbn [other_rows]; [apply preserves_ret|].
  apply preserves_bind; [apply env_index|intros i]. apply preserves_bind; [apply preserves_lift|intros d].
  apply preserves_bind; [apply env_notify|intros _]. apply IH.
Qed.

Lemma env_event ev : preserves J (on_binlog_event ev).
Proof using I_SendAll I_Close I_onEvent I_onPos.
  destruct ev as [p wn|r wn|e now|b| |wn| |err| ]; cbn [on_binlog_event].
  - apply env_get. intros h. apply preserves_bind; [apply env_save|intros _; by apply env_modify].
  - apply preserves_bind; [apply preserves_lift|intros [[file pos] index]].
    apply preserves_bind; [by apply env_modify|intros _]. apply preserves_bind; [by apply env_modify|intros _]. apply env_save.
  - apply env_get. intros h. apply preserves_if; [apply preserves_ret|].
    apply preserves_if; [by eapply env_update_rows|apply env_other_rows].
  - destruct b; apply env_get; intros h; (apply preserves_if; [by apply env_modify|apply preserves_lift]).
  - apply env_get. intros h. destruct (startServiceChan h); [apply preserves_lift|].
    apply preserves_bind; [by apply env_modify|intros _]. apply preserves_if; [apply preserves_ret|].
    apply preserves_bind; [by apply env_modify|intros _; by apply env_modify].
  - apply env_get. intros h. destruct (stopServiceChan h) as [|exit l]; [apply preserves_lift|].
    apply preserves_bind; [by apply env_modify|intros _].
    apply preserves_bind; [apply preserves_if; [by apply env_modify|apply preserves_ret]|intros _].
    apply preserves_bind; [|intros _; apply env_get; intros h2; apply preserves_if; [by apply env_modify|apply preserves_ret]].
    apply preserves_if; [|apply preserves_ret]. apply env_get. intros h2.
    apply preserves_bind; [apply env_save|intros _]. apply env_get. intros h3.
    apply preserves_if; [by apply env_modify|apply preserves_ret].
  - apply env_get. intros h. destruct (starting h); [apply preserves_lift|].
    apply preserves_if; [apply preserves_lift|by apply env_modify].
  - apply preserves_if; [by apply env_modify|apply preserves_ret].
  - apply env_get. intros h. apply preserves_if; [apply preserves_ret|].
    apply preserves_bind; [by apply env_modify|intros _].
    apply preserves_bind; [apply env_get; intros h2; apply preserves_if; [by apply env_modify|apply preserves_lift]|intros _].
    by apply (env_range (fun m => m)).
Qed.
End EnvKept.

Lemma has_false b h : has b h = false -> Z.land (status h) b = 0 \/ b < 0 /\ status h < 0.
Proof.
  unfold has. intros Hb%Z.ltb_ge. destruct (Z.le_gt_cases 0 b), (Z.le_gt_cases 0 (status h)); [left..|].
  all: try (assert (0 <= Z.land (status h) b) by (apply Z.land_nonneg; auto); lia). by right.
Qed.

Lemma OnLeader_idle h : startServiceChan h = 0%nat -> OnLeader true h = (with_start 1 h, Ret tt).
Proof. intros Hs. unfold OnLeader, StartService, bind, gets. cbn [id]. by rewrite Hs. Qed.

(** An election result and the turn that handles it, in the four situations. *)
Lemma elected_idle h :
  has binlogIsRunning h = false -> startServiceChan h = 0%nat ->
  run on_binlog_event [BLeader true; BStartTurn] h =
    with_goroutines (S (starting h)) (runs h) (with_status (Z.lor (status h) binlogIsRunning) h).
Proof.
  intros Hr Hs. destruct h as [i file p f sc pc st hd sg rs bf bp e]. simpl in Hs. subst sc.
  unfold run. cbn [foldl on_binlog_event OnLeader]. unfold StartService, bind at 1, gets at 1. simpl fst.
  unfold lookStartService_turn, bind at 1, gets at 1. cbn [id with_start startServiceChan].
  erewrite bind_ret by reflexivity. cbn [id]. unfold has in Hr |- *. cbn [status with_start] in *. by rewrite Hr.
Qed.

Lemma elected_running h :
  has binlogIsRunning h = true -> startServiceChan h = 0%nat ->
  run on_binlog_event [BLeader true; BStartTurn] h = h.
Proof.
  intros Hr Hs. destruct h as [i file p f sc pc st hd sg rs bf bp e]. simpl in Hs. subst sc.
  unfold run. cbn [foldl on_binlog_event OnLeader]. unfold StartService, bind at 1, gets at 1. simpl fst.
  unfold lookStartService_turn, bind at 1, gets at 1. cbn [id with_start startServiceChan].
  erewrite bind_ret by reflexivity. cbn [id]. unfold has in Hr |- *. cbn [status with_start] in *. by rewrite Hr.
Qed.

Lemma deposed_running h wn :
  has binlogIsRunning h = true -> stopServiceChan h = [] ->
  run on_binlog_event [BLeader false; BStopTurn wn] h =
    with_handlers (S (handlers h)) (with_status (Z.lxor (status h) binlogIsRunning) h).
Proof.
  intros Hr Hs. destruct h as [i file p f sc pc st hd sg rs bf bp e]. simpl in Hs. subst pc.
  unfold run. cbn [foldl on_binlog_event OnLeader]. unfold StopService, bind at 1, gets at 1. simpl fst.
  unfold lookStopService_turn, bind at 1, gets at 1. cbn [id with_stop stopServiceChan].
  erewrite bind_ret by reflexivity. cbn [id]. unfold has in Hr |- *. cbn [status with_stop] in *. rewrite Hr.
  cbn [andb negb]. erewrite bind_ret by reflexivity. erewrite bind_ret by reflexivity.
  erewrite bind_ret by reflexivity. cbn [id with_handlers with_stop status]. by rewrite Hr.
Qed.

Lemma deposed_idle h wn :
  has binlogIsRunning h = false -> stopServiceChan h = [] ->
  run on_binlog_event [BLeader false; BStopTurn wn] h = h.
Proof.
  intros Hr Hs. destruct h as [i file p f sc pc st hd sg rs bf bp e]. simpl in Hs. subst pc.
  unfold run. cbn [foldl on_binlog_event OnLeader]. unfold StopService, bind at 1, gets at 1. simpl fst.
  unfold lookStopService_turn, bind at 1, gets at 1. cbn [id with_stop stopServiceChan].
  erewrite bind_ret by reflexivity. cbn [id]. unfold has in Hr |- *. cbn [status with_stop] in *. rewrite Hr.
  cbn [andb negb]. erewrite bind_ret by reflexivity. erewrite bind_ret by reflexivity.
  erewrite bind_ret by reflexivity. cbn [id with_stop status]. by rewrite Hr.
Qed.

Lemma runner_runs h n :
  starting h = S n -> lastBinFile h <> [] ->
  run on_binlog_event [BRunner] h =
    with_goroutines n (runs h ++ [mkPosition (lastBinFile h) (lastPos h)]) h.
Proof.
  intros Hs Hf. unfold run. cbn [foldl on_binlog_event]. unfold runner_start.
  erewrite bind_ret by reflexivity. cbn [id]. rewrite Hs. by rewrite bool_decide_false.
Qed.

Lemma running_set st : Z.land st 1 = 0 ->
  (0 <? Z.land (Z.lor st 1) 1) = true /\ Z.lxor (Z.lor st 1) 1 = st /\ Z.lxor st 1 = Z.lor st 1.
Proof.
  intros Hb. split_and!.
  - by rewrite Z.land_lor_distr_l, Hb.
  - apply Z.bits_inj'. intros k Hk. apply (f_equal (fun z => Z.testbit z k)) in Hb.
    rewrite Z.land_spec, Z.bits_0 in Hb. rewrite Z.lxor_spec, Z.lor_spec.
    by destruct (Z.testbit st k), (Z.testbit 1 k).
  - apply Z.bits_inj'. intros k Hk. apply (f_equal (fun z => Z.testbit z k)) in Hb.
    rewrite Z.land_spec, Z.bits_0 in Hb. rewrite Z.lxor_spec, Z.lor_spec.
    by destruct (Z.testbit st k), (Z.testbit 1 k).
Qed.

(** C37: Leadership can come back without the reader: a node is elected, loses
    and regains leadership.  When [RunFrom] ends quietly the reader starts
    again at the last position; when it ends with an error after the stop
    signal was handled, its goroutine flips the running bit back on, and the
    second election starts nothing. *)
Theorem reelection_restarts h wn err :
  has binlogIsRunning h = false -> lastBinFile h <> [] ->
  startServiceChan h = 0%nat -> stopServiceChan h = [] -> starting h = 0%nat ->
  let h' := run on_binlog_event
    [BLeader true; BStartTurn; BRunner; BLeader false; BStopTurn wn; BRunnerExit err;
     BLeader true; BStartTurn; BRunner] h in
  let pos := mkPosition (lastBinFile h) (lastPos h) in
  has binlogIsRunning h' = true /\
  runs h' = runs h ++ (if err then [pos] else [pos; pos]).
Proof.
  intros Hr Hf Hs Hp Hst h' pos.
  assert (Hb : Z.land (status h) 1 = 0).
  { unfold has, binlogIsRunning in Hr. assert (0 <= Z.land (status h) 1) by (apply Z.land_nonneg; by right). lia. }
  destruct (running_set _ Hb) as (H1 & H2 & H3).
  set (up := with_status (Z.lor (status h) 1) (with_goroutines 0 (runs h ++ [pos]) h)).
  assert (E1 : run on_binlog_event [BLeader true; BStartTurn; BRunner] h = up).
  { change [BLeader true; BStartTurn; BRunner] with ([BLeader true; BStartTurn] ++ [BRunner]).
    rewrite run_app, elected_idle by done. rewrite (runner_runs _ (starting h)) by done.
    unfold up. simpl. by rewrite Hst. }
  set (down := with_handlers (S (handlers h)) (with_goroutines 0 (runs h ++ [pos]) h)).
  assert (E2 : run on_binlog_event [BLeader false; BStopTurn wn] up = down).
  { rewrite deposed_running by done. unfold up, down, with_handlers, with_status. change binlogIsRunning with 1. simpl. by rewrite H2. }
  unfold h'. change [BLeader true; BStartTurn; BRunner; BLeader false; BStopTurn wn; BRunnerExit err;
     BLeader true; BStartTurn; BRunner] with ([BLeader true; BStartTurn; BRunner] ++
     [BLeader false; BStopTurn wn] ++ [BRunnerExit err] ++ [BLeader true; BStartTurn] ++ [BRunner]).
  rewrite !run_app, E1, E2. destruct err.
  - set (again := with_status (Z.lor (status h) 1) down).
    assert (E3 : run on_binlog_event [BRunnerExit true] down = again).
    { unfold again. rewrite <- H3. reflexivity. }
    rewrite E3, elected_running by done. split; [exact H1|done].
  - change (run on_binlog_event [BRunnerExit false] down) with down.
    rewrite elected_idle by done. rewrite (runner_runs _ 0) by done.
    split; [exact H1|]. simpl. by rewrite <- app_assoc.
Qed.
End Lifecycle.

(** ** Concrete instances: one service and one callback that log *)
Section Instances.
#[local] Definition log_event (t d : bytes) : M (list bytes) bool := fun l => (l ++ [t; d], Ret true).
#[local] Definition log_pos (r : bytes) : M (list bytes) unit := modify (fun l => l ++ [r]).
#[local] Definition marshal (d : row_data) : option bytes := Some (rd_event_type d).
#[local] Definition logfile : bytes := gostr "mysql-bin.000059".
#[local] Definition up : Binlog (list bytes) :=
  with_last logfile 4 (with_status cacheHandlerIsOpened (fresh (gostr "old contents, rather long, to be overwritten") [])).

#[local] Lemma log_pos_returns (f : bytes -> M (list bytes) unit) x e : f ∈ [log_pos] -> (f x e).2 = Ret tt.
Proof. by intros ->%list_elem_of_singleton. Qed.

#[local] Lemma logfile_ok p i : 0 <= p < 2 ^ 32 -> - 2 ^ 63 <= i < 2 ^ 63 -> pos_ok logfile p i.
Proof. intros Hp Hi. split; [small|done|done]. Qed.

Lemma position_cache_roundtrip_witness :
  exists h', OnPosSynced [log_pos] (mkPosition logfile 123456) 100 up = (h', Ret tt) /\
    lastBinFile h' = logfile /\ lastPos h' = 123456 /\
    getBinlogPositionCache h' = Ret (logfile, 123456, 0).
Proof.
  apply (position_cache_roundtrip [log_pos] up (mkPosition logfile 123456) 100);
    [reflexivity|reflexivity|intros f x e; apply log_pos_returns|apply logfile_ok; simpl; lia|simpl; lia].
Defined.

Lemma restart_resumes_witness :
  exists h, NewBinlog (write_at (packPos logfile 500 7) 100 (gostr "")) (tt, tt)
              (Some (mkPosition logfile 400)) = (h, Ret tt) /\
    EventIndex h = 7 /\ lastBinFile h = logfile /\
    lastPos h = (if bool_decide (logfile = logfile) && (400 <? 500) then 400 else 500).
Proof.
  apply (restart_resumes logfile 500 7 100 (gostr "") (tt, tt) (mkPosition logfile 400));
    [apply logfile_ok; lia|simpl; lia|done|lia|simpl; lia].
Defined.

Lemma follower_mirrors_witness :
  exists h', SaveBinlogPosition [log_pos] (packPos logfile 99 3) 100 up = (h', Ret tt) /\
    lastBinFile h' = logfile /\ lastPos h' = 99 /\ EventIndex h' = 3 /\
    getBinlogPositionCache h' = Ret (logfile, 99, 3).
Proof.
  apply (follower_mirrors [log_pos] up logfile 99 3 100);
    [reflexivity|reflexivity|intros f x e; apply log_pos_returns|apply logfile_ok; lia|simpl; lia].
Defined.

Lemma bad_position_wipes_witness :
  exists h', SaveBinlogPosition [log_pos] (replicate 18 Byte.x00) 100 up = (h', Ret tt) /\
    lastBinFile h' = [] /\ lastPos h' = 0 /\ EventIndex h' = 0 /\
    cacheFile h' = write_at (replicate 18 Byte.x00) 100 (cacheFile up).
Proof.
  apply (bad_position_wipes [log_pos] up (replicate 18 Byte.x00) 100);
    [reflexivity|reflexivity|reflexivity|intros f x e; apply log_pos_returns].
Defined.

#[local] Definition two_updates : RowsEvent :=
  mkRowsEvent (gostr "db") (gostr "orders") [mkColumn (gostr "id") (gostr "int(11)") false [] []]
    (gostr "update") [[VInt32 1]; [VInt32 2]; [VInt32 3]; []].

#[local] Definition their_events : list row_data :=
  [mk_row_data two_updates 0 1 (Changed {[ gostr "id" := VInt64 1 ]} {[ gostr "id" := VInt64 2 ]});
   mk_row_data two_updates 0 2 (Changed {[ gostr "id" := VInt64 3 ]} {[ gostr "id" := VNil ]})].

Lemma OnRow_publishes_witness :
  OnRow [log_event] [] marshal two_updates 0 up =
    (with_index (0 + 2) (with_env (foldl (publish [log_event] [] marshal) [] their_events) up), Ret tt).
Proof.
  refine (OnRow_publishes [log_event] [] marshal _ _ two_updates 0 up their_events _ _ _ _);
    [|by intros f t d e ?%not_elem_of_nil|reflexivity|done|small|reflexivity].
  intros f t d e ->%list_elem_of_singleton. by exists true.
Defined.

Lemma reelection_restarts_witness :
  let h' := run (on_binlog_event [log_event] [] [] [log_pos] marshal)
    [BLeader true; BStartTurn; BRunner; BLeader false; BStopTurn 0; BRunnerExit true;
     BLeader true; BStartTurn; BRunner] up in
  has binlogIsRunning h' = true /\ runs h' = [mkPosition logfile 4].
Proof.
  apply (reelection_restarts [log_event] [] [] [log_pos] marshal up 0 true); reflexivity || done.
Defined.
End Instances.
