(* ===== verification/RowTypes.v ===== *)
(** * The types of what the reader publishes

    A table gives every column the Go type in which the replication library
    delivers its values.  [fieldDecode] turns it into another type, which
    depends on the column alone, and the decoder of a row never fails but on
    an enum number without a name: every event of a table carries all its
    columns, at these types. *)
From S2P Require Import Prelude.
From S2P Require Import GoSem.
From S2P Require Import FieldDecode.
From S2P Require Import PosCodec.
From S2P Require Import Binlog.
Set Default Proof Using "Type".

(** ** Types of values *)
Inductive gtype :=
  | TNil | TString | TBytes
  | TInt | TInt8 | TInt16 | TInt32 | TInt64
  | TUint | TUint8 | TUint16 | TUint32 | TUint64
  | TFloat32 | TFloat64 | TOther.

#[export] Instance gtype_eq_dec : EqDecision gtype.
Proof. solve_decision. Defined.

Definition signed_ok (w z : Z) : Prop := - 2 ^ (w - 1) <= z < 2 ^ (w - 1).
Definition unsigned_ok (w z : Z) : Prop := 0 <= z < 2 ^ w.

Inductive has_type : gval -> gtype -> Prop :=
  | ty_nil : has_type VNil TNil
  | ty_string s : has_type (VString s) TString
  | ty_bytes s : has_type (VBytes s) TBytes
  | ty_int z : signed_ok 64 z -> has_type (VInt z) TInt
  | ty_int8 z : signed_ok 8 z -> has_type (VInt8 z) TInt8
  | ty_int16 z : signed_ok 16 z -> has_type (VInt16 z) TInt16
  | ty_int32 z : signed_ok 32 z -> has_type (VInt32 z) TInt32
  | ty_int64 z : signed_ok 64 z -> has_type (VInt64 z) TInt64
  | ty_uint z : unsigned_ok 64 z -> has_type (VUint z) TUint
  | ty_uint8 z : unsigned_ok 8 z -> has_type (VUint8 z) TUint8
  | ty_uint16 z : unsigned_ok 16 z -> has_type (VUint16 z) TUint16
  | ty_uint32 z : unsigned_ok 32 z -> has_type (VUint32 z) TUint32
  | ty_uint64 z : unsigned_ok 64 z -> has_type (VUint64 z) TUint64
  | ty_float32 b : has_type (VFloat32 b) TFloat32
  | ty_float64 b : has_type (VFloat64 b) TFloat64
  | ty_other n : has_type (VOther n) TOther.

#[local] Hint Constructors has_type : core.
#[local] Hint Unfold signed_ok unsigned_ok : core.

(** An enum column, as the decoder tells it. *)
Definition enum_column (c : column) : bool := raw_prefix c (gostr "enum").
Definition set_column (c : column) : bool := raw_prefix c (gostr "set").

(** The type of a decoded field. *)
Definition decoded_type (c : column) (t : gtype) : gtype :=
  match t with
  | TInt8 | TInt16 | TInt32 => TInt64
  | TInt64 =>
      if enum_column c || set_column c then TString
      else if IsUnsigned c then TUint64 else TInt64
  | t => t
  end.

(** The number of an enum value has a name. *)
Definition named (c : column) (v : gval) : Prop :=
  match v with
  | VInt64 z => enum_column c = true -> 1 <= z <= len (EnumValues c)
  | _ => True
  end.

(** A field that is not a number of an enum always decodes, one that is when
    it has a name, and never to a value of another type. *)
Lemma fieldDecode_sound v c t :
  has_type v t -> named c v -> exists d, fieldDecode v c = Ret d /\ has_type d (decoded_type c t).
Proof.
  intros Hv Hn. destruct Hv; cbn [fieldDecode decoded_type]; try by eauto.
  - eexists. split; [done|]. constructor. unfold signed_ok in *. case_match; lia.
  - eexists. split; [done|]. constructor. unfold signed_ok in *. case_match; lia.
  - eexists. split; [done|]. constructor. unfold signed_ok in *. change (Z.shiftl 1 24) with 16777216.
    repeat case_match; lia.
  - cbn [named] in Hn. unfold enum_column, set_column in *. destruct (raw_prefix c (gostr "enum")) eqn:He; cbn [orb].
    + specialize (Hn eq_refl). unfold len in Hn.
      destruct (lookup_lt_is_Some_2 (EnumValues c) (Z.to_nat (z - 1))) as [s Es]; [lia|].
      exists (VString s). split; [|constructor].
      unfold index. destruct (Z.ltb_spec (z - 1) 0); [lia|]. by rewrite Es.
    + destruct (raw_prefix c (gostr "set")); [by eauto|]. destruct (IsUnsigned c); [|by eauto].
      eexists. split; [done|]. constructor. unfold unsigned_ok, u_wrap. apply Z.mod_pos_bound. lia.
Qed.

(** A number without a name makes it panic. *)
Lemma fieldDecode_unnamed v c : ~ named c v -> fieldDecode v c = Panic.
Proof.
  destruct v as [| | | | | | |z| | | | | | | |]; cbn [named]; intros Hn; try (by destruct Hn).
  assert (He : enum_column c = true) by (destruct (enum_column c); [done|exfalso; by apply Hn]).
  cbn [fieldDecode]. unfold enum_column in He. rewrite He. unfold index.
  destruct (Z.ltb_spec (z - 1) 0); [done|].
  rewrite lookup_ge_None_2; [done|]. unfold len in Hn. destruct (decide (z <= Z.of_nat (length (EnumValues c)))); [|lia].
  exfalso. apply Hn. lia.
Qed.

(** ** Rows *)

(** The columns of a table with the types of their values. *)
Definition table : Type := list (column * gtype).

(** A value fits a column: absent, or of its type. *)
Definition fits (c : column) (t : gtype) (v : gval) : Prop :=
  v = VNil \/ has_type v t /\ named c v.

Definition row_ok (sch : table) (row : list gval) : Prop :=
  forall k v c t, row !! k = Some v -> sch !! k = Some (c, t) -> fits c t v.

(** A decoded row: exactly the columns, each at its type or null. *)
Definition data_ok (sch : table) (m : gmap bytes gval) : Prop :=
  (forall k, is_Some (m !! k) <-> k ∈ map (fun x => Name x.1) sch) /\
  forall c t, (c, t) ∈ sch -> exists d, m !! Name c = Some d /\ (d = VNil \/ has_type d (decoded_type c t)).

Definition event_ok (sch : table) (d : row_data) : Prop :=
  match rd_event d with
  | Changed o n => data_ok sch o /\ data_ok sch n
  | Plain m => data_ok sch m
  end.

Lemma fits_decode c t v : fits c t v ->
  exists d, fieldDecode v c = Ret d /\ (d = VNil \/ has_type d (decoded_type c t)).
Proof.
  intros [->|[Hv Hn]]; [exists VNil; split; [done|by left]|].
  destruct (fieldDecode_sound v c t Hv Hn) as (d & E & Hd). exists d. auto.
Qed.

Lemma row_ok_tail c t sch v row : row_ok ((c, t) :: sch) (v :: row) -> fits c t v /\ row_ok sch row.
Proof. intros H. split; [by apply (H 0%nat)|]. intros k v' c' t'. apply (H (S k)). Qed.

Lemma row_ok_nil sch : row_ok sch [].
Proof. intros k v c t E. by rewrite lookup_nil in E. Qed.

Lemma decode_row_sound sch : forall row m,
  NoDup (map (fun x => Name x.1) sch) -> row_ok sch row ->
  exists m', decode_row (map fst sch) row m = Ret m' /\
    (forall k, is_Some (m' !! k) <-> is_Some (m !! k) \/ k ∈ map (fun x => Name x.1) sch) /\
    forall c t, (c, t) ∈ sch -> exists d, m' !! Name c = Some d /\ (d = VNil \/ has_type d (decoded_type c t)).
Proof.
  induction sch as [|[c t] sch IH]; intros row m Hnd Hrow; cbn [map fst].
  { exists m. split_and!; [by destruct row| |by intros c t ?%not_elem_of_nil].
    intros k. split; [by left|]. by intros [H|H%not_elem_of_nil]. }
  apply NoDup_cons in Hnd as [Hc Hnd]. cbn [fst] in *.
  assert (exists d row', (row = [] /\ d = VNil /\ row' = [] \/ exists v, row = v :: row' /\ fieldDecode v c = Ret d) /\
    row_ok sch row' /\ (d = VNil \/ has_type d (decoded_type c t))) as (d & row' & Hd & Hr & Ht).
  { destruct row as [|v row].
    - exists VNil, []. split_and!; [by left|apply row_ok_nil|by left].
    - apply row_ok_tail in Hrow as [Hf Hr]. destruct (fits_decode _ _ _ Hf) as (d & E & Ht).
      exists d, row. split_and!; [right; by exists v|done|done]. }
  destruct (IH row' (<[Name c := d]> m) Hnd Hr) as (m' & E & Hdom & Hty).
  assert (Em : decode_row (c :: map fst sch) row m = Ret m').
  { destruct Hd as [(-> & -> & ->)|(v & -> & Ed)]; cbn [decode_row]; [done|]. by rewrite Ed. }
  exists m'. split_and!; [done| |].
  - intros k. rewrite Hdom, elem_of_cons. destruct (decide (Name c = k)) as [<-|Hne].
    + rewrite lookup_insert_eq. split; [auto|]. left. by exists d.
    + rewrite lookup_insert_ne by done. split; [intros [?|?]; auto|]. intros [?|[->|?]]; [auto|done|auto].
  - intros c' t' [[= -> ->]|Hin]%elem_of_cons; [|by apply Hty].
    exists d. split; [|done]. rewrite (decode_row_dom _ _ _ _ E (Name c)); [apply lookup_insert_eq|].
    rewrite map_map. exact Hc.
Qed.

Lemma decode_row_data sch row : NoDup (map (fun x => Name x.1) sch) -> row_ok sch row ->
  exists m, decode_row (map fst sch) row ∅ = Ret m /\ data_ok sch m.
Proof.
  intros Hnd Hr. destruct (decode_row_sound sch row ∅ Hnd Hr) as (m & E & Hdom & Hty).
  exists m. split; [done|]. split; [|exact Hty]. intros k. rewrite Hdom, lookup_empty.
  split; [intros [[? ?]|?]; [done|auto]|auto].
Qed.

(** ** Events *)
Section Events.
Context (sch : table) (e : RowsEvent) (now : Z).
Context (Hcols : Columns e = map fst sch) (Hnames : NoDup (map (fun x => Name x.1) sch)).

Lemma other_events_sound rows : forall idx, Forall (row_ok sch) rows ->
  exists l, other_events e now idx rows = Ret l /\ Forall (event_ok sch) l /\ length l = length rows.
Proof using Hcols Hnames.
  induction rows as [|row rows IH]; intros idx Hr; cbn [other_events].
  { exists []. split_and!; [done|constructor|done]. }
  apply Forall_cons in Hr as [Hrow Hr]. rewrite Hcols.
  destruct (decode_row_data sch row Hnames Hrow) as (m & -> & Hm). cbn [obind].
  destruct (IH (idx + 1) Hr) as (l & -> & Hl & Hlen). cbn [obind].
  eexists. split_and!; [done|by constructor|]. cbn [length]. by rewrite Hlen.
Qed.

Lemma update_events_sound n : forall rows idx, (length rows <= n)%nat ->
  Nat.Even (length rows) -> Forall (row_ok sch) rows ->
  exists l, update_events e now idx rows = Ret l /\ Forall (event_ok sch) l /\ (2 * length l = length rows)%nat.
Proof using Hcols Hnames.
  induction n as [|n IH]; intros [|old [|new rows]] idx Hn Hev Hr; cbn [length update_events] in *; try lia;
    try (exists []; split_and!; [done|constructor|done]).
  { destruct Hev as [k Hk]. lia. }
  apply Forall_cons in Hr as [Ho Hr]. apply Forall_cons in Hr as [Hnew Hr]. rewrite Hcols.
  destruct (decode_row_data sch old Hnames Ho) as (m1 & -> & Hm1).
  destruct (decode_row_data sch new Hnames Hnew) as (m2 & -> & Hm2). cbn [obind].
  destruct (IH rows (idx + 1)) as (l & -> & Hl & Hlen); [lia| |done|].
  { destruct Hev as [k Hk]. exists (k - 1)%nat. lia. }
  cbn [obind]. eexists. split_and!; [done|by constructor|]. cbn [length]. lia.
Qed.
End Events.

(** What the library hands to [OnRow]: rows of the table, those of an update
    in pairs. *)
Definition delivers (sch : table) (e : RowsEvent) : Prop :=
  Columns e = map fst sch /\ NoDup (map (fun x => Name x.1) sch) /\ Forall (row_ok sch) (Rows e) /\
  (Action e = gostr "update" -> Nat.Even (length (Rows e))).

Lemma events_of_sound sch e now idx : delivers sch e ->
  exists l, events_of e now idx = Ret l /\ Forall (event_ok sch) l.
Proof.
  intros (Hc & Hnd & Hr & Hu). unfold events_of. case_bool_decide as Ha.
  - destruct (update_events_sound sch e now Hc Hnd _ (Rows e) idx (le_n _) (Hu Ha) Hr) as (l & El & Hl & _). eauto.
  - destruct (other_events_sound sch e now Hc Hnd (Rows e) idx Hr) as (l & El & Hl & _). eauto.
Qed.

Section OnRow.
Context {E : Type} (SendAll : list (bytes -> bytes -> M E bool)).
Context (onEvent : list (bytes -> bytes -> M E unit)) (Marshal : row_data -> option bytes).
Context (SendAll_ret : forall f t d e, f ∈ SendAll -> exists b, (f t d e).2 = Ret b).
Context (onEvent_ret : forall f t d e, f ∈ onEvent -> (f t d e).2 = Ret tt).

(** C10: The reader never fails on the rows of a table, and what it publishes has
    the types of the table: each event carries exactly the table's columns,
    every field is null or has the type its column decodes to, within the range
    of that type. *)
Theorem OnRow_typed sch e now (h : Binlog E) :
  delivers sch e -> has binlogIsExit h = false ->
  - 2 ^ 63 <= EventIndex h -> EventIndex h + len (Rows e) <= MaxInt64 ->
  exists l, OnRow SendAll onEvent Marshal e now h =
      (with_index (EventIndex h + len l) (with_env (foldl (publish SendAll onEvent Marshal) (env h) l) h), Ret tt) /\
    Forall (event_ok sch) l /\ events_of e now (EventIndex h) = Ret l.
Proof using SendAll_ret onEvent_ret.
  intros Hd Hx H0 H1. destruct (events_of_sound sch e now (EventIndex h) Hd) as (l & El & Hl).
  exists l. split_and!; [|done|done]. apply (OnRow_takes SendAll onEvent Marshal e now h l); try done.
  by apply takes_all_publish.
Qed.
End OnRow.

(** The decoder panics on exactly the enum numbers that name no value, and
    then the event is lost with the goroutine: the hypothesis above is needed. *)
Theorem fieldDecode_panics v c t : has_type v t -> (fieldDecode v c = Panic <-> ~ named c v).
Proof.
  intros Hv. split; [|apply fieldDecode_unnamed].
  intros Hp Hn. destruct (fieldDecode_sound v c t Hv Hn) as (d & E & _). congruence.
Qed.

(** ** Instances *)
Section RowTypesInstances.
#[local] Definition orders : table :=
  [(mkColumn (gostr "id") (gostr "int(10) unsigned") true [] [], TInt32);
   (mkColumn (gostr "state") (gostr "enum('new','sent')") false [gostr "new"; gostr "sent"] [], TInt64)].
#[local] Definition changed_orders : RowsEvent :=
  mkRowsEvent (gostr "db") (gostr "orders") (map fst orders) (gostr "update")
    [[VInt32 (-1); VInt64 1]; [VInt32 (-1); VInt64 2]].
#[local] Definition idle : Binlog (list bytes) := mkBinlog 0 [] 4 (gostr "mysql-bin.000059") 0 [] 0 0 0 [] [] 0 [].

Lemma changed_orders_delivered : delivers orders changed_orders.
Proof.
  split_and!; [done| | |].
  - repeat constructor; set_solver.
  - assert (Hrow : forall z, 1 <= z <= 2 -> row_ok orders [VInt32 (-1); VInt64 z]).
    { intros z Hz [|[|k]] v c t; simpl; intros [= <-] [= <- <-]; right;
        (split; [constructor; unfold signed_ok; lia|cbn [named]]); [done|].
      intros _. exact Hz. }
    apply Forall_cons; split; [apply Hrow; lia|]. apply Forall_singleton, Hrow. lia.
  - intros _. by exists 1%nat.
Qed.

#[local] Definition keep : bytes -> bytes -> M (list bytes) bool := fun t d l => (l ++ [t ++ d], Ret true).

Lemma OnRow_typed_witness :
  exists l, OnRow [keep] [] (fun d => Some (rd_event_type d)) changed_orders 0 idle =
      (with_index (0 + len l) (with_env (foldl (publish [keep] [] (fun d => Some (rd_event_type d))) [] l) idle), Ret tt) /\
    Forall (event_ok orders) l /\ events_of changed_orders 0 0 = Ret l.
Proof.
  apply (OnRow_typed [keep] [] (fun d => Some (rd_event_type d))); try done.
  - intros f t d e ->%list_elem_of_singleton. by exists true.
  - by intros f t d e ?%not_elem_of_nil.
  - apply changed_orders_delivered.
Defined.

Lemma fieldDecode_panics_witness :
  fieldDecode (VInt64 0) (mkColumn (gostr "s") (gostr "enum('a')") false [gostr "a"] []) = Panic <->
  ~ named (mkColumn (gostr "s") (gostr "enum('a')") false [gostr "a"] []) (VInt64 0).
Proof. apply (fieldDecode_panics _ _ TInt64). constructor. unfold signed_ok. lia. Defined.
End RowTypesInstances.
