(* ===== verification/Documents.v ===== *)
(** * The documents of the rows

    What [json.Marshal] makes of a row of the binlog ([notify] of
    [src/binlog/binlog_handler.go]), and what the follower's agent and the
    subscriber's client read in it with [json.Unmarshal]
    ([src/agent/agent.go], [src/client/tcp.go]).  How a value of a type the
    binlog reader does not look at is printed is a parameter. *)
From stdpp Require Import sorting.
From S2P Require Import Prelude.
From S2P Require Import GoSem.
From S2P Require Import Utf8.
From S2P Require Import Numbers.
From S2P Require Import FieldDecode.
From S2P Require Import Binlog.
From S2P Require Import RowTypes.
From S2P Require Import Json.
Set Default Proof Using "Type".

(** ** Base64 ([[]byte] values) *)
Definition b64_digit (z : Z) : byte :=
  Z_byte (if z <? 26 then 65 + z else if z <? 52 then 71 + z else if z <? 62 then z - 4 else if z =? 62 then 43 else 47).
Definition b64_pad : byte := Z_byte 61.
Fixpoint base64 (s : bytes) : bytes :=
  match s with
  | [] => []
  | [a] => let a := byte_Z a in [b64_digit (a / 4); b64_digit (a mod 4 * 16); b64_pad; b64_pad]
  | [a; b] =>
      let a := byte_Z a in let b := byte_Z b in
      [b64_digit (a / 4); b64_digit (a mod 4 * 16 + b / 16); b64_digit (b mod 16 * 4); b64_pad]
  | a :: b :: c :: s =>
      let a := byte_Z a in let b := byte_Z b in let c := byte_Z c in
      [b64_digit (a / 4); b64_digit (a mod 4 * 16 + b / 16); b64_digit (b mod 16 * 4 + c / 64); b64_digit (c mod 64)]
        ++ base64 s
  end.

(** Its text is ASCII. *)
Lemma b64_digit_ascii z : 0 <= z < 64 -> byte_Z (b64_digit z) < 128.
Proof. intros Hz. unfold b64_digit. rewrite byte_Z_Z_byte. repeat case_match; rewrite Z.mod_small; lia. Qed.
Lemma base64_ascii n : forall s, (length s <= n)%nat -> Forall (fun b => byte_Z b < 128) (base64 s).
Proof.
  induction n as [|n IH]; intros [|a [|b [|c s]]] Hn; cbn [length base64] in *; try lia; try by constructor.
  all: repeat apply Forall_cons_2; try apply IH; try done; try lia.
  all: try apply b64_digit_ascii.
  all: repeat match goal with |- context [byte_Z ?x] =>
         lazymatch goal with H : 0 <= byte_Z x < 256 |- _ => fail | _ => pose proof (byte_Z_range x) end end.
  all: Z.div_mod_to_equations; lia.
Qed.

(** ** Maps, their members by name *)
Fixpoint bytes_le (a b : bytes) : bool :=
  match a, b with
  | [], _ => true
  | _, [] => false
  | x :: a, y :: b => (byte_Z x <? byte_Z y) || ((byte_Z x =? byte_Z y) && bytes_le a b)
  end.
Definition key_le {A} (x y : bytes * A) : Prop := bytes_le x.1 y.1 = true.
#[export] Instance key_le_dec {A} : RelDecision (@key_le A).
Proof. intros x y. unfold key_le. apply _. Defined.
#[export] Instance key_le_total {A} : Total (@key_le A).
Proof.
  intros x y. unfold key_le. generalize x.1, y.1. intros a. induction a as [|c a IH]; intros [|d b]; cbn; auto.
  destruct (IH b) as [H|H]; rewrite H.
  - destruct (Z.lt_trichotomy (byte_Z c) (byte_Z d)) as [?|[?|?]]; [left|left|right]; lia.
  - destruct (Z.lt_trichotomy (byte_Z c) (byte_Z d)) as [?|[?|?]]; [left|right|right]; lia.
Qed.
Definition by_key {A} (m : gmap bytes A) : list (bytes * A) := merge_sort key_le (map_to_list m).

Lemma by_key_perm {A} (m : gmap bytes A) : by_key m ≡ₚ map_to_list m.
Proof. apply merge_sort_Permutation. Qed.
Lemma by_key_sorted {A} (m : gmap bytes A) : Sorted key_le (by_key m).
Proof. apply Sorted_merge_sort. apply _. Qed.

Lemma members_rev {A} (l : list (bytes * A)) : members l = list_to_map (reverse l).
Proof.
  induction l as [|kv l IH] using rev_ind; [done|]. unfold members in *. rewrite foldl_app, IH, reverse_app. by destruct kv.
Qed.
(** A map is made of its members, in whatever order. *)
Lemma members_map {A} (l : list (bytes * A)) m : l ≡ₚ map_to_list m -> members l = m.
Proof.
  intros Hl. rewrite members_rev. rewrite <- (list_to_map_to_list m). apply list_to_map_proper.
  - rewrite reverse_Permutation, Hl. apply NoDup_fst_map_to_list.
  - by rewrite reverse_Permutation.
Qed.

(** ** What is marshalled *)
Section Marshalling.
Variable other : nat -> option json.

Definition json_of_gval (v : gval) : option json :=
  match v with
  | VNil => Some JNull
  | VString s => Some (JString s)
  | VBytes s => Some (JString (base64 s))
  | VInt z | VInt8 z | VInt16 z | VInt32 z | VInt64 z
  | VUint z | VUint8 z | VUint16 z | VUint32 z | VUint64 z => Some (JNumber (int_lit z))
  | VFloat32 b => JNumber <$> encode_float f32 (2 ^ 31 <=? b) (b mod 2 ^ 31)
  | VFloat64 b => JNumber <$> encode_float f64 (2 ^ 63 <=? b) (b mod 2 ^ 63)
  | VOther n => other n
  end.
(** A [map[string]interface{}] of columns. *)
Definition json_of_map (m : gmap bytes gval) : option json :=
  JObject <$> mapM (fun kv : bytes * gval => pair kv.1 <$> json_of_gval kv.2) (by_key m).
Definition json_of_event (ev : event_data) : option json :=
  match ev with
  | Changed o n =>
      match json_of_map o, json_of_map n with
      | Some o, Some n => Some (JObject [(gostr "new_data", n); (gostr "old_data", o)])
      | _, _ => None
      end
  | Plain m => json_of_map m
  end.
Definition members_of_row (d : row_data) : option (list (bytes * json)) :=
  (fun data =>
    [(gostr "database", JString (rd_database d));
     (gostr "event", JObject [(gostr "data", data)]);
     (gostr "event_index", JNumber (int_lit (rd_event_index d)));
     (gostr "event_type", JString (rd_event_type d));
     (gostr "table", JString (rd_table d));
     (gostr "time", JNumber (int_lit (rd_time d)))]) <$> json_of_event (rd_event d).
(** [json.Marshal] of the row; [None]: it has a value that cannot be printed. *)
Definition Marshal (d : row_data) : option bytes :=
  (fun l => text (print (JObject l))) <$> members_of_row d.
End Marshalling.

Example marshal_example :
  Marshal (fun _ => None) (mkRowData (gostr "db") (gostr "insert") 1540000000 (gostr "users") 7
    (Plain (<[gostr "name" := VString (gostr "a<b")]> (<[gostr "id" := VInt64 (-3)]>
      (<[gostr "raw" := VBytes (gostr "hi!?")]> {[gostr "x" := VNil]}))))) =
  Some (text (concat [asc (gostr "{"); print_string (gostr "database"); asc (gostr ":"); print_string (gostr "db");
     asc (gostr ","); print_string (gostr "event"); asc (gostr ":{"); print_string (gostr "data"); asc (gostr ":{");
     print_string (gostr "id"); asc (gostr ":-3,"); print_string (gostr "name"); asc (gostr ":"); [quote];
     asc (gostr "a\u003cb"); [quote]; asc (gostr ",");
     print_string (gostr "raw"); asc (gostr ":"); print_string (gostr "aGkhPw=="); asc (gostr ",");
     print_string (gostr "x"); asc (gostr ":null}},"); print_string (gostr "event_index"); asc (gostr ":7,");
     print_string (gostr "event_type"); asc (gostr ":"); print_string (gostr "insert"); asc (gostr ",");
     print_string (gostr "table"); asc (gostr ":"); print_string (gostr "users"); asc (gostr ",");
     print_string (gostr "time"); asc (gostr ":1540000000}")])).
Proof. vm_compute. reflexivity. Qed.

(** ** What is read *)
Section Reading.
Variable other : nat -> option json.
(** What other values are printed as is JSON. *)
Hypothesis other_ok : forall n v, other n = Some v -> value_ok v.

(** A field, as the reader of the document sees it. *)
Definition seen (v : gval) : iface :=
  match json_of_gval other v with Some j => interface (normal j) | None => INil end.
Definition seen_event (ev : event_data) : iface :=
  match ev with
  | Changed o n => IMap {[ gostr "new_data" := IMap (seen <$> n); gostr "old_data" := IMap (seen <$> o) ]}
  | Plain m => IMap (seen <$> m)
  end.
Definition seen_int (z : Z) : iface := interface (JNumber (int_lit z)).
Definition row_map (d : row_data) : gmap bytes iface :=
  {[ gostr "database" := IString (valid_string (rd_database d));
     gostr "event" := IMap {[ gostr "data" := seen_event (rd_event d) ]};
     gostr "event_index" := seen_int (rd_event_index d);
     gostr "event_type" := IString (valid_string (rd_event_type d));
     gostr "table" := IString (valid_string (rd_table d));
     gostr "time" := seen_int (rd_time d) ]}.

(** Some number of the document is too large for a [float64]. *)
Definition row_overflows (d : row_data) : bool :=
  match members_of_row other d with Some l => overflows (JObject l) | None => false end.

(** The columns of an event have names in UTF-8. *)
Definition map_names_valid (m : gmap bytes gval) : Prop := map_Forall (fun k _ => ValidString k) m.
Definition columns_valid (ev : event_data) : Prop :=
  match ev with Changed o n => map_names_valid o /\ map_names_valid n | Plain m => map_names_valid m end.

Lemma json_of_gval_ok v j : json_of_gval other v = Some j -> value_ok j.
Proof using other_ok.
  destruct v; cbn [json_of_gval]; try (by intros [= <-]; try apply int_lit_ok); try apply other_ok;
    intros (x & E & ->)%fmap_Some; (eapply encode_float_ok; [| |exact E]; [by apply Z.mod_pos_bound|done]).
Qed.

#[local] Abbreviation json_fields m :=
  (mapM (fun kv : bytes * gval => pair kv.1 <$> json_of_gval other kv.2) (by_key m)).
Lemma json_fields_members m l : json_fields m = Some l ->
  Forall (fun kv : bytes * json => value_ok kv.2) l /\
  (map_names_valid m ->
    members (map (fun kv => (valid_string kv.1, interface (normal kv.2))) l) = seen <$> m).
Proof using other_ok.
  intros Hl. apply mapM_Some in Hl. split.
  - induction Hl as [|kv kj m' l (j & Ej & ->)%fmap_Some _ IH]; constructor; [|done]. by eapply json_of_gval_ok.
  - intros Hv. apply members_map. rewrite map_to_list_fmap, <- by_key_perm.
    assert (Hn : Forall (fun kv : bytes * gval => ValidString kv.1) (by_key m)).
    { rewrite by_key_perm. apply Forall_forall. intros [k v] Hk%elem_of_map_to_list. exact (Hv k v Hk). }
    clear Hv. induction Hl as [|[k v] kj m' l (j & Ej & ->)%fmap_Some _ IH]; [done|].
    apply Forall_cons in Hn as [Hk Hn]. cbn [map fmap list_fmap fst snd prod_map] in *. unfold prod_map at 1.
    cbn [fst snd]. rewrite (IH Hn), valid_string_id by done. unfold seen. by rewrite Ej.
Qed.

Lemma json_of_map_seen m j : json_of_map other m = Some j ->
  value_ok j /\ (map_names_valid m -> interface (normal j) = IMap (seen <$> m)).
Proof using other_ok.
  intros (l & El & ->)%fmap_Some. destruct (json_fields_members m l El) as [Hok Hs]. split.
  - by apply value_ok_object.
  - intros Hv. rewrite <- (Hs Hv). cbn [normal interface]. by rewrite map_map.
Qed.

Lemma json_of_event_seen ev j : json_of_event other ev = Some j ->
  value_ok j /\ (columns_valid ev -> interface (normal j) = seen_event ev).
Proof using other_ok.
  destruct ev as [o n|m]; cbn [json_of_event columns_valid seen_event]; [|apply json_of_map_seen].
  destruct (json_of_map other o) as [jo|] eqn:Eo; [|done]. destruct (json_of_map other n) as [jn|] eqn:En; [|done].
  intros [= <-]. apply json_of_map_seen in Eo as [Ho So], En as [Hn Sn]. split; [by split_and!|].
  intros [Vo Vn]. rewrite <- So, <- Sn by done. cbn [normal interface map fst snd].
  rewrite !valid_string_id by (by apply ascii_valid; repeat constructor). reflexivity.
Qed.

(** The document of a row decodes to the row's map. *)
Lemma Unmarshal_Marshal d b : Marshal other d = Some b -> columns_valid (rd_event d) ->
  Unmarshal b = Ret (Some (row_map d), if row_overflows d then Some TypeError else None).
Proof using other_ok.
  unfold Marshal, row_overflows. intros (l & El & ->)%fmap_Some Hc. rewrite El.
  unfold members_of_row in El. apply fmap_Some in El as (j & Ej & ->).
  apply json_of_event_seen in Ej as [Hj Sj]. specialize (Sj Hc).
  rewrite Unmarshal_print; cycle 1.
  { apply value_ok_object. repeat apply Forall_cons_2; try done; apply int_lit_ok. }
  do 3 f_equal. cbn [map fst snd normal interface]. rewrite Sj.
  rewrite !valid_string_id by (by apply ascii_valid; repeat constructor). reflexivity.
Qed.

(** ** Rows of typed tables *)

(** Types that JSON has no trouble with. *)
Definition plain_type (t : gtype) : bool :=
  match t with TFloat32 | TFloat64 | TOther => false | _ => true end.
Definition prints (v : gval) : Prop := exists j, json_of_gval other v = Some j /\ overflows j = false.

Lemma int_prints z : Z.abs z < 2 ^ 65 -> overflows (JNumber (int_lit z)) = false.
Proof.
  intros Hz. cbn [overflows]. destruct (ParseFloat_int_some z) as [b ->]; [lia|]. by apply bool_decide_eq_false_2.
Qed.
Lemma typed_prints v t : has_type v t -> plain_type t = true -> prints v.
Proof.
  intros Hv Ht. destruct Hv as [| | |z H|z H|z H|z H|z H|z H|z H|z H|z H|z H| | |]; try done; eexists;
    (split; [reflexivity|]); try reflexivity; apply int_prints; unfold signed_ok, unsigned_ok in H; lia.
Qed.
Lemma decoded_plain c t : plain_type t = true -> plain_type (decoded_type c t) = true.
Proof. destruct t; try done; cbn [decoded_type]; by repeat case_match. Qed.

Lemma existsb_Forall {A} (f : A -> bool) l : Forall (fun x => f x = false) l -> existsb f l = false.
Proof. induction 1 as [|x l Hx _ IH]; [done|]. cbn. by rewrite Hx. Qed.

Lemma map_prints m : map_Forall (fun _ v => prints v) m ->
  exists j, json_of_map other m = Some j /\ overflows j = false.
Proof.
  intros Hm. assert (Hl : Forall (fun kv : bytes * gval => prints kv.2) (by_key m)).
  { rewrite by_key_perm. apply Forall_forall. intros [k v] Hk%elem_of_map_to_list. exact (Hm k v Hk). }
  assert (exists l, json_fields m = Some l /\ Forall (fun kj : bytes * json => overflows kj.2 = false) l) as (l & El & Hf).
  { induction Hl as [|[k v] l (j & Ej & Hj) _ (l' & El & Hf)]; [by exists []|]. exists ((k, j) :: l'). split; [|by constructor].
    cbn [mapM fst snd]. cbn [snd] in Ej. rewrite Ej. cbn. by rewrite El. }
  exists (JObject l). split; [unfold json_of_map; by rewrite El|]. cbn [overflows]. by apply existsb_Forall.
Qed.

Definition plain_table (sch : table) : Prop :=
  Forall (fun x : column * gtype => plain_type x.2 = true /\ ValidString (Name x.1)) sch.

Lemma data_prints sch m : plain_table sch -> data_ok sch m ->
  map_Forall (fun _ v => prints v) m /\ map_names_valid m.
Proof.
  intros Hp [Hdom Hty]. unfold plain_table in Hp. rewrite Forall_forall in Hp.
  assert (H : forall k v, m !! k = Some v -> prints v /\ ValidString k).
  { intros k v Ek. pose proof (proj1 (Hdom k) (mk_is_Some _ _ Ek)) as Hk.
    apply list_elem_of_fmap in Hk as ([c t] & -> & Hin). destruct (Hp _ Hin) as [Ht Hc]. split; [|done].
    destruct (Hty c t Hin) as (d & Ed & Hd). cbn [fst] in Ek. rewrite Ek in Ed. injection Ed as <-.
    destruct Hd as [->|Hd]; [by exists JNull|]. by eapply typed_prints, decoded_plain. }
  split; intros k v Ek; by destruct (H k v Ek).
Qed.

Lemma event_prints sch d : plain_table sch -> event_ok sch d ->
  columns_valid (rd_event d) /\ exists j, json_of_event other (rd_event d) = Some j /\ overflows j = false.
Proof.
  intros Hp Hd. unfold event_ok in Hd. destruct (rd_event d) as [o n|m]; cbn [columns_valid json_of_event].
  - destruct Hd as [Ho Hn]. apply (data_prints sch) in Ho as [Ho No], Hn as [Hn Nn]; [|done..].
    destruct (map_prints o Ho) as (jo & -> & Fo), (map_prints n Hn) as (jn & -> & Fn). split; [done|].
    eexists. split; [reflexivity|]. cbn [overflows existsb snd]. by rewrite Fo, Fn.
  - apply (data_prints sch) in Hd as [Hm Nm]; [|done]. split; [done|]. by apply map_prints.
Qed.

(** Every row of such a table is printed, and read back without an error. *)
Lemma row_readable sch d : plain_table sch -> event_ok sch d ->
  signed_ok 64 (rd_event_index d) -> signed_ok 64 (rd_time d) ->
  columns_valid (rd_event d) /\ row_overflows d = false /\ is_Some (Marshal other d).
Proof.
  intros Hp Hd Hi Ht. destruct (event_prints sch d Hp Hd) as (Hc & j & Ej & Hj). split; [done|].
  unfold row_overflows, Marshal, members_of_row. rewrite Ej. cbn [fmap option_fmap option_map].
  split; [|by eexists]. cbn [overflows existsb snd]. rewrite Hj.
  change (bool_decide (ParseFloat (int_lit ?z) = None)) with (overflows (JNumber (int_lit z))).
  unfold signed_ok in *. by rewrite !int_prints by lia.
Qed.

(** An integer is seen as the nearest float: exactly, up to 2^53. *)
Lemma seen_int_exact z : - 2 ^ 53 <= z <= 2 ^ 53 -> exists b, seen_int z = IFloat b /\ float_int b = Some z.
Proof.
  intros Hz. destruct (ParseFloat_int z Hz) as (b & E & Hb). exists b. split; [|done]. unfold seen_int. cbn [interface].
  by rewrite E.
Qed.
End Reading.

(** ** What the reader can make of a row *)
Section Carried.
Variable other : nat -> option json.

(** What comes of a value of a column: [nil] and text as they are - ill-formed
    UTF-8 replaced - binary strings in base64, integers of either sign up to
    2^53 exactly. *)
Definition carries (v : gval) (x : iface) : Prop :=
  match v with
  | VNil => x = INil
  | VString s => x = IString (valid_string s)
  | VBytes s => x = IString (base64 s)
  | VInt z | VInt8 z | VInt16 z | VInt32 z | VInt64 z
  | VUint z | VUint8 z | VUint16 z | VUint32 z | VUint64 z =>
      - 2 ^ 53 <= z <= 2 ^ 53 -> exists b, x = IFloat b /\ float_int b = Some z
  | VFloat32 _ | VFloat64 _ | VOther _ => True
  end.
(** Every column, and no other. *)
Definition carried (cols : gmap bytes gval) (x : iface) : Prop :=
  exists m, x = IMap m /\ dom m = dom cols /\
    forall k v, cols !! k = Some v -> exists y, m !! k = Some y /\ carries v y.
Definition event_carried (ev : event_data) (x : iface) : Prop :=
  match ev with
  | Plain cols => carried cols x
  | Changed o n => exists xo xn,
      x = IMap {[ gostr "new_data" := xn; gostr "old_data" := xo ]} /\ carried o xo /\ carried n xn
  end.
Record row_carried (d : row_data) (m : gmap bytes iface) : Prop := {
  rc_database : m !! gostr "database" = Some (IString (valid_string (rd_database d)));
  rc_table : m !! gostr "table" = Some (IString (valid_string (rd_table d)));
  rc_event_type : m !! gostr "event_type" = Some (IString (valid_string (rd_event_type d)));
  rc_event_index : exists x, m !! gostr "event_index" = Some x /\ carries (VInt64 (rd_event_index d)) x;
  rc_time : exists x, m !! gostr "time" = Some x /\ carries (VInt64 (rd_time d)) x;
  rc_event : exists x, m !! gostr "event" = Some (IMap {[ gostr "data" := x ]}) /\ event_carried (rd_event d) x
}.

Lemma seen_carries v : carries v (seen other v).
Proof.
  unfold seen. destruct v; cbn [carries json_of_gval normal interface]; try done; try (intros Hz; by apply seen_int_exact).
  f_equal. by eapply valid_string_id, ascii_valid, base64_ascii.
Qed.
Lemma seen_carried cols : carried cols (IMap (seen other <$> cols)).
Proof.
  eexists. split; [reflexivity|]. split; [by rewrite dom_fmap_L|]. intros k v Hk. exists (seen other v).
  rewrite lookup_fmap, Hk. split; [done|]. apply seen_carries.
Qed.
Lemma row_map_carried d : row_carried d (row_map other d).
Proof.
  split; try (eexists; split; [reflexivity|]); try reflexivity; [exact (seen_int_exact (rd_event_index d))|exact (seen_int_exact (rd_time d))|].
  destruct (rd_event d) as [o n|m]; cbn [event_carried seen_event]; [|apply seen_carried].
  eexists _, _. split; [reflexivity|]. split; apply seen_carried.
Qed.
End Carried.

Lemma seen_int_collides : seen_int (2 ^ 53) = seen_int (2 ^ 53 + 1).
Proof. vm_compute. reflexivity. Qed.
