(* ===== verification/Cluster.v ===== *)
(** * A cluster: the leader's position and events on the followers

    The wiring of [src/main.go]: the binlog reader ([Binlog.v]) with the
    subscription service ([SubService.v]) and the agent's server
    ([AgentServer.v]) as its callbacks' state, and the agent's client
    ([AgentClient.v]) with the reader as its callbacks' state.  One copycat
    process is a [process]. *)
From S2P Require Import Prelude.
From S2P Require Import GoSem.
From S2P Require Import Framing.
From S2P Require Import Frame.
From S2P Require Import SubNode.
From S2P Require Import SubGroups.
From S2P Require Import SubService.
From S2P Require Import Codec.
From S2P Require Import AgentRecv.
From S2P Require Import AgentServer.
From S2P Require Import AgentClient.
From S2P Require Import AgentService.
From S2P Require Import PosCodec.
From S2P Require Import FieldDecode.
From S2P Require Import Binlog.
Set Default Proof Using "Type".

(** ** A process *)

(** What the reader's callbacks act on, the reader, the agent's client with
    its receive buffer. *)
Definition outlets : Type := TCPService * server.
Definition reader : Type := Binlog outlets.
Definition process : Type := slice byte * Client reader.

Definition on_service {A} (m : M TCPService A) : M outlets A := fun x =>
  (((m x.1).1, x.2), (m x.1).2).
Definition on_agent {A} (m : M server A) : M outlets A := fun x =>
  ((x.1, (m x.2).1), (m x.2).2).

Section Wiring.
Variable growcap : nat -> nat -> nat.
Variable Unmarshal : bytes -> option (gmap bytes jval).
Variable Marshal : row_data -> option bytes.
(** How much of a position the file system writes. *)
Variable disk : bytes -> nat.

(** [blog.RegisterService(tcpService)] *)
Definition blog_SendAll : list (bytes -> bytes -> M outlets bool) :=
  [fun table data => on_service (SendAll table data)].
(** [binlog.PosChange] and [binlog.OnEvent] *)
Definition blog_onPosChanges : list (bytes -> M outlets unit) :=
  [fun data => on_agent (Sync true (Pack CMD_POS data))].
Definition blog_onEvent : list (bytes -> bytes -> M outlets unit) :=
  [fun table data => on_agent (Sync true (Pack CMD_EVENT data))].

(** The agent with the options and the late bindings of [main]. *)
Definition agent_SendAll (table data : bytes) : M reader bool := in_env (on_service (SendAll table data)).
Definition agent_SavePosition (r : bytes) : M reader unit :=
  SaveBinlogPosition blog_onPosChanges r (disk r).
Definition agent : AgentService reader :=
  mkAgentService true [Binlog.OnLeader] [agent_SendAll] [agent_SavePosition].

(** Those are the options applied to an enabled agent. *)
Lemma agent_wiring h :
  AgentService.OnLeader Binlog.OnLeader
    (OnPos agent_SavePosition (OnRaw (fun d => in_env (on_service (SendRaw d)))
      (AgentService.OnEvent agent_SendAll (NewAgentServer true)))) h = (h, Ret agent).
Proof. done. Qed.

Definition agent_callbacks : list (bytes -> M reader unit) := [onClientMessage Unmarshal agent].

(** A process reads from its connection to the leader. *)
Definition read : bytes -> M process unit := client_onMessage agent_callbacks growcap.

(** An election result, and the turns that start the reader on it. *)
Definition elected (dial : bytes -> option goerr) (c : Client reader) : Client reader :=
  (on_selected agent true [] dial c).1.
Definition reader_turns (h : reader) : reader :=
  run (on_binlog_event blog_SendAll [] blog_onEvent blog_onPosChanges Marshal) [BStartTurn; BRunner] h.
End Wiring.

(** ** The leader's side *)
Section Leader.
Variable growcap : nat -> nat -> nat.
Implicit Types (h : reader) (sv : server) (p : Position).

Definition pos_packet (p : Position) (i : Z) : bytes := Pack CMD_POS (packPos (PosName p) (Pos p) i).

(** The reader may write its position, the agent's server keeps its
    invariant. *)
Record leading h : Prop := {
  ld_running : has binlogIsExit h = false;
  ld_opened : has cacheHandlerIsOpened h = true;
  ld_server : server_ok (env h).2
}.

(** Every follower's queue has room for [k] messages. *)
Definition room sv (k : Z) : Prop := forall i n,
  i ∈ elems (clients sv) -> nodes sv !! i = Some n -> len (sendQueue n) + k <= tcpMaxSendQueue.

Lemma room_has_room sv k : 0 < k -> room sv k -> forall i, i ∈ elems (clients sv) -> has_room sv i.
Proof. intros Hk Hr i Hi n En. specialize (Hr i n Hi En). lia. Qed.

(** A broadcast through the agent. *)
Lemma sync_eq sv d :
  server_ok sv -> room sv 1 ->
  exists sv', Sync true d sv = (sv', Ret tt) /\ server_ok sv' /\ clients sv' = clients sv /\
    forall i n, i ∈ elems (clients sv) -> nodes sv !! i = Some n ->
      nodes sv' !! i = Some (with_queue (sendQueue n ++ [Encode 1 d]) n).
Proof.
  intros Hsv Hr.
  destruct (broadcast_list 1 d (elems (clients sv)) sv Hsv (ok_nodup sv Hsv)) as (sv' & E & Hok & Ec & _ & Hn).
  { intros i Hi. split; [|by apply (room_has_room sv 1)].
    apply (ok_clients sv Hsv) in Hi as (n & En & _). by exists n. }
  exists sv'. split_and!; [|done|done|].
  - unfold Sync, Broadcast. cbn [negb]. erewrite bind_ret by reflexivity. exact E.
  - intros i n Hi En. rewrite Hn, decide_True, En by done. cbn. unfold queued.
    apply (ok_clients sv Hsv) in Hi as (m & Em & Ho). assert (m = n) as -> by congruence. by rewrite Ho.
Qed.

(** One position. *)
Lemma leader_step p wn h :
  leading h -> room (env h).2 1 ->
  exists h', OnPosSynced blog_onPosChanges p wn h = (h', Ret tt) /\ leading h' /\
    EventIndex h' = EventIndex h /\ (env h').1 = (env h).1 /\ clients (env h').2 = clients (env h).2 /\
    forall i n, i ∈ elems (clients (env h).2) -> nodes (env h).2 !! i = Some n ->
      nodes (env h').2 !! i = Some (with_queue (sendQueue n ++ [Encode 1 (pos_packet p (EventIndex h))]) n).
Proof.
  intros [Hx Ho Hsv] Hr.
  destruct (sync_eq (env h).2 (pos_packet p (EventIndex h)) Hsv Hr) as (sv' & E & Hok & Ec & Hn).
  set (r := packPos (PosName p) (Pos p) (EventIndex h)).
  set (h1 := with_env ((env h).1, sv') (with_file (write_at r wn (cacheFile h)) h)).
  exists (with_last (PosName p) (Pos p) h1). split_and!; [|by split|done|done|done|done].
  unfold OnPosSynced. erewrite bind_ret by reflexivity. cbn [id]. fold r.
  rewrite (bind_ret _ _ h h1 tt); [done|].
  unfold saveBinlogPositionCache. erewrite bind_ret by reflexivity. cbn [id]. rewrite Hx, Ho.
  erewrite bind_ret by reflexivity. unfold blog_onPosChanges. cbn [range].
  rewrite (bind_ret _ _ _ h1 tt); [done|]. unfold in_env, on_agent. cbn [env with_file].
  unfold r. fold (pos_packet p (EventIndex h)). by rewrite E.
Qed.

(** Any number of positions: every follower is queued all of them, in order. *)
Lemma leader_steps wn ps : forall h,
  leading h -> room (env h).2 (len ps) ->
  exists h', range ps (fun p => OnPosSynced blog_onPosChanges p wn) h = (h', Ret tt) /\
    EventIndex h' = EventIndex h /\
    forall i n, i ∈ elems (clients (env h).2) -> nodes (env h).2 !! i = Some n ->
      nodes (env h').2 !! i =
        Some (with_queue (sendQueue n ++ map (fun p => Encode 1 (pos_packet p (EventIndex h))) ps) n).
Proof.
  induction ps as [|p ps IH]; intros h Hh Hr.
  { exists h. split_and!; [done|done|]. intros i n _ ->. f_equal. cbn [map]. rewrite app_nil_r. by destruct n. }
  unfold room, len in Hr. cbn [length] in Hr.
  destruct (leader_step p wn h Hh) as (h1 & E1 & Hh1 & Ei & _ & Ec & Hn1).
  { intros i n Hi En. specialize (Hr i n Hi En). unfold len. lia. }
  destruct (IH h1 Hh1) as (h2 & E2 & Ei2 & Hn2).
  { intros i n Hi En. rewrite Ec in Hi.
    destruct (proj1 (ok_clients _ (ld_server h Hh) i) Hi) as (m & Em & _).
    rewrite (Hn1 i m Hi Em) in En. injection En as <-. specialize (Hr i m Hi Em).
    cbn [sendQueue with_queue]. unfold len in *. rewrite length_app. cbn [length]. lia. }
  exists h2. cbn [range]. rewrite (bind_ret _ _ _ _ _ E1). split_and!; [done|congruence|].
  intros i n Hi En. rewrite <- Ec in Hi. rewrite Ec in Hi.
  rewrite (Hn2 i _ ltac:(by rewrite Ec) (Hn1 i n Hi En)). f_equal. unfold with_queue. cbn [sendQueue conn queueClosed recvBuf status connClosed writes map].
  by rewrite <- app_assoc, Ei.
Qed.
End Leader.

(** ** The follower's side *)
Section Follower.
Variable growcap : nat -> nat -> nat.
Variable Unmarshal : bytes -> option (gmap bytes jval).
Variable disk : bytes -> nat.
Implicit Types (h : reader) (c : Client reader) (p : Position).
#[local] Abbreviation callbacks := (agent_callbacks Unmarshal disk).

(** The reader may write its position, and nobody follows this process. *)
Record following h : Prop := {
  fl_running : has binlogIsExit h = false;
  fl_opened : has cacheHandlerIsOpened h = true;
  fl_alone : elems (clients (env h).2) = []
}.

Definition position_ok (i : Z) (p : Position) : Prop := pos_ok (PosName p) (Pos p) i.

(** The reader after the leader's position. *)
Definition follow (i : Z) h p : reader :=
  let r := packPos (PosName p) (Pos p) i in
  with_file (write_at r (disk r) (cacheFile h)) (with_index i (with_last (PosName p) (Pos p) h)).

Lemma following_follow i h p : following h -> following (follow i h p).
Proof. by intros []. Qed.

Lemma sync_alone (x : outlets) d : elems (clients x.2) = [] -> on_agent (Sync true d) x = (x, Ret tt).
Proof.
  intros Hc. unfold on_agent, Sync, Broadcast. cbn [negb]. unfold bind, gets. rewrite Hc. by destruct x.
Qed.

Lemma save_position i h p :
  following h -> position_ok i p ->
  agent_SavePosition disk (packPos (PosName p) (Pos p) i) h = (follow i h p, Ret tt).
Proof.
  intros [Hx Ho Ha] [Hf Hp Hi]. unfold agent_SavePosition, SaveBinlogPosition.
  rewrite (bind_ret _ _ _ h (PosName p, Pos p, i)); cycle 1.
  { unfold lift. rewrite <- (app_nil_r (packPos _ _ _)). rewrite unpackPos_app; [done|..]; unfold MinRead in *; lia. }
  cbv iota beta. erewrite bind_ret by reflexivity. erewrite bind_ret by reflexivity.
  rewrite u_wrap_small by done. set (r := packPos _ _ _). set (h1 := with_index i _).
  unfold saveBinlogPositionCache. erewrite bind_ret by reflexivity. cbn [id].
  change (has binlogIsExit h1) with (has binlogIsExit h). rewrite Hx.
  change (has cacheHandlerIsOpened h1) with (has cacheHandlerIsOpened h). rewrite Ho.
  erewrite bind_ret by reflexivity. unfold blog_onPosChanges. cbn [range].
  set (h2 := with_file _ h1). rewrite (bind_ret _ _ _ h2 tt); [done|].
  unfold in_env. change (env h2) with (env h). rewrite sync_alone by done. by destruct h.
Qed.

Lemma pos_packet_not_keepalive p i : pos_packet p i <> keepalivePackage.
Proof. intros E. apply (f_equal length) in E. unfold pos_packet in E. rewrite Pack_length in E. simpl in E. lia. Qed.

(** One position message. *)
Lemma act_position i c p :
  following (AgentClient.env c) -> position_ok i p ->
  client_act callbacks 1 (pos_packet p i) c =
    (AgentClient.with_env (follow i (AgentClient.env c) p) c, Ret tt).
Proof.
  intros Hf Hp. unfold client_act. cbn [Z.ltb Z.compare].
  change (1 <? 1) with false. cbn iota. erewrite bind_ret by reflexivity.
  rewrite decide_False by apply pos_packet_not_keepalive.
  unfold agent_callbacks. cbn [range]. rewrite (bind_ret _ _ _ (AgentClient.with_env (follow i (AgentClient.env c) p) c) tt); [done|].
  unfold AgentClient.in_env, onClientMessage.
  assert (Hlen : len (packPos (PosName p) (Pos p) i) + 2 < 2 ^ 32).
  { pose proof (packPos_length (PosName p) (Pos p) i) as Hl. destruct Hp as [Hn _ _]. unfold MinRead, len in *. lia. }
  assert (Hu : Unpack (pos_packet p i) = Ret (CMD_POS, packPos (PosName p) (Pos p) i, None)).
  { rewrite <- (app_nil_r (pos_packet p i)). by apply Unpack_app. }
  rewrite (bind_ret _ _ _ (AgentClient.env c) (CMD_POS, packPos (PosName p) (Pos p) i, None))
    by (unfold lift; by rewrite Hu).
  change (CMD_POS =? CMD_EVENT) with false. change (CMD_POS =? CMD_POS) with true. cbn iota beta.
  cbn [agent onPos range]. by rewrite (bind_ret _ _ _ _ _ (save_position i _ p Hf Hp)).
Qed.

Lemma packet_ok_position i p : position_ok i p -> AgentRecv.packet_ok (1, pos_packet p i).
Proof.
  intros [Hn _ _]. split; [cbn [fst]; lia|]. cbn [snd]. unfold pos_packet, len. rewrite Pack_length, packPos_length.
  unfold MinRead, PackageMaxLength, len in *. lia.
Qed.

(** A run of positions. *)
Lemma deliver_positions i ps : forall (s : slice byte) c,
  following (AgentClient.env c) -> Forall (position_ok i) ps ->
  deliverable (HW:=client_host callbacks) (s, c) (map (fun p => (1, pos_packet p i)) ps) /\
  foldl (deliver_frame (HW:=client_host callbacks)) (s, c) (map (fun p => (1, pos_packet p i)) ps) =
    (s, AgentClient.with_env (foldl (follow i) (AgentClient.env c) ps) c).
Proof.
  induction ps as [|p ps IH]; intros s c Hf Hps; [by destruct c|].
  apply Forall_cons in Hps as [Hp Hps]. cbn [map deliverable foldl].
  assert (Ed : deliver_frame (HW:=client_host callbacks) (s, c) (1, pos_packet p i) =
    (s, AgentClient.with_env (follow i (AgentClient.env c) p) c)).
  { unfold deliver_frame. cbn [deliver client_host zoom_host zoom fst snd]. by rewrite act_position. }
  rewrite Ed. destruct (IH s (AgentClient.with_env (follow i (AgentClient.env c) p) c)) as [H1 H2]; [|done|].
  { by apply following_follow. }
  split; [|exact H2]. split_and!; [by apply packet_ok_position| |exact H1].
  cbn [deliver client_host zoom_host zoom fst snd]. by rewrite act_position.
Qed.
End Follower.

(** ** Failover *)
Section Failover.
Variable growcap : nat -> nat -> nat.
Variable Unmarshal : bytes -> option (gmap bytes jval).
Variable Marshal : row_data -> option bytes.
Variable disk : bytes -> nat.
Implicit Types (h : reader) (c : Client reader) (p : Position).

Lemma foldl_follow i ps p h :
  lastBinFile (foldl (follow disk i) h (ps ++ [p])) = PosName p /\
  lastPos (foldl (follow disk i) h (ps ++ [p])) = Pos p /\
  EventIndex (foldl (follow disk i) h (ps ++ [p])) = i.
Proof. rewrite foldl_app. done. Qed.

Lemma follow_idle i ps : forall h,
  status (foldl (follow disk i) h ps) = status h /\
  startServiceChan (foldl (follow disk i) h ps) = startServiceChan h /\
  starting (foldl (follow disk i) h ps) = starting h /\ runs (foldl (follow disk i) h ps) = runs h.
Proof. induction ps as [|p ps IH]; intros h; [done|]. apply (IH (follow disk i h p)). Qed.

(** An elected process starts its reader where its memory says. *)
Lemma elected_state dial c :
  has binlogIsRunning (AgentClient.env c) = false -> startServiceChan (AgentClient.env c) = 0%nat ->
  starting (AgentClient.env c) = 0%nat -> lastBinFile (AgentClient.env c) <> [] ->
  reader_turns Marshal (AgentClient.env (elected disk dial c)) =
    with_goroutines 0 (runs (AgentClient.env c) ++ [mkPosition (lastBinFile (AgentClient.env c)) (lastPos (AgentClient.env c))])
      (with_status (Z.lor (status (AgentClient.env c)) binlogIsRunning) (AgentClient.env c)).
Proof.
  intros Hr Hs Hst Hf. set (h := AgentClient.env c) in *.
  assert (Ee : AgentClient.env (elected disk dial c) = (Binlog.OnLeader true h).1).
  { unfold elected, on_selected, agent. cbn [onLeader range]. unfold bind, AgentClient.in_env, ret. fold h.
    destruct (Binlog.OnLeader true h) as [h1 [[]| | |]]; done. }
  rewrite Ee. unfold reader_turns.
  change [BStartTurn; BRunner] with ([BStartTurn] ++ [BRunner]).
  pose proof (elected_idle blog_SendAll [] blog_onEvent blog_onPosChanges Marshal h Hr Hs) as E.
  change [BLeader true; BStartTurn] with ([BLeader true] ++ [BStartTurn]) in E.
  rewrite run_app in E. rewrite run_app.
  change (run (on_binlog_event blog_SendAll [] blog_onEvent blog_onPosChanges Marshal) [BLeader true] h)
    with (Binlog.OnLeader true h).1 in E. rewrite E, (runner_runs _ _ _ _ _ _ (starting h)) by done. by rewrite Hst.
Qed.

Lemma elected_runs dial c :
  has binlogIsRunning (AgentClient.env c) = false -> startServiceChan (AgentClient.env c) = 0%nat ->
  starting (AgentClient.env c) = 0%nat -> lastBinFile (AgentClient.env c) <> [] ->
  runs (reader_turns Marshal (AgentClient.env (elected disk dial c))) =
    runs (AgentClient.env c) ++ [mkPosition (lastBinFile (AgentClient.env c)) (lastPos (AgentClient.env c))].
Proof. intros Hr Hs Hst Hf. by rewrite elected_state. Qed.

(** Failover: whatever positions the leader has synced, a follower that
    has read what the leader queued for it - however TCP cut it, provided the
    first read brings a packet's header - resumes, when it is elected, at
    exactly the leader's last position, with the leader's event index; so no
    logged change is skipped and none is numbered twice. *)
Theorem failover_resumes h wn ps p (b : slice byte) c i n :
  leading h -> room (env h).2 (len (ps ++ [p])) ->
  i ∈ elems (clients (env h).2) -> nodes (env h).2 !! i = Some n -> sendQueue n = [] ->
  Forall (position_ok (EventIndex h)) (ps ++ [p]) -> PosName p <> [] ->
  swf b -> elems b = [] -> following (AgentClient.env c) ->
  has binlogIsRunning (AgentClient.env c) = false -> startServiceChan (AgentClient.env c) = 0%nat ->
  starting (AgentClient.env c) = 0%nat ->
  exists h' n', range (ps ++ [p]) (fun p => OnPosSynced blog_onPosChanges p wn) h = (h', Ret tt) /\
    nodes (env h').2 !! i = Some n' /\
    forall chunk chunks, concat (chunk :: chunks) = concat (sendQueue n') ->
      Forall (fun x : bytes => len x <= 4096) (chunk :: chunks) -> (4 <= length chunk)%nat ->
      exists b' c', range (chunk :: chunks) (read growcap Unmarshal disk) (b, c) = ((b', c'), Ret tt) /\
        elems b' = [] /\ EventIndex (AgentClient.env c') = EventIndex h' /\
        forall dial, runs (reader_turns Marshal (AgentClient.env (elected disk dial c'))) =
          runs (AgentClient.env c) ++ [p].
Proof.
  intros Hh Hroom Hi En Eq Hps Hfile Hb Eb Hc Hrun Hstart Hst.
  destruct (leader_steps wn (ps ++ [p]) h Hh Hroom) as (h' & E1 & Eidx & Hn).
  pose proof (Hn i n Hi En) as En'. rewrite Eq, app_nil_l in En'.
  eexists h', _. split_and!; [exact E1|exact En'|]. intros chunk chunks Ec Hck H4.
  cbn [sendQueue with_queue] in Ec. set (idx := EventIndex h) in *.
  set (fs := map (fun q => (1, pos_packet q idx)) (ps ++ [p])).
  destruct (deliver_positions Unmarshal disk idx (ps ++ [p]) b c Hc Hps) as [Hd _]. fold fs in Hd.
  destruct (onMessage_stream (HW:=client_host (agent_callbacks Unmarshal disk))
    (HL:=zoom_host_laws (client_act (agent_callbacks Unmarshal disk))) growcap (b, c) chunk chunks fs)
    as ((b' & c') & Er & Eb' & Ev); try done.
  { rewrite Ec. unfold wire, fs. rewrite map_map. done. }
  destruct (deliver_positions Unmarshal disk idx (ps ++ [p]) empty_slice c Hc Hps) as [_ Hfold].
  cbn [set_recvBuf client_host zoom_host fst snd recvBuf_of] in *. fold fs in Hfold. rewrite Hfold in Ev.
  injection Ev as ->. exists b', (AgentClient.with_env (foldl (follow disk idx) (AgentClient.env c) (ps ++ [p])) c).
  destruct (foldl_follow idx ps p (AgentClient.env c)) as (Ef & Ep & Ei).
  destruct (follow_idle idx (ps ++ [p]) (AgentClient.env c)) as (Es & Esc & Esg & Ers).
  split_and!; [exact Er|done|cbn; congruence|]. intros dial.
  rewrite elected_runs; cbn [AgentClient.env AgentClient.with_env];
    [|unfold has; by rewrite Es|congruence|congruence|congruence].
  rewrite Ers, Ef, Ep. by destruct p.
Qed.
End Failover.

(** ** Events on the followers *)
Section Mirror.
Variable growcap : nat -> nat -> nat.
Variable Unmarshal : bytes -> option (gmap bytes jval).
Variable Marshal : row_data -> option bytes.
Variable disk : bytes -> nat.
Implicit Types (h : reader) (c : Client reader).

(** The document of an event names its table, as [encoding/json] has it. *)
Record document (d : row_data) (json : bytes) : Prop := {
  doc_marshal : Marshal d = Some json;
  doc_unmarshal : exists raw, Unmarshal json = Some raw /\
    raw !! gostr "database" = Some (JString (rd_database d)) /\
    raw !! gostr "table" = Some (JString (rd_table d));
  doc_size : len json + 22 + 4096 <= PackageMaxLength
}.

Definition table_of (d : row_data) : bytes := rd_database d ++ gostr "." ++ rd_table d.

Lemma act_event c d json t :
  document d json -> SendAll (table_of d) json (env (AgentClient.env c)).1 = (t, Ret true) ->
  client_act (agent_callbacks Unmarshal disk) 1 (Pack CMD_EVENT json) c =
    (AgentClient.with_env (with_env (t, (env (AgentClient.env c)).2) (AgentClient.env c)) c, Ret tt).
Proof.
  intros [_ (raw & Hu & Hdb & Htb) Hl] Et. unfold client_act. change (1 <? 1) with false. cbn iota.
  erewrite bind_ret by reflexivity. rewrite decide_False; cycle 1.
  { intros E. apply (f_equal length) in E. rewrite Pack_length in E. simpl in E. lia. }
  unfold agent_callbacks. cbn [range].
  set (c' := AgentClient.with_env (with_env (t, (env (AgentClient.env c)).2) (AgentClient.env c)) c).
  rewrite (bind_ret _ _ _ c' tt); [done|]. unfold AgentClient.in_env, onClientMessage.
  assert (Hp : Unpack (Pack CMD_EVENT json) = Ret (CMD_EVENT, json, None)).
  { rewrite <- (app_nil_r (Pack CMD_EVENT json)). apply Unpack_app; [done|]. unfold PackageMaxLength in Hl. lia. }
  set (h := AgentClient.env c) in *.
  rewrite (bind_ret _ _ _ h (CMD_EVENT, json, None)) by (unfold lift; by rewrite Hp).
  change (CMD_EVENT =? CMD_EVENT) with true. cbn iota beta. rewrite Hu.
  rewrite (bind_ret _ _ _ h (rd_database d)) by (unfold lift, string_field; by rewrite Hdb).
  rewrite (bind_ret _ _ _ h (rd_table d)) by (unfold lift, string_field; by rewrite Htb).
  cbv zeta. fold (table_of d). cbn [agent AgentService.onEvent range].
  rewrite (bind_ret _ _ _ (with_env (t, (env h).2) h) tt); [done|].
  rewrite (bind_ret _ _ _ (with_env (t, (env h).2) h) true); [done|].
  unfold agent_SendAll, in_env, on_service. by rewrite Et.
Qed.

(** Every subscriber of the cluster is served: the event the leader
    publishes to its own subscribers, the followers publish to theirs - the
    same bytes under the same table name - once they have read what the
    leader queued for them. *)
Theorem event_mirrored h d json t1 t2 (b : slice byte) c i n :
  document d json -> server_ok (env h).2 -> room (env h).2 1 ->
  i ∈ elems (clients (env h).2) -> nodes (env h).2 !! i = Some n -> sendQueue n = [] ->
  swf b -> elems b = [] ->
  SendAll (table_of d) json (env h).1 = (t1, Ret true) ->
  SendAll (table_of d) json (env (AgentClient.env c)).1 = (t2, Ret true) ->
  exists h' n', notify blog_SendAll blog_onEvent Marshal d h = (h', Ret tt) /\ (env h').1 = t1 /\
    nodes (env h').2 !! i = Some n' /\
    forall chunk chunks, concat (chunk :: chunks) = concat (sendQueue n') ->
      Forall (fun x : bytes => len x <= 4096) (chunk :: chunks) -> (4 <= length chunk)%nat ->
      exists b' c', range (chunk :: chunks) (read growcap Unmarshal disk) (b, c) = ((b', c'), Ret tt) /\
        elems b' = [] /\ (env (AgentClient.env c')).1 = t2.
Proof.
  intros Hd Hsv Hroom Hi En Eq Hb Eb E1 E2. pose proof Hd as [Hm _ Hl].
  destruct (sync_eq (env h).2 (Pack CMD_EVENT json) Hsv Hroom) as (sv' & Es & _ & _ & Hn).
  pose proof (Hn i n Hi En) as En'. rewrite Eq, app_nil_l in En'.
  exists (with_env (t1, sv') h). eexists. split_and!; [|done|exact En'|].
  - unfold notify. rewrite Hm. cbv zeta. fold (table_of d). unfold blog_SendAll, blog_onEvent. cbn [range].
    rewrite (bind_ret _ _ _ (with_env (t1, (env h).2) h) tt); cycle 1.
    { rewrite (bind_ret _ _ _ (with_env (t1, (env h).2) h) tt); [done|].
      rewrite (bind_ret _ _ _ (with_env (t1, (env h).2) h) true); [done|].
      unfold in_env, on_service. by rewrite E1. }
    rewrite (bind_ret _ _ _ (with_env (t1, sv') h) tt); [done|].
    unfold in_env, on_agent. cbn [env with_env snd fst]. by rewrite Es.
  - intros chunk chunks Ec Hck H4. cbn [sendQueue with_queue concat] in Ec. rewrite app_nil_r in Ec.
    pose proof (act_event c d json t2 Hd E2) as Ha.
    destruct (onMessage_stream (HW:=client_host (agent_callbacks Unmarshal disk))
      (HL:=zoom_host_laws (client_act (agent_callbacks Unmarshal disk))) growcap (b, c) chunk chunks
      [(1, Pack CMD_EVENT json)]) as ((b' & c') & Er & Eb' & Ev); try done.
    { cbn [deliverable deliver client_host zoom_host zoom fst snd]. rewrite Ha. split_and!; [|done|done].
      split; [cbn [fst]; lia|]. cbn [snd]. unfold len in *. rewrite Pack_length. lia. }
    { cbn [concat]. rewrite Ec. unfold wire. cbn [map concat]. by rewrite app_nil_r. }
    cbn [set_recvBuf client_host zoom_host foldl fst snd] in Ev. unfold deliver_frame in Ev.
    cbn [deliver client_host zoom_host zoom fst snd] in Ev. rewrite Ha in Ev. injection Ev as ->.
    eexists b', _. split_and!; [exact Er|done|done].
Qed.
End Mirror.

(** ** Concrete instances: a leader with three followers, one of them read *)
Section ClusterInstances.
#[local] Definition twice (c n : nat) : nat := (2 * n)%nat.
#[local] Definition logfile : bytes := gostr "mysql-bin.000059".
#[local] Definition at_ (p : Z) : Position := mkPosition logfile p.
#[local] Definition insert : row_data :=
  mkRowData (gostr "db") (gostr "insert") 0 (gostr "users") 1 (Plain ∅).
#[local] Definition marshal (d : row_data) : option bytes := Some (gostr "{}").
#[local] Definition unmarshal (b : bytes) : option (gmap bytes jval) :=
  Some {[ gostr "database" := JString (gostr "db"); gostr "table" := JString (gostr "users") ]}.
#[local] Definition reader_with (sv : server) : reader :=
  with_status cacheHandlerIsOpened (fresh [] (SubService.some_service, sv)).
#[local] Definition a_follower : Client reader := NewClient (reader_with NewServer).
#[local] Definition leader : reader := reader_with AgentServer.three.

#[local] Lemma leader_leads : leading leader.
Proof. split; [done|done|exact AgentServer.sv_three_ok]. Qed.

#[local] Lemma leader_room k : k <= tcpMaxSendQueue -> room (env leader).2 k.
Proof.
  intros Hk i n Hi En. change (elems (clients (env leader).2)) with [0; 1; 2]%nat in Hi.
  repeat (apply elem_of_cons in Hi as [->|Hi]; [vm_compute in En; injection En as <-; unfold len; simpl; lia|]).
  by apply not_elem_of_nil in Hi.
Qed.

Lemma failover_resumes_witness :
  exists h' n', range [at_ 100; at_ 200] (fun p => OnPosSynced blog_onPosChanges p 0) leader = (h', Ret tt) /\
    nodes (env h').2 !! 1%nat = Some n' /\
    exists b' c', range [take 30 (concat (sendQueue n')); drop 30 (concat (sendQueue n'))]
        (read twice unmarshal length) (empty_slice, a_follower) = ((b', c'), Ret tt) /\
      runs (reader_turns marshal (AgentClient.env (elected length (fun _ => None) c'))) = [at_ 200].
Proof.
  destruct (failover_resumes twice unmarshal marshal length leader 0 [at_ 100] (at_ 200) empty_slice
    a_follower 1 (newNode 8)) as (h' & n' & E & En & H).
  - exact leader_leads.
  - apply leader_room. vm_compute. congruence.
  - vm_compute. right. by left.
  - by vm_compute.
  - done.
  - repeat constructor; vm_compute; congruence.
  - done.
  - unfold swf. simpl. lia.
  - done.
  - by split.
  - done.
  - done.
  - done.
  - exists h', n'. split_and!; [exact E|exact En|].
    assert (Hn : n' = with_queue (map (fun p => Encode 1 (pos_packet p 0)) [at_ 100; at_ 200]) (newNode 8)).
    { assert (E' : (range ([at_ 100] ++ [at_ 200]) (fun p => OnPosSynced blog_onPosChanges p 0) leader).1 = h')
        by (by rewrite E).
      rewrite <- E' in En. vm_compute in En. injection En as <-. by vm_compute. }
    destruct (H (take 30 (concat (sendQueue n'))) [drop 30 (concat (sendQueue n'))]) as (b' & c' & Er & _ & _ & Hr).
    + cbn [concat]. by rewrite app_nil_r, take_drop.
    + rewrite Hn. repeat constructor; vm_compute; congruence.
    + rewrite Hn. vm_compute. lia.
    + exists b', c'. split; [exact Er|]. rewrite Hr. done.
Defined.

Lemma event_mirrored_witness :
  exists h' n' t2, notify blog_SendAll blog_onEvent marshal insert leader = (h', Ret tt) /\
    nodes (env h').2 !! 1%nat = Some n' /\
    SendAll (gostr "db.users") (gostr "{}") SubService.some_service = (t2, Ret true) /\
    exists b' c', range [concat (sendQueue n')] (read twice unmarshal length) (empty_slice, a_follower)
        = ((b', c'), Ret tt) /\ (env (AgentClient.env c')).1 = t2.
Proof.
  destruct (SendAll (gostr "db.users") (gostr "{}") SubService.some_service) as [t2 r] eqn:Et.
  assert (Hr : r = Ret true).
  { apply (f_equal snd) in Et. vm_compute in Et. by subst r. }
  subst r.
  destruct (event_mirrored twice unmarshal marshal length leader insert (gostr "{}") t2 t2 empty_slice
    a_follower 1 (newNode 8)) as (h' & n' & E & _ & En & H).
  - split; [done| |vm_compute; congruence]. eexists. split_and!; [reflexivity|by vm_compute..].
  - exact AgentServer.sv_three_ok.
  - apply leader_room. vm_compute. congruence.
  - vm_compute. right. by left.
  - by vm_compute.
  - done.
  - unfold swf. simpl. lia.
  - done.
  - exact Et.
  - exact Et.
  - exists h', n', t2. split_and!; [exact E|exact En|done|].
    assert (Hn : n' = with_queue [Encode 1 (Pack CMD_EVENT (gostr "{}"))] (newNode 8)).
    { assert (E' : (notify blog_SendAll blog_onEvent marshal insert leader).1 = h') by (by rewrite E).
      rewrite <- E' in En. vm_compute in En. injection En as <-. by vm_compute. }
    destruct (H (concat (sendQueue n')) []) as (b' & c' & Er & _ & Hs).
    + cbn [concat]. by rewrite app_nil_r.
    + rewrite Hn. repeat constructor; vm_compute; congruence.
    + rewrite Hn. vm_compute. lia.
    + by exists b', c'.
Defined.
End ClusterInstances.
