(* ===== verification/LogPath.v ===== *)
(** * The master's log through the cluster

    Row events and positions in the order the master logs them: what the
    leader's reader does with them ([Binlog.v]), what its agent's server
    queues for a follower ([AgentServer.v]), what the follower makes of it
    ([AgentClient.v], [AgentService.v]) and what the follower's subscribers
    get ([EventPath.v]). *)
From S2P Require Import Prelude.
From S2P Require Import GoSem.
From S2P Require Import Framing.
From S2P Require Import Frame.
From S2P Require Import SubNode.
From S2P Require Import SubGroups.
From S2P Require Import SubService.
From S2P Require Import EventPath.
From S2P Require Import Codec.
From S2P Require Import AgentRecv.
From S2P Require Import AgentServer.
From S2P Require Import AgentClient.
From S2P Require Import AgentService.
From S2P Require Import PosCodec.
From S2P Require Import FieldDecode.
From S2P Require Import Binlog.
From S2P Require Import Cluster.
Set Default Proof Using "Type".

(** ** What the leader announces *)

(** An entry of the log as canal reports it. *)
Inductive log_item :=
  | LRows (e : RowsEvent) (now : Z)
  | LSynced (p : Position) (wn : nat).

Inductive message :=
  | MEvent (d : row_data) (json : bytes)
  | MPos (p : Position) (i : Z).

Definition enc_message (m : message) : bytes :=
  match m with
  | MEvent _ json => Pack CMD_EVENT json
  | MPos p i => pos_packet p i
  end.
Definition packet (m : message) : frame := (1, enc_message m).

(** The events to publish, as table and document. *)
Fixpoint docs (msgs : list message) : list (bytes * bytes) :=
  match msgs with
  | [] => []
  | MEvent d json :: msgs => (table_of d, json) :: docs msgs
  | MPos _ _ :: msgs => docs msgs
  end.

(** The last position, with the event index it was announced with. *)
Fixpoint last_pos (msgs : list message) : option (Position * Z) :=
  match msgs with
  | [] => None
  | MEvent _ _ :: msgs => last_pos msgs
  | MPos p i :: msgs => Some (default (p, i) (last_pos msgs))
  end.

Section Announced.
Variable Marshal : row_data -> option bytes.

Fixpoint messages_of (l : list row_data) : list message :=
  match l with
  | [] => []
  | d :: l => match Marshal d with
              | Some json => MEvent d json :: messages_of l
              | None => messages_of l
              end
  end.

(** The messages of a log, and the event index after it. *)
Fixpoint announced (idx : Z) (items : list log_item) : outcome (list message * Z) :=
  match items with
  | [] => Ret ([], idx)
  | LRows e now :: items =>
      obind (events_of e now idx) (fun l =>
      obind (announced (idx + len l) items) (fun r => Ret (messages_of l ++ r.1, r.2)))
  | LSynced p wn :: items =>
      obind (announced idx items) (fun r => Ret (MPos p idx :: r.1, r.2))
  end.

Fixpoint rows_in (items : list log_item) : Z :=
  match items with
  | [] => 0
  | LRows e _ :: items => len (Rows e) + rows_in items
  | LSynced _ _ :: items => rows_in items
  end.

Definition read_item (it : log_item) : M reader unit :=
  match it with
  | LRows e now => OnRow blog_SendAll blog_onEvent Marshal e now
  | LSynced p wn => OnPosSynced blog_onPosChanges p wn
  end.
End Announced.

Lemma docs_app l1 l2 : docs (l1 ++ l2) = docs l1 ++ docs l2.
Proof. induction l1 as [|[d j|p i] l1 IH]; simpl; congruence. Qed.

Lemma docs_length msgs : len (docs msgs) <= len msgs.
Proof. unfold len. induction msgs as [|[d j|p i] l IH]; simpl length; lia. Qed.

(** ** The leader *)
Section Reading.
Variable growcap : nat -> nat -> nat.
Variable MatchString : bytes -> bytes -> option bool.
Variable Marshal : row_data -> option bytes.
Implicit Types (x : outlets) (t : TCPService) (sv : server) (h : reader) (msgs : list message).
#[local] Abbreviation service_ok := (SubService.service_ok growcap MatchString).

(** Every subscriber's queue has room for [k] messages. *)
Definition sub_room t (k : Z) : Prop := forall i n,
  i ∈ elems (grp (groups t)) -> SubGroups.nodes (groups t) !! i = Some n ->
  len (SubNode.sendQueue n) + k <= SubNode.tcpMaxSendQueue.

(** An event on the service. *)
Lemma SendAll_room tb d t k :
  service_ok t -> sub_room t (1 + k) -> 0 <= k ->
  exists t', SendAll tb d t = (t', Ret true) /\ service_ok t' /\
    forall k', sub_room t (1 + k') -> sub_room t' k'.
Proof.
  intros Ht Hr Hk. destruct (publish_one growcap MatchString tb d t Ht) as (w & E & Hw & Eg & Hn).
  { intros i Hi n En. specialize (Hr i n Hi En). lia. }
  exists (with_groups w t). split_and!; [done|by destruct Ht|].
  intros k' Hk' i n Hi En. cbn [groups with_groups] in *. rewrite Hn in En by done. rewrite Eg in Hi.
  destruct (ok_group _ (sv_groups _ _ t Ht) i Hi) as (m & Em & _). rewrite Em in En. injection En as <-.
  specialize (Hk' i m Hi Em). unfold SubGroups.deliver. case_match; [|lia].
  unfold len in *. cbn [SubNode.sendQueue SubNode.with_queue]. rewrite length_app. cbn [length]. lia.
Qed.

(** The outlets after some messages went out: the service published the
    events, every follower's queue has all the messages. *)
Record sent msgs x x' : Prop := {
  sent_publish : EventPath.publish (docs msgs) x.1 = (x'.1, Ret tt);
  sent_service : service_ok x'.1;
  sent_sub : forall k, sub_room x.1 (len msgs + k) -> sub_room x'.1 k;
  sent_server : server_ok x'.2;
  sent_clients : clients x'.2 = clients x.2;
  sent_queues : forall i n, i ∈ elems (clients x.2) -> nodes x.2 !! i = Some n ->
    nodes x'.2 !! i = Some (with_queue (sendQueue n ++ map (fun m => Encode 1 (enc_message m)) msgs) n)
}.

Lemma sent_nil x : service_ok x.1 -> server_ok x.2 -> sent [] x x.
Proof.
  intros Ht Hs. split; try done. intros i n _ ->. cbn [map]. rewrite app_nil_r. by destruct n.
Qed.

Lemma sent_app l1 l2 x1 x2 x3 : sent l1 x1 x2 -> sent l2 x2 x3 -> sent (l1 ++ l2) x1 x3.
Proof.
  intros [P1 _ R1 _ C1 Q1] [P2 S2 R2 V2 C2 Q2]. split; [|done| |done|congruence|].
  - rewrite docs_app. unfold EventPath.publish in *. by rewrite (range_app _ _ _ _ _ P1).
  - intros k Hk. apply R2, R1. unfold len in *. rewrite length_app in Hk.
    by replace (Z.of_nat (length l1) + (Z.of_nat (length l2) + k)) with
      (Z.of_nat (length l1 + length l2) + k) by lia.
  - intros i n Hi En. rewrite (Q2 i _ ltac:(by rewrite C1) (Q1 i n Hi En)). f_equal.
    unfold with_queue. cbn [sendQueue]. by rewrite map_app, <- app_assoc.
Qed.

Lemma sent_room msgs x x' k : server_ok x.2 -> sent msgs x x' -> room x.2 (len msgs + k) -> room x'.2 k.
Proof.
  intros Hsv [_ _ _ _ C Q] Hr i n Hi En. rewrite C in Hi.
  destruct (proj1 (ok_clients _ Hsv i) Hi) as (m & Em & _). rewrite (Q i m Hi Em) in En. injection En as <-.
  specialize (Hr i m Hi Em). cbn [sendQueue with_queue]. unfold len in *. rewrite length_app, length_map. lia.
Qed.

#[local] Abbreviation takes := (Binlog.takes blog_SendAll blog_onEvent Marshal).
#[local] Abbreviation takes_all := (Binlog.takes_all blog_SendAll blog_onEvent Marshal).

(** One event: to the subscribers, then to the followers. *)
Lemma takes_event d json x :
  Marshal d = Some json -> service_ok x.1 -> server_ok x.2 -> sub_room x.1 1 -> room x.2 1 ->
  exists x', takes d x x' /\ sent [MEvent d json] x x'.
Proof.
  intros Hm Ht Hsv Hs Hr.
  destruct (SendAll_room (table_of d) json x.1 0 Ht Hs) as (t & E1 & Ht' & Hroom); [lia|].
  destruct (sync_eq x.2 (Pack CMD_EVENT json) Hsv Hr) as (sv & E2 & Hsv' & Ec & Hn).
  exists (t, sv). split.
  - intros h Eh. unfold notify. rewrite Hm. cbv zeta. fold (table_of d). unfold blog_SendAll, blog_onEvent.
    cbn [range]. rewrite (bind_ret _ _ _ (with_env (t, x.2) h) tt); cycle 1.
    { rewrite (bind_ret _ _ _ (with_env (t, x.2) h) tt); [done|].
      rewrite (bind_ret _ _ _ (with_env (t, x.2) h) true); [done|].
      unfold in_env, on_service. by rewrite Eh, E1. }
    rewrite (bind_ret _ _ _ (with_env (t, sv) h) tt); [done|].
    unfold in_env, on_agent. cbn [Binlog.env Binlog.with_env snd fst]. by rewrite E2.
  - split; try done. unfold EventPath.publish. cbn [docs range fst snd].
    rewrite (bind_ret _ _ _ t tt); [done|]. by rewrite (bind_ret _ _ _ _ _ E1).
Qed.

Lemma takes_none d x : Marshal d = None -> takes d x x.
Proof. intros Hm h <-. unfold notify. rewrite Hm. by destruct h. Qed.

(** The events of a row event. *)
Lemma takes_events l : forall x,
  service_ok x.1 -> server_ok x.2 -> sub_room x.1 (len (messages_of Marshal l)) ->
  room x.2 (len (messages_of Marshal l)) ->
  exists x', takes_all l x x' /\ sent (messages_of Marshal l) x x'.
Proof.
  induction l as [|d l IH]; intros x Ht Hsv Hs Hr.
  { exists x. split; [constructor|by apply sent_nil]. }
  cbn [messages_of] in *. destruct (Marshal d) as [json|] eqn:Em; cycle 1.
  { destruct (IH x) as (x' & H1 & H2); try done. exists x'. split; [|done].
    by apply takes_cons with x; [apply takes_none|]. }
  set (msgs := messages_of Marshal l) in *.
  assert (Hl : len (MEvent d json :: msgs) = len [MEvent d json] + len msgs)
    by (unfold len; cbn [length]; lia). rewrite Hl in *.
  pose proof (Zle_0_nat (length msgs)) as H0. fold (len msgs) in H0.
  destruct (takes_event d json x) as (x1 & H1 & S1); try done.
  { intros i n Hi En. specialize (Hs i n Hi En). unfold len in *. cbn [length] in Hs. lia. }
  { intros i n Hi En. specialize (Hr i n Hi En). unfold len in *. cbn [length] in Hr. lia. }
  destruct (IH x1) as (x2 & H2 & S2); [apply S1|apply S1|by apply (sent_sub _ _ _ S1)|by apply (sent_room _ _ _ _ Hsv S1)|].
  exists x2. split; [by apply takes_cons with x1|]. apply (sent_app [_] _ _ _ _ S1 S2).
Qed.

(** A log has no more events than rows. *)
Lemma update_events_length e now n : forall rows idx l,
  (length rows <= n)%nat -> update_events e now idx rows = Ret l -> (length l <= length rows)%nat.
Proof.
  induction n as [|n IH]; intros [|old [|new rows]] idx l Hn Hl; simpl in Hn, Hl; try lia;
    try (by injection Hl as <-); [done|].
  destruct (decode_row _ old _) as [d1| | |]; try done. destruct (decode_row _ new _) as [d2| | |]; try done.
  cbn [obind] in Hl. destruct (update_events e now (idx + 1) rows) as [l'| | |] eqn:El; try done.
  cbn [obind] in Hl. injection Hl as <-. simpl. apply IH in El; lia.
Qed.

Lemma other_events_length e now rows : forall idx l,
  other_events e now idx rows = Ret l -> length l = length rows.
Proof.
  induction rows as [|row rows IH]; intros idx l Hl; cbn [other_events] in Hl; [by injection Hl as <-|].
  destruct (decode_row _ row _) as [d| | |]; try done. cbn [obind] in Hl.
  destruct (other_events e now (idx + 1) rows) as [l'| | |] eqn:El; try done.
  cbn [obind] in Hl. injection Hl as <-. simpl. f_equal. by apply (IH _ _ El).
Qed.

Lemma events_of_length e now idx l : events_of e now idx = Ret l -> len l <= len (Rows e).
Proof.
  unfold events_of, len. case_bool_decide; intros Hl.
  - apply (update_events_length e now (length (Rows e))) in Hl; lia.
  - apply other_events_length in Hl. lia.
Qed.

Lemma rows_in_nonneg items : 0 <= rows_in items.
Proof. induction items as [|[e now|p wn] items IH]; simpl; unfold len in *; lia. Qed.

Lemma announced_cons it items idx msgs idx' :
  announced Marshal idx (it :: items) = Ret (msgs, idx') ->
  exists m1 i1 m2, announced Marshal idx [it] = Ret (m1, i1) /\
    announced Marshal i1 items = Ret (m2, idx') /\ msgs = m1 ++ m2.
Proof.
  intros Ha. destruct it as [e now|p wn]; cbn [announced obind fst snd] in *.
  - destruct (events_of e now idx) as [l| | |]; try done. cbn [obind] in *.
    destruct (announced _ _ items) as [[m2 i2]| | |] eqn:Er; try done. cbn [obind fst snd] in *.
    injection Ha as <- <-. eexists _, _, m2. split_and!; [done|exact Er|by rewrite app_nil_r].
  - destruct (announced _ _ items) as [[m2 i2]| | |] eqn:Er; try done. cbn [obind fst snd] in *.
    injection Ha as <- <-. by eexists _, _, m2.
Qed.

Lemma rows_in_cons it items : rows_in (it :: items) = rows_in [it] + rows_in items.
Proof. destruct it; simpl; lia. Qed.

(** One entry: its messages go out. *)
Lemma item_read it h msgs idx' :
  leading h -> service_ok (env h).1 -> sub_room (env h).1 (len msgs) -> room (env h).2 (len msgs) ->
  - 2 ^ 63 <= EventIndex h -> EventIndex h + rows_in [it] <= MaxInt64 ->
  announced Marshal (EventIndex h) [it] = Ret (msgs, idx') ->
  exists h', read_item Marshal it h = (h', Ret tt) /\ leading h' /\ EventIndex h' = idx' /\
    EventIndex h <= idx' <= EventIndex h + rows_in [it] /\ sent msgs (env h) (env h').
Proof.
  intros Hh Ht Hs Hr H0 H1 Ha. destruct it as [e now|p wn]; cbn [announced rows_in obind fst snd] in *.
  - destruct (events_of e now (EventIndex h)) as [l| | |] eqn:El; try done. cbn [obind fst snd] in Ha.
    injection Ha as <- <-. rewrite app_nil_r in *. pose proof (events_of_length _ _ _ _ El) as Hll.
    destruct (takes_events l (env h)) as (x' & Htk & Hsent); [done|apply Hh|done|done|].
    exists (moved (len l) x' h). split_and!; [|destruct Hh; split; [done|done|apply Hsent]|done| | |done].
    + cbn [read_item]. eapply OnRow_takes; [apply Hh|done|lia|done|done].
    + unfold len. lia.
    + lia.
  - injection Ha as <- <-. destruct (leader_step p wn h Hh Hr) as (h1 & E1 & Hh1 & Ei1 & Et & Ec & Hq).
    exists h1. split_and!; [done|done|done|lia|lia|]. split; [by rewrite Et|by rewrite Et| |apply Hh1|done|done].
    intros k Hk i n Hi En. rewrite Et in Hi, En. specialize (Hk i n Hi En).
    unfold len in *. cbn [length] in Hk. lia.
Qed.

Lemma room_le sv k1 k2 : room sv k2 -> k1 <= k2 -> room sv k1.
Proof. intros Hr Hk i n Hi En. specialize (Hr i n Hi En). lia. Qed.
Lemma sub_room_le t k1 k2 : sub_room t k2 -> k1 <= k2 -> sub_room t k1.
Proof. intros Hr Hk i n Hi En. specialize (Hr i n Hi En). lia. Qed.

(** Reading the log: every message goes out, in the order of the log. *)
Lemma leader_reads items : forall h msgs idx',
  leading h -> service_ok (env h).1 -> sub_room (env h).1 (len msgs) -> room (env h).2 (len msgs) ->
  - 2 ^ 63 <= EventIndex h -> EventIndex h + rows_in items <= MaxInt64 ->
  announced Marshal (EventIndex h) items = Ret (msgs, idx') ->
  exists h', range items (read_item Marshal) h = (h', Ret tt) /\ leading h' /\ EventIndex h' = idx' /\
    sent msgs (env h) (env h').
Proof.
  induction items as [|it items IH]; intros h msgs idx' Hh Ht Hs Hr H0 H1 Ha.
  { cbn [announced] in Ha. injection Ha as <- <-. exists h. split_and!; try done.
    apply sent_nil; [done|apply Hh]. }
  pose proof (rows_in_nonneg items) as Hn. rewrite rows_in_cons in H1.
  apply announced_cons in Ha as (m1 & i1 & m2 & Ha1 & Ha2 & ->).
  assert (Hl : len (m1 ++ m2) = len m1 + len m2) by (unfold len; rewrite length_app; lia). rewrite Hl in *.
  assert (Hm2 : 0 <= len m2) by (unfold len; lia).
  destruct (item_read it h m1 i1) as (h1 & E1 & Hh1 & Ei1 & Hi1 & Hsent); try done; [|by eapply room_le; [done|lia]|lia|].
  { eapply sub_room_le; [done|lia]. }
  destruct (IH h1 m2 idx') as (h2 & E2 & Hh2 & Ei & Hsent2); rewrite ?Ei1; try done; [| | |lia|lia|].
  - apply Hsent.
  - by apply (sent_sub _ _ _ Hsent).
  - apply (sent_room m1 (env h)); [apply Hh|done|done].
  - exists h2. split_and!; [|done|done|by apply (sent_app m1 m2 _ (env h1))].
    cbn [range]. by rewrite (bind_ret _ _ _ _ _ E1).
Qed.
End Reading.

(** ** A follower *)
Section Mirroring.
Variable growcap : nat -> nat -> nat.
Variable MatchString : bytes -> bytes -> option bool.
Variable Unmarshal : bytes -> option (gmap bytes jval).
Variable Marshal : row_data -> option bytes.
Variable disk : bytes -> nat.
Implicit Types (h : reader) (c : Client reader) (msgs : list message).
#[local] Abbreviation service_ok := (SubService.service_ok growcap MatchString).
#[local] Abbreviation callbacks := (agent_callbacks Unmarshal disk).
#[local] Abbreviation host := (client_host callbacks).

Definition message_ok (m : message) : Prop :=
  match m with
  | MEvent d json => document Unmarshal Marshal d json
  | MPos p i => position_ok i p
  end.

(** The follower's reader after a message. *)
Definition mirror h (m : message) : reader :=
  match m with
  | MEvent d json => with_env ((SendAll (table_of d) json (env h).1).1, (env h).2) h
  | MPos p i => follow disk i h p
  end.

Lemma packet_ok_message m : message_ok m -> AgentRecv.packet_ok (packet m).
Proof.
  destruct m as [d json|p i]; [|apply packet_ok_position]. intros [_ _ Hl]. split; [cbn [packet fst]; lia|].
  unfold packet, enc_message, len in *. cbn [snd]. rewrite Pack_length. lia.
Qed.

Lemma sub_room_env h m k : 0 <= k -> message_ok m -> service_ok (env h).1 -> sub_room (env h).1 (1 + k) ->
  service_ok (env (mirror h m)).1 /\ sub_room (env (mirror h m)).1 k.
Proof.
  intros Hk Hm Ht Hr. destruct m as [d json|p i]; cbn [mirror]; cycle 1.
  { split; [done|]. intros j n Hj En. specialize (Hr j n Hj En). lia. }
  destruct (SendAll_room growcap MatchString (table_of d) json (env h).1 k Ht Hr Hk) as (t & E & Ht' & Hr').
  cbn [env with_env fst]. rewrite E. split; [done|by apply Hr'].
Qed.

Lemma following_mirror h m : following h -> following (mirror h m).
Proof. destruct m; [by intros []|apply following_follow]. Qed.

Lemma act_message c m :
  following (AgentClient.env c) -> service_ok (env (AgentClient.env c)).1 ->
  sub_room (env (AgentClient.env c)).1 1 -> message_ok m ->
  client_act callbacks 1 (enc_message m) c =
    (AgentClient.with_env (mirror (AgentClient.env c) m) c, Ret tt).
Proof.
  intros Hf Ht Hr Hm. destruct m as [d json|p i]; cbn [enc_message mirror]; [|by apply act_position].
  destruct (SendAll_room growcap MatchString (table_of d) json _ 0 Ht Hr) as (t & E & _); [lia|].
  rewrite E. by apply (act_event Unmarshal Marshal disk c d).
Qed.

(** A run of messages. *)
Lemma deliver_messages msgs : forall (s : slice byte) c,
  following (AgentClient.env c) -> service_ok (env (AgentClient.env c)).1 ->
  sub_room (env (AgentClient.env c)).1 (len msgs) -> Forall message_ok msgs ->
  deliverable (HW:=host) (s, c) (map packet msgs) /\
  foldl (deliver_frame (HW:=host)) (s, c) (map packet msgs) =
    (s, AgentClient.with_env (foldl mirror (AgentClient.env c) msgs) c).
Proof.
  induction msgs as [|m msgs IH]; intros s c Hf Ht Hr Hms; [by destruct c|].
  apply Forall_cons in Hms as [Hm Hms]. cbn [map deliverable foldl].
  assert (Hl : len (m :: msgs) = 1 + len msgs) by (unfold len; cbn [length]; lia). rewrite Hl in Hr.
  assert (H0 : 0 <= len msgs) by (unfold len; lia).
  destruct (sub_room_env _ m (len msgs) H0 Hm Ht Hr) as [Ht' Hr'].
  pose proof (act_message c m Hf Ht ltac:(eapply sub_room_le; [exact Hr|lia]) Hm) as Ea.
  assert (Ed : deliver_frame (HW:=host) (s, c) (packet m) =
    (s, AgentClient.with_env (mirror (AgentClient.env c) m) c)).
  { unfold deliver_frame, packet. cbn [deliver client_host zoom_host zoom fst snd]. by rewrite Ea. }
  rewrite Ed. destruct (IH s (AgentClient.with_env (mirror (AgentClient.env c) m) c)) as [H1 H2]; try done.
  { by apply following_mirror. }
  split; [|exact H2]. split_and!; [by apply packet_ok_message| |exact H1].
  unfold packet. cbn [deliver client_host zoom_host zoom fst snd]. by rewrite Ea.
Qed.

(** What a run of messages leaves: the events published, the last position in
    memory, and nothing of the start and stop machinery touched. *)
Lemma mirror_publishes msgs : forall h,
  service_ok (env h).1 -> sub_room (env h).1 (len msgs) -> Forall message_ok msgs ->
  EventPath.publish (docs msgs) (env h).1 = ((env (foldl mirror h msgs)).1, Ret tt).
Proof.
  induction msgs as [|m msgs IH]; intros h Ht Hr Hms; [done|]. apply Forall_cons in Hms as [Hm Hms].
  assert (Hl : len (m :: msgs) = 1 + len msgs) by (unfold len; cbn [length]; lia). rewrite Hl in Hr.
  assert (H0 : 0 <= len msgs) by (unfold len; lia).
  destruct (sub_room_env _ m (len msgs) H0 Hm Ht Hr) as [Ht' Hr']. cbn [foldl].
  rewrite <- IH by done. destruct m as [d json|p i]; [|done]. cbn [docs mirror env with_env fst].
  destruct (SendAll_room growcap MatchString (table_of d) json _ _ Ht Hr H0) as (t & E & _).
  unfold EventPath.publish. cbn [range fst snd]. rewrite E. cbn [fst].
  rewrite (bind_ret _ _ _ t tt); [done|]. by rewrite (bind_ret _ _ _ _ _ E).
Qed.

Lemma mirror_idle msgs : forall h,
  status (foldl mirror h msgs) = status h /\ startServiceChan (foldl mirror h msgs) = startServiceChan h /\
  starting (foldl mirror h msgs) = starting h /\ runs (foldl mirror h msgs) = runs h.
Proof.
  induction msgs as [|m msgs IH]; intros h; [done|]. cbn [foldl].
  destruct (IH (mirror h m)) as (-> & -> & -> & ->). by destruct m.
Qed.

Lemma mirror_position msgs : forall h,
  match last_pos msgs with
  | Some (p, i) => lastBinFile (foldl mirror h msgs) = PosName p /\ lastPos (foldl mirror h msgs) = Pos p /\
                   EventIndex (foldl mirror h msgs) = i
  | None => lastBinFile (foldl mirror h msgs) = lastBinFile h /\ lastPos (foldl mirror h msgs) = lastPos h /\
            EventIndex (foldl mirror h msgs) = EventIndex h
  end.
Proof.
  induction msgs as [|m msgs IH]; intros h; [done|]. cbn [foldl last_pos]. specialize (IH (mirror h m)).
  destruct m as [d json|p i]; [exact IH|]. by destruct (last_pos msgs) as [[p' i']|].
Qed.

(** Reading the stream a leader sent, up to wherever it breaks off. *)
Definition wire_of (msgs : list message) : bytes := concat (map (fun m => Encode 1 (enc_message m)) msgs).

Lemma follower_reads msgs (b : slice byte) c chunk chunks missing :
  Forall message_ok msgs -> swf b -> elems b = [] ->
  following (AgentClient.env c) -> service_ok (env (AgentClient.env c)).1 ->
  sub_room (env (AgentClient.env c)).1 (len msgs) ->
  concat (chunk :: chunks) ++ missing = wire_of msgs ->
  Forall (fun x : bytes => len x <= 4096) (chunk :: chunks) -> (4 <= length chunk)%nat ->
  exists msgs1 msgs2 b', msgs = msgs1 ++ msgs2 /\
    range (chunk :: chunks) (read growcap Unmarshal disk) (b, c) =
      ((b', AgentClient.with_env (foldl mirror (AgentClient.env c) msgs1) c), Ret tt) /\
    elems b' ++ missing = wire_of msgs2 /\ (missing = [] -> msgs2 = []).
Proof.
  intros Hms Hb Eb Hf Ht Hr Ec Hck H4.
  destruct (deliver_messages msgs b c Hf Ht Hr Hms) as [Hd _].
  assert (Ew : forall l, wire enc_frame (map packet l) = wire_of l) by (intros l; unfold wire, wire_of; by rewrite map_map).
  destruct (onMessage_cut (HW:=host) (HL:=zoom_host_laws (client_act callbacks)) growcap (b, c)
    chunk chunks (map packet msgs) missing) as (fs1 & fs2 & (b' & c') & Efs & Er & Eb' & Hi & Ev); try done.
  { by rewrite Ec, Ew. }
  apply fmap_app_inv in Efs as (msgs1 & msgs2 & -> & -> & ->). exists msgs1, msgs2, b'.
  cbn [set_recvBuf client_host zoom_host fst snd recvBuf_of] in *.
  assert (Hr1 : sub_room (env (AgentClient.env c)).1 (len msgs1)).
  { eapply sub_room_le; [exact Hr|]. unfold len. rewrite length_app. lia. }
  apply Forall_app in Hms as [Hms1 Hms2].
  destruct (deliver_messages msgs1 empty_slice c Hf Ht Hr1 Hms1) as [_ Hfold].
  change (list_fmap message frame packet ?l) with (map packet l) in *. change (packet <$> ?l) with (map packet l) in *.
  rewrite Hfold in Ev. injection Ev as ->. rewrite Ew in Eb'. split_and!; [done|exact Er|exact Eb'|].
  intros ->. rewrite app_nil_r, <- Ew in Eb'. destruct (incomplete_none _ _ _ Hi Eb') as [Hn _]. by destruct msgs2.
Qed.
End Mirroring.

(** ** From the leader to a follower and its subscribers *)
Section EndToEnd.
Variable growcap : nat -> nat -> nat.
Variable MatchString : bytes -> bytes -> option bool.
Variable Unmarshal : bytes -> option (gmap bytes jval).
Variable Marshal : row_data -> option bytes.
Variable disk : bytes -> nat.
Implicit Types (h : reader) (c : Client reader) (msgs : list message) (items : list log_item).
#[local] Abbreviation service_ok := (SubService.service_ok growcap MatchString).
#[local] Abbreviation service_of c := (env (AgentClient.env c)).1.

(** A leader that can read [items], which make it send [msgs] and leave it at
    event index [idx]. *)
Record leader_ready items msgs (idx : Z) h : Prop := {
  lr_leading : leading h;
  lr_service : service_ok (env h).1;
  lr_subscribers : sub_room (env h).1 (len msgs);
  lr_followers : room (env h).2 (len msgs);
  lr_index : - 2 ^ 63 <= EventIndex h;
  lr_bound : EventIndex h + rows_in items <= MaxInt64;
  lr_announced : announced Marshal (EventIndex h) items = Ret (msgs, idx)
}.

(** A follower on a fresh connection that can take [msgs]. *)
Record follower_ready msgs (b : slice byte) c : Prop := {
  fr_wf : swf b;
  fr_fresh : elems b = [];
  fr_following : following (AgentClient.env c);
  fr_service : service_ok (service_of c);
  fr_subscribers : sub_room (service_of c) (len msgs)
}.

(** A reader that is not running and has nothing to start. *)
Record at_rest h : Prop := {
  ar_stopped : has binlogIsRunning h = false;
  ar_signals : startServiceChan h = 0%nat;
  ar_starting : starting h = 0%nat
}.

(** A follower's queue holds the messages, and what it makes of those that
    reach it. *)
Lemma log_to_follower items msgs idx h (b : slice byte) c i n :
  leader_ready items msgs idx h -> follower_ready msgs b c -> Forall (message_ok Unmarshal Marshal) msgs ->
  i ∈ elems (clients (env h).2) -> nodes (env h).2 !! i = Some n -> sendQueue n = [] ->
  exists h' n', range items (read_item Marshal) h = (h', Ret tt) /\ EventIndex h' = idx /\
    EventPath.publish (docs msgs) (env h).1 = ((env h').1, Ret tt) /\ nodes (env h').2 !! i = Some n' /\
    concat (sendQueue n') = wire_of msgs /\
    forall chunk chunks missing, concat (chunk :: chunks) ++ missing = concat (sendQueue n') ->
      Forall (fun x : bytes => len x <= 4096) (chunk :: chunks) -> (4 <= length chunk)%nat ->
      exists msgs1 msgs2 b', msgs = msgs1 ++ msgs2 /\
        range (chunk :: chunks) (read growcap Unmarshal disk) (b, c) =
          ((b', AgentClient.with_env (foldl (mirror disk) (AgentClient.env c) msgs1) c), Ret tt) /\
        elems b' ++ missing = wire_of msgs2 /\ (missing = [] -> msgs2 = []).
Proof.
  intros [Hl Hs Hsr Hr H0 H1 Ha] [Hb Eb Hf Ht Htr] Hms Hi En Eq.
  destruct (leader_reads growcap MatchString Marshal items h msgs idx) as (h' & E & _ & Ei & Hsent); try done.
  pose proof (sent_queues _ _ _ _ _ Hsent i n Hi En) as En'. rewrite Eq, app_nil_l in En'.
  eexists h', _. split_and!; [exact E|done|apply Hsent|exact En'|done|]. cbn [sendQueue with_queue].
  intros chunk chunks missing Ec Hck H4. by apply (follower_reads growcap MatchString Unmarshal Marshal).
Qed.

(** A follower after messages: what it has published, its room for more, and
    its position. *)
Lemma mirror_sub_room msgs : forall h k, 0 <= k ->
  Forall (message_ok Unmarshal Marshal) msgs -> service_ok (env h).1 -> sub_room (env h).1 (len msgs + k) ->
  service_ok (env (foldl (mirror disk) h msgs)).1 /\ sub_room (env (foldl (mirror disk) h msgs)).1 k.
Proof.
  induction msgs as [|m msgs IH]; intros h k Hk Hms Ht Hr; [done|]. apply Forall_cons in Hms as [Hm Hms].
  assert (Hl : len (m :: msgs) + k = 1 + (len msgs + k)) by (unfold len; cbn [length]; lia). rewrite Hl in Hr.
  destruct (sub_room_env growcap MatchString Unmarshal Marshal disk h m (len msgs + k)) as [Ht' Hr']; try done;
    [unfold len; lia|]. cbn [foldl]. by apply IH.
Qed.

Lemma mirror_kept msgs : forall h, following h ->
  following (foldl (mirror disk) h msgs) /\ (env (foldl (mirror disk) h msgs)).2 = (env h).2.
Proof.
  induction msgs as [|m msgs IH]; intros h Hh; [done|]. cbn [foldl].
  destruct (IH (mirror disk h m)) as [H1 H2]; [by apply following_mirror|]. split; [done|]. rewrite H2. by destruct m.
Qed.

(** An elected follower reads the log on from the last position it has got,
    counting on from there. *)
Lemma takes_over msgs c p k dial :
  at_rest (AgentClient.env c) -> following (AgentClient.env c) -> server_ok (env (AgentClient.env c)).2 ->
  last_pos msgs = Some (p, k) -> PosName p <> [] ->
  let h := foldl (mirror disk) (AgentClient.env c) msgs in
  let h2 := reader_turns Marshal (AgentClient.env (elected disk dial (AgentClient.with_env h c))) in
  leading h2 /\ EventIndex h2 = k /\ runs h2 = runs (AgentClient.env c) ++ [p] /\ env h2 = env h.
Proof.
  intros [Hr Hs Hst] Hf Hsv Elast Hp h h2. pose proof (mirror_position disk msgs (AgentClient.env c)) as Hpos.
  rewrite Elast in Hpos. destruct Hpos as (Ef & Epos & Eidx). fold h in Ef, Epos, Eidx.
  destruct (mirror_idle disk msgs (AgentClient.env c)) as (Es & Esc & Esg & Ers). fold h in Es, Esc, Esg, Ers.
  destruct (mirror_kept msgs (AgentClient.env c) Hf) as [[Hx Ho _] Hsv']. fold h in Hx, Ho, Hsv'.
  unfold h2. rewrite elected_state; cbn [AgentClient.env AgentClient.with_env];
    [|unfold has; by rewrite Es|congruence..]. split_and!; [|exact Eidx|by rewrite <- Ers, Ef, Epos; destruct p|done].
  split; [..|cbn; by rewrite Hsv']; unfold has in *; cbn [Binlog.status with_goroutines with_status];
    by rewrite land_lor_other.
Qed.

Context {J E : Type} (JUnmarshal : bytes -> J) (onevent : list (J -> M E unit)).
Context (onevent_ret : forall f d e, f ∈ onevent -> (f d e).2 = Ret tt).

(** What the callbacks of a follower's subscriber get, of what has reached
    the follower. *)
Lemma delivered items msgs idx h (b : slice byte) c i n j m :
  leader_ready items msgs idx h -> follower_ready msgs b c -> Forall (message_ok Unmarshal Marshal) msgs ->
  i ∈ elems (clients (env h).2) -> nodes (env h).2 !! i = Some n -> sendQueue n = [] ->
  j ∈ elems (grp (groups (service_of c))) -> SubGroups.nodes (groups (service_of c)) !! j = Some m ->
  SubNode.sendQueue m = [] ->
  exists h' n', range items (read_item Marshal) h = (h', Ret tt) /\ nodes (env h').2 !! i = Some n' /\
    forall chunk chunks missing, concat (chunk :: chunks) ++ missing = concat (sendQueue n') ->
      Forall (fun x : bytes => len x <= 4096) (chunk :: chunks) -> (4 <= length chunk)%nat ->
      exists msgs1 msgs2 b' c' w m', msgs = msgs1 ++ msgs2 /\ (missing = [] -> msgs2 = []) /\
        range (chunk :: chunks) (read growcap Unmarshal disk) (b, c) = ((b', c'), Ret tt) /\
        let got := wanted MatchString (SubNode.topics m) (docs msgs1) in
        range got (fun _ => sender_turn growcap j) (groups (service_of c')) = (w, Ret tt) /\
        SubGroups.nodes w !! j = Some m' /\
        forall cl pieces, SubClient.buffer cl = [] ->
          concat pieces = concat (drop (length (SubNode.writes m)) (SubNode.writes m')) ->
          exists cl', range pieces (SubClient.onMessage JUnmarshal onevent) cl = (cl', Ret tt) /\
            SubClient.buffer cl' = [] /\
            SubClient.env cl' = handled JUnmarshal onevent got (SubClient.env cl).
Proof using onevent_ret.
  intros Hl Hf Hms Hi En Eq Hj Em Eqm.
  destruct (log_to_follower items msgs idx h b c i n Hl Hf Hms Hi En Eq) as (h' & n' & E0 & _ & _ & En' & _ & Hread).
  exists h', n'. split_and!; [done..|]. intros chunk chunks missing Ec Hck H4.
  destruct (Hread chunk chunks missing Ec Hck H4) as (msgs1 & msgs2 & b' & -> & Er & _ & Hend).
  apply Forall_app in Hms as [Hms _].
  assert (Hroom : sub_room (service_of c) (len msgs1)).
  { eapply sub_room_le; [exact (fr_subscribers _ _ _ Hf)|]. unfold len. rewrite length_app. lia. }
  destruct (subscriber_reached JUnmarshal onevent onevent_ret growcap MatchString (service_of c) j m (docs msgs1))
    as (w & w' & m' & Ep & Es & Em' & _ & Hc); try done.
  { apply Hf. }
  { intros k q Hk Ek. pose proof (Hroom k q Hk Ek). pose proof (docs_length msgs1). lia. }
  { clear -Hms. induction Hms as [|[d json|p k] msgs Hm Hms IH]; cbn [docs];
      [done| |done]. constructor; [|done]. destruct Hm as [_ _ Hlen]. cbn [snd]. unfold PackageMaxLength in Hlen. lia. }
  eexists msgs1, msgs2, b', _, w', m'. split_and!; [done|done|exact Er|]. cbn zeta. split_and!; [|done|exact Hc].
  cbn [AgentClient.env AgentClient.with_env].
  pose proof (mirror_publishes growcap MatchString Unmarshal Marshal disk msgs1 (AgentClient.env c)
    (fr_service _ _ _ Hf) Hroom Hms) as Hpub.
  rewrite Ep in Hpub. injection Hpub as <-. exact Es.
Qed.
End EndToEnd.

(** The subscribers of a service of two have empty queues. *)
Section LogPathInstances.
#[local] Lemma some_room k : k <= SubNode.tcpMaxSendQueue -> sub_room SubService.some_service k.
Proof.
  intros Hk i n Hi En. change (elems (grp (groups SubService.some_service))) with [0; 2]%nat in Hi.
  apply elem_of_cons in Hi as [->|Hi%list_elem_of_singleton]; [|subst i];
    vm_compute in En; injection En as <-; unfold len; simpl; lia.
Qed.
End LogPathInstances.
