(* ===== verification/Streaming.v ===== *)
(** * A leader that reads and a follower that keeps up

    The whole of one side of the cluster as one system of steps: the leader's
    reader takes entries of the master's log ([LogPath.v]), its agent's server
    queues, ticks and writes, other followers come and go, the network cuts
    the stream, and a follower reads, publishes to its own subscribers and
    stores the positions ([Replica.v] with the callbacks of [Cluster.v]).  The
    reader and the server share the leader's state: what the reader announces
    is what the server has queued. *)
From S2P Require Import Prelude.
From S2P Require Import GoSem.
From S2P Require Import SubNode.
From S2P Require Import SubGroups.
From S2P Require Import SubService.
From S2P Require Import EventPath.
From S2P Require Import Framing.
From S2P Require Import Codec.
From S2P Require Import AgentRecv.
From S2P Require Import AgentServer.
From S2P Require Import AgentClient.
From S2P Require Import AgentService.
From S2P Require Import PosCodec.
From S2P Require Import FieldDecode.
From S2P Require Import Binlog.
From S2P Require Import Cluster.
From S2P Require Import LogPath.
From S2P Require Import Link.
From S2P Require Import Replica.
Set Default Proof Using "Type".

(** What goes over the connection: messages, and keepalives between them. *)
Definition entry (o : option message) : frame :=
  match o with Some m => packet m | None => (1, keepalivePackage) end.
Definition messages (l : list (option message)) : list message := omap id l.

Lemma messages_app l1 l2 : messages (l1 ++ l2) = messages l1 ++ messages l2.
Proof. apply omap_app. Qed.

Section Streaming.
Variable growcap : nat -> nat -> nat.
Variable MatchString : bytes -> bytes -> option bool.
Variable Unmarshal : bytes -> option (gmap bytes jval).
Variable Marshal : row_data -> option bytes.
Variable disk : bytes -> nat.
Variable i : nat.
Implicit Types (h : reader) (c : Client reader) (l : list (option message)).
#[local] Abbreviation service_ok := (SubService.service_ok growcap MatchString).
#[local] Abbreviation callbacks := (agent_callbacks Unmarshal disk).
#[local] Abbreviation message_ok := (LogPath.message_ok Unmarshal Marshal).

(** A follower that can take some messages. *)
Record standing_by (msgs : list message) h : Prop := {
  sb_following : following h;
  sb_service : service_ok (env h).1;
  sb_room : sub_room (env h).1 (len msgs);
  sb_messages : Forall message_ok msgs
}.

Lemma standing_by_step m msgs h : standing_by (m :: msgs) h -> standing_by msgs (mirror disk h m) /\
  heard_by callbacks (enc_message m) h = (mirror disk h m, Ret tt).
Proof.
  intros [Hf Ht Hr [Hm Hms]%Forall_cons].
  assert (Hl : len (m :: msgs) = 1 + len msgs) by (unfold len; cbn [length]; lia). rewrite Hl in Hr.
  assert (H0 : 0 <= len msgs) by (unfold len; lia).
  destruct (sub_room_env growcap MatchString Unmarshal Marshal disk h m (len msgs) H0 Hm Ht Hr) as [Ht' Hr'].
  split; [split; try done; by apply following_mirror|].
  pose proof (act_message growcap MatchString Unmarshal Marshal disk (NewClient h) m) as Ea.
  rewrite client_act_system in Ea. cbn [AgentClient.env NewClient] in Ea.
  assert (Hr1 : sub_room (env h).1 1) by (eapply sub_room_le; [exact Hr|lia]).
  specialize (Ea Hf Ht Hr1 Hm). injection Ea as Ee Eo. destruct (heard_by _ _ h) as [h' o]. cbn [fst snd] in *. congruence.
Qed.

Lemma keepalive_heard h : heard_by callbacks keepalivePackage h = (h, Ret tt).
Proof. unfold heard_by. by rewrite decide_True. Qed.

Lemma entries_heard l : forall h, standing_by (messages l) h ->
  hearable callbacks h (map entry l) /\
  foldl (hears callbacks) h (map entry l) = foldl (mirror disk) h (messages l).
Proof.
  induction l as [|[m|] l IH]; intros h Hh; [done|..]; cbn [map hearable foldl entry packet fst snd]; unfold hears at 1 3;
    cbn [packet fst snd].
  - change (messages (Some m :: l)) with (m :: messages l) in *.
    destruct (standing_by_step m (messages l) h Hh) as [Hh' Em]. rewrite Em. cbn [fst snd foldl].
    destruct (IH _ Hh') as [H1 H2]. by split_and!.
  - rewrite keepalive_heard. cbn [fst snd]. destruct (IH h Hh) as [H1 H2]. by split_and!.
Qed.

Lemma standing_by_prefix msgs1 msgs2 h : standing_by (msgs1 ++ msgs2) h -> standing_by msgs1 h.
Proof.
  intros [Hf Ht Hr Hms]. apply Forall_app in Hms as [Hms _]. split; try done.
  eapply sub_room_le; [exact Hr|]. unfold len. rewrite length_app. lia.
Qed.

(** ** The system *)

(** The leader with its services, and the follower with its buffer and what it
    has read. *)
Record pair := mkPair {
  ahead : reader;
  inbuf : slice byte;
  behind : Client reader;
  taken : nat
}.
Definition pipe_of (y : pair) : pipe (E:=reader) := mkPipe (env (ahead y)).2 (inbuf y) (behind y) (taken y).
Definition of_pipe h (w : pipe (E:=reader)) : pair :=
  mkPair (Binlog.with_env ((env h).1, srv w) h) (buf w) (cli w) (nread w).

Inductive live_event :=
  | LLog (it : log_item)                (* the leader's reader *)
  | LPipe (e : pipe_event).             (* the agents and the network *)

Definition on_live (e : live_event) : M pair unit := fun y =>
  match e with
  | LLog it =>
      let r := read_item Marshal it (ahead y) in (mkPair r.1 (inbuf y) (behind y) (taken y), r.2)
  | LPipe e =>
      let r := on_pipe_event callbacks growcap i e (pipe_of y) in (of_pipe (ahead y) r.1, r.2)
  end.

(** What a step puts on the connections. *)
Definition sends (e : live_event) (y : pair) : list (option message) :=
  match e with
  | LLog it => match announced Marshal (EventIndex (ahead y)) [it] with Ret r => map Some r.1 | _ => [] end
  | LPipe PTick => [None]
  | LPipe _ => []
  end.
Definition item_of (e : live_event) : list log_item := match e with LLog it => [it] | LPipe _ => [] end.
Definition items (evs : list live_event) : list log_item := concat (map item_of evs).

(** An entry the leader can read: it decodes, and the queues have room.  Of
    the agents' steps all but an announcement out of nothing. *)
Definition can (e : live_event) (y : pair) : Prop :=
  match e with
  | LLog it => exists r, announced Marshal (EventIndex (ahead y)) [it] = Ret r /\
      sub_room (env (ahead y)).1 (len r.1) /\ room (env (ahead y)).2 (len r.1) /\
      EventIndex (ahead y) + rows_in [it] <= MaxInt64
  | LPipe (PAnnounce _) => False
  | LPipe e => may i e (pipe_of y) = true
  end.

(** The states a run gets into, with what it has put on the connections. *)
Inductive live (y0 : pair) : list live_event -> list (option message) -> pair -> Prop :=
  | live_start : live y0 [] [] y0
  | live_step evs l y e :
      live y0 evs l y -> can e y -> live y0 (evs ++ [e]) (l ++ sends e y) (on_live e y).1.

(** The same as functions of the events. *)
Fixpoint can_all (evs : list live_event) (y : pair) : Prop :=
  match evs with [] => True | e :: evs => can e y /\ can_all evs (on_live e y).1 end.
Fixpoint sends_all (evs : list live_event) (y : pair) : list (option message) :=
  match evs with [] => [] | e :: evs => sends e y ++ sends_all evs (on_live e y).1 end.

(** The follower's first read brings a packet header. *)
Definition headed_event (e : live_event) (y : pair) : bool :=
  match e with LLog _ => true | LPipe e => headed e (pipe_of y) end.
Fixpoint headed_all (evs : list live_event) (y : pair) : bool :=
  match evs with [] => true | e :: evs => headed_event e y && headed_all evs (on_live e y).1 end.

Lemma headed_all_app evs1 : forall evs2 y,
  headed_all (evs1 ++ evs2) y = headed_all evs1 y && headed_all evs2 (run on_live evs1 y).
Proof.
  induction evs1 as [|e evs1 IH]; intros evs2 y; [done|]. cbn [app headed_all]. rewrite IH. apply andb_assoc.
Qed.
Lemma live_is_run y0 evs l y : live y0 evs l y -> y = run on_live evs y0.
Proof. induction 1 as [|evs l y e _ -> _]; [done|]. by rewrite run_app. Qed.

Lemma live_run y0 evs : forall evs0 l y,
  live y0 evs0 l y -> can_all evs y -> live y0 (evs0 ++ evs) (l ++ sends_all evs y) (run on_live evs y).
Proof.
  induction evs as [|e evs IH]; intros evs0 l y Hrun Hc; [by rewrite !app_nil_r|]. destruct Hc as [He Hc].
  specialize (IH _ _ _ (live_step y0 evs0 l y e Hrun He) Hc). by rewrite <- !app_assoc in IH.
Qed.

(** A follower that has just been accepted. *)
Definition joined h (conn : nat) c : pair := of_pipe h (dialled growcap (env h).2 conn c).

(** ** The invariant *)
Record trailing (y0 : pair) (e0 : reader) (its : list log_item) l (y : pair) : Prop := {
  tr_leading : leading (ahead y);
  tr_index : - 2 ^ 63 <= EventIndex (ahead y);
  tr_service : service_ok (env (ahead y)).1;
  tr_announced : announced Marshal (EventIndex (ahead y0)) its = Ret (messages l, EventIndex (ahead y));
  tr_published : EventPath.publish (docs (messages l)) (env (ahead y0)).1 = ((env (ahead y)).1, Ret tt);
  tr_pipe : exists n heard gs q, piping callbacks i e0 (map entry l) (pipe_of y) n heard gs q
}.

Lemma announced_snoc items1 : forall idx m1 i1 it r,
  announced Marshal idx items1 = Ret (m1, i1) -> announced Marshal i1 [it] = Ret r ->
  announced Marshal idx (items1 ++ [it]) = Ret (m1 ++ r.1, r.2).
Proof.
  induction items1 as [|it1 items1 IH]; intros idx m1 i1 it r H1 H2.
  { injection H1 as <- <-. cbn [app]. rewrite H2. by destruct r. }
  destruct it1 as [e now|p wn]; cbn [announced app] in *.
  - destruct (events_of e now idx) as [es| | |]; try done. cbn [obind] in *.
    destruct (announced Marshal (idx + len es) items1) as [[m2 i2]| | |] eqn:Ea; try done.
    cbn [obind fst snd] in H1. injection H1 as <- <-. rewrite (IH _ _ _ _ _ Ea H2). cbn [obind fst snd].
    by rewrite app_assoc.
  - destruct (announced Marshal idx items1) as [[m2 i2]| | |] eqn:Ea; try done.
    cbn [obind fst snd] in H1. injection H1 as <- <-. by rewrite (IH _ _ _ _ _ Ea H2).
Qed.

Lemma publish_snoc d1 d2 t1 t2 t3 :
  EventPath.publish d1 t1 = (t2, Ret tt) -> EventPath.publish d2 t2 = (t3, Ret tt) ->
  EventPath.publish (d1 ++ d2) t1 = (t3, Ret tt).
Proof. unfold EventPath.publish. intros H1 H2. by rewrite (range_app _ _ _ _ _ H1). Qed.

Lemma messages_some (msgs : list message) : messages (map Some msgs) = msgs.
Proof. unfold messages. induction msgs as [|m msgs IH]; [done|]. cbn. by f_equal. Qed.
Lemma entries_some (msgs : list message) : map entry (map Some msgs) = map packet msgs.
Proof. by rewrite map_map. Qed.

(** The leader reads an entry. *)
Lemma trailing_log y0 e0 its l y it :
  trailing y0 e0 its l y -> can (LLog it) y ->
  Forall message_ok (messages (l ++ sends (LLog it) y)) ->
  trailing y0 e0 (its ++ [it]) (l ++ sends (LLog it) y) (on_live (LLog it) y).1.
Proof.
  intros [Hl Hi Hs Ha Hp (n & heard & gs & q & Hw)] (r & Er & Hsr & Hr & Hmax) Hms.
  unfold sends in *. rewrite Er in *. rewrite messages_app, messages_some in Hms. apply Forall_app in Hms as [_ Hms].
  destruct r as [msgs idx]. cbn [fst snd] in *.
  destruct (item_read growcap MatchString Marshal it (ahead y) msgs idx Hl Hs Hsr Hr Hi Hmax Er)
    as (h' & E & Hl' & Ei & Hle & Hsent).
  unfold on_live. rewrite E. cbn [fst snd]. split; cbn [ahead]; rewrite ?messages_app, ?messages_some.
  - done.
  - lia.
  - apply Hsent.
  - rewrite Ei. by apply (announced_snoc _ _ _ _ _ (msgs, idx) Ha).
  - rewrite docs_app. eapply publish_snoc; [exact Hp|apply Hsent].
  - pose proof Hw as []. exists (with_queue (sendQueue n ++ map (fun m => Encode 1 (enc_message m)) msgs) n),
      heard, gs, (q ++ map packet msgs).
    rewrite map_app, entries_some. rewrite <- (app_nil_r gs).
    apply (piping_server callbacks i e0 (map entry l) (pipe_of y) n heard gs q (env h').2 _ [] _ (map packet msgs)); try done.
    + apply Hl'.
    + apply (sent_queues _ _ _ _ _ Hsent); [|done].
      apply (ok_clients _ pi_server). by exists n.
    + cbn [sendQueue with_queue]. rewrite pi_queue, map_app, map_map. done.
    + by rewrite app_nil_r.
    + apply Forall_map. eapply Forall_impl; [exact Hms|]. intros m. apply packet_ok_message.
Qed.

(** The agents and the network. *)
Lemma trailing_agents y0 e0 its l y e :
  trailing y0 e0 its l y -> can (LPipe e) y -> headed e (pipe_of y) = true -> hearable callbacks e0 (map entry l) ->
  trailing y0 e0 its (l ++ sends (LPipe e) y) (on_live (LPipe e) y).1.
Proof.
  intros [Hl Hi Hs Ha Hp (n & heard & gs & q & Hw)] Hc Hd Hh.
  assert (Hm : messages (l ++ sends (LPipe e) y) = messages l).
  { rewrite messages_app. destruct e; cbn; by rewrite app_nil_r. }
  assert (He : map entry (sends (LPipe e) y) = announces e) by (by destruct e).
  assert (Hmay : may i e (pipe_of y) && headed e (pipe_of y) = true) by (rewrite Hd, andb_true_r; by destruct e).
  destruct (piping_step callbacks growcap i e0 _ _ _ _ _ _ e Hw Hh Hmay) as (n' & heard' & gs' & q' & Hw').
  unfold on_live. cbn [fst]. split; cbn [ahead of_pipe Binlog.env Binlog.with_env EventIndex fst]; rewrite ?Hm; try done.
  - destruct Hl. split; try done. apply Hw'.
  - exists n', heard', gs', q'. rewrite map_app, He. revert Hw'. unfold pipe_of, of_pipe. cbn [ahead inbuf behind taken Binlog.env Binlog.with_env snd].
    by destruct (on_pipe_event _ _ _ _ _).1.
Qed.
(** *** Runs *)
Lemma items_snoc evs e : items (evs ++ [e]) = items evs ++ item_of e.
Proof. unfold items. rewrite map_app, concat_app. cbn. by rewrite app_nil_r. Qed.

Lemma live_trailing y0 e0 evs l y :
  trailing y0 e0 [] [] y0 -> live y0 evs l y -> headed_all evs y0 = true -> standing_by (messages l) e0 ->
  trailing y0 e0 (items evs) l y.
Proof.
  intros H0 Hrun. induction Hrun as [|evs l y e Hrun IH Hcan]; intros Hd Hst; [done|].
  rewrite headed_all_app, <- (live_is_run _ _ _ _ Hrun) in Hd. apply andb_prop in Hd as [Hd [He _]%andb_prop].
  pose proof Hst as Hst'. rewrite messages_app in Hst'. apply standing_by_prefix in Hst'.
  specialize (IH Hd Hst'). rewrite items_snoc. destruct e as [it|e]; cbn [item_of].
  - apply trailing_log; [done|done|apply Hst].
  - rewrite app_nil_r. apply trailing_agents; [done|done|exact He|]. by apply entries_heard.
Qed.

(** A leader and a follower that can take part in a run. *)
Record ready h (conn : nat) c : Prop := {
  rd_leading : leading h;
  rd_index : - 2 ^ 63 <= EventIndex h;
  rd_service : service_ok (env h).1;
  rd_next : next_node (env h).2 = i;
  rd_connected : connected c = true
}.

Lemma joined_trailing h conn c : ready h conn c -> trailing (joined h conn c) (AgentClient.env c) [] [] (joined h conn c).
Proof.
  intros [[Hx Ho Hsv] Hi Hs Hn Hc]. split; try done.
  - split; try done. by apply preserves_accept.
  - eexists _, _, _, _. by apply (dialled_piping callbacks growcap i (env h).2 conn c).
Qed.

(** ** The theorems *)

(** C4: However the leader's reading, its agent, its other followers, the
    network and the follower interleave, the follower is always a copy of a
    moment of its leader: the leader has published the events of the entries
    it read, the follower those of a prefix of the messages; and when the
    leader is lost at that moment and the follower elected, it reads on from
    the last position of that prefix, with the leader's event index there.
    The conditions: the follower's first read brings at least the four bytes
    of a packet header ([headed_all]; a shorter one loses its bytes,
    [Replica.split_header_loses]) - behind that the stream is cut anywhere;
    the entries decode and the send queues of both ends have room when a
    message is put into them ([can], [standing_by]); and the follower can read
    the documents ([standing_by]: JSON objects that name the row's database
    and table, which [Delivery.v] shows of tables without float columns, and
    that fit its buffer). *)
Theorem follower_trails h conn c evs l y :
  ready h conn c -> live (joined h conn c) evs l y -> headed_all evs (joined h conn c) = true ->
  standing_by (messages l) (AgentClient.env c) ->
  exists msgs1 msgs2,
    announced Marshal (EventIndex h) (items evs) = Ret (msgs1 ++ msgs2, EventIndex (ahead y)) /\
    EventPath.publish (docs (msgs1 ++ msgs2)) (env h).1 = ((env (ahead y)).1, Ret tt) /\
    EventPath.publish (docs msgs1) (env (AgentClient.env c)).1 = ((env (AgentClient.env (behind y))).1, Ret tt) /\
    forall p k dial, at_rest (AgentClient.env c) -> server_ok (env (AgentClient.env c)).2 ->
      last_pos msgs1 = Some (p, k) -> PosName p <> [] ->
      let h2 := reader_turns Marshal (AgentClient.env (elected disk dial (behind y))) in
      leading h2 /\ EventIndex h2 = k /\ runs h2 = runs (AgentClient.env c) ++ [p] /\
      env h2 = env (AgentClient.env (behind y)).
Proof.
  intros Hr Hrun Hd Hst.
  destruct (live_trailing _ (AgentClient.env c) evs l y (joined_trailing h conn c Hr) Hrun Hd Hst)
    as [_ _ _ Ha Hp (n & heard & gs & q & [])].
  apply map_eq_app in pi_told as (l1 & l2 & -> & <- & _).
  rewrite messages_app in *. pose proof (standing_by_prefix _ _ _ Hst) as Hst1.
  destruct (entries_heard l1 _ Hst1) as [_ Ef]. rewrite Ef in pi_env.
  cbn [cli pipe_of] in pi_env. exists (messages l1), (messages l2). split_and!; [done|done| |].
  - rewrite pi_env. destruct Hst1. by apply (mirror_publishes growcap MatchString Unmarshal Marshal).
  - intros p k dial Hrest Hsv Hlast Hname.
    assert (Eb : behind y = AgentClient.with_env (foldl (mirror disk) (AgentClient.env c) (messages l1))
        (AgentClient.with_env (AgentClient.env c) (behind y))) by (rewrite <- pi_env; by destruct (behind y)).
    destruct Hst1 as [Hf _ _ _].
    pose proof (takes_over Marshal disk (messages l1) (AgentClient.with_env (AgentClient.env c) (behind y)) p k dial
      Hrest Hf Hsv Hlast Hname) as Ht.
    cbn [AgentClient.env AgentClient.with_env] in Ht. cbv zeta in *. rewrite Eb at 1 2 3 4. rewrite pi_env. exact Ht.
Qed.

(** Steps of the connection alone are steps of the whole. *)
Lemma live_pipe y0 more : forall evs l y,
  live y0 evs l y -> Forall (fun e => e = PSend \/ exists k, e = PRead k) more ->
  may_run callbacks growcap i more (pipe_of y) = true ->
  exists y', live y0 (evs ++ map LPipe more) l y' /\ pipe_of y' = run (on_pipe_event callbacks growcap i) more (pipe_of y) /\
    (env (ahead y')).1 = (env (ahead y)).1 /\ EventIndex (ahead y') = EventIndex (ahead y).
Proof.
  induction more as [|e more IH]; intros evs l y Hrun Hall Hm; [by exists y; rewrite app_nil_r|].
  apply Forall_cons in Hall as [He Hall]. apply andb_prop in Hm as [Hm1 Hm].
  assert (Hstep : live y0 (evs ++ [LPipe e]) l (on_live (LPipe e) y).1).
  { rewrite <- (app_nil_r l). replace [] with (sends (LPipe e) y) by (by destruct He as [->|[k ->]]).
    apply live_step; [done|]. by destruct He as [->|[k ->]]. }
  assert (Ep : pipe_of (on_live (LPipe e) y).1 = (on_pipe_event callbacks growcap i e (pipe_of y)).1).
  { unfold on_live, pipe_of, of_pipe. cbn [fst ahead inbuf behind taken Binlog.env Binlog.with_env snd].
    by destruct (on_pipe_event _ _ _ _ _).1. }
  destruct (IH _ l _ Hstep Hall) as (y' & H1 & H2 & H3 & H4); [by rewrite Ep|].
  exists y'. cbn [map]. rewrite cons_middle, app_assoc. split_and!; [done| |done|done]. by rewrite H2, Ep.
Qed.

(** C5: And the follower keeps up: under the conditions of [follower_trails] -
    the follower's reads so far began with one that brought at least the four
    bytes of a packet header, the send queues have had room, it can read the
    documents -, from every state of such a run, turns of the connection's
    sender and reads of the follower, without a further step of the leader's
    reader, lead to a state in which the follower has published every event
    the leader has and holds its last announced position. *)
Theorem follower_keeps_up h conn c evs l y :
  ready h conn c -> live (joined h conn c) evs l y -> headed_all evs (joined h conn c) = true ->
  standing_by (messages l) (AgentClient.env c) ->
  exists more y', live (joined h conn c) (evs ++ map LPipe more) l y' /\ items (evs ++ map LPipe more) = items evs /\
    EventPath.publish (docs (messages l)) (env h).1 = ((env (ahead y')).1, Ret tt) /\
    EventPath.publish (docs (messages l)) (env (AgentClient.env c)).1 = ((env (AgentClient.env (behind y'))).1, Ret tt) /\
    forall p k, last_pos (messages l) = Some (p, k) ->
      lastBinFile (AgentClient.env (behind y')) = PosName p /\ lastPos (AgentClient.env (behind y')) = Pos p /\
      EventIndex (AgentClient.env (behind y')) = k.
Proof.
  intros Hr Hrun Hd Hst.
  destruct (live_trailing _ (AgentClient.env c) evs l y (joined_trailing h conn c Hr) Hrun Hd Hst)
    as [_ _ _ _ Hp (n & heard & gs & q & Hw)].
  destruct (entries_heard l _ Hst) as [Hh Ef].
  destruct (catches_up callbacks growcap i _ _ _ n heard gs q Hw Hh) as (more & Hall & Hm & Ee).
  destruct (live_pipe _ more evs l y Hrun Hall Hm) as (y' & Hrun' & Ey & Es & _).
  rewrite <- Ey in Ee. cbn [cli pipe_of] in Ee. rewrite Ef in Ee. exists more, y'. split; [done|]. split.
  { unfold items. rewrite map_app, concat_app, map_map. replace (concat (map _ more)) with ([] : list log_item);
      [by rewrite app_nil_r|]. clear. by induction more. }
  destruct Hst as [Hf Ht Hro Hms]. split; [by rewrite Es|]. rewrite Ee. split.
  - by apply (mirror_publishes growcap MatchString Unmarshal Marshal).
  - intros p k Hlast. pose proof (mirror_position disk (messages l) (AgentClient.env c)) as H. by rewrite Hlast in H.
Qed.
End Streaming.

(** ** Concrete instances: two positions and two rows *)
Section StreamingInstances.
#[local] Abbreviation twice := Cluster.twice.
#[local] Abbreviation marshal := Cluster.marshal.
#[local] Abbreviation unmarshal := Cluster.unmarshal.
#[local] Definition a_leader : reader := Cluster.reader_with NewServer.
#[local] Definition a_follower : Client reader := (Connect None Cluster.a_follower).1.
#[local] Definition two_rows : RowsEvent :=
  mkRowsEvent (gostr "db") (gostr "users") [] (gostr "insert") [[]; []].

(** The first position is on its way when the rows are read; another follower
    comes and goes; the follower has the first row and a part of the second. *)
#[local] Definition some_events : list live_event :=
  [LLog (LSynced (Cluster.at_ 100) 0); LPipe PSend; LPipe (PRead 20); LPipe (PServer (EvAccept 8));
   LLog (LRows two_rows 7); LPipe PTick; LPipe PSend; LPipe (PServer (EvRead 1 RErr)); LPipe PSend; LPipe (PRead 70)].
#[local] Definition some_start : pair := joined twice a_leader 7 a_follower.
#[local] Definition some_pair : pair := run (on_live twice unmarshal marshal length 0) some_events some_start.
#[local] Definition some_entries : list (option message) :=
  sends_all twice unmarshal marshal length 0 some_events some_start.

#[local] Lemma some_live : live twice unmarshal marshal length 0 some_start some_events some_entries some_pair.
Proof.
  apply (live_run twice unmarshal marshal length 0 some_start some_events [] [] some_start); [constructor|].
  unfold some_events. cbn [can_all].
  repeat match goal with
    | |- True => exact I
    | |- _ /\ _ => split
    | |- can _ _ (LPipe _) _ => vm_compute; reflexivity
    end.
  - eexists. split; [vm_compute; reflexivity|]. split_and!; [apply LogPath.some_room; by vm_compute| |by vm_compute].
    intros j n Hj En. apply list_elem_of_singleton in Hj as ->. vm_compute in En. injection En as <-. by vm_compute.
  - eexists. split; [vm_compute; reflexivity|]. split_and!; [apply LogPath.some_room; by vm_compute| |by vm_compute].
    intros j n Hj En. apply elem_of_cons in Hj as [->|Hj%list_elem_of_singleton]; [|subst j];
      vm_compute in En; injection En as <-; by vm_compute.
Qed.

#[local] Lemma some_events_headed : headed_all twice unmarshal marshal length 0 some_events some_start = true.
Proof. vm_compute. reflexivity. Qed.

#[local] Lemma some_ready : ready twice SubService.same 0 a_leader 7 a_follower.
Proof. split; [split; [done|done|apply server_ok_init]|by vm_compute|exact SubService.some_service_ok|done|done]. Qed.

#[local] Lemma row_ok d : rd_database d = gostr "db" -> rd_table d = gostr "users" ->
  message_ok unmarshal marshal (MEvent d (gostr "{}")).
Proof.
  intros Hd Ht. split; [done| |by vm_compute]. eexists. split; [reflexivity|]. rewrite Hd, Ht. by split; vm_compute.
Qed.

#[local] Lemma some_standing_by :
  standing_by twice SubService.same unmarshal marshal (messages some_entries) (AgentClient.env a_follower).
Proof.
  split; [by split|exact SubService.some_service_ok|apply LogPath.some_room; by vm_compute|].
  assert (H : match messages some_entries with
    | [m; MEvent d1 j1; MEvent d2 j2] => m = MPos (Cluster.at_ 100) 0 /\ j1 = gostr "{}" /\ j2 = gostr "{}" /\
        rd_database d1 = gostr "db" /\ rd_table d1 = gostr "users" /\ rd_database d2 = gostr "db" /\ rd_table d2 = gostr "users"
    | _ => False end) by (vm_compute; tauto).
  destruct (messages some_entries) as [|m [|[d1 j1|] [|[d2 j2|] [|]]]]; try done.
  destruct H as (-> & -> & -> & ? & ? & ? & ?).
  apply Forall_cons; split; [repeat constructor; vm_compute; congruence|].
  apply Forall_cons; split; [by apply row_ok|]. apply Forall_singleton. by apply row_ok.
Qed.

Lemma follower_trails_witness :
  exists msgs1 msgs2,
    announced marshal 0 (items some_events) = Ret (msgs1 ++ msgs2, EventIndex (ahead some_pair)) /\
    EventPath.publish (docs (msgs1 ++ msgs2)) (env a_leader).1 = ((env (ahead some_pair)).1, Ret tt) /\
    EventPath.publish (docs msgs1) (env (AgentClient.env a_follower)).1 =
      ((env (AgentClient.env (behind some_pair))).1, Ret tt) /\
    forall p k dial, at_rest (AgentClient.env a_follower) -> server_ok (env (AgentClient.env a_follower)).2 ->
      last_pos msgs1 = Some (p, k) -> PosName p <> [] ->
      let h2 := reader_turns marshal (AgentClient.env (elected length dial (behind some_pair))) in
      leading h2 /\ EventIndex h2 = k /\ runs h2 = runs (AgentClient.env a_follower) ++ [p] /\
      env h2 = env (AgentClient.env (behind some_pair)).
Proof.
  exact (follower_trails twice SubService.same unmarshal marshal length 0 a_leader 7 a_follower some_events some_entries
    some_pair some_ready some_live some_events_headed some_standing_by).
Defined.

Lemma follower_keeps_up_witness :
  exists more y', live twice unmarshal marshal length 0 some_start (some_events ++ map LPipe more) some_entries y' /\
    items (some_events ++ map LPipe more) = items some_events /\
    EventPath.publish (docs (messages some_entries)) (env a_leader).1 = ((env (ahead y')).1, Ret tt) /\
    EventPath.publish (docs (messages some_entries)) (env (AgentClient.env a_follower)).1 =
      ((env (AgentClient.env (behind y'))).1, Ret tt) /\
    forall p k, last_pos (messages some_entries) = Some (p, k) ->
      lastBinFile (AgentClient.env (behind y')) = PosName p /\ lastPos (AgentClient.env (behind y')) = Pos p /\
      EventIndex (AgentClient.env (behind y')) = k.
Proof.
  exact (follower_keeps_up twice SubService.same unmarshal marshal length 0 a_leader 7 a_follower some_events some_entries
    some_pair some_ready some_live some_events_headed some_standing_by).
Defined.

Example some_pair_between :
  lastPos (AgentClient.env (behind some_pair)) = 100 /\ EventIndex (ahead some_pair) = 2 /\
  length (messages some_entries) = 3%nat.
Proof. split_and!; vm_compute; reflexivity. Qed.
End StreamingInstances.
