(* ===== verification/Delivery.v ===== *)
(** * Delivery: from the master's log to the maps the subscribers get

    [LogPath.v] with the documents of [Documents.v] in the place of its
    parameters: the leader marshals the rows, the followers' agents look up
    the table in the document ([onClientMessage] of [src/agent/agent.go]) and
    the subscribers' clients decode it ([onMessage] of [src/client/tcp.go]);
    and what happens to the log when the leader is lost. *)
From S2P Require Import Prelude.
From S2P Require Import GoSem.
From S2P Require Import Utf8.
From S2P Require Import Framing.
From S2P Require Import Frame.
From S2P Require Import SubNode.
From S2P Require Import SubGroups.
From S2P Require Import SubService.
From S2P Require Import EventPath.
From S2P Require Import Codec.
From S2P Require Import AgentRecv.
From S2P Require Import AgentServer.
From S2P Require Import AgentClient.
From S2P Require Import AgentService.
From S2P Require Import PosCodec.
From S2P Require Import FieldDecode.
From S2P Require Import Binlog.
From S2P Require Import RowTypes.
From S2P Require Import Cluster.
From S2P Require Import LogPath.
From S2P Require Json.
From S2P Require Import Documents.
Set Default Proof Using "Type".

(** ** Reading documents *)

(** The agent: an error drops the document. *)
Definition jval_of (v : Json.iface) : jval :=
  match v with Json.IString s => JString s | _ => JOther end.
Definition agent_unmarshal (data : bytes) : option (gmap bytes jval) :=
  match Json.Unmarshal data with
  | Ret (raw, None) => Some (jval_of <$> default ∅ raw)
  | _ => None
  end.
(** The client: it does not look at the error, and hands on the map, [nil] or
    not. *)
Definition client_unmarshal (data : bytes) : option (gmap bytes Json.iface) :=
  match Json.Unmarshal data with
  | Ret (raw, _) => raw
  | _ => None
  end.

(** ** The rows of a log *)

(** A row without the time at which it was read. *)
Definition retime (now : Z) (d : row_data) : row_data :=
  mkRowData (rd_database d) (rd_event_type d) now (rd_table d) (rd_event_index d) (rd_event d).
Definition untimed : row_data -> row_data := retime 0.

(** The rows of a log, decoded and numbered from [idx] on. *)
Fixpoint log_rows (idx : Z) (items : list log_item) : outcome (list row_data) :=
  match items with
  | [] => Ret []
  | LRows e _ :: items =>
      obind (events_of e 0 idx) (fun l =>
      obind (log_rows (idx + len l) items) (fun r => Ret (l ++ r)))
  | LSynced _ _ :: items => log_rows idx items
  end.

(** The rows among messages. *)
Fixpoint rows_of (msgs : list message) : list row_data :=
  match msgs with
  | [] => []
  | MEvent d _ :: msgs => d :: rows_of msgs
  | MPos _ _ :: msgs => rows_of msgs
  end.

(** The same piece of the log, read at another time. *)
Inductive replayed : log_item -> log_item -> Prop :=
  | rp_rows e now now' : replayed (LRows e now) (LRows e now')
  | rp_synced p wn wn' : replayed (LSynced p wn) (LSynced p wn').

Lemma rows_of_app l1 l2 : rows_of (l1 ++ l2) = rows_of l1 ++ rows_of l2.
Proof. induction l1 as [|[d j|p i] l1 IH]; cbn; congruence. Qed.

(** Time is but a stamp. *)
Lemma update_events_retime e now now' n : forall rows idx l, (length rows <= n)%nat ->
  update_events e now idx rows = Ret l -> update_events e now' idx rows = Ret (map (retime now') l).
Proof.
  induction n as [|n IH]; intros [|old [|new rows]] idx l Hn Hl; cbn [length update_events] in *;
    try lia; try (by injection Hl as <-); [done|].
  destruct (decode_row _ old _) as [d1| | |]; try done. destruct (decode_row _ new _) as [d2| | |]; try done.
  cbn [obind] in *. destruct (update_events e now (idx + 1) rows) as [l'| | |] eqn:El; try done.
  cbn [obind] in Hl. injection Hl as <-. rewrite (IH rows (idx + 1) l') by (lia || done). done.
Qed.
Lemma other_events_retime e now now' rows : forall idx l,
  other_events e now idx rows = Ret l -> other_events e now' idx rows = Ret (map (retime now') l).
Proof.
  induction rows as [|row rows IH]; intros idx l Hl; cbn [other_events] in *; [by injection Hl as <-|].
  destruct (decode_row _ row _) as [d| | |]; try done. cbn [obind] in *.
  destruct (other_events e now (idx + 1) rows) as [l'| | |] eqn:El; try done.
  cbn [obind] in Hl. injection Hl as <-. by rewrite (IH (idx + 1) l' El).
Qed.
Lemma events_of_retime e now now' idx l :
  events_of e now idx = Ret l -> events_of e now' idx = Ret (map (retime now') l).
Proof.
  unfold events_of. case_bool_decide; [by eapply update_events_retime|apply other_events_retime].
Qed.

(** The stamps of the rows of an event. *)
Record stamped (e : RowsEvent) (now : Z) (d : row_data) : Prop := {
  st_database : rd_database d = Schema e;
  st_table : rd_table d = Table e;
  st_time : rd_time d = now
}.
Definition numbered (idx : Z) (l : list row_data) : Prop := map rd_event_index l = seqZ (idx + 1) (len l).

Lemma numbered_nil idx : numbered idx [].
Proof. done. Qed.
Lemma numbered_cons idx d l : rd_event_index d = idx + 1 -> numbered (idx + 1) l -> numbered idx (d :: l).
Proof.
  unfold numbered, len. intros Hd Hl. cbn [map length]. rewrite Hl, Hd. rewrite (seqZ_cons (idx + 1)) by lia.
  f_equal. f_equal; lia.
Qed.
Lemma numbered_app idx l1 l2 : numbered idx l1 -> numbered (idx + len l1) l2 -> numbered idx (l1 ++ l2).
Proof.
  unfold numbered, len. intros H1 H2. rewrite map_app, H1, H2, length_app, Nat2Z.inj_add, seqZ_app by lia.
  f_equal. f_equal. lia.
Qed.
Lemma numbered_map idx l now : numbered idx l -> numbered idx (map (retime now) l).
Proof. unfold numbered, len. by rewrite map_map, length_map. Qed.

Lemma events_of_stamped e now idx l : events_of e now idx = Ret l -> Forall (stamped e now) l /\ numbered idx l.
Proof.
  unfold events_of. case_bool_decide.
  - generalize (le_n (length (Rows e))). generalize (Rows e) at 1 3. intros rows. generalize (length (Rows e)) as n.
    intros n. revert rows idx l. induction n as [|n IH]; intros [|old [|new rows]] idx l Hn Hl;
      cbn [length update_events] in *; try lia; try (injection Hl as <-; split; [constructor|apply numbered_nil]); [done|].
    destruct (decode_row _ old _) as [d1| | |]; try done. destruct (decode_row _ new _) as [d2| | |]; try done.
    cbn [obind] in *. destruct (update_events e now (idx + 1) rows) as [l'| | |] eqn:El; try done.
    cbn [obind] in Hl. injection Hl as <-. apply IH in El as [H1 H2]; [|lia].
    split; [by constructor|by apply numbered_cons].
  - generalize (Rows e). intros rows. revert idx l. induction rows as [|row rows IH]; intros idx l Hl; cbn [other_events] in *.
    { injection Hl as <-. split; [constructor|apply numbered_nil]. }
    destruct (decode_row _ row _) as [d| | |]; try done. cbn [obind] in *.
    destruct (other_events e now (idx + 1) rows) as [l'| | |] eqn:El; try done.
    cbn [obind] in Hl. injection Hl as <-. apply IH in El as [H1 H2]. split; [by constructor|by apply numbered_cons].
Qed.

(** ** Logs of tables that JSON can carry *)
Section Documented.
Variable other : nat -> option Json.json.
Hypothesis other_ok : forall n v, other n = Some v -> Json.value_ok v.
#[local] Abbreviation Marshal := (Documents.Marshal other).
#[local] Abbreviation readable := (message_ok agent_unmarshal Marshal).

(** An entry of the log: rows of a table without float columns, with names in
    UTF-8, or a position that fits the cache. *)
Definition item_ok (it : log_item) : Prop :=
  match it with
  | LRows e now => exists sch, plain_table sch /\ delivers sch e /\ ValidString (Schema e) /\ ValidString (Table e) /\
                     signed_ok 64 now
  | LSynced p _ => len (PosName p) + 18 <= Z.of_nat MinRead /\ 0 <= Pos p < 2 ^ 32
  end.
(** A document that fits the receivers' buffers. *)
Definition small_message (m : message) : Prop :=
  match m with MEvent _ json => len json + 22 + 4096 <= PackageMaxLength | MPos _ _ => True end.

(** A document that decodes to its row's map. *)
Definition decodes (m : message) : Prop :=
  match m with MEvent d json => Json.Unmarshal json = Ret (Some (row_map other d), None) | MPos _ _ => True end.

(** The followers find the table of every row. *)
Lemma row_document sch e now idx d : plain_table sch -> event_ok sch d -> stamped e now d ->
  ValidString (Schema e) -> ValidString (Table e) -> signed_ok 64 now -> rd_event_index d = idx -> signed_ok 64 idx ->
  exists json, Marshal d = Some json /\ decodes (MEvent d json) /\
    (small_message (MEvent d json) -> document agent_unmarshal Marshal d json).
Proof using other_ok.
  intros Hp Hd [Es Et En] Vs Vt Hn <- Hi. rewrite <- En in Hn. rewrite <- Es in Vs. rewrite <- Et in Vt.
  destruct (row_readable other sch d Hp Hd Hi Hn) as (Hc & Ho & [json Ej]). exists json. split; [done|].
  assert (Eu : Json.Unmarshal json = Ret (Some (row_map other d), None)).
  { by rewrite (Unmarshal_Marshal other other_ok d json Ej Hc), Ho. }
  split; [exact Eu|]. intros Hs. split; [done| |exact Hs]. unfold agent_unmarshal. rewrite Eu. eexists. split; [done|]. cbn [default id].
  rewrite !lookup_fmap. unfold row_map, id. split.
  - rewrite lookup_insert_eq. cbn. by rewrite valid_string_id.
  - rewrite 4!lookup_insert_ne by done. rewrite lookup_insert_eq. cbn. by rewrite valid_string_id.
Qed.

Lemma messages_readable sch e now l : plain_table sch -> ValidString (Schema e) -> ValidString (Table e) ->
  signed_ok 64 now -> Forall (event_ok sch) l -> Forall (stamped e now) l ->
  Forall (fun d => signed_ok 64 (rd_event_index d)) l ->
  rows_of (messages_of Marshal l) = l /\ Forall decodes (messages_of Marshal l) /\
  (Forall small_message (messages_of Marshal l) -> Forall readable (messages_of Marshal l)).
Proof using other_ok.
  intros Hp Vs Vt Hn Hl Hst Hi. induction Hl as [|d l Hd Hl IH]; [done|].
  apply Forall_cons in Hst as [Hs Hst], Hi as [Hdi Hi]. destruct (IH Hst Hi) as (IH1 & IHd & IH2). cbn [messages_of].
  destruct (row_document sch e now _ d Hp Hd Hs Vs Vt Hn eq_refl Hdi) as (json & -> & Hdec & Hdoc). cbn [rows_of].
  split_and!; [by rewrite IH1|by apply Forall_cons|]. intros [Hm Hms]%Forall_cons. apply Forall_cons. split; [by apply Hdoc|by apply IH2].
Qed.

Lemma numbered_signed idx l : numbered idx l -> - 2 ^ 63 <= idx -> idx + len l <= MaxInt64 ->
  Forall (fun d => signed_ok 64 (rd_event_index d)) l.
Proof.
  intros Hl H0 H1. apply Forall_forall. intros d Hd. apply (list_elem_of_fmap_2 rd_event_index) in Hd.
  change (rd_event_index <$> l) with (map rd_event_index l) in Hd. rewrite Hl in Hd. apply elem_of_seqZ in Hd.
  unfold signed_ok. change MaxInt64 with (2 ^ 63 - 1) in H1. lia.
Qed.

(** C11: Every row of an event is printed and reaches a subscriber's callbacks as a
    map with the database, the table and the kind of the event, its index and
    every column: [nil], text, binary strings in base64, and the integers of
    every width up to 2^53 exactly.  (Beyond, the client sees the nearest
    [float64]: [Documents.seen_int_collides].) *)
Theorem rows_roundtrip sch e now idx : plain_table sch -> delivers sch e -> signed_ok 64 now ->
  - 2 ^ 63 <= idx -> idx + len (Rows e) <= MaxInt64 ->
  exists l, events_of e now idx = Ret l /\ numbered idx l /\
    Forall (fun d => stamped e now d /\ event_ok sch d /\
      exists json m, Marshal d = Some json /\ client_unmarshal json = Some m /\ row_carried d m) l.
Proof using other_ok.
  intros Hp Hd Hn H0 H1. destruct (events_of_sound sch e now idx Hd) as (l & El & Hl).
  destruct (events_of_stamped e now idx l El) as [Hst Hnum]. pose proof (events_of_length e now idx l El) as Hlen.
  exists l. split_and!; [done..|]. pose proof (numbered_signed idx l Hnum H0 ltac:(unfold len in *; lia)) as Hi.
  apply Forall_forall. intros d Hdl. rewrite Forall_forall in Hl, Hst, Hi. pose proof (Hst d Hdl) as Hs.
  split_and!; [done|by apply Hl|]. destruct (row_readable other sch d Hp (Hl d Hdl) (Hi d Hdl)) as (Hc & Ho & json & Ej).
  { by rewrite (st_time _ _ _ Hs). }
  exists json, (row_map other d). split_and!; [done| |apply row_map_carried]. unfold client_unmarshal.
  by rewrite (Unmarshal_Marshal other other_ok d json Ej Hc).
Qed.

(** What the leader announces of such a log: all its rows, numbered one after
    another, in documents every follower can read. *)
Lemma log_announced items : forall idx,
  Forall item_ok items -> - 2 ^ 63 <= idx -> idx + rows_in items <= MaxInt64 ->
  exists msgs, announced Marshal idx items = Ret (msgs, idx + len (rows_of msgs)) /\
    log_rows idx items = Ret (map untimed (rows_of msgs)) /\ numbered idx (rows_of msgs) /\
    len (rows_of msgs) <= rows_in items /\ Forall decodes msgs /\ (Forall small_message msgs -> Forall readable msgs).
Proof using other_ok.
  induction items as [|it items IH]; intros idx Hok H0 H1.
  { exists []. cbn [announced log_rows rows_of]. rewrite Z.add_0_r. split_and!; done. }
  apply Forall_cons in Hok as [Hit Hok]. destruct it as [e now|p wn]; cbn [announced log_rows rows_in] in *.
  - destruct Hit as (sch & Hp & Hd & Vs & Vt & Hn).
    destruct (events_of_sound sch e now idx Hd) as (l & El & Hl). rewrite El, (events_of_retime e now 0 idx l El).
    cbn [obind]. pose proof (events_of_length e now idx l El) as Hlen.
    pose proof (rows_in_nonneg items) as Hrn. assert (Hl0 : 0 <= len l) by (unfold len; lia).
    destruct (events_of_stamped e now idx l El) as [Hst Hnum].
    destruct (messages_readable sch e now l) as (Erows & Hdec & Hread); try done.
    { apply (numbered_signed idx); [done|lia|lia]. }
    destruct (IH (idx + len l)) as (msgs & Ea & Er & Hn2 & Hle & Hd2 & Hr2); [done|lia|lia|].
    assert (Em : len (map (retime 0) l) = len l) by (unfold len; by rewrite length_map). rewrite Em, Ea, Er. cbn [obind fst snd].
    exists (messages_of Marshal l ++ msgs). rewrite rows_of_app, Erows.
    assert (Elen : len (l ++ rows_of msgs) = len l + len (rows_of msgs)) by (unfold len; rewrite length_app; lia).
    rewrite Elen. split_and!; [by rewrite Z.add_assoc|by rewrite map_app|by apply numbered_app|lia|by apply Forall_app|].
    intros [Hs1 Hs2]%Forall_app. apply Forall_app. auto.
  - destruct (IH idx) as (msgs & Ea & Er & Hn2 & Hle & Hd2 & Hr2); [done|lia|done|]. rewrite Ea, Er. cbn [obind fst snd].
    exists (MPos p idx :: msgs). cbn [rows_of]. split_and!; try done; [by apply Forall_cons|].
    intros [_ Hs]%Forall_cons. apply Forall_cons. split; [|auto]. destruct Hit as [Hf Hpos].
    pose proof (rows_in_nonneg items). split; [done|done|]. unfold MaxInt64 in *. lia.
Qed.

(** A log read again. *)
Lemma replayed_rows items items' : Forall2 replayed items items' -> forall idx, log_rows idx items' = log_rows idx items.
Proof.
  induction 1 as [|it it' items items' Hit _ IH]; intros idx; [done|]. destruct Hit; cbn [log_rows]; [|apply IH].
  destruct (events_of e 0 idx) as [l| | |]; try done. cbn [obind]. by rewrite IH.
Qed.
Lemma log_rows_app l1 l2 idx : log_rows idx (l1 ++ l2) =
  obind (log_rows idx l1) (fun r1 => obind (log_rows (idx + len r1) l2) (fun r2 => Ret (r1 ++ r2))).
Proof.
  revert idx. induction l1 as [|[e now|p wn] l1 IH]; intros idx; cbn [app log_rows obind].
  - rewrite Z.add_0_r. by destruct (log_rows idx l2).
  - destruct (events_of e 0 idx) as [l| | |]; try done. cbn [obind]. rewrite IH.
    destruct (log_rows (idx + len l) l1) as [r1| | |]; try done. cbn [obind].
    assert (Elen : len (l ++ r1) = len l + len r1) by (unfold len; rewrite length_app; lia).
    rewrite Elen, Z.add_assoc. destruct (log_rows _ l2); try done. cbn [obind]. by rewrite app_assoc.
  - apply IH.
Qed.

(** ** The last position of a piece of the log *)
Lemma last_pos_split msgs p k : last_pos msgs = Some (p, k) -> exists l1 l2, msgs = l1 ++ MPos p k :: l2.
Proof.
  induction msgs as [|[d j|q i] msgs IH]; cbn [last_pos]; [done| |].
  - intros E. destruct (IH E) as (l1 & l2 & ->). by exists (MEvent d j :: l1), l2.
  - destruct (last_pos msgs) as [[p' k']|]; cbn [default]; intros [= <- <-].
    + destruct (IH eq_refl) as (l1 & l2 & ->). by exists (MPos q i :: l1), l2.
    + by exists [], msgs.
Qed.
Lemma messages_of_events l p k : MPos p k ∉ messages_of Marshal l.
Proof.
  induction l as [|d l IH]; cbn [messages_of]; [apply not_elem_of_nil|].
  destruct (Marshal d); [|done]. by intros [?|?]%elem_of_cons.
Qed.
Lemma announced_split l1 p k l3 idx' items : forall idx,
  announced Marshal idx items = Ret (l1 ++ MPos p k :: l3, idx') ->
  exists A wn B, items = A ++ LSynced p wn :: B /\ announced Marshal idx A = Ret (l1, k) /\
    announced Marshal k B = Ret (l3, idx').
Proof.
  revert l1. induction items as [|it items IH]; intros l1 idx Ha; [by destruct l1|].
  destruct it as [e now|q wn]; cbn [announced] in Ha.
  - destruct (events_of e now idx) as [l| | |] eqn:El; try done. cbn [obind] in Ha.
    destruct (announced Marshal (idx + len l) items) as [[m2 i2]| | |] eqn:Er; try done. cbn [obind fst snd] in Ha.
    injection Ha as Em ->. apply List.app_eq_app in Em as (t & [[E1 E2]|[-> E2]]).
    { destruct t as [|x t]; cycle 1.
      { injection E2 as <- ->. exfalso. apply (messages_of_events l p k). rewrite E1. apply elem_of_app. right. by left. }
      rewrite app_nil_r in E1. subst l1. cbn in E2. subst m2.
      destruct (IH [] _ Er) as (A & wn & B & -> & HA & HB). exists (LRows e now :: A), wn, B.
      split_and!; [done| |done]. cbn [announced]. rewrite El. cbn [obind]. rewrite HA. cbn [obind fst snd]. by rewrite app_nil_r. }
    subst m2. destruct (IH t _ Er) as (A & wn & B & -> & HA & HB). exists (LRows e now :: A), wn, B.
    split_and!; [done| |done]. cbn [announced]. rewrite El. cbn [obind]. by rewrite HA.
  - destruct (announced Marshal idx items) as [[m2 i2]| | |] eqn:Er; try done. cbn [obind fst snd] in Ha.
    injection Ha as Em ->. destruct l1 as [|x l1].
    + injection Em as -> -> ->. by exists [], wn, items.
    + injection Em as <- ->. destruct (IH l1 _ Er) as (A & wn' & B & -> & HA & HB).
      exists (LSynced q wn :: A), wn', B. split_and!; [done| |done]. cbn [announced]. by rewrite HA.
Qed.

(** What is wanted of decoded documents is the maps of the rows. *)
Lemma handled_rows {E} (MatchString : bytes -> bytes -> option bool)
    (onevent : list (option (gmap bytes Json.iface) -> M E unit)) (topics : list bytes) msgs :
  Forall decodes msgs -> forall e,
  handled client_unmarshal onevent (wanted MatchString topics (docs msgs)) e =
    foldl (fun e d => foldl (fun e g => (g (Some (row_map other d)) e).1) e onevent) e
      (filter (fun d => MatchFilters MatchString topics (table_of d) = true) (rows_of msgs)).
Proof.
  induction 1 as [|[d json|p k] msgs Hm _ IH]; intros e; [done| |apply IH]. cbn [docs rows_of].
  rewrite wanted_cons, filter_cons. cbn [fst snd]. cbn [decodes] in Hm.
  destruct (MatchFilters MatchString topics (table_of d)) eqn:Em; cbn [app].
  - rewrite decide_True by done. unfold handled. cbn [foldl]. unfold client_unmarshal at 2. rewrite Hm. apply IH.
  - rewrite decide_False by done. apply IH.
Qed.
End Documented.

(** ** The cluster *)
Section Cluster.
Variable growcap : nat -> nat -> nat.
Variable MatchString : bytes -> bytes -> option bool.
Variable disk : bytes -> nat.
Variable other : nat -> option Json.json.
Hypothesis other_ok : forall n v, other n = Some v -> Json.value_ok v.
Implicit Types (h : reader) (c : Client reader) (msgs : list message) (items : list log_item).
#[local] Abbreviation Marshal := (Documents.Marshal other).
#[local] Abbreviation service_of c := (env (AgentClient.env c)).1.
#[local] Abbreviation read_log items := (range items (read_item Marshal)).

(** A leader that can read the log [items], which makes it send [msgs]. *)
Record leader_can items msgs (idx : Z) h : Prop := {
  lc_ready : leader_ready growcap MatchString Marshal items msgs idx h;
  lc_items : Forall item_ok items;
  lc_small : Forall small_message msgs
}.

Lemma leader_can_readable items msgs idx h : leader_can items msgs idx h ->
  Forall (message_ok agent_unmarshal Marshal) msgs /\ Forall (decodes other) msgs /\
  log_rows (EventIndex h) items = Ret (map untimed (rows_of msgs)).
Proof using other_ok.
  intros [[_ _ _ _ H0 H1 Ha] Hi Hs].
  destruct (log_announced other other_ok items (EventIndex h) Hi H0 H1) as (msgs' & Ea & Er & _ & _ & Hd & Hr).
  rewrite Ea in Ha. injection Ha as -> _. auto.
Qed.

(** A log that is read to its end by one leader and from its last announced
    position on by the next one. *)
Lemma replayed_log items msgs idx i0 msgs1 msgs2 p k :
  announced Marshal i0 items = Ret (msgs, idx) -> Forall item_ok items -> - 2 ^ 63 <= i0 -> i0 + rows_in items <= MaxInt64 ->
  msgs = msgs1 ++ msgs2 -> last_pos msgs1 = Some (p, k) ->
  exists A wn B, items = A ++ LSynced p wn :: B /\ i0 <= k /\
    forall B' C m3 idx3, Forall2 replayed B B' -> Forall item_ok (B' ++ C) -> k + rows_in (B' ++ C) <= MaxInt64 ->
      announced Marshal k (B' ++ C) = Ret (m3, idx3) ->
      (Forall small_message m3 -> Forall (message_ok agent_unmarshal Marshal) m3) /\
      exists rA rB rC, map untimed (rows_of msgs) = rA ++ rB /\ map untimed (rows_of m3) = rB ++ rC /\
        log_rows i0 (items ++ C) = Ret (rA ++ rB ++ rC) /\ numbered i0 (rA ++ rB ++ rC).
Proof using other_ok.
  intros Ha Hi H0 H1 -> Hlast. destruct (last_pos_split _ _ _ Hlast) as (l1 & l2 & ->).
  rewrite <- app_assoc in Ha. cbn [app] in Ha.
  destruct (announced_split other l1 p k (l2 ++ msgs2) idx items i0 Ha) as (A & wn & B & -> & HA & HB).
  apply Forall_app in Hi as [HiA HiB]. apply Forall_cons in HiB as [_ HiB].
  assert (Hri : rows_in (A ++ LSynced p wn :: B) = rows_in A + rows_in B).
  { clear. induction A as [|it A IH]; cbn [app]; [done|]. rewrite rows_in_cons, IH, (rows_in_cons it A). lia. }
  rewrite Hri in H1. pose proof (rows_in_nonneg A). pose proof (rows_in_nonneg B).
  destruct (log_announced other other_ok A i0 HiA H0 ltac:(lia)) as (mA & EA & LA & NA & LenA & _ & _).
  rewrite HA in EA. injection EA as <- ->. assert (Hl1 : 0 <= len (rows_of l1)) by (unfold len; lia).
  set (k := i0 + len (rows_of l1)) in *.
  destruct (log_announced other other_ok B k HiB ltac:(lia) ltac:(lia)) as (mB & EB & LB & NB & _ & _ & _).
  rewrite HB in EB. injection EB as <- _.
  exists A, wn, B. split_and!; [done|lia|]. intros B' C m3 idx3 Hrep Hi3 H3 Ha3.
  destruct (log_announced other other_ok (B' ++ C) k Hi3 ltac:(lia) ltac:(lia)) as (m3' & E3 & L3 & N3 & _ & _ & Hr3).
  rewrite Ha3 in E3. injection E3 as <- _. split; [exact Hr3|].
  rewrite log_rows_app, (replayed_rows B B' Hrep), LB in L3. cbn [obind] in L3.
  set (rB := map untimed (rows_of (l2 ++ msgs2))) in *.
  destruct (log_rows (k + len rB) C) as [rC| | |] eqn:EC; try done. cbn [obind] in L3. injection L3 as L3.
  exists (map untimed (rows_of l1)), rB, rC. rewrite <- app_assoc, rows_of_app, map_app. cbn [app rows_of].
  assert (Lk : i0 + len (map untimed (rows_of l1)) = k) by (unfold k, len; by rewrite length_map).
  split_and!; [done|done| |].
  - rewrite <- app_assoc. cbn [app]. rewrite log_rows_app, LA. cbn [obind log_rows]. rewrite Lk.
    by rewrite log_rows_app, LB; cbn [obind]; rewrite EC.
  - apply numbered_app; [by apply numbered_map|]. rewrite Lk, L3. by apply numbered_map.
Qed.

(** C1: The log survives its leader.  A leader reads a piece of the master's
    log and is lost at any moment, in the middle of a packet if need be; a
    follower on a fresh connection has read what reached it.  The conditions:
    its first read brought at least the four bytes of a packet header, and TCP
    cut the rest anywhere (a shorter first read loses its bytes,
    [AgentRecv.header_split_drops]); the log holds rows of tables without
    float columns, names in UTF-8 and positions that fit the cache
    ([item_ok]); every document fits the receivers' buffers ([small_message]);
    the send queues have room for the log ([leader_can], [follower_ready]),
    and no count passes 2^63.  The follower has then published to its subscribers the events of the packets that arrived,
    in order - all of them if nothing was missing - and when it is elected it
    reads on from the last position it has got, counting the rows from that
    position's index.  When the master delivers the log from that position
    again, and more, the rows the two leaders have published are all the rows
    of the log, numbered one after another; the ones since that position are
    published twice, under the same numbers. *)
Theorem log_survives items msgs idx h (b : slice byte) c i n :
  leader_can items msgs idx h -> follower_ready growcap MatchString msgs b c -> at_rest (AgentClient.env c) ->
  server_ok (env (AgentClient.env c)).2 ->
  i ∈ elems (clients (env h).2) -> nodes (env h).2 !! i = Some n -> sendQueue n = [] ->
  exists h' n', read_log items h = (h', Ret tt) /\
    EventPath.publish (docs msgs) (env h).1 = ((env h').1, Ret tt) /\ nodes (env h').2 !! i = Some n' /\
    forall chunk chunks missing, concat (chunk :: chunks) ++ missing = concat (sendQueue n') ->
      Forall (fun x : bytes => len x <= 4096) (chunk :: chunks) -> (4 <= length chunk)%nat ->
      exists b' c' msgs1 msgs2, msgs = msgs1 ++ msgs2 /\ (missing = [] -> msgs2 = []) /\
        range (chunk :: chunks) (read growcap agent_unmarshal disk) (b, c) = ((b', c'), Ret tt) /\
        EventPath.publish (docs msgs1) (service_of c) = (service_of c', Ret tt) /\
        forall p k dial, last_pos msgs1 = Some (p, k) -> PosName p <> [] ->
          let h2 := reader_turns Marshal (AgentClient.env (elected disk dial c')) in
          EventIndex h2 = k /\ runs h2 = runs (AgentClient.env c) ++ [p] /\
          exists A wn B, items = A ++ LSynced p wn :: B /\
            forall B' C m3 idx3, Forall2 replayed B B' -> Forall item_ok (B' ++ C) ->
              announced Marshal k (B' ++ C) = Ret (m3, idx3) -> Forall small_message m3 ->
              k + rows_in (B' ++ C) <= MaxInt64 -> sub_room (service_of c) (len msgs1 + len m3) ->
              exists h3 rA rB rC, read_log (B' ++ C) h2 = (h3, Ret tt) /\
                EventPath.publish (docs m3) (service_of c') = ((env h3).1, Ret tt) /\
                map untimed (rows_of msgs) = rA ++ rB /\ map untimed (rows_of m3) = rB ++ rC /\
                log_rows (EventIndex h) (items ++ C) = Ret (rA ++ rB ++ rC) /\
                numbered (EventIndex h) (rA ++ rB ++ rC).
Proof using other_ok.
  intros Hlead Hf Hrest Hsv Hi En Eq. pose proof Hlead as [Hl Hit Hsm].
  destruct (leader_can_readable items msgs idx h Hlead) as (Hread & _ & _).
  destruct (log_to_follower growcap MatchString agent_unmarshal Marshal disk items msgs idx h b c i n Hl Hf Hread Hi En Eq)
    as (h' & n' & E & _ & Ep & En' & _ & Hcut).
  exists h', n'. split_and!; [done..|]. intros chunk chunks missing Ec Hck H4.
  destruct (Hcut chunk chunks missing Ec Hck H4) as (msgs1 & msgs2 & b' & Em & Er & _ & Hend).
  assert (Hread1 : Forall (message_ok agent_unmarshal Marshal) msgs1) by (rewrite Em in Hread; by apply Forall_app in Hread as [? _]).
  assert (Hroom : sub_room (service_of c) (len msgs1)).
  { eapply sub_room_le; [exact (fr_subscribers _ _ _ _ _ Hf)|]. rewrite Em. unfold len. rewrite length_app. lia. }
  eexists b', _, msgs1, msgs2. split_and!; [exact Em|exact Hend|exact Er| |].
  { cbn [AgentClient.env AgentClient.with_env]. by apply (mirror_publishes growcap MatchString agent_unmarshal Marshal);
      [apply Hf| |]. }
  intros p k dial Hlast Hp. pose proof (fr_following _ _ _ _ _ Hf) as Hfol.
  destruct (takes_over Marshal disk msgs1 c p k dial Hrest Hfol Hsv Hlast Hp) as (Hl2 & Ek & Eruns & Eenv).
  set (h2 := reader_turns _ _) in *. split_and!; [done|done|].
  destruct (replayed_log items msgs idx (EventIndex h) msgs1 msgs2 p k) as (A & wn & B & EA & Hk & Hrep);
    [by apply Hl|done|by apply Hl|by apply Hl|done|done|].
  exists A, wn, B. split; [done|]. intros B' C m3 idx3 HB Hi3 Ha3 Hsm3 Hmax Hroom3.
  destruct (Hrep B' C m3 idx3 HB Hi3 Hmax Ha3) as (Hread3 & rA & rB & rC & E1 & E2 & E3 & E4).
  destruct (mirror_sub_room growcap MatchString agent_unmarshal Marshal disk msgs1 (AgentClient.env c) (len m3))
    as [Hs2 Hr2]; [unfold len; lia|done|apply Hf|done|].
  destruct (mirror_kept disk msgs1 (AgentClient.env c) Hfol) as [[_ _ Halone] _].
  rewrite <- Eenv in Hs2, Hr2, Halone.
  destruct (leader_reads growcap MatchString Marshal (B' ++ C) h2 m3 idx3) as (h3 & Er3 & _ & _ & Hsent3); rewrite ?Ek; try done.
  { intros j q Hj. rewrite Halone in Hj. by apply not_elem_of_nil in Hj. }
  { pose proof (lr_index _ _ _ _ _ _ _ Hl). lia. }
  exists h3, rA, rB, rC. split_and!; [done| |done..].
  cbn [AgentClient.env AgentClient.with_env]. rewrite <- Eenv. apply Hsent3.
Qed.

Context {E : Type} (onevent : list (option (gmap bytes Json.iface) -> M E unit)).
Context (onevent_ret : forall f d e, f ∈ onevent -> (f d e).2 = Ret tt).

(** The callbacks, called with the maps of rows one after another. *)
Definition called_with (rows : list row_data) (e : E) : E :=
  foldl (fun e d => foldl (fun e g => (g (Some (row_map other d)) e).1) e onevent) e rows.

(** C2: From the master's log to a subscriber of another node, documents
    included: when the leader has read a piece of the log, a follower what
    reached it of the leader's queue, the sender of a subscriber's connection
    to that follower its queue, and the subscriber what was written to it,
    then the subscriber's callbacks have been called with exactly the maps of
    the rows whose table its topics match - one map per logged row (or pair of
    rows of an update), decoded column by column, in the order of the log.
    The conditions: the follower's first read on its fresh connection brought
    at least the four bytes of a packet header, and TCP cut the rest of that
    stream, and the subscriber's stream, anywhere (a shorter first read loses
    its bytes, [AgentRecv.header_split_drops]); the log holds rows of tables
    without float columns, names in UTF-8 and positions that fit the cache
    ([item_ok]); every document fits the receivers' buffers ([small_message]);
    the send queues have room for the log. *)
Theorem log_reaches_subscriber items msgs idx h (b : slice byte) c i n j m :
  leader_can items msgs idx h -> follower_ready growcap MatchString msgs b c ->
  i ∈ elems (clients (env h).2) -> nodes (env h).2 !! i = Some n -> sendQueue n = [] ->
  j ∈ elems (grp (groups (service_of c))) -> SubGroups.nodes (groups (service_of c)) !! j = Some m ->
  SubNode.sendQueue m = [] ->
  log_rows (EventIndex h) items = Ret (map untimed (rows_of msgs)) /\
  exists h' n', read_log items h = (h', Ret tt) /\ nodes (env h').2 !! i = Some n' /\
    forall chunk chunks missing, concat (chunk :: chunks) ++ missing = concat (sendQueue n') ->
      Forall (fun x : bytes => len x <= 4096) (chunk :: chunks) -> (4 <= length chunk)%nat ->
      exists msgs1 msgs2 b' c' w m', msgs = msgs1 ++ msgs2 /\ (missing = [] -> msgs2 = []) /\
        range (chunk :: chunks) (read growcap agent_unmarshal disk) (b, c) = ((b', c'), Ret tt) /\
        range (wanted MatchString (SubNode.topics m) (docs msgs1)) (fun _ => sender_turn growcap j)
          (groups (service_of c')) = (w, Ret tt) /\
        SubGroups.nodes w !! j = Some m' /\
        forall cl pieces, SubClient.buffer cl = [] ->
          concat pieces = concat (drop (length (SubNode.writes m)) (SubNode.writes m')) ->
          exists cl', range pieces (SubClient.onMessage client_unmarshal onevent) cl = (cl', Ret tt) /\
            SubClient.buffer cl' = [] /\
            SubClient.env cl' = called_with
              (filter (fun d => MatchFilters MatchString (SubNode.topics m) (table_of d) = true) (rows_of msgs1))
              (SubClient.env cl).
Proof using other_ok onevent_ret.
  intros Hlead Hf Hi En Eq Hj Em Eqm. destruct (leader_can_readable items msgs idx h Hlead) as (Hread & Hdec & Erows).
  split; [exact Erows|].
  destruct (delivered growcap MatchString agent_unmarshal Marshal disk client_unmarshal onevent onevent_ret items msgs idx
    h b c i n j m (lc_ready _ _ _ _ Hlead) Hf Hread Hi En Eq Hj Em Eqm) as (h' & n' & E0 & En' & H).
  exists h', n'. split_and!; [done..|]. intros chunk chunks missing Ec Hck H4.
  destruct (H chunk chunks missing Ec Hck H4) as (msgs1 & msgs2 & b' & c' & w & m' & -> & Hend & Er & Es & Em' & Hc).
  exists msgs1, msgs2, b', c', w, m'. split_and!; [done..|]. intros cl pieces Eb Ep.
  destruct (Hc cl pieces Eb Ep) as (cl' & Ecl & Eb' & Ee). exists cl'. split_and!; [done..|].
  apply Forall_app in Hdec as [Hdec _]. rewrite Ee. by apply handled_rows.
Qed.
End Cluster.

(** ** Concrete instances: rows of a table before and after a position *)
Section DeliveryInstances.
#[local] Definition twice (c n : nat) : nat := (2 * n)%nat.
#[local] Abbreviation same := SubService.same.
#[local] Definition nothing_else (n : nat) : option Json.json := None.
#[local] Abbreviation marshal := (Documents.Marshal nothing_else).
#[local] Lemma nothing_else_ok n v : nothing_else n = Some v -> Json.value_ok v.
Proof. done. Qed.
#[local] Definition logfile : bytes := gostr "mysql-bin.000059".
#[local] Definition users : table :=
  [(mkColumn (gostr "id") (gostr "int(11)") false [] [], TInt32);
   (mkColumn (gostr "name") (gostr "varchar(20)") false [] [], TString)].
#[local] Definition a_user (i : Z) : list gval := [VInt32 i; VString (gostr "a<b")].
#[local] Definition inserted (ids : list Z) : RowsEvent :=
  mkRowsEvent (gostr "db") (gostr "users") (map fst users) (gostr "insert") (map a_user ids).
#[local] Definition some_log : list log_item :=
  [LRows (inserted [1; 2]) 0; LSynced (mkPosition logfile 200) 0; LRows (inserted [3]) 0].
#[local] Definition reader_with (sv : server) : reader :=
  with_status cacheHandlerIsOpened (fresh [] (SubService.some_service, sv)).
#[local] Definition a_follower : Client reader := NewClient (reader_with NewServer).
#[local] Definition leader : reader := reader_with AgentServer.three.

#[local] Definition some_messages : list message := default [] (fst <$> match announced marshal 0 some_log with Ret r => Some r | _ => None end).

#[local] Lemma users_plain : plain_table users.
Proof. repeat constructor. Qed.
#[local] Lemma users_deliver ids : Forall (fun i => signed_ok 32 i) ids -> delivers users (inserted ids).
Proof.
  intros Hids. split_and!.
  - done.
  - repeat constructor; set_solver.
  - cbn [Rows inserted]. apply Forall_map. eapply Forall_impl; [exact Hids|]. intros i Hi [|[|k]] v c t; cbn;
      [| |by rewrite ?lookup_nil]; intros [= <-] [= <- <-]; right; (split; [by constructor|done]).
  - done.
Qed.
#[local] Lemma rows_ok ids now : Forall (fun i => signed_ok 32 i) ids -> signed_ok 64 now -> item_ok (LRows (inserted ids) now).
Proof.
  intros Hids Hn. exists users. split_and!; [apply users_plain|by apply users_deliver|..|done]; repeat constructor.
Qed.
Lemma rows_roundtrip_witness :
  exists l, events_of (inserted [5; -6]) 1540000000 41 = Ret l /\ map rd_event_index l = [42; 43] /\
    Forall (fun d => exists json m, marshal d = Some json /\ client_unmarshal json = Some m /\ row_carried d m) l.
Proof.
  destruct (rows_roundtrip nothing_else nothing_else_ok users (inserted [5; -6]) 1540000000 41) as (l & El & Hnum & Hl).
  - exact users_plain.
  - apply users_deliver. unfold signed_ok. repeat constructor; lia.
  - unfold signed_ok. lia.
  - lia.
  - vm_compute. discriminate.
  - exists l. split; [exact El|]. split.
    + injection El as <-. reflexivity.
    + eapply Forall_impl; [exact Hl|]. intros d (_ & _ & H). exact H.
Defined.

#[local] Lemma all_small msgs :
  forallb (fun m => match m with MEvent _ json => len json + 22 + 4096 <=? PackageMaxLength | MPos _ _ => true end) msgs = true ->
  Forall small_message msgs.
Proof.
  induction msgs as [|[d json|p k] msgs IH]; cbn [forallb]; [constructor| |]; intros [Hm Hms]%andb_prop;
    (apply Forall_cons; split; [|by apply IH]); [by apply Z.leb_le|done].
Qed.
#[local] Lemma some_log_ok : Forall item_ok some_log.
Proof.
  repeat apply Forall_cons_2; [apply rows_ok| |apply rows_ok|apply Forall_nil_2]; try (repeat constructor; unfold signed_ok; lia).
  split; [small|cbn; lia].
Qed.

#[local] Lemma leader_is_ready : leader_can twice same nothing_else some_log some_messages 3 leader.
Proof.
  split; [split| |].
  - split; [done|done|exact AgentServer.sv_three_ok].
  - exact SubService.some_service_ok.
  - apply LogPath.some_room. by vm_compute.
  - intros i n Hi En. change (elems (clients (env leader).2)) with [0; 1; 2]%nat in Hi.
    repeat (apply elem_of_cons in Hi as [->|Hi]; [vm_compute in En; injection En as <-; by vm_compute|]).
    by apply not_elem_of_nil in Hi.
  - small.
  - small.
  - vm_compute. reflexivity.
  - exact some_log_ok.
  - apply all_small. vm_compute. reflexivity.
Qed.

#[local] Lemma follower_is_ready : follower_ready twice same some_messages empty_slice a_follower.
Proof.
  split; [by vm_compute|done|by split|exact SubService.some_service_ok|]. apply LogPath.some_room. by vm_compute.
Qed.

#[local] Definition its_queue : bytes := concat (map (fun m => Encode 1 (enc_message m)) some_messages).
#[local] Lemma its_queue_chunks : Forall (fun x : bytes => len x <= 4096) [take 300 its_queue; drop 300 its_queue].
Proof. repeat constructor; small. Qed.

(** What the first follower is queued, computed. *)
#[local] Lemma its_node h' n' :
  range some_log (read_item marshal) leader = (h', Ret tt) -> nodes (env h').2 !! 1%nat = Some n' ->
  concat (sendQueue n') = its_queue.
Proof.
  intros E En.
  assert (H : (fun n => concat (sendQueue n)) <$> nodes (env (range some_log (read_item marshal) leader).1).2 !! 1%nat = Some its_queue)
    by (vm_compute; reflexivity).
  rewrite E in H. cbn [fst] in H. rewrite En in H.
  cbn [fmap option_fmap option_map] in H. exact (Some_inj _ _ H).
Qed.
#[local] Lemma its_chunks h' n' :
  range some_log (read_item marshal) leader = (h', Ret tt) -> nodes (env h').2 !! 1%nat = Some n' ->
  concat [take 300 its_queue; drop 300 its_queue] ++ [] = concat (sendQueue n').
Proof. intros E En. rewrite (its_node h' n' E En). cbn [concat]. by rewrite !app_nil_r, take_drop. Qed.

(** The rows behind the position, and a new one, at another time. *)
#[local] Definition again : list log_item := [LRows (inserted [3]) 7].
#[local] Definition more : list log_item := [LRows (inserted [4]) 8].
#[local] Definition later_messages : list message :=
  default [] (fst <$> match announced marshal 2 (again ++ more) with Ret r => Some r | _ => None end).

Lemma log_survives_witness :
  exists h' n' b' c' h3 rA rB rC, range some_log (read_item marshal) leader = (h', Ret tt) /\ nodes (env h').2 !! 1%nat = Some n' /\
    range [take 300 its_queue; drop 300 its_queue] (read twice agent_unmarshal length) (empty_slice, a_follower) =
      ((b', c'), Ret tt) /\
    let h2 := reader_turns marshal (AgentClient.env (elected length (fun _ => None) c')) in
    runs h2 = [mkPosition logfile 200] /\ range (again ++ more) (read_item marshal) h2 = (h3, Ret tt) /\
    map untimed (rows_of some_messages) = rA ++ rB /\ map untimed (rows_of later_messages) = rB ++ rC /\
    numbered 0 (rA ++ rB ++ rC).
Proof.
  destruct (log_survives twice same length nothing_else nothing_else_ok some_log some_messages 3 leader empty_slice
    a_follower 1 (newNode 8)) as (h' & n' & E & _ & En & H).
  - exact leader_is_ready.
  - exact follower_is_ready.
  - by split.
  - exact server_ok_init.
  - vm_compute. right. by left.
  - by vm_compute.
  - done.
  - destruct (H (take 300 its_queue) [drop 300 its_queue] [] (its_chunks h' n' E En) its_queue_chunks ltac:(by vm_compute; lia))
      as (b' & c' & m1 & m2 & Em & Hend & Er & _ & Hlast).
    rewrite (Hend eq_refl), app_nil_r in Em. subst m1.
    destruct (Hlast (mkPosition logfile 200) 2 (fun _ => None)) as (_ & Hr & A & wn & B & EA & Hmore);
      [vm_compute; reflexivity|done|].
    assert (B = [LRows (inserted [3]) 0]) as ->.
    { destruct A as [|x [|y A]]; [done| |]; [by injection EA|]. injection EA as _ _ EA. by destruct A as [|? [|??]]. }
    destruct (Hmore again more later_messages 4) as (h3 & rA & rB & rC & Er3 & _ & E1 & E2 & _ & Hnum).
    + repeat constructor.
    + repeat apply Forall_cons_2; [apply rows_ok..|apply Forall_nil_2]; try (repeat constructor; unfold signed_ok; lia).
    + vm_compute. reflexivity.
    + apply all_small. vm_compute. reflexivity.
    + small.
    + apply LogPath.some_room. by vm_compute.
    + exists h', n', b', c', h3, rA, rB, rC. cbv zeta.
      exact (conj E (conj En (conj Er (conj Hr (conj Er3 (conj E1 (conj E2 Hnum))))))).
Defined.

(** A subscriber of the follower's service without topics gets all three. *)
#[local] Abbreviation seen_row := (option (gmap bytes Json.iface)).
#[local] Definition keep_map : seen_row -> M (list seen_row) unit := fun m l => (l ++ [m], Ret tt).
#[local] Lemma keep_map_ret f d e : f ∈ [keep_map] -> (f d e).2 = Ret tt.
Proof. by intros ->%list_elem_of_singleton. Qed.
#[local] Definition a_row (i : Z) : row_data :=
  mkRowData (gostr "db") (gostr "insert") 0 (gostr "users") i
    (Plain {[ gostr "id" := VInt64 i; gostr "name" := VString (gostr "a<b") ]}).
#[local] Definition fresh_client : SubClient.Client (list seen_row) :=
  SubClient.mkClient None [] ∅ ∅ 0 0 SubClient.clientOffline [] None [].

#[local] Lemma all_kept rows : forall l,
  called_with nothing_else [keep_map] rows l = l ++ map (fun d => Some (row_map nothing_else d)) rows.
Proof.
  induction rows as [|d rows IH]; intros l; cbn [map]; [by rewrite app_nil_r|]. unfold called_with in *. cbn [foldl].
  rewrite IH. unfold keep_map. cbn [fst]. by rewrite <- app_assoc.
Qed.
#[local] Lemma its_rows :
  filter (fun d => MatchFilters same (SubNode.topics EventPath.first_member) (table_of d) = true) (rows_of some_messages) =
    map a_row [1; 2; 3].
Proof. vm_compute. repeat f_equal. Qed.

Lemma log_reaches_subscriber_witness :
  exists h' n' b' c' w m', range some_log (read_item marshal) leader = (h', Ret tt) /\
    nodes (env h').2 !! 1%nat = Some n' /\
    range [take 300 its_queue; drop 300 its_queue] (read twice agent_unmarshal length) (empty_slice, a_follower) =
      ((b', c'), Ret tt) /\
    range (wanted same [] (docs some_messages)) (fun _ => sender_turn twice 0%nat) (groups (env (AgentClient.env c')).1) =
      (w, Ret tt) /\
    SubGroups.nodes w !! 0%nat = Some m' /\
    exists cl', range [concat (SubNode.writes m')] (SubClient.onMessage client_unmarshal [keep_map]) fresh_client =
        (cl', Ret tt) /\
      SubClient.env cl' = map (fun i => Some (row_map nothing_else (a_row i))) [1; 2; 3].
Proof.
  destruct (log_reaches_subscriber twice same length nothing_else nothing_else_ok [keep_map] keep_map_ret some_log some_messages
    3 leader empty_slice a_follower 1 (newNode 8) 0 EventPath.first_member) as (_ & h' & n' & E & En & H).
  - exact leader_is_ready.
  - exact follower_is_ready.
  - vm_compute. right. by left.
  - by vm_compute.
  - done.
  - vm_compute. by left.
  - by vm_compute.
  - done.
  - destruct (H (take 300 its_queue) [drop 300 its_queue] [] (its_chunks h' n' E En) its_queue_chunks ltac:(by vm_compute; lia))
      as (m1 & m2 & b' & c' & w & m' & Em & Hend & Er & Es & Em' & Hc).
    rewrite (Hend eq_refl), app_nil_r in Em. subst m1.
    destruct (Hc fresh_client [concat (SubNode.writes m')]) as (cl' & El & _ & Hg).
    + done.
    + change (length (SubNode.writes EventPath.first_member)) with 0%nat. rewrite drop_0. cbn [concat].
      by rewrite app_nil_r.
    + exists h', n', b', c', w, m'.
      refine (conj E (conj En (conj Er (conj Es (conj Em' (ex_intro _ cl' (conj El _))))))).
      rewrite Hg, its_rows, all_kept, map_map. exact eq_refl.
Defined.
End DeliveryInstances.
