(* ===== verification/Config.v ===== *)
(** * Configuration and start-up helpers

    [src/g/cfg.go], [src/g/app.go] and [src/g/context.go]: finding, reading
    and re-reading the configuration, the key file, and the channel that ends
    the program.  The file system and the file helpers of
    [github.com/toolkits/file] are the interface [Files]; [json.Unmarshal]
    is an argument here; [Settings.v] has it.  [log.Fatalf] ends the process. *)
From S2P Require Import Prelude.
From S2P Require Import GoSem.

(** ** Data ([cfg.go]) *)
Record LogConfig := mkLogConfig { Level : bytes }.
Record AdminConfig := mkAdminConfig { ad_Enabled : bool; ad_Listen : bytes }.
Record DatabaseConfig := mkDatabaseConfig {
  Host : bytes; db_Port : Z; User : bytes; Password : bytes; Charset : bytes; ServerID : Z;
  Flavor : bytes; HeartbeatPeriod : Z; db_ReadTimeout : Z; db_BinlogFile : bytes; db_BinlogPos : Z
}.
Record AgentConfig := mkAgentConfig { ag_Enabled : bool; ag_Lock : bytes; ag_Listen : bytes; ag_Consul : bytes }.
Record ConsulConfig := mkConsulConfig { co_Enabled : bool; Addr : bytes }.

(** The sections are pointers: one that the file does not have is nil. *)
Record GlobalConfig := mkGlobalConfig {
  Log : option LogConfig;
  Admin : option AdminConfig;
  TimeZone : bytes;
  Database : option DatabaseConfig;
  Listen : bytes;
  Consul : option ConsulConfig;
  cfg_Agent : option AgentConfig
}.

(** ** Paths ([path/filepath] and [strings], as far as they are used) *)
Definition slash : byte := Byte.x2f.
Definition dot : bytes := gostr ".".
Definition dotdot : bytes := gostr "..".

(** The components of a path, empty ones included. *)
Fixpoint components (s : bytes) : list bytes :=
  match s with
  | [] => [[]]
  | b :: s =>
      if decide (b = slash) then [] :: components s
      else match components s with
           | [] => [[b]]
           | c :: cs => (b :: c) :: cs
           end
  end.

(** One component of the lexical processing of [Clean]; the components kept
    so far are in reverse order. *)
Definition clean_step (rooted : bool) (kept : list bytes) (c : bytes) : list bytes :=
  if decide (c = []) then kept
  else if decide (c = dot) then kept
  else if decide (c = dotdot) then
    match kept with
    | [] => if rooted then [] else [dotdot]
    | k :: kept' => if decide (k = dotdot) then dotdot :: kept else kept'
    end
  else c :: kept.

Fixpoint path_join (cs : list bytes) : bytes :=
  match cs with
  | [] => []
  | [c] => c
  | c :: cs => c ++ slash :: path_join cs
  end.

Definition is_abs (s : bytes) : bool := bool_decide (head s = Some slash).
Definition Clean (s : bytes) : bytes :=
  let kept := rev (foldl (clean_step (is_abs s)) [] (components s)) in
  let body := path_join kept in
  if is_abs s then slash :: body else if decide (body = []) then dot else body.

(** [filepath.Dir]: what is left of the last separator, cleaned. *)
Fixpoint up_to_slash (s : bytes) : bytes :=
  match s with
  | [] => []
  | b :: s => if existsb (fun x => bool_decide (x = slash)) (b :: s) then b :: up_to_slash s else []
  end.
Definition Dir (s : bytes) : bytes := Clean (up_to_slash s).
(** [filepath.Join]: empty elements are left out. *)
Definition Join (elems : list bytes) : bytes :=
  match filter (fun e => e <> []) elems with
  | [] => []
  | es => Clean (path_join es)
  end.

(** [strings.TrimSpace(s) == ""]: nothing but white space, which beyond ASCII
    is encoded in two or three bytes. *)
Definition ascii_space (b : byte) : bool := (byte_Z b =? 32) || ((9 <=? byte_Z b) && (byte_Z b <=? 13)).
Definition space2 (a b : byte) : bool :=
  (byte_Z a =? 194) && ((byte_Z b =? 133) || (byte_Z b =? 160)).
Definition space3 (a b c : byte) : bool :=
  let code := (byte_Z a * 256 + byte_Z b) * 256 + byte_Z c in
  (code =? 14785152)                                         (* U+1680 *)
  || ((14844032 <=? code) && (code <=? 14844042))            (* U+2000 to U+200A *)
  || (code =? 14844072) || (code =? 14844073) || (code =? 14844079)  (* U+2028, U+2029, U+202F *)
  || (code =? 14844319)                                      (* U+205F *)
  || (code =? 14909568).                                     (* U+3000 *)
Fixpoint blank (s : bytes) : bool :=
  match s with
  | [] => true
  | a :: s1 =>
      (ascii_space a && blank s1) ||
      match s1 with
      | [] => false
      | b :: s2 =>
          (space2 a b && blank s2) ||
          match s2 with
          | [] => false
          | c :: s3 => space3 a b c && blank s3
          end
      end
  end.

(** ** The file system *)
Class Files (F : Type) := {
  Stat : bytes -> F -> bool;                          (* [os.Stat] without an error *)
  IsExist : bytes -> F -> bool;
  ToTrimString : bytes -> F -> option bytes;          (* [None]: an error *)
  WriteString : bytes -> bytes -> F -> F * Z          (* how much was written *)
}.

(** Printable ASCII other than the space. *)
Definition graphic (b : byte) : Prop := 33 <= byte_Z b < 127.

(** [ToTrimString] reads what [WriteString] wrote, without the white space at
    its ends. *)
Class FilesLaws F `{Files F} := {
  write_bound p s f : 0 <= (WriteString p s f).2 <= len s;
  write_reads p s f : Forall graphic s -> 0 < (WriteString p s f).2 ->
    IsExist p (WriteString p s f).1 = true /\
    ToTrimString p (WriteString p s f).1 = Some (take (Z.to_nat (WriteString p s f).2) s)
}.

(** ** Loading the configuration *)
Record Globals := mkGlobals { ConfigFile : bytes; config : option GlobalConfig }.
Definition with_ConfigFile (f : bytes) (g : Globals) : Globals := mkGlobals f (config g).
Definition with_config (c : GlobalConfig) (g : Globals) : Globals := mkGlobals (ConfigFile g) (Some c).

(** The calls of [log.Fatalf]: the process ends. *)
Inductive fatal := NoExecutable | NoConfigFile | Unreadable | BadJson.

Section Loading.
Context {F : Type} {HF : Files F} (Unmarshal : bytes -> option GlobalConfig).

Definition candidates (exe cfg : bytes) : list bytes :=
  if blank cfg then
    [gostr "/etc/copycat/cfg.json"; Join [Dir exe; gostr "etc"; gostr "cfg.json"]; Join [Dir exe; gostr "cfg.json"]]
  else [cfg].

(** The loop over the candidates; [ok]: the last error is nil. *)
Fixpoint search (fs : F) (ok : bool) (configs : list bytes) : M Globals bool :=
  match configs with
  | [] => ret ok
  | c :: configs => if Stat c fs then modify (with_ConfigFile c) ;; ret true else search fs false configs
  end.

(** [exe]: what [os.Executable] returned. *)
Definition ParseConfig (fs : F) (exe : option bytes) (cfg : bytes) : M Globals (fatal + GlobalConfig) :=
  match exe with
  | None => ret (inl NoExecutable)
  | Some path =>
      let! ok := search fs true (candidates path cfg) in
      if negb ok then ret (inl NoConfigFile) else
      let! g := gets id in
      match ToTrimString (ConfigFile g) fs with
      | None => ret (inl Unreadable)
      | Some content =>
          match Unmarshal content with
          | None => ret (inl BadJson)
          | Some c => modify (with_config c) ;; ret (inr c)
          end
      end
  end.

Definition Reload (fs : F) (exe : option bytes) : M Globals (fatal + GlobalConfig) :=
  let! g := gets id in ParseConfig fs exe (ConfigFile g).

(** [Config]: nil before the first load. *)
Definition Config (g : Globals) : option GlobalConfig := config g.

(** What a file's contents mean to [ParseConfig]. *)
Definition load_file (fs : F) (f : bytes) : fatal + GlobalConfig :=
  match ToTrimString f fs with
  | None => inl Unreadable
  | Some content => match Unmarshal content with None => inl BadJson | Some c => inr c end
  end.
Definition loaded (f : bytes) (r : fatal + GlobalConfig) (g : Globals) : Globals :=
  match r with inl _ => with_ConfigFile f g | inr c => mkGlobals f (Some c) end.
End Loading.

(** ** Paths that are searched are not blank *)
Lemma components_app s t : components (s ++ slash :: t) = components s ++ components t.
Proof.
  induction s as [|b s IH]; [done|]. cbn [app components]. rewrite IH.
  destruct (decide (b = slash)); [done|].
  destruct (components s) as [|c cs] eqn:E; [|done].
  exfalso. destruct s as [|x s]; [done|]. cbn [components] in E.
  destruct (decide (x = slash)); [done|]. by destruct (components s).
Qed.

Lemma path_join_snoc l (e : bytes) : path_join (l ++ [e]) = match l with [] => e | _ => path_join l ++ slash :: e end.
Proof.
  induction l as [|a l IH]; [done|]. destruct l as [|b l]; [done|].
  change ((a :: b :: l) ++ [e]) with (a :: ((b :: l) ++ [e])).
  change (path_join (a :: (b :: l) ++ [e])) with (a ++ slash :: path_join ((b :: l) ++ [e])).
  rewrite IH. change (path_join (a :: b :: l)) with (a ++ slash :: path_join (b :: l)).
  by rewrite <- app_assoc.
Qed.

(** A name: one component, which [Clean] keeps. *)
Definition name_ok (e : bytes) : Prop := slash ∉ e /\ e <> [] /\ e <> dot /\ e <> dotdot.

Lemma components_name e : slash ∉ e -> components e = [e].
Proof.
  induction e as [|b e IH]; [done|]. intros [Hb He]%not_elem_of_cons. cbn [components].
  rewrite decide_False by done. by rewrite (IH He).
Qed.

Lemma clean_snoc rooted kept e : name_ok e -> clean_step rooted kept e = e :: kept.
Proof. intros (_ & H1 & H2 & H3). unfold clean_step. by rewrite !decide_False. Qed.

(** A cleaned path ends with its last component. *)
Lemma Clean_ends s e : name_ok e -> exists pre, Clean (s ++ slash :: e) = pre ++ e /\ Clean e = e.
Proof.
  intros He. pose proof He as (Hs & Hn & _). unfold Clean.
  rewrite components_app, (components_name e Hs), foldl_app. cbn [foldl]. rewrite (clean_snoc _ _ _ He).
  cbn [rev]. rewrite path_join_snoc.
  assert (Habs : is_abs e = false).
  { unfold is_abs. destruct e as [|b e]; [done|]. apply not_elem_of_cons in Hs as [Hb _].
    apply bool_decide_eq_false. cbn. congruence. }
  rewrite Habs. rewrite (clean_snoc false [] e He). cbn [rev app path_join]. rewrite (decide_False (P := e = [])) by done.
  assert (exists p, path_join (rev (foldl (clean_step (is_abs (s ++ slash :: e))) [] (components s)) ++ [e]) = p ++ e)
    as [p Ep].
  { rewrite path_join_snoc. destruct (rev _) as [|c cs]; [by exists []|]. exists (path_join (c :: cs) ++ [slash]).
    by rewrite <- app_assoc. }
  rewrite path_join_snoc in Ep. rewrite Ep. destruct (is_abs (s ++ slash :: e)); [by exists (slash :: p)|].
  rewrite decide_False; [by exists p|]. intros E. apply app_eq_nil in E as [_ E]. done.
Qed.

Lemma space_ends a b (x : byte) : graphic x ->
  ascii_space x = false /\ space2 a x = false /\ space3 a b x = false.
Proof.
  intros [H1 H2]. unfold ascii_space, space2, space3. pose proof (byte_Z_range a). pose proof (byte_Z_range b).
  split_and!; lia.
Qed.

Lemma blank_graphic (x : byte) : graphic x -> forall n s, (length s <= n)%nat -> blank (s ++ [x]) = false.
Proof.
  intros Hx. destruct (space_ends x x x Hx) as (E1 & _ & _).
  induction n as [|n IH]; intros s Hs.
  { destruct s; [|simpl in Hs; lia]. cbn. by rewrite E1. }
  destruct s as [|a s1]; [cbn; by rewrite E1|]. simpl in Hs.
  assert (H1 : blank (s1 ++ [x]) = false) by (apply IH; lia).
  destruct s1 as [|b s2].
  { cbn in *. rewrite E1. destruct (space_ends a a x Hx) as (_ & -> & _). by rewrite !andb_false_r. }
  assert (H2 : blank (s2 ++ [x]) = false) by (apply IH; simpl in Hs; lia).
  destruct s2 as [|c s3].
  { cbn [app] in *. change (blank [a; b; x]) with
      ((ascii_space a && blank [b; x]) || ((space2 a b && blank [x]) || (space3 a b x && true))).
    rewrite H1, H2. destruct (space_ends a b x Hx) as (_ & _ & ->). by rewrite !andb_false_r. }
  assert (H3 : blank (s3 ++ [x]) = false) by (apply IH; simpl in Hs; lia).
  cbn [app] in *. change (blank (a :: b :: c :: s3 ++ [x])) with
    ((ascii_space a && blank (b :: c :: s3 ++ [x])) || ((space2 a b && blank (c :: s3 ++ [x])) ||
     (space3 a b c && blank (s3 ++ [x])))).
  rewrite H1, H2, H3. by rewrite !andb_false_r.
Qed.

Lemma blank_ends pre : blank (pre ++ gostr "cfg.json") = false.
Proof.
  change (gostr "cfg.json") with (gostr "cfg.jso" ++ gostr "n"). rewrite app_assoc.
  eapply blank_graphic; [|apply le_n]. unfold graphic. small.
Qed.

Lemma name_cfg : name_ok (gostr "cfg.json").
Proof. split_and!; [by vm_compute; set_solver|done..]. Qed.

Lemma Join_ends l e : name_ok e -> exists pre, Join (l ++ [e]) = pre ++ e.
Proof.
  intros He. pose proof He as (_ & Hn & _). unfold Join. rewrite filter_app, filter_cons_True, filter_nil by done.
  destruct (filter _ l ++ [e]) as [|c cs] eqn:E; [by destruct (filter _ l)|]. rewrite <- E, path_join_snoc.
  destruct (filter _ l) as [|x xs].
  - exists []. by destruct (Clean_ends [] e He) as (_ & _ & ->).
  - destruct (Clean_ends (path_join (x :: xs)) e He) as (pre & -> & _). by exists pre.
Qed.

(** ** Loading and reloading *)
Section LoadingProofs.
Context {F : Type} {HF : Files F} (Unmarshal : bytes -> option GlobalConfig).
Implicit Types fs : F.

(** The reference: the first candidate that exists. *)
Definition first_existing fs (configs : list bytes) : option bytes :=
  head (filter (fun c => Stat c fs = true) configs).

Lemma search_first fs configs : forall ok g,
  search fs ok configs g = match first_existing fs configs with
                           | Some f => (with_ConfigFile f g, Ret true)
                           | None => (g, Ret (match configs with [] => ok | _ => false end))
                           end.
Proof.
  unfold first_existing. induction configs as [|c configs IH]; intros ok g; [done|].
  cbn [search]. rewrite filter_cons. destruct (Stat c fs); [by rewrite decide_True|].
  rewrite decide_False, IH by done. destruct (head _); [done|]. by destruct configs.
Qed.

Lemma candidates_cons exe cfg : exists c cs, candidates exe cfg = c :: cs.
Proof. unfold candidates. destruct (blank cfg); eauto. Qed.

Lemma candidates_not_blank exe cfg f : f ∈ candidates exe cfg -> blank f = false.
Proof.
  unfold candidates. destruct (blank cfg) eqn:Eb; [|by intros ->%list_elem_of_singleton].
  assert (H : forall l, blank (Join (l ++ [gostr "cfg.json"])) = false).
  { intros l. destruct (Join_ends l _ name_cfg) as [pre ->]. apply blank_ends. }
  intros [->|[->|[->|?%not_elem_of_nil]%elem_of_cons]%elem_of_cons]%elem_of_cons; [reflexivity| | |done].
  - apply (H [Dir exe; gostr "etc"]).
  - apply (H [Dir exe]).
Qed.

Lemma first_existing_in fs configs f : first_existing fs configs = Some f -> f ∈ configs /\ Stat f fs = true.
Proof.
  unfold first_existing. intros H. apply head_Some_elem_of in H. by apply list_elem_of_filter in H as [? ?].
Qed.

Lemma loaded_eq fs f g :
  match ToTrimString f fs with
  | None => ret (inl Unreadable)
  | Some content =>
      match Unmarshal content with
      | None => ret (inl BadJson)
      | Some c => modify (with_config c) ;; ret (inr c)
      end
  end (with_ConfigFile f g) = (loaded f (load_file Unmarshal fs f) g, Ret (load_file Unmarshal fs f)).
Proof. unfold load_file. destruct (ToTrimString f fs) as [s|]; [|done]. by destruct (Unmarshal s). Qed.

Lemma parse_first fs exe cfg g :
  ParseConfig Unmarshal fs (Some exe) cfg g =
    match first_existing fs (candidates exe cfg) with
    | None => (g, Ret (inl NoConfigFile))
    | Some f => (loaded f (load_file Unmarshal fs f) g, Ret (load_file Unmarshal fs f))
    end.
Proof.
  unfold ParseConfig, bind at 1. rewrite search_first.
  destruct (candidates_cons exe cfg) as (c & cs & ->).
  destruct (first_existing fs (c :: cs)) as [f|]; [|done]. cbn [negb]. apply loaded_eq.
Qed.

(** C34: Loading uses the first candidate that exists and no other: the one named
    on the command line, else the system's file, the program's [etc] directory,
    its own directory.  It sets the configuration when that file can be read
    and parsed; in every other case the process ends with the old
    configuration. *)
Theorem ParseConfig_first fs exe cfg g :
  ParseConfig Unmarshal fs (Some exe) cfg g =
    match first_existing fs (candidates exe cfg) with
    | None => (g, Ret (inl NoConfigFile))
    | Some f => (loaded f (load_file Unmarshal fs f) g, Ret (load_file Unmarshal fs f))
    end.
Proof. apply parse_first. Qed.

(** Once loaded, reloading reads the same file, wherever the program lies and
    whatever other candidates there are by then; a file that is gone or broken
    ends the process. *)
Theorem Reload_same_file fs exe cfg g g' c :
  ParseConfig Unmarshal fs (Some exe) cfg g = (g', Ret (inr c)) ->
  first_existing fs (candidates exe cfg) = Some (ConfigFile g') /\ Config g' = Some c /\
  forall fs' exe',
    Reload Unmarshal fs' (Some exe') g' =
      if Stat (ConfigFile g') fs'
      then (loaded (ConfigFile g') (load_file Unmarshal fs' (ConfigFile g')) g',
            Ret (load_file Unmarshal fs' (ConfigFile g')))
      else (g', Ret (inl NoConfigFile)).
Proof.
  intros H. pose proof (parse_first fs exe cfg g) as E. rewrite H in E.
  destruct (first_existing fs (candidates exe cfg)) as [f|] eqn:Ef; [|done].
  injection E as E1 E2. rewrite <- E2 in E1. subst g'. cbn [loaded ConfigFile]. split_and!; [done|done|].
  intros fs' exe'. unfold Reload, bind at 1, gets. cbn [id ConfigFile].
  apply first_existing_in in Ef as [Hin _]. apply candidates_not_blank in Hin.
  rewrite parse_first. unfold candidates. rewrite Hin. unfold first_existing. rewrite filter_cons.
  destruct (Stat f fs'); [by rewrite decide_True|]. by rewrite decide_False, filter_nil.
Qed.
End LoadingProofs.
