(* ===== verification/Context.v ===== *)
(** * The end of the program

    [src/g/context.go] and the end of [main] ([src/main.go]): a signal or a
    call of [Stop] sends on the unbuffered channel [cancelChan], [main]
    receives once, cancels the context and closes the parts.  The goroutines
    are the components of a state; a step is one of their moves. *)
From S2P Require Import Prelude.
From S2P Require Import GoSem.
From S2P Require Import Config.

(** [signalHandler]: waiting for a signal, sending, gone. *)
Inductive handler := HWaiting | HSending | HDone.
(** [main], from its [select] on. *)
Inductive main_phase := MWaiting | MCancelling | MClosing | MExited.

Record Context := mkContext {
  ctx_Config : option GlobalConfig;
  sc : nat;                  (* signals in the handler's channel, of capacity one *)
  hnd : handler;
  stopping : nat;            (* calls of [Stop] that are waiting to send *)
  phase : main_phase;
  cancelled : bool;
  received : nat             (* what [main] received so far; no code reads it *)
}.

(** [NewContext]: the configuration of the moment, and the handler started. *)
Definition NewContext (g : Globals) : Context := mkContext (Config g) 0 HWaiting 0 MWaiting false 0.

(** [Context.Reload]: a configuration that cannot be loaded ends the process. *)
Definition ctx_Reload {F : Type} {HF : Files F} (Unmarshal : bytes -> option GlobalConfig) (fs : F) (exe : option bytes)
    (x : Context) (g : Globals) : (fatal + Context) * Globals :=
  match Reload Unmarshal fs exe g with
  | (g', Ret (inr c)) => (inr (mkContext (Some c) (sc x) (hnd x) (stopping x) (phase x) (cancelled x) (received x)), g')
  | (g', Ret (inl e)) => (inl e, g')
  | (g', _) => (inr x, g')
  end.

(** A sender that [main] can receive from. *)
Inductive take_one : Context -> Context -> Prop :=
  | take_handler c n s p b r : take_one (mkContext c n HSending s p b r) (mkContext c n HDone s p b r)
  | take_stop c n h s p b r : take_one (mkContext c n h (S s) p b r) (mkContext c n h s p b r).

Definition with_phase (p : main_phase) (x : Context) : Context :=
  mkContext (ctx_Config x) (sc x) (hnd x) (stopping x) p (cancelled x) (received x).
Definition count_receive (x : Context) : Context :=
  mkContext (ctx_Config x) (sc x) (hnd x) (stopping x) (phase x) (cancelled x) (S (received x)).

Inductive step : Context -> Context -> Prop :=
  | s_signal c n h s p b r :            (* the runtime delivers a signal; a full channel drops it *)
      step (mkContext c n h s p b r) (mkContext c 1 h s p b r)
  | s_handle c s p b r :                (* [<-sc] *)
      step (mkContext c 1 HWaiting s p b r) (mkContext c 0 HSending s p b r)
  | s_stop c n h s p b r :              (* [Stop] is called *)
      step (mkContext c n h s p b r) (mkContext c n h (S s) p b r)
  | s_receive x y : phase x = MWaiting -> take_one x y ->    (* [<-ctx.Done()] *)
      step x (count_receive (with_phase MCancelling y))
  | s_cancel c n h s b r :              (* [ctx.Cancel()] *)
      step (mkContext c n h s MCancelling b r) (mkContext c n h s MClosing true r)
  | s_close c n h s b r :               (* [blog.Close()] and the deferred [agentServer.Close()] are done *)
      step (mkContext c n h s MClosing b r) (mkContext c n h s MExited b r).

Inductive reachable (x0 : Context) : Context -> Prop :=
  | r_refl : reachable x0 x0
  | r_step x y : reachable x0 x -> step x y -> reachable x0 y.

(** What holds at any moment: the context is cancelled exactly when [main] has
    passed its [select], which it does once. *)
Record exit_ok (x : Context) : Prop := {
  ex_received : received x = match phase x with MWaiting => 0%nat | _ => 1%nat end;
  ex_cancelled : cancelled x = match phase x with MWaiting | MCancelling => false | _ => true end;
  ex_signals : (sc x <= 1)%nat
}.

Lemma take_one_same x y : take_one x y ->
  phase y = phase x /\ cancelled y = cancelled x /\ received y = received x /\ sc y = sc x /\ ctx_Config y = ctx_Config x.
Proof. by intros []. Qed.

Lemma step_ok x y : exit_ok x -> step x y -> exit_ok y.
Proof.
  intros [H1 H2 H3] Hs. destruct Hs as [| | |x y Hp Ht| |]; try (split; cbn in *; auto with lia; fail).
  apply take_one_same in Ht as (E1 & E2 & E3 & E4 & _). rewrite Hp in *.
  split; cbn; [by rewrite E3, H1|by rewrite E2, H2|by rewrite E4].
Qed.

(** The program ends once: along every run, [main] receives at most one of the
    signals and calls of [Stop], the context is cancelled only after that, and
    whoever sends later waits for ever - in particular no signal stops a
    program that is already closing. *)
Theorem exit_once g x :
  reachable (NewContext g) x ->
  exit_ok x /\
  (phase x <> MWaiting -> forall y, step x y ->
     received y = 1%nat /\ (stopping x <= stopping y)%nat /\ (hnd x <> HWaiting -> hnd y = hnd x) /\
     (phase x = MExited -> phase y = MExited)).
Proof.
  intros Hr. assert (Hx : exit_ok x).
  { induction Hr as [|x y _ IH Hs]; [by split; cbn; auto|]. by eapply step_ok. }
  split; [exact Hx|]. intros Hp y Hs. destruct Hx as [H1 _ _].
  assert (received x = 1%nat) as H1' by (rewrite H1; by destruct (phase x)).
  destruct Hs as [| | |x y Hw _| |]; cbn in *; try (split_and!; (done || lia)); done.
Qed.

(** A program that was asked to end can take every step of its end. *)
Theorem exit_completes x :
  phase x = MWaiting -> (hnd x = HSending \/ (0 < stopping x)%nat) ->
  exists y, reachable x y /\ phase y = MExited /\ cancelled y = true.
Proof.
  intros Hp Hs. assert (exists z, take_one x z) as [z Hz].
  { destruct x as [c n h [|s] p b r]; cbn in *; [|by eexists; apply take_stop].
    destruct Hs as [->|?]; [|lia]. eexists. apply take_handler. }
  pose proof (s_receive x z Hp Hz) as H1. destruct z as [c n h s p b r].
  eexists. split; [|split].
  - eapply r_step; [|apply s_close]. eapply r_step; [|apply s_cancel].
    eapply r_step; [apply r_refl|]. exact H1.
  - done.
  - done.
Qed.

(** ** Instances *)
Section ContextInstances.
#[local] Definition started : Context := NewContext (mkGlobals [] None).

Lemma exit_once_witness :
  let x := mkContext None 0 HDone 1 MClosing true 1 in
  exit_ok x /\ (phase x <> MWaiting -> forall y, step x y ->
    received y = 1%nat /\ (stopping x <= stopping y)%nat /\ (hnd x <> HWaiting -> hnd y = hnd x) /\
    (phase x = MExited -> phase y = MExited)).
Proof.
  apply (exit_once (mkGlobals [] None)).
  eapply r_step; [|apply s_cancel]. eapply r_step; [|apply s_stop].
  eapply r_step; [|exact (s_receive (mkContext None 0 HSending 0 MWaiting false 0) (mkContext None 0 HDone 0 MWaiting false 0)
    eq_refl (take_handler _ _ _ _ _ _))].
  eapply r_step; [|apply s_handle]. eapply r_step; [apply r_refl|]. apply s_signal.
Defined.

Lemma exit_completes_witness :
  exists y, reachable (mkContext None 0 HWaiting 2 MWaiting false 0) y /\ phase y = MExited /\ cancelled y = true.
Proof. apply exit_completes; [reflexivity|right; cbn; lia]. Defined.
End ContextInstances.
