(* ===== verification/App.v ===== *)
(** * Set-up of the program

    [src/g/app.go]: the key file and [Init], on the interface [Files] of
    [Config.v]. *)
From S2P Require Import Prelude.
From S2P Require Import GoSem.
From S2P Require Import Config.

(** ** The key file ([app.go]) *)
Definition alphabet : bytes := gostr "0123456789abcdefghijklmnopqrstuvwxyzABCDEFGHIJKLMNOPQRSTUVWXYZ".

(** [Intn i]: the [i]-th draw below [len(bt)]. *)
Fixpoint rand_loop (Intn : nat -> Z) (i : nat) (n : nat) (result : bytes) : outcome bytes :=
  match n with
  | O => Ret result
  | S n => obind (index alphabet (Intn i)) (fun b => rand_loop Intn (S i) n (result ++ [b]))
  end.
Definition randString (Intn : nat -> Z) (slen : Z) : outcome bytes := rand_loop Intn 0 (Z.to_nat slen) [].

Section KeyFile.
Context {F : Type} {HF : Files F}.

Definition GetKey (sessionFile : bytes) (now : Z) (Intn : nat -> Z) : M F bytes := fun fs =>
  let data := if IsExist sessionFile fs then default [] (ToTrimString sessionFile fs) else [] in
  if negb (bool_decide (data = [])) then (fs, Ret data)
  else match randString Intn 64 with
       | Ret r =>
           let key := gostr (pretty.pretty now) ++ gostr "-" ++ r in
           let w := WriteString sessionFile key fs in
           (w.1, Ret (if negb (w.2 =? len key) then [] else key))
       | Panic => (fs, Panic)
       | Block => (fs, Block)
       | OutOfFuel => (fs, OutOfFuel)
       end.
End KeyFile.

(** ** Set-up ([Init])

    It writes the process id and sets the level of the log; both the
    configuration and its section [log] have to be there.  The location
    [time.LoadLocation] finds is dropped. *)
Section Init.
Context {F : Type} {HF : Files F} (ParseLevel : bytes -> option Z).
Definition PID_FILE : bytes := gostr "/var/run/copycat/copycat.pid".

(** [level]: the level of the log so far. *)
Definition Init (pid : Z) (g : Globals) (level : Z) : M F Z := fun fs =>
  let fs' := (WriteString PID_FILE (gostr (pretty.pretty pid)) fs).1 in
  match Config g with
  | None => (fs', Panic)
  | Some c => match Log c with
              | None => (fs', Panic)
              | Some l => (fs', Ret (default level (ParseLevel (Level l))))
              end
  end.
End Init.

(** ** Keys are printable *)
Lemma alphabet_graphic : Forall graphic alphabet.
Proof. unfold graphic. repeat (constructor; [by vm_compute|]). constructor. Qed.

Lemma index_alphabet z : 0 <= z < 62 -> exists b, index alphabet z = Ret b /\ graphic b.
Proof.
  intros Hz. unfold index. destruct (Z.ltb_spec z 0); [lia|].
  destruct (lookup_lt_is_Some_2 alphabet (Z.to_nat z)) as [b E]; [change (length alphabet) with 62%nat; lia|].
  exists b. rewrite E. split; [done|]. exact (Forall_lookup_1 _ _ _ _ alphabet_graphic E).
Qed.

Lemma rand_loop_ok Intn n : (forall i, 0 <= Intn i < 62) -> forall i acc, Forall graphic acc ->
  exists r, rand_loop Intn i n acc = Ret r /\ Forall graphic r /\ length r = (length acc + n)%nat.
Proof.
  intros Hi. induction n as [|n IH]; intros i acc Ha; cbn [rand_loop].
  { exists acc. split_and!; [done|done|lia]. }
  destruct (index_alphabet (Intn i) (Hi i)) as (b & -> & Hb). cbn [obind].
  destruct (IH (S i) (acc ++ [b])) as (r & -> & Hr & Hl); [by apply Forall_app_2, Forall_singleton|].
  exists r. split_and!; [done|done|]. rewrite Hl, length_app. cbn. lia.
Qed.

Lemma pretty_N_graphic x : forall s, Forall graphic (gostr s) -> Forall graphic (gostr (pretty.pretty_N_go x s)).
Proof.
  induction (N.lt_wf_0 x) as [x _ IH]. intros s Hs. destruct (decide (0 < x)%N) as [Hx|Hx].
  - rewrite pretty.pretty_N_go_step by done. apply IH; [apply N.div_lt; lia|].
    unfold gostr in *. cbn [String.list_byte_of_string]. constructor; [|done].
    pose proof (N.mod_bound_pos x 10). unfold graphic.
    assert (x mod 10 < 10)%N as Hm by (apply N.mod_lt; lia).
    revert Hm. generalize (x mod 10)%N. intros m Hm.
    assert (m ∈ map N.of_nat (seq 0 10)) as Hin.
    { apply list_elem_of_fmap. exists (N.to_nat m). split; [lia|]. apply elem_of_seq. lia. }
    clear -Hin. cbn in Hin. repeat (apply elem_of_cons in Hin as [->|Hin]; [by vm_compute|]).
    by apply not_elem_of_nil in Hin.
  - replace x with 0%N by lia. by rewrite pretty.pretty_N_go_0.
Qed.

Lemma pretty_graphic (z : Z) : Forall graphic (gostr (pretty.pretty z)).
Proof.
  assert (HN : forall x : N, Forall graphic (gostr (pretty.pretty x))).
  { intros x. unfold pretty.pretty, pretty.pretty_N. case_decide; [by repeat constructor|].
    apply pretty_N_graphic. constructor. }
  destruct z as [|p|p]; cbn; [by repeat constructor|apply (HN (Npos p))|].
  unfold gostr. cbn [String.append String.list_byte_of_string]. constructor; [by vm_compute|]. apply (HN (Npos p)).
Qed.

(** ** The key is kept *)
Section KeyProofs.
Context {F : Type} {HF : Files F} {HL : FilesLaws F}.
Implicit Types fs : F.

(** A fresh key and what writing it left. *)
Lemma GetKey_fresh p now Intn fs : (forall i, 0 <= Intn i < 62) ->
  (if IsExist p fs then default [] (ToTrimString p fs) else []) = [] ->
  exists key, Forall graphic key /\ (65 <= length key)%nat /\
    GetKey p now Intn fs = ((WriteString p key fs).1,
      Ret (if negb ((WriteString p key fs).2 =? len key) then [] else key)).
Proof.
  intros Hi He. unfold GetKey. rewrite He. cbn [negb]. rewrite bool_decide_true by done. cbn [negb].
  unfold randString. destruct (rand_loop_ok Intn (Z.to_nat 64) Hi 0 [] ltac:(constructor)) as (r & -> & Hr & Hl).
  exists (gostr (pretty.pretty now) ++ gostr "-" ++ r). split_and!; [| |done].
  - apply Forall_app_2; [apply pretty_graphic|]. constructor; [by vm_compute|done].
  - rewrite !length_app, Hl. change (length (gostr "-")) with 1%nat. lia.
Qed.

(** What is in the file is the answer from then on. *)
Lemma GetKey_found p now Intn fs k : IsExist p fs = true -> ToTrimString p fs = Some k -> k <> [] ->
  GetKey p now Intn fs = (fs, Ret k).
Proof. intros E1 E2 Hk. unfold GetKey. rewrite E1, E2. cbn [default]. by rewrite bool_decide_false. Qed.

(** The key of a node is made once: whatever non-empty key a call returns, all
    later calls return it too, at any time and with any random numbers. *)
Theorem GetKey_stable p now Intn fs fs' k :
  (forall i, 0 <= Intn i < 62) -> GetKey p now Intn fs = (fs', Ret k) -> k <> [] ->
  forall now' Intn', GetKey p now' Intn' fs' = (fs', Ret k).
Proof.
  intros Hi E Hk now' Intn'.
  destruct (decide ((if IsExist p fs then default [] (ToTrimString p fs) else []) = [])) as [He|He].
  - destruct (GetKey_fresh p now Intn fs Hi He) as (key & Hg & Hl & E'). rewrite E' in E.
    injection E as <- E2. destruct (Z.eqb_spec (WriteString p key fs).2 (len key)) as [En|]; cbn in E2; [|by subst].
    subst k. destruct (write_reads p key fs Hg) as [H1 H2]; [unfold len in En; lia|].
    apply GetKey_found; [done| |done]. rewrite H2, En. unfold len. by rewrite Nat2Z.id, firstn_all.
  - assert (IsExist p fs = true /\ ToTrimString p fs = Some k /\ fs' = fs) as (H1 & H2 & ->).
    { unfold GetKey in E. rewrite bool_decide_false in E by done. cbn [negb] in E. injection E as <- <-.
      destruct (IsExist p fs); [|done]. by destruct (ToTrimString p fs). }
    by apply GetKey_found.
Qed.

(** A key that was cut short on its way to the disk is adopted by the next
    start: the first call reports no key, the later ones return the fragment. *)
Theorem GetKey_short_write p now Intn fs :
  (forall i, 0 <= Intn i < 62) -> IsExist p fs = false ->
  (forall s, 65 <= len s -> 0 < (WriteString p s fs).2 < len s) ->
  exists fs' k, GetKey p now Intn fs = (fs', Ret []) /\ k <> [] /\
    forall now' Intn', GetKey p now' Intn' fs' = (fs', Ret k).
Proof.
  intros Hi He Hw. destruct (GetKey_fresh p now Intn fs Hi) as (key & Hg & Hl & E); [by rewrite He|].
  specialize (Hw key ltac:(unfold len; lia)). destruct (write_reads p key fs Hg) as [H1 H2]; [lia|].
  rewrite (proj2 (Z.eqb_neq _ _)) in E by lia. eexists _, (take (Z.to_nat (WriteString p key fs).2) key).
  split_and!; [exact E| |].
  - intros Ht. apply (f_equal length) in Ht. rewrite length_take in Ht. unfold len in Hw. cbn in Ht. lia.
  - intros now' Intn'. apply GetKey_found; [done|done|].
    intros Ht. apply (f_equal length) in Ht. rewrite length_take in Ht. unfold len in Hw. cbn in Ht. lia.
Qed.

(** Without a configuration, or with one that has no section [log], the
    program does not come up. *)
Lemma Init_panics ParseLevel pid g level fs :
  (Config g ≫= Log) = None <-> (Init ParseLevel pid g level fs).2 = Panic.
Proof. unfold Init. destruct (Config g) as [c|]; cbn; [|done]. by destruct (Log c). Qed.
End KeyProofs.

(** ** Instances: a file system of whole files, with room for [room] bytes in
    a new one *)
Module OneDisk.
Record disk := mkDisk { files : gmap bytes bytes; room : nat }.
#[export] Instance disk_files : Files disk := {
  Stat p f := bool_decide (is_Some (files f !! p));
  IsExist p f := bool_decide (is_Some (files f !! p));
  ToTrimString p f := files f !! p;
  WriteString p s f := (mkDisk (<[p := take (room f) s]> (files f)) (room f), len (take (room f) s))
}.
#[export] Instance disk_laws : FilesLaws disk.
Proof.
  split.
  - intros p s f. cbn. unfold len. rewrite length_take. lia.
  - intros p s f _ Hpos. cbn in *. rewrite lookup_insert_eq. split; [done|].
    unfold len. rewrite Nat2Z.id, length_take. f_equal.
    destruct (decide (room f <= length s)%nat); [by rewrite Nat.min_l by lia|].
    rewrite Nat.min_r by lia. by rewrite !take_ge by lia.
Qed.
End OneDisk.

Section AppInstances.
Import OneDisk.
#[local] Definition key_file : bytes := gostr "s".
#[local] Definition zeros (i : nat) : Z := 0.

Lemma GetKey_stable_witness :
  let r := GetKey key_file 7 zeros (mkDisk ∅ 100) in
  GetKey key_file 8 zeros r.1 = (r.1, Ret (gostr "7-" ++ replicate 64 Byte.x30)).
Proof.
  refine (GetKey_stable key_file 7 zeros (mkDisk ∅ 100) _ _ _ _ _ 8 zeros); [intros i; unfold zeros; lia| |done].
  apply pair_snd. reflexivity.
Defined.

Lemma GetKey_short_write_witness :
  exists fs' k, GetKey key_file 7 zeros (mkDisk ∅ 9) = (fs', Ret []) /\ k <> [] /\
    forall now' Intn', GetKey key_file now' Intn' fs' = (fs', Ret k).
Proof.
  apply (GetKey_short_write key_file 7 zeros (mkDisk ∅ 9)); [intros i; unfold zeros; lia|reflexivity|].
  intros s Hs. cbn. unfold len in *. rewrite length_take. lia.
Defined.

(** The configuration of a program that lies in [/opt/copycat/bin]. *)
#[local] Definition a_config : GlobalConfig := mkGlobalConfig None None [] None (gostr "0.0.0.0:9990") None None.
#[local] Definition unmarshal (s : bytes) : option GlobalConfig := if decide (s = gostr "{}") then Some a_config else None.
#[local] Definition exe : bytes := gostr "/opt/copycat/bin/../copycat".
#[local] Definition installed : disk := mkDisk {[ gostr "/opt/copycat/cfg.json" := gostr "{}" ]} 100.
#[local] Definition no_globals : Globals := mkGlobals [] None.

Lemma candidates_example : candidates exe (gostr "  ") =
  [gostr "/etc/copycat/cfg.json"; gostr "/opt/copycat/etc/cfg.json"; gostr "/opt/copycat/cfg.json"].
Proof. reflexivity. Qed.

Lemma Reload_same_file_witness :
  let g := mkGlobals (gostr "/opt/copycat/cfg.json") (Some a_config) in
  first_existing installed (candidates exe []) = Some (ConfigFile g) /\ Config g = Some a_config /\
  forall fs' exe',
    Reload unmarshal fs' (Some exe') g =
      if Stat (ConfigFile g) fs'
      then (loaded (ConfigFile g) (load_file unmarshal fs' (ConfigFile g)) g, Ret (load_file unmarshal fs' (ConfigFile g)))
      else (g, Ret (inl NoConfigFile)).
Proof.
  apply (Reload_same_file unmarshal installed exe [] no_globals). reflexivity.
Defined.
End AppInstances.
