(* ===== verification/Settings.v ===== *)
(** * The text of the configuration

    [json.Unmarshal] of a configuration file into the structs of
    [src/g/cfg.go], on the reader of [Json.v]: members are matched with the
    fields' tags, exactly or up to case, members that match nothing are left
    out, and a value of the wrong type is an error, on which [ParseConfig]
    ends the process. *)
From S2P Require Import Prelude.
From S2P Require Import GoSem.
From S2P Require Import Utf8.
From S2P Require Import Numbers.
From S2P Require Import Json.
From S2P Require Import Config.
From S2P Require Import App.

(** ** Decoding into a struct

    A decoder gets the value the variable has so far; [None] is an error. *)
Definition decoder (A : Type) : Type := json -> A -> option A.

Definition decode_string : decoder bytes := fun v old =>
  match v with JNull => Some old | JString s => Some s | _ => None end.
Definition decode_bool : decoder bool := fun v old =>
  match v with JNull => Some old | JBool b => Some b | _ => None end.
(** An unsigned integer of [w] bits, as [strconv.ParseUint] reads it. *)
Definition decode_uint (w : Z) : decoder Z := fun v old =>
  match v with
  | JNull => Some old
  | JNumber (mkNum false d [] None) => if dec_val d <? 2 ^ w then Some (dec_val d) else None
  | _ => None
  end.
(** A pointer: [null] makes it nil, anything else goes where it points to, to a
    new [zero] when it is nil. *)
Definition decode_pointer {A} (zero : A) (dec : decoder A) : decoder (option A) := fun v old =>
  match v with JNull => Some None | _ => Some <$> dec v (default zero old) end.

(** [foldFunc]: the case of letters does not count, and two letters beyond
    ASCII fold to ASCII: the long s and the Kelvin sign. *)
Definition fold_token (t : token) : token :=
  match t with
  | T1 b => if (65 <=? byte_Z b) && (byte_Z b <=? 90) then T1 (Z_byte (byte_Z b + 32)) else t
  | _ =>
      if bool_decide (t = T2 (Z_byte 197) (Z_byte 191)) then ch 115
      else if bool_decide (t = T3 (Z_byte 226) (Z_byte 132) (Z_byte 170)) then ch 107
      else t
  end.
Definition EqualFold (a b : bytes) : bool :=
  bool_decide (map fold_token (tokens a) = map fold_token (tokens b)).

(** A field: its tag, and decoding into it. *)
Record field (A : Type) := mkField_ { f_name : bytes; f_decode : decoder A }.
Arguments mkField_ {A}.
Arguments f_name {A}.
Arguments f_decode {A}.
#[local] Abbreviation mkField s := (mkField_ (gostr s)).

Definition find_field {A} (fields : list (field A)) (k : bytes) : option (field A) :=
  match List.find (fun f => bool_decide (f_name f = k)) fields with
  | Some f => Some f
  | None => List.find (fun f => EqualFold (f_name f) k) fields
  end.
(** One member of an object. *)
Definition decode_member {A} (fields : list (field A)) (r : option A) (kv : bytes * json) : option A :=
  match r with
  | None => None
  | Some a => match find_field fields kv.1 with Some f => f_decode f kv.2 a | None => Some a end
  end.
Definition decode_struct {A} (fields : list (field A)) : decoder A := fun v a =>
  match v with
  | JNull => Some a
  | JObject l => foldl (decode_member fields) (Some a) l
  | _ => None
  end.

(** ** The structs of [cfg.go] *)
Definition zero_log : LogConfig := mkLogConfig [].
Definition log_fields : list (field LogConfig) :=
  [mkField "level" (fun v a => (fun x => mkLogConfig x) <$> decode_string v (Level a))].
Definition zero_admin : AdminConfig := mkAdminConfig false [].
Definition admin_fields : list (field AdminConfig) :=
  [mkField "enabled" (fun v a => (fun x => mkAdminConfig x (ad_Listen a)) <$> decode_bool v (ad_Enabled a));
   mkField "listen" (fun v a => (fun x => mkAdminConfig (ad_Enabled a) x) <$> decode_string v (ad_Listen a))].
Definition zero_database : DatabaseConfig := mkDatabaseConfig [] 0 [] [] [] 0 [] 0 0 [] 0.
Definition database_fields : list (field DatabaseConfig) :=
  [mkField "host" (fun v a => (fun x => mkDatabaseConfig x (db_Port a) (User a) (Password a) (Charset a) (ServerID
     a) (Flavor a) (HeartbeatPeriod a) (db_ReadTimeout a) (db_BinlogFile a) (db_BinlogPos a)) <$> decode_string v
     (Host a));
   mkField "port" (fun v a => (fun x => mkDatabaseConfig (Host a) x (User a) (Password a) (Charset a) (ServerID a)
     (Flavor a) (HeartbeatPeriod a) (db_ReadTimeout a) (db_BinlogFile a) (db_BinlogPos a)) <$> decode_uint 16 v
     (db_Port a));
   mkField "user" (fun v a => (fun x => mkDatabaseConfig (Host a) (db_Port a) x (Password a) (Charset a) (ServerID
     a) (Flavor a) (HeartbeatPeriod a) (db_ReadTimeout a) (db_BinlogFile a) (db_BinlogPos a)) <$> decode_string v
     (User a));
   mkField "password" (fun v a => (fun x => mkDatabaseConfig (Host a) (db_Port a) (User a) x (Charset a) (ServerID
     a) (Flavor a) (HeartbeatPeriod a) (db_ReadTimeout a) (db_BinlogFile a) (db_BinlogPos a)) <$> decode_string v
     (Password a));
   mkField "charset" (fun v a => (fun x => mkDatabaseConfig (Host a) (db_Port a) (User a) (Password a) x (ServerID
     a) (Flavor a) (HeartbeatPeriod a) (db_ReadTimeout a) (db_BinlogFile a) (db_BinlogPos a)) <$> decode_string v
     (Charset a));
   mkField "server_id" (fun v a => (fun x => mkDatabaseConfig (Host a) (db_Port a) (User a) (Password a) (Charset a)
     x (Flavor a) (HeartbeatPeriod a) (db_ReadTimeout a) (db_BinlogFile a) (db_BinlogPos a)) <$> decode_uint 32 v
     (ServerID a));
   mkField "flavor" (fun v a => (fun x => mkDatabaseConfig (Host a) (db_Port a) (User a) (Password a) (Charset a)
     (ServerID a) x (HeartbeatPeriod a) (db_ReadTimeout a) (db_BinlogFile a) (db_BinlogPos a)) <$> decode_string v
     (Flavor a));
   mkField "heartbeat_period" (fun v a => (fun x => mkDatabaseConfig (Host a) (db_Port a) (User a) (Password a)
     (Charset a) (ServerID a) (Flavor a) x (db_ReadTimeout a) (db_BinlogFile a) (db_BinlogPos a)) <$> decode_uint 64
     v (HeartbeatPeriod a));
   mkField "read_timeout" (fun v a => (fun x => mkDatabaseConfig (Host a) (db_Port a) (User a) (Password a) (Charset
     a) (ServerID a) (Flavor a) (HeartbeatPeriod a) x (db_BinlogFile a) (db_BinlogPos a)) <$> decode_uint 32 v
     (db_ReadTimeout a));
   mkField "binlog_file" (fun v a => (fun x => mkDatabaseConfig (Host a) (db_Port a) (User a) (Password a) (Charset
     a) (ServerID a) (Flavor a) (HeartbeatPeriod a) (db_ReadTimeout a) x (db_BinlogPos a)) <$> decode_string v
     (db_BinlogFile a));
   mkField "binlog_pos" (fun v a => (fun x => mkDatabaseConfig (Host a) (db_Port a) (User a) (Password a) (Charset
     a) (ServerID a) (Flavor a) (HeartbeatPeriod a) (db_ReadTimeout a) (db_BinlogFile a) x) <$> decode_uint 32 v
     (db_BinlogPos a))].
Definition zero_agent : AgentConfig := mkAgentConfig false [] [] [].
Definition agent_fields : list (field AgentConfig) :=
  [mkField "enabled" (fun v a => (fun x => mkAgentConfig x (ag_Lock a) (ag_Listen a) (ag_Consul a)) <$> decode_bool
     v (ag_Enabled a));
   mkField "lock" (fun v a => (fun x => mkAgentConfig (ag_Enabled a) x (ag_Listen a) (ag_Consul a)) <$>
     decode_string v (ag_Lock a));
   mkField "listen" (fun v a => (fun x => mkAgentConfig (ag_Enabled a) (ag_Lock a) x (ag_Consul a)) <$>
     decode_string v (ag_Listen a));
   mkField "consul" (fun v a => (fun x => mkAgentConfig (ag_Enabled a) (ag_Lock a) (ag_Listen a) x) <$>
     decode_string v (ag_Consul a))].
Definition zero_consul : ConsulConfig := mkConsulConfig false [].
Definition consul_fields : list (field ConsulConfig) :=
  [mkField "enabled" (fun v a => (fun x => mkConsulConfig x (Addr a)) <$> decode_bool v (co_Enabled a));
   mkField "addr" (fun v a => (fun x => mkConsulConfig (co_Enabled a) x) <$> decode_string v (Addr a))].
Definition zero_config : GlobalConfig := mkGlobalConfig None None [] None [] None None.
Definition config_fields : list (field GlobalConfig) :=
  [mkField "log" (fun v a => (fun x => mkGlobalConfig x (Admin a) (TimeZone a) (Database a) (Listen a) (Consul a)
     (cfg_Agent a)) <$> decode_pointer zero_log (decode_struct log_fields) v (Log a));
   mkField "admin" (fun v a => (fun x => mkGlobalConfig (Log a) x (TimeZone a) (Database a) (Listen a) (Consul a)
     (cfg_Agent a)) <$> decode_pointer zero_admin (decode_struct admin_fields) v (Admin a));
   mkField "time_zone" (fun v a => (fun x => mkGlobalConfig (Log a) (Admin a) x (Database a) (Listen a) (Consul a)
     (cfg_Agent a)) <$> decode_string v (TimeZone a));
   mkField "database" (fun v a => (fun x => mkGlobalConfig (Log a) (Admin a) (TimeZone a) x (Listen a) (Consul a)
     (cfg_Agent a)) <$> decode_pointer zero_database (decode_struct database_fields) v (Database a));
   mkField "listen" (fun v a => (fun x => mkGlobalConfig (Log a) (Admin a) (TimeZone a) (Database a) x (Consul a)
     (cfg_Agent a)) <$> decode_string v (Listen a));
   mkField "consul" (fun v a => (fun x => mkGlobalConfig (Log a) (Admin a) (TimeZone a) (Database a) (Listen a) x
     (cfg_Agent a)) <$> decode_pointer zero_consul (decode_struct consul_fields) v (Consul a));
   mkField "agent" (fun v a => (fun x => mkGlobalConfig (Log a) (Admin a) (TimeZone a) (Database a) (Listen a)
     (Consul a) x) <$> decode_pointer zero_agent (decode_struct agent_fields) v (cfg_Agent a))].

(** [var c GlobalConfig; err := json.Unmarshal(s, &c)]; [None]: an error. *)
Definition UnmarshalConfig (s : bytes) : option GlobalConfig :=
  match parse s with Ret (Some v) => decode_struct config_fields v zero_config | _ => None end.

(** ** Files that spell a configuration *)
Definition written_log (a : LogConfig) : json :=
  JObject [(gostr "level", JString (Level a))].
Definition written_admin (a : AdminConfig) : json :=
  JObject [(gostr "enabled", JBool (ad_Enabled a));
    (gostr "listen", JString (ad_Listen a))].
Definition written_database (a : DatabaseConfig) : json :=
  JObject [(gostr "host", JString (Host a));
    (gostr "port", JNumber (int_lit (db_Port a)));
    (gostr "user", JString (User a));
    (gostr "password", JString (Password a));
    (gostr "charset", JString (Charset a));
    (gostr "server_id", JNumber (int_lit (ServerID a)));
    (gostr "flavor", JString (Flavor a));
    (gostr "heartbeat_period", JNumber (int_lit (HeartbeatPeriod a)));
    (gostr "read_timeout", JNumber (int_lit (db_ReadTimeout a)));
    (gostr "binlog_file", JString (db_BinlogFile a));
    (gostr "binlog_pos", JNumber (int_lit (db_BinlogPos a)))].
Definition written_agent (a : AgentConfig) : json :=
  JObject [(gostr "enabled", JBool (ag_Enabled a));
    (gostr "lock", JString (ag_Lock a));
    (gostr "listen", JString (ag_Listen a));
    (gostr "consul", JString (ag_Consul a))].
Definition written_consul (a : ConsulConfig) : json :=
  JObject [(gostr "enabled", JBool (co_Enabled a));
    (gostr "addr", JString (Addr a))].
Definition written_section {A} (w : A -> json) (o : option A) : json := match o with Some a => w a | None => JNull
     end.
Definition written (a : GlobalConfig) : json :=
  JObject [(gostr "log", written_section written_log (Log a));
    (gostr "admin", written_section written_admin (Admin a));
    (gostr "time_zone", JString (TimeZone a));
    (gostr "database", written_section written_database (Database a));
    (gostr "listen", JString (Listen a));
    (gostr "consul", written_section written_consul (Consul a));
    (gostr "agent", written_section written_agent (cfg_Agent a))].

(** Texts are UTF-8, numbers fit their fields. *)
Definition log_ok (a : LogConfig) : Prop :=
  ValidString (Level a).
Definition admin_ok (a : AdminConfig) : Prop :=
  ValidString (ad_Listen a).
Definition database_ok (a : DatabaseConfig) : Prop :=
  ValidString (Host a) /\ 0 <= db_Port a < 2 ^ 16 /\ ValidString (User a) /\ ValidString (Password a) /\ ValidString
     (Charset a) /\ 0 <= ServerID a < 2 ^ 32 /\ ValidString (Flavor a) /\ 0 <= HeartbeatPeriod a < 2 ^ 64 /\ 0 <=
     db_ReadTimeout a < 2 ^ 32 /\ ValidString (db_BinlogFile a) /\ 0 <= db_BinlogPos a < 2 ^ 32.
Definition agent_ok (a : AgentConfig) : Prop :=
  ValidString (ag_Lock a) /\ ValidString (ag_Listen a) /\ ValidString (ag_Consul a).
Definition consul_ok (a : ConsulConfig) : Prop :=
  ValidString (Addr a).
Definition section_ok {A} (P : A -> Prop) (o : option A) : Prop := match o with Some a => P a | None => True end.
Record config_ok (a : GlobalConfig) : Prop := {
  ok_log : section_ok log_ok (Log a);
  ok_admin : section_ok admin_ok (Admin a);
  ok_zone : ValidString (TimeZone a);
  ok_database : section_ok database_ok (Database a);
  ok_listen : ValidString (Listen a);
  ok_consul : section_ok consul_ok (Consul a);
  ok_agent : section_ok agent_ok (cfg_Agent a)
}.

Lemma decode_string_normal s old : ValidString s -> decode_string (JString (valid_string s)) old = Some s.
Proof. intros Hs. cbn [decode_string]. by rewrite valid_string_id. Qed.
Lemma decode_uint_lit w z old : 0 <= z < 2 ^ w -> decode_uint w (JNumber (int_lit z)) old = Some z.
Proof.
  intros Hz. unfold decode_uint, int_lit. rewrite (proj2 (Z.ltb_ge z 0)), Z.abs_eq by lia.
  rewrite (proj1 (decimal_spec z ltac:(lia))). by rewrite (proj2 (Z.ltb_lt _ _)) by lia.
Qed.

(** A member with the very name of a field goes to that field. *)
Lemma decode_members_cons {A} (fields : list (field A)) k v l f a a' :
  find_field fields k = Some f -> f_decode f v a = Some a' ->
  foldl (decode_member fields) (Some a) ((k, v) :: l) = foldl (decode_member fields) (Some a') l.
Proof. intros Hf Hv. cbn [foldl decode_member fst snd]. by rewrite Hf, Hv. Qed.

(** A member that is no field changes nothing. *)
Lemma decode_unknown {A} (fields : list (field A)) l1 k v l2 a : find_field fields k = None ->
  decode_struct fields (JObject (l1 ++ (k, v) :: l2)) a = decode_struct fields (JObject (l1 ++ l2)) a.
Proof.
  intros Hk. cbn [decode_struct]. rewrite !foldl_app. cbn [foldl]. f_equal. unfold decode_member at 1. cbn [fst].
  rewrite Hk. by destruct (foldl _ _ _).
Qed.
(** A value of the wrong type is an error, wherever it stands. *)
Lemma decode_members_none {A} (fields : list (field A)) l : foldl (decode_member fields) None l = None.
Proof. by induction l. Qed.
Lemma decode_bad {A} (fields : list (field A)) l1 k v l2 a f : find_field fields k = Some f ->
  (forall a, f_decode f v a = None) -> decode_struct fields (JObject (l1 ++ (k, v) :: l2)) a = None.
Proof.
  intros Hk Hv. cbn [decode_struct]. rewrite foldl_app. cbn [foldl]. unfold decode_member at 2. cbn [fst snd].
  rewrite Hk. destruct (foldl _ _ l1); rewrite ?Hv; apply decode_members_none.
Qed.

(** The members one after another, by the names they are written with. *)
#[local] Ltac fields :=
  cbn [fmap option_fmap option_map Level ad_Enabled ad_Listen Host db_Port User Password Charset ServerID Flavor
       HeartbeatPeriod db_ReadTimeout db_BinlogFile db_BinlogPos ag_Enabled ag_Lock ag_Listen ag_Consul co_Enabled
       Addr zero_log zero_admin zero_database zero_consul zero_agent].
#[local] Ltac member :=
  (erewrite decode_members_cons;
    [|reflexivity
     |cbn [f_decode]; first [rewrite decode_string_normal by assumption | rewrite decode_uint_lit by (split; assumption) | idtac];
      fields; reflexivity]).
#[local] Ltac keys :=
  repeat match goal with |- context [valid_string (gostr ?s)] => change (valid_string (gostr s)) with (gostr s) end.
#[local] Ltac members_of w ok :=
  intros a H; unfold ok in H; destruct_and?;
  unfold w; cbn [normal map decode_struct fst snd]; keys; repeat member; destruct a; reflexivity.

Lemma decode_log a : log_ok a -> decode_struct log_fields (normal (written_log a)) zero_log = Some a.
Proof. revert a. members_of written_log log_ok. Qed.
Lemma decode_admin a : admin_ok a -> decode_struct admin_fields (normal (written_admin a)) zero_admin = Some a.
Proof. revert a. members_of written_admin admin_ok. Qed.
Lemma decode_database a : database_ok a ->
  decode_struct database_fields (normal (written_database a)) zero_database = Some a.
Proof. revert a. members_of written_database database_ok. Qed.
Lemma decode_consul a : consul_ok a -> decode_struct consul_fields (normal (written_consul a)) zero_consul = Some a.
Proof. revert a. members_of written_consul consul_ok. Qed.
Lemma decode_agent a : agent_ok a -> decode_struct agent_fields (normal (written_agent a)) zero_agent = Some a.
Proof. revert a. members_of written_agent agent_ok. Qed.

(** A section that is there, and one that is not. *)
Lemma decode_section {A} (P : A -> Prop) zero (dec : decoder A) (w : A -> json) o :
  (forall a, P a -> dec (normal (w a)) zero = Some a) -> (forall a, w a <> JNull /\ normal (w a) <> JNull) ->
  section_ok P o -> decode_pointer zero dec (normal (written_section w o)) None = Some o.
Proof.
  intros Hd Hw Ho. destruct o as [a|]; [|done]. cbn [written_section section_ok] in *. unfold decode_pointer.
  destruct (Hw a) as [_ Hn]. pose proof (Hd a Ho) as E. destruct (normal (w a)); cbn [default]; rewrite ?E; done.
Qed.

Lemma section_value {A} (P : A -> Prop) (w : A -> json) o : (forall a, P a -> value_ok (w a)) ->
  section_ok P o -> value_ok (written_section w o).
Proof. intros Hw Ho. destruct o as [a|]; [by apply Hw|exact I]. Qed.
#[local] Ltac values w := intros ? _; unfold w; apply value_ok_object;
  repeat (apply Forall_cons; split; [first [exact I|exact (int_lit_ok _)]|]); constructor.
Lemma written_value a : config_ok a -> value_ok (written a).
Proof.
  intros [H1 H2 _ H3 _ H4 H5]. unfold written. apply value_ok_object.
  repeat (apply Forall_cons; split; cbn [snd]); try exact I; try (by constructor);
    (eapply section_value; [|eassumption]).
  - values written_log.
  - values written_admin.
  - values written_database.
  - values written_consul.
  - values written_agent.
Qed.

(** C35: A file that spells a configuration - every field under its tag, nil
    sections as [null] - is read back as that configuration. *)
Theorem config_roundtrip a : config_ok a -> UnmarshalConfig (text (print (written a))) = Some a.
Proof.
  intros Ha. unfold UnmarshalConfig. rewrite parse_print by (by apply written_value). destruct Ha as [H1 H2 H3 H4 H5 H6 H7].
  unfold written. cbn [normal map decode_struct fst snd]. keys.
  repeat (erewrite decode_members_cons;
    [|reflexivity
     |cbn [f_decode Log Admin TimeZone Database Listen Consul cfg_Agent zero_config];
      first [rewrite decode_string_normal by assumption
            |rewrite (decode_section log_ok) by (assumption || apply decode_log || done)
            |rewrite (decode_section admin_ok) by (assumption || apply decode_admin || done)
            |rewrite (decode_section database_ok) by (assumption || apply decode_database || done)
            |rewrite (decode_section consul_ok) by (assumption || apply decode_consul || done)
            |rewrite (decode_section agent_ok) by (assumption || apply decode_agent || done)];
      cbn [fmap option_fmap option_map]; reflexivity]).
  by destruct a.
Qed.

(** An empty document is a configuration, one without sections. *)
Lemma null_config : UnmarshalConfig (gostr "null") = Some zero_config.
Proof. reflexivity. Qed.

(** A value of the wrong type for a field ends the process with the
    configuration it had, whatever else the file says. *)
Theorem bad_value_fatal {F : Type} {HF : Files F} (fs : F) exe cfg g file content l1 k v l2 f :
  first_existing fs (candidates exe cfg) = Some file -> ToTrimString file fs = Some content ->
  parse content = Ret (Some (JObject (l1 ++ (k, v) :: l2))) ->
  find_field config_fields k = Some f -> (forall a, f_decode f v a = None) ->
  ParseConfig UnmarshalConfig fs (Some exe) cfg g = (with_ConfigFile file g, Ret (inl BadJson)).
Proof.
  intros Ef Ec Ep Ek Ev. rewrite parse_first, Ef. unfold load_file, UnmarshalConfig.
  rewrite Ec, Ep. by rewrite (decode_bad _ _ _ _ _ _ _ Ek Ev).
Qed.

(** ** The shipped file *)
Section Shipped.
(** The text with quotes for apostrophes. *)
Definition quoted (s : bytes) : bytes := map (fun b => if decide (b = Z_byte 39) then Z_byte 34 else b) s.
(** [src/cfg.json], with a value for the member [enable] of the agent. *)
Definition cfg_json (enable : bytes) : bytes := quoted (gostr
"{
	'log': {
		'level': 'debug'
	},
	'time_zone': 'Local',
	'database': {
		'host': '127.0.0.1',
		'port': 3306,
		'user': 'replicate',
		'password': '123456',
		'charset': 'utf8mb4',
		'server_id': 987654321,
		'flavor': 'mariadb',
		'heartbeat_period': 30000000000,
		'read_timeout': 0,
		'binlog_file': 'mysql-bin.000001',
		'binlog_pos': 4
	},
	'admin': {
		'enabled': false,
		'listen': '0.0.0.0:9998'
	},
	'listen': '0.0.0.0:9990',
	'consul': {
		'enabled': false,
		'addr': '127.0.0.1:8500'
	},
	'agent': {
		" ++ gostr "'enable': " ++ enable ++ gostr ",
		'lock': 'agent_lock',
		'listen': '0.0.0.0:9999',
		'consul': '127.0.0.1:8500'
	}
}").
Definition shipped_database : DatabaseConfig :=
  mkDatabaseConfig (gostr "127.0.0.1") 3306 (gostr "replicate") (gostr "123456") (gostr "utf8mb4") 987654321
    (gostr "mariadb") 30000000000 0 (gostr "mysql-bin.000001") 4.
Definition shipped_agent : AgentConfig :=
  mkAgentConfig false (gostr "agent_lock") (gostr "0.0.0.0:9999") (gostr "127.0.0.1:8500").
Definition shipped_consul : ConsulConfig := mkConsulConfig false (gostr "127.0.0.1:8500").
Definition shipped_admin : AdminConfig := mkAdminConfig false (gostr "0.0.0.0:9998").
Definition shipped : GlobalConfig :=
  mkGlobalConfig (Some (mkLogConfig (gostr "debug"))) (Some shipped_admin) (gostr "Local") (Some shipped_database)
    (gostr "0.0.0.0:9990") (Some shipped_consul) (Some shipped_agent).

Lemma decode_shipped : forall s, s = gostr "false" \/ s = gostr "true" \/ s = gostr "17" \/ s = gostr "{}" ->
  UnmarshalConfig (cfg_json s) = Some shipped.
Proof. intros s [->|[->|[->| ->]]]; vm_compute; reflexivity. Qed.

(** The switch of the agent is spelled [enable] in the file and [enabled] in
    the code: whatever it is set to - a boolean, a number, an object - the
    agent stays off, and nobody complains. *)
Theorem shipped_switch : forall s, s = gostr "false" \/ s = gostr "true" \/ s = gostr "17" \/ s = gostr "{}" ->
  UnmarshalConfig (cfg_json s) = Some shipped.
Proof. exact decode_shipped. Qed.

Lemma config_roundtrip_witness : UnmarshalConfig (text (print (written shipped))) = Some shipped.
Proof.
  apply (config_roundtrip shipped). split; cbn [section_ok Log Admin TimeZone Database Listen Consul cfg_Agent shipped];
    repeat apply conj; first [apply ascii_valid; repeat (constructor; [reflexivity|]); constructor|vm_compute; congruence].
Defined.

Import OneDisk.
#[local] Definition numeric : bytes := quoted (gostr "{'listen': 9990}").
#[local] Definition numeric_disk : OneDisk.disk := OneDisk.mkDisk {[ gostr "/etc/copycat/cfg.json" := numeric ]} 100.
Lemma bad_value_fatal_witness :
  ParseConfig UnmarshalConfig numeric_disk (Some (gostr "/opt/copycat")) [] (mkGlobals [] None) =
    (mkGlobals (gostr "/etc/copycat/cfg.json") None, Ret (inl BadJson)).
Proof.
  apply (bad_value_fatal numeric_disk (gostr "/opt/copycat") [] (mkGlobals [] None) (gostr "/etc/copycat/cfg.json") numeric
    [] (gostr "listen") (JNumber (int_lit 9990)) [] (mkField "listen" (fun v a =>
      (fun x => mkGlobalConfig (Log a) (Admin a) (TimeZone a) (Database a) x (Consul a) (cfg_Agent a)) <$>
        decode_string v (Listen a)))); try reflexivity.
Defined.
End Shipped.
