(* ===== verification/Leader.v ===== *)
(** * Leader election

    [src/consul/leader.go], [src/consul/lock.go], [src/consul/service.go].
    An agent competes for one lock in Consul and registers itself with a tag
    that says whether it leads.  Consul's lock is the interface [LockStore]:
    [Acquire] with a session, [Delete] of the key, and the expiry of a
    session; [Discovery.v] implements it by the lock of [Consul.v].  Whether a registration succeeds is an input. *)
From S2P Require Import Prelude.
From S2P Require Import GoSem.
From S2P Require Import Framing.
From S2P Require Import Frame.
From S2P Require Import SubClient.
From S2P Require Import Watch.

Definition Registered : Z := 1.

(** ** Data *)

(** The [Leader] with its [Service]; [tag] is what the local Consul agent has
    registered for it, [calls] what [onLeader] was told, in order. *)
Record Leader := mkLeader {
  leader : bool;
  svc_leader : bool;
  svc_status : Z;
  tag : option bool;
  calls : list bool
}.

Definition NewLeader : Leader := mkLeader false false 0 None [].

(** [SetLeader]; [sev.leader = b] *)
Definition SetLeader (b : bool) (l : Leader) : Leader :=
  mkLeader (leader l) b (svc_status l) (tag l) (calls l).
Definition set_leader (b : bool) (l : Leader) : Leader :=
  mkLeader b (svc_leader l) (svc_status l) (tag l) (calls l).
Definition onLeader (b : bool) (l : Leader) : Leader :=
  mkLeader (leader l) (svc_leader l) (svc_status l) (tag l) (calls l ++ [b]).

(** [Service.Register]; [ok] tells whether Consul took the registration. *)
Definition Register (ok : bool) (l : Leader) : Leader :=
  mkLeader (leader l) (svc_leader l)
    (if Z.land (svc_status l) Registered <=? 0 then Z.lor (svc_status l) Registered else svc_status l)
    (if ok then Some (svc_leader l) else tag l) (calls l).

Definition Deregister (ok : bool) (l : Leader) : Leader :=
  mkLeader (leader l) (svc_leader l) (svc_status l) (if ok then None else tag l) (calls l).

(** [Service.UpdateTTL] as far as its own check goes. *)
Definition UpdateTTL (l : Leader) : option goerr :=
  if Z.land (svc_status l) Registered <=? 0 then Some ErrNotRegister else None.

(** ** [Select]

    What [Lock] returned, [None] an error, at its first attempt and in a turn
    of the loop. *)
Definition Select_first (r : option bool) (ok : bool) (l : Leader) : Leader :=
  match r with
  | None => l
  | Some success => Register ok (onLeader success (SetLeader success (set_leader success l)))
  end.

Definition Select_turn (r : option bool) (ok : bool) (l : Leader) : Leader :=
  match r with
  | None => l
  | Some success =>
      if bool_decide (success = leader l) then l
      else Register ok (onLeader success (SetLeader success (set_leader success l)))
  end.

(** The goroutine of [Select]: its first attempt and some turns. *)
Definition Select (r : option bool * bool) (rs : list (option bool * bool)) (l : Leader) : Leader :=
  foldl (fun l r => Select_turn r.1 r.2 l) (Select_first r.1 r.2 l) rs.

(** [Free] but for the lock. *)
Definition Free_self (ok : bool) (l : Leader) : Leader := set_leader false (Deregister ok l).

(** ** The members as the leader's service shows them *)
Definition service_member (v : ServiceEntry) : outcome ServiceMember :=
  if bool_decide (AggregatedStatus v = gostr "passing") then
    match Tags v with
    | [] => Panic
    | t :: _ => Ret (mkMember (bool_decide (t = gostr "isleader:true")) (ID v) statusOnline (Address v) (EntryPort v))
    end
  else Ret (mkMember false (ID v) statusOffline (Address v) (EntryPort v)).

Fixpoint GetServices (entries : list ServiceEntry) : outcome (list ServiceMember) :=
  match entries with
  | [] => Ret []
  | v :: entries => obind (service_member v) (fun m => obind (GetServices entries) (fun l => Ret (m :: l)))
  end.

Fixpoint first_leader (members : list ServiceMember) : option ServiceMember :=
  match members with
  | [] => None
  | v :: members => if IsLeader v then Some v else first_leader members
  end.

(** [Get], given what Consul answered ([None] an error). *)
Definition Get (answer : option (list ServiceEntry)) : outcome (option ServiceMember * option goerr) :=
  match answer with
  | None => Ret (None, Some ErrMembersEmpty)
  | Some entries =>
      obind (GetServices entries) (fun members =>
      match first_leader members with
      | Some v => Ret (Some v, None)
      | None => Ret (None, Some ErrLeaderNotFound)
      end)
  end.

Lemma first_leader_Some l m : first_leader l = Some m -> m ∈ l /\ IsLeader m = true.
Proof.
  induction l as [|x l IH]; [done|]. cbn [first_leader]. destruct (IsLeader x) eqn:E.
  - intros [= <-]. split; [by left|done].
  - intros H. destruct (IH H). split; [by right|done].
Qed.
Lemma first_leader_None l m : first_leader l = None -> m ∈ l -> IsLeader m = false.
Proof.
  induction l as [|x l IH]; [by intros _ ?%not_elem_of_nil|]. cbn [first_leader]. destruct (IsLeader x) eqn:E; [done|].
  intros H [->|Hm]%elem_of_cons; [done|by apply IH].
Qed.

(** ** Election results as the process sees them *)

(** Successful attempts whose result differs from the one before. *)
Fixpoint changes (cur : bool) (rs : list (option bool)) : list bool :=
  match rs with
  | [] => []
  | Some b :: rs => if bool_decide (b = cur) then changes cur rs else b :: changes b rs
  | None :: rs => changes cur rs
  end.
Definition last_success (cur : bool) (rs : list (option bool)) : bool :=
  foldl (fun cur r => default cur r) cur rs.

Lemma Select_turns rs : forall l,
  let l' := foldl (fun l r => Select_turn r.1 r.2 l) l rs in
  calls l' = calls l ++ changes (leader l) (map fst rs) /\
  leader l' = last_success (leader l) (map fst rs).
Proof.
  induction rs as [|[r ok] rs IH]; intros l; cbn [foldl map].
  { by rewrite app_nil_r. }
  destruct (IH (Select_turn r ok l)) as [Hc Hl]. cbn [fst snd] in *. rewrite Hc, Hl.
  destruct r as [b|]; [|done]. cbn [Select_turn changes last_success foldl default].
  case_bool_decide as Hb; [by subst b|]. cbn [calls leader Register onLeader SetLeader set_leader].
  by rewrite <- app_assoc.
Qed.

(** The process is told its role once at the start and then exactly when
    the role changes; in between, and whatever else happens to the cluster -
    a new leader after a crash, a lost connection to it - it is told
    nothing. *)
Theorem Select_reports_changes r ok rs :
  let l := Select (Some r, ok) rs NewLeader in
  calls l = r :: changes r (map fst rs) /\ leader l = last_success r (map fst rs).
Proof.
  cbn zeta. unfold Select. cbn [fst snd Select_first].
  destruct (Select_turns rs (Register ok (onLeader r (SetLeader r (set_leader r NewLeader))))) as [-> ->].
  done.
Qed.

(** A follower whose first attempt at the lock fails with an error is left
    out: while it does not win the lock, its process is never told that it
    follows - so it never connects to the leader - and it is never
    registered, so its check is never renewed. *)
Theorem first_error_isolates ok rs :
  Forall (fun r : option bool * bool => r.1 <> Some true) rs ->
  let l := Select (None, ok) rs NewLeader in
  calls l = [] /\ tag l = None /\ UpdateTTL l = Some ErrNotRegister.
Proof.
  intros Hrs. unfold Select. cbn [fst snd Select_first]. cbn zeta.
  assert (H : foldl (fun l r => Select_turn r.1 r.2 l) NewLeader rs = NewLeader).
  { induction Hrs as [|[[[|]|] o] rs Hr Hrs IH]; [done|done|exact IH|exact IH]. }
  by rewrite H.
Qed.

(** ** The agents of a cluster *)

(** Consul's lock: who holds it, [Acquire] by a session ([None] an error),
    [Delete] of the key (whether it succeeded), and the expiry of the holder's
    session, which takes the key with it. *)
Class LockStore (C : Type) := {
  holder : C -> option bytes;
  acquire : bytes -> C -> C * option bool;
  delete_lock : C -> C * bool;
  expire : C -> C
}.
Class LockStoreLaws C `{LockStore C} := {
  acquire_true s c c' : acquire s c = (c', Some true) ->
    holder c' = Some s /\ (holder c = None \/ holder c = Some s);
  acquire_false s c c' : acquire s c = (c', Some false) ->
    holder c' = holder c /\ holder c <> Some s;
  acquire_error s c c' : acquire s c = (c', None) ->
    holder c' = holder c \/ (holder c = None /\ holder c' = Some s);
  delete_done c c' : delete_lock c = (c', true) -> holder c' = None;
  delete_failed c c' : delete_lock c = (c', false) -> holder c' = holder c \/ holder c' = None;
  expire_holder c : holder (expire c) = None
}.

Section Election.
Context {C : Type} {HC : LockStore C} {HL : LockStoreLaws C}.

(** The agents by session, Consul, and those agents that believed to lead when
    the lock was last removed and have not heard from Consul since (no code
    reads this set). *)
Record cluster := mkCluster {
  agents : gmap bytes Leader;
  store : C;
  unaware : gset bytes
}.

Definition believers (m : gmap bytes Leader) : gset bytes :=
  dom (filter (fun kv : bytes * Leader => leader kv.2 = true) m).

Inductive election_event :=
  | First (s : bytes) (ok : bool)           (* the first attempt of an agent's [Select] *)
  | Turn (s : bytes) (ok : bool)            (* a turn of its loop *)
  | Free (s : bytes) (ok : bool)            (* [Free]; whether Consul deregistered it *)
  | Expire.                                 (* the holder's session expires *)

Definition attempt (f : option bool -> bool -> Leader -> Leader) (s : bytes) (ok : bool) (k : cluster) : cluster :=
  match agents k !! s with
  | None => k
  | Some l =>
      let r := acquire s (store k) in
      mkCluster (<[s := f r.2 ok l]> (agents k)) r.1
        (match r.2 with Some _ => unaware k ∖ {[ s ]} | None => unaware k end)
  end.

Definition election_step (k : cluster) (e : election_event) : cluster :=
  match e with
  | First s ok => attempt Select_first s ok k
  | Turn s ok => attempt Select_turn s ok k
  | Free s ok =>
      match agents k !! s with
      | None => k
      | Some l =>
          let m := <[s := Free_self ok l]> (agents k) in
          if leader l then
            let c := (delete_lock (store k)).1 in
            mkCluster m c (match holder c with None => believers m | Some _ => unaware k end)
          else mkCluster m (store k) (unaware k)
      end
  | Expire => mkCluster (agents k) (expire (store k)) (believers (agents k))
  end.

(** An agent that leads, as far as it knows, holds the lock or is unaware. *)
Definition election_ok (k : cluster) : Prop :=
  forall s l, agents k !! s = Some l -> leader l = true ->
    s ∈ unaware k \/ holder (store k) = Some s.

Lemma elem_of_believers m s : s ∈ believers m <-> exists l, m !! s = Some l /\ leader l = true.
Proof.
  unfold believers. rewrite elem_of_dom. split.
  - intros [l Hl]. apply map_lookup_filter_Some in Hl as [? ?]. by exists l.
  - intros (l & Hl & Hb). exists l. by apply map_lookup_filter_Some.
Qed.

Lemma attempt_eq f s ok k l r c :
  agents k !! s = Some l -> acquire s (store k) = (c, r) ->
  attempt f s ok k = mkCluster (<[s := f r ok l]> (agents k)) c
    (match r with Some _ => unaware k ∖ {[ s ]} | None => unaware k end).
Proof. intros El Ea. unfold attempt. by rewrite El, Ea. Qed.

Lemma attempt_ok f s ok k :
  (forall b ok l, leader (f (Some b) ok l) = b) -> (forall ok l, f None ok l = l) ->
  election_ok k -> election_ok (attempt f s ok k).
Proof.
  intros Hf Hn Hk. unfold attempt. destruct (agents k !! s) as [l|] eqn:El; [|done].
  destruct (acquire s (store k)) as [c r] eqn:Ea. cbn zeta. cbn [fst snd].
  intros s' l' Hl' Hb. cbn [agents store unaware] in *. destruct (decide (s = s')) as [<-|Hne].
  - rewrite lookup_insert_eq in Hl'. injection Hl' as <-. destruct r as [[|]|].
    + right. by apply acquire_true in Ea as [? _].
    + rewrite Hf in Hb. done.
    + rewrite Hn in Hb. destruct (Hk s l El Hb) as [?|Hh]; [by left|right].
      apply acquire_error in Ea as [->|[Hnone _]]; congruence.
  - rewrite lookup_insert_ne in Hl' by done. destruct (Hk s' l' Hl' Hb) as [Hu|Hh].
    + left. destruct r; [apply elem_of_difference; split; [done|by intros ?%elem_of_singleton]|done].
    + right. destruct r as [[|]|].
      * apply acquire_true in Ea as [_ [?|?]]; congruence.
      * apply acquire_false in Ea as [-> _]. done.
      * apply acquire_error in Ea as [->|[? _]]; congruence.
Qed.

Lemma Select_turn_leader b ok l : leader (Select_turn (Some b) ok l) = b.
Proof. cbn [Select_turn]. by case_bool_decide as Hb; [subst b|]. Qed.

Lemma election_step_ok k e : election_ok k -> election_ok (election_step k e).
Proof.
  intros Hk. destruct e as [s ok|s ok|s ok|]; cbn [election_step].
  - by apply attempt_ok.
  - by apply attempt_ok; [apply Select_turn_leader| |].
  - destruct (agents k !! s) as [l|] eqn:El; [|done]. destruct (leader l).
    + destruct (delete_lock (store k)) as [c b] eqn:Ed. cbn [fst]. cbv zeta.
      destruct (holder c) as [h|] eqn:Eh; cycle 1.
      { intros s' l' Hl' Hb. left. apply elem_of_believers. by exists l'. }
      assert (Hh : holder (store k) = Some h).
      { destruct b; [apply delete_done in Ed|apply delete_failed in Ed as [Ed|Ed]]; congruence. }
      intros s' l' Hl' Hb. cbn [agents store unaware] in *. destruct (decide (s = s')) as [<-|Hne].
      * rewrite lookup_insert_eq in Hl'. by injection Hl' as <-.
      * rewrite lookup_insert_ne in Hl' by done. rewrite Eh, <- Hh. by apply (Hk s' l').
    + intros s' l' Hl' Hb. cbn [agents store unaware] in *. destruct (decide (s = s')) as [<-|Hne].
      * rewrite lookup_insert_eq in Hl'. injection Hl' as <-. done.
      * rewrite lookup_insert_ne in Hl' by done. by apply (Hk s' l').
  - intros s l Hl Hb. left. apply elem_of_believers. by exists l.
Qed.

Lemma election_run_ok evs : forall k, election_ok k -> election_ok (foldl election_step k evs).
Proof. induction evs as [|e evs IH]; intros k Hk; [done|]. by apply IH, election_step_ok. Qed.

(** At most one leader: in a cluster of any size and along every run - any
    order of attempts, errors of Consul included, agents that resign, sessions
    that expire - two agents that both believe to lead are the same one,
    unless one of them has not heard from Consul since the lock was last
    taken away from its holder. *)
Theorem leader_unique evs names c s1 s2 l1 l2 :
  let k := foldl election_step (mkCluster (gset_to_gmap NewLeader names) c ∅) evs in
  agents k !! s1 = Some l1 -> leader l1 = true -> s1 ∉ unaware k ->
  agents k !! s2 = Some l2 -> leader l2 = true -> s2 ∉ unaware k -> s1 = s2.
Proof.
  intros k E1 H1 U1 E2 H2 U2.
  assert (Hk : election_ok k).
  { unfold k. assert (H0' : election_ok (mkCluster (gset_to_gmap NewLeader names) c ∅)).
    { intros s l Hl Hb. cbn [agents] in Hl. apply lookup_gset_to_gmap_Some in Hl as [_ <-]. done. }
    by apply election_run_ok. }
  destruct (Hk s1 l1 E1 H1) as [?|Hh1]; [done|]. destruct (Hk s2 l2 E2 H2) as [?|Hh2]; [done|]. congruence.
Qed.

(** Resigning does not last: [Free] leaves the loop of [Select] running, so
    a leader that resigns takes the lock back at its next turn, unless another
    agent was faster, tells its process that it leads and registers again. *)
Theorem freed_leader_returns k s l (ok ok' : bool) c :
  agents k !! s = Some l -> leader l = true ->
  acquire s (delete_lock (store k)).1 = (c, Some true) ->
  exists l' : Leader, agents (foldl election_step k [Free s ok; Turn s ok']) !! s = Some l' /\
    leader l' = true /\ calls l' = calls l ++ [true] /\
    tag l' = (if ok' then Some true else if ok then None else tag l).
Proof.
  intros El Hl Ha. cbn [foldl election_step]. rewrite El, Hl. cbv zeta.
  set (k1 := mkCluster _ _ _).
  assert (E1 : agents k1 !! s = Some (Free_self ok l)) by apply lookup_insert_eq.
  rewrite (attempt_eq Select_turn s ok' k1 _ (Some true) c E1) by done.
  eexists. cbn [agents]. split; [apply lookup_insert_eq|].
  cbn [Select_turn Free_self set_leader Deregister leader]. rewrite bool_decide_false by done.
  done.
Qed.

(** A resigning agent may break its successor's lock: [Free] deletes the
    key whoever holds it.  When a leader whose session expired resigns before
    its next turn, the lock of the agent that took over is removed, a third
    agent can take it, and the cluster has two leaders that both got the lock
    from Consul after that expiry. *)
Theorem stale_leader_breaks_lock k a b d la lb ld ok c1 c2 :
  a <> b -> a <> d -> b <> d ->
  agents k !! a = Some la -> leader la = true ->
  agents k !! b = Some lb -> agents k !! d = Some ld ->
  acquire b (expire (store k)) = (c1, Some true) ->
  acquire d (delete_lock c1).1 = (c2, Some true) ->
  exists lb' ld',
    let k' := foldl election_step k [Expire; Turn b true; Free a ok; Turn d true] in
    agents k' !! b = Some lb' /\ leader lb' = true /\
    agents k' !! d = Some ld' /\ leader ld' = true.
Proof.
  intros Hab Had Hbd Ea La Eb Ed A1 A2. cbn [foldl election_step agents store].
  rewrite (attempt_eq Select_turn b true _ lb (Some true) c1) by done. cbn [agents store].
  rewrite lookup_insert_ne, Ea, La by done. cbv zeta.
  rewrite (attempt_eq Select_turn d true _ ld (Some true) c2); cbn [agents store]; [| |done].
  - eexists _, _. split_and!; [|apply Select_turn_leader| |apply Select_turn_leader].
    + rewrite !lookup_insert_ne by done. apply lookup_insert_eq.
    + apply lookup_insert_eq.
  - by rewrite !lookup_insert_ne.
Qed.
End Election.

(** ** Concrete instances: a lock that never fails, three agents *)
Section ElectionInstances.
#[local] Instance plain_lock : LockStore (option bytes) := {
  holder c := c;
  acquire s c := match c with
                 | None => (Some s, Some true)
                 | Some h => (c, Some (bool_decide (h = s)))
                 end;
  delete_lock _ := (None, true);
  expire _ := None
}.
#[local] Instance plain_lock_laws : LockStoreLaws (option bytes).
Proof.
  split; simpl; try done.
  - intros s [h|] c'; [intros [= <- Hs]|intros [= <-]; auto]. apply bool_decide_eq_true in Hs. subst h. auto.
  - intros s [h|] c'; [intros [= <- Hs]|done]. apply bool_decide_eq_false in Hs. split; [done|congruence].
  - by intros s [h|] c'.
  - by intros c c' [= <-].
Qed.

#[local] Abbreviation a := (gostr "a").
#[local] Abbreviation b := (gostr "b").
#[local] Abbreviation d := (gostr "d").
#[local] Definition start : cluster := mkCluster (gset_to_gmap NewLeader {[ a; b; d ]}) (None : option bytes) ∅.
#[local] Definition all_first : list election_event := [First a true; First b true; First d true].
#[local] Definition led_by_a : cluster := foldl election_step start all_first.

Lemma first_error_isolates_witness :
  let l := Select (None, true) [(Some false, true); (None, true); (Some false, true)] NewLeader in
  calls l = [] /\ tag l = None /\ UpdateTTL l = Some ErrNotRegister.
Proof.
  apply (first_error_isolates true [(Some false, true); (None, true); (Some false, true)]).
  by repeat constructor.
Defined.

Lemma leader_unique_witness :
  let k := foldl election_step start (all_first ++ [Expire; Turn b true; Turn a true]) in
  exists s1 s2 l1 l2, agents k !! s1 = Some l1 /\ leader l1 = true /\ s1 ∉ unaware k /\
    agents k !! s2 = Some l2 /\ leader l2 = true /\ s2 ∉ unaware k /\ s1 = s2.
Proof.
  intros k. set (l := mkLeader true true 1 (Some true) [false; true]).
  assert (E : agents k !! b = Some l) by (by vm_compute).
  assert (U : b ∉ unaware k) by (apply (bool_decide_unpack _); by vm_compute).
  exists b, b, l, l. split_and!; [exact E|done|exact U|exact E|done|exact U|].
  exact (leader_unique (all_first ++ [Expire; Turn b true; Turn a true]) {[ a; b; d ]} (None : option bytes)
    b b l l E eq_refl U E eq_refl U).
Defined.

Lemma freed_leader_returns_witness :
  exists l', agents (foldl election_step led_by_a [Free a true; Turn a true]) !! a = Some l' /\
    leader l' = true /\ calls l' = [true; true] /\ tag l' = Some true.
Proof.
  apply (freed_leader_returns led_by_a a (mkLeader true true 1 (Some true) [true]) true true (Some a));
    by vm_compute.
Defined.

Lemma stale_leader_breaks_lock_witness :
  exists lb' ld',
    let k' := foldl election_step led_by_a [Expire; Turn b true; Free a true; Turn d true] in
    agents k' !! b = Some lb' /\ leader lb' = true /\ agents k' !! d = Some ld' /\ leader ld' = true.
Proof.
  apply (stale_leader_breaks_lock led_by_a a b d (mkLeader true true 1 (Some true) [true])
    (mkLeader false false 1 (Some false) [false]) (mkLeader false false 1 (Some false) [false])
    true (Some b) (Some d)); first [by vm_compute | done].
Defined.
End ElectionInstances.
