(* ===== verification/Examples.v ===== *)
(** * The example programs

    [src/scripts/clients/client.go], [src/consul/examples/leader/leader.go] and
    [src/consul/examples/watch/watch_service.go] over the models of the
    packages they call: [SubStart] and [SubClient], [Leader], and [Watch].
    (The examples of the agent are in [Echo.v] and [SyncClient.v].) *)
From S2P Require Import Prelude.
From S2P Require Import GoSem.
From S2P Require SubClient.
From S2P Require SubStart.
From S2P Require Import Watch.
From S2P Require Leader.
Set Default Proof Using "Type".

(** ** A subscriber ([src/scripts/clients/client.go]) *)
Section Subscriber.
Context {J E : Type} (onEvent : J -> M E unit).

(** [os.Args] with the program's name first. *)
Definition defaultDns (args : list bytes) : bytes :=
  match args with _ :: a :: _ => a | _ => gostr "127.0.0.1" ++ [Z_byte 58] ++ gostr "9990" end.

Definition subscriber_main (args : list bytes) : M (SubStart.setup (J:=J) (E:=E)) SubStart.started :=
  SubStart.NewClient [SubStart.SetServices [defaultDns args]; SubStart.OnEventOption onEvent] None.

(** The client has the one server it was given and the one callback, and
    returns with it; an argument without a port stops the program. *)
Theorem subscriber_serves args (e : E) :
  let dns := defaultDns args in
  match SubStart.Split (Z_byte 58) dns with
  | host :: port :: _ =>
      exists c, subscriber_main args (SubStart.blank e) = (SubStart.mkSetup c [onEvent] [], Ret SubStart.Given) /\
        SubClient.Services c = {[ dns := 0%nat ]} /\
        SubClient.servers c !! 0%nat = Some (SubClient.mkServerNode false host (SubStart.ParseInt port) 0)
  | _ => (subscriber_main args (SubStart.blank e)).2 = Panic
  end.
Proof.
  intros dns. unfold subscriber_main, SubStart.NewClient. fold dns. cbn [range].
  assert (Eset : forall o : M (SubStart.setup (J:=J) (E:=E)) unit, SubStart.Split (Z_byte 58) dns = [] \/
      (exists host, SubStart.Split (Z_byte 58) dns = [host]) ->
      bind (SubStart.SetServices [dns]) (fun _ => o) (SubStart.blank e) = (SubStart.blank e, Panic)).
  { unfold SubStart.SetServices. cbn [range]. intros o [->|[host ->]]; reflexivity. }
  destruct (SubStart.Split (Z_byte 58) dns) as [|host [|port rest]] eqn:Es.
  - unfold bind at 1. rewrite Eset by auto. reflexivity.
  - unfold bind at 1. rewrite Eset by eauto. reflexivity.
  - set (c := (SubClient.add_service dns host (SubStart.ParseInt port) (SubClient.new_client e)).1).
    assert (Ec : SubClient.Services c = {[ dns := 0%nat ]}) by (cbn; apply insert_empty).
    exists c. split; [|split; [exact Ec|apply lookup_insert_eq]].
    + erewrite bind_ret; cycle 1.
      { erewrite bind_ret; cycle 1.
        - unfold SubStart.SetServices. cbn [range]. rewrite Es.
          erewrite bind_ret; [reflexivity|]. erewrite bind_ret by reflexivity. by erewrite bind_ret by reflexivity.
        - erewrite bind_ret by reflexivity. reflexivity. }
      erewrite bind_ret by reflexivity. 
      change (SubClient.add_service dns host (SubStart.ParseInt port) (SubStart.client (SubStart.blank e))).1 with c.
      cbn [SubStart.client Datatypes.id].
      rewrite Ec, map_size_singleton. reflexivity.
Qed.
End Subscriber.

(** ** Watching a service ([src/consul/examples/watch/watch_service.go]) *)

(** What the example prints, instead of printing it. *)
Definition show (event : Z) (member : ServiceMember) : M (list (Z * ServiceMember)) unit :=
  if (event =? EventAdd) || (event =? EventDelete) || (event =? EventStatusChange)
  then modify (fun l => l ++ [(event, member)]) else ret tt.

(** Consul's answers to the watcher, one after another. *)
Definition watch_main (answers : list (option (option (list ServiceEntry) * Z))) :
    M (WatchService * list (Z * ServiceMember)) unit :=
  range answers (Watch_turn show).

(** What is new in an answer. *)
Definition news (old new : list ServiceEntry) : list (Z * ServiceMember) :=
  map (fun u => (EventAdd, member_of u)) (getDelete new old) ++
  map (fun u => (EventDelete, member_of u)) (getDelete old new) ++
  map (fun u => (EventStatusChange, member_of u)) (getChange old new).

(** Some queries that fail or come back with [l], one of them at least with [l]. *)
Inductive sees (l : list ServiceEntry) : list (option (option (list ServiceEntry) * Z)) -> Prop :=
  | sees_last li : sees l [Some (Some l, li)]
  | sees_error rs : sees l rs -> sees l (None :: rs)
  | sees_again li rs : sees l rs -> sees l (Some (Some l, li) :: rs).

Lemma show_all event l : event = EventAdd \/ event = EventDelete \/ event = EventStatusChange ->
  forall log, range l (fun u => show event (member_of u)) log = (log ++ map (fun u => (event, member_of u)) l, Ret tt).
Proof.
  intros He. assert (Es : forall m log, show event m log = (log ++ [(event, m)], Ret tt)) by (intros m log; by destruct He as [->|[->| ->]]).
  induction l as [|u l IH]; intros log; cbn [range map]; [by rewrite app_nil_r|].
  rewrite (bind_ret _ _ _ _ _ (Es _ _)), IH. by rewrite <- app_assoc.
Qed.

Lemma on_show_eq {A} (m : M (list (Z * ServiceMember)) A) (w : WatchService * list (Z * ServiceMember)) log a :
  m w.2 = (log, Ret a) -> on_S m w = ((w.1, log), Ret a).
Proof. intros Em. unfold on_S. by rewrite Em. Qed.

Lemma turn_shows old new li li' log :
  Watch_turn show (Some (Some new, li')) ((Some old, li), log) = (((Some new, li'), log ++ news old new), Ret tt).
Proof.
  unfold Watch_turn. erewrite bind_ret by reflexivity. cbn [Datatypes.id fst default]. cbv zeta.
  unfold dialAdd, dialDelete, dialChange.
  erewrite bind_ret by (apply on_show_eq, show_all; auto). erewrite bind_ret by (apply on_show_eq, show_all; auto).
  erewrite bind_ret by (apply on_show_eq, show_all; auto). unfold modify, news. cbn [fst snd]. by rewrite <- !app_assoc.
Qed.

Lemma getDelete_app a1 a2 b : getDelete (a1 ++ a2) b = getDelete a1 b ++ getDelete a2 b.
Proof. induction a1 as [|va a1 IH]; [done|]. cbn [app getDelete]. destruct (found va b); [done|]. cbn [app]. by f_equal. Qed.
Lemma getChange_app a1 a2 b : getChange (a1 ++ a2) b = getChange a1 b ++ getChange a2 b.
Proof. induction a1 as [|va a1 IH]; [done|]. cbn [app getChange]. destruct (changed_to va b); [cbn [app]; by f_equal|done]. Qed.

Lemma find_id_in l u : NoDup (map ID l) -> u ∈ l -> find_id l (ID u) = Some u.
Proof.
  induction l as [|v l IH]; intros Hnd Hu; [by apply not_elem_of_nil in Hu|]. apply NoDup_cons in Hnd as [Hv Hnd].
  cbn [find_id]. apply elem_of_cons in Hu as [->|Hu]; [by rewrite decide_True|].
  rewrite decide_False; [by apply IH|]. intros Eid. apply Hv. rewrite Eid. by apply (list_elem_of_fmap_2 ID).
Qed.

(** Entries that are in both answers, the same, are no news. *)
Lemma no_news a b : NoDup (map ID b) -> (forall u, u ∈ a -> u ∈ b) -> getDelete a b = [] /\ getChange a b = [].
Proof.
  intros Hnd. induction a as [|u a IH]; intros Hsub; [done|].
  assert (Ef : find_id b (ID u) = Some u) by (apply find_id_in; [done|apply Hsub; by left]).
  destruct IH as [IH1 IH2]; [intros v Hv; apply Hsub; by right|].
  cbn [getDelete getChange]. rewrite found_spec, changed_to_spec, Ef, decide_True by done. done.
Qed.

Lemma phase_shows new rs : NoDup (map ID new) -> sees new rs -> forall old li log, exists li',
  watch_main rs ((Some old, li), log) = (((Some new, li'), log ++ news old new), Ret tt).
Proof.
  intros Hnd. unfold watch_main.
  induction 1 as [li'|rs _ IH|li' rs _ IH]; intros old li log; cbn [range].
  - exists li'. by rewrite (bind_ret _ _ _ _ _ (turn_shows old new li li' log)).
  - erewrite bind_ret by reflexivity. apply IH.
  - rewrite (bind_ret _ _ _ _ _ (turn_shows old new li li' log)). destruct (IH new li' (log ++ news old new)) as [li2 E2].
    exists li2. rewrite E2. destruct (no_news new new Hnd) as [E3 E4]; [done|].
    assert (news new new = []) as -> by (unfold news; by rewrite E3, E4). by rewrite app_nil_r.
Qed.

Lemma first_shows new rs : NoDup (map ID new) -> sees new rs -> forall log, exists li',
  watch_main rs ((None, 0), log) = (((Some new, li'), log), Ret tt).
Proof.
  intros Hnd Hs. assert (Hgen : forall li log, exists li',
    watch_main rs ((None, li), log) = (((Some new, li'), log), Ret tt)); [|by apply Hgen].
  destruct Hs as [li'|rs Hs|li' rs Hs]; intros li log; unfold watch_main in *; cbn [range].
  - by exists li'.
  - erewrite bind_ret by reflexivity. revert li log.
    induction Hs as [li'|rs _ IH|li' rs Hs _]; intros li log; cbn [range]; [by exists li'| |].
    + erewrite bind_ret by reflexivity. apply IH.
    + erewrite bind_ret by reflexivity. destruct (phase_shows new rs Hnd Hs new li' log) as [li2 E2]. exists li2.
      unfold watch_main in E2. destruct (no_news new new Hnd) as [E3 E4]; [done|]. unfold news in E2.
      rewrite E3, E4, app_nil_r in E2. exact E2.
  - erewrite bind_ret by reflexivity. destruct (phase_shows new rs Hnd Hs new li' log) as [li2 E2]. exists li2.
    unfold watch_main in E2. destruct (no_news new new Hnd) as [E3 E4]; [done|]. unfold news in E2.
    rewrite E3, E4, app_nil_r in E2. exact E2.
Qed.

(** A service that registers, lets its check expire and deregisters is shown as
    exactly those three events, however often the queries fail or wake up for
    nothing; what was there before is not shown at all. *)
Theorem watch_example base e e' rs0 rs1 rs2 rs3 :
  NoDup (map ID (base ++ [e])) -> ID e' = ID e -> AggregatedStatus e' <> AggregatedStatus e ->
  sees base rs0 -> sees (base ++ [e]) rs1 -> sees (base ++ [e']) rs2 -> sees base rs3 ->
  exists li, watch_main (rs0 ++ rs1 ++ rs2 ++ rs3) ((None, 0), []) =
    (((Some base, li), [(EventAdd, member_of e); (EventStatusChange, member_of e'); (EventDelete, member_of e')]), Ret tt).
Proof.
  intros Hnd Hid Hst H0 H1 H2 H3.
  assert (Hnd' : NoDup (map ID (base ++ [e']))) by (rewrite map_app in *; cbn [map] in *; by rewrite Hid).
  assert (Hb : NoDup (map ID base)) by (rewrite map_app in Hnd; by apply NoDup_app in Hnd as (? & _ & _)).
  assert (Hsub : forall x u, u ∈ base -> u ∈ base ++ [x]) by (intros x u Hu; apply elem_of_app; by left).
  assert (Hnot : forall x, ID x = ID e -> find_id base (ID x) = None).
  { intros x ->. apply find_id_None. rewrite map_app in Hnd. apply NoDup_app in Hnd as (_ & Hd & _).
    intros Hin. apply (Hd _ Hin). by left. }
  assert (Hnew : forall x, ID x = ID e -> NoDup (map ID (base ++ [x])) ->
    news base (base ++ [x]) = [(EventAdd, member_of x)] /\ news (base ++ [x]) base = [(EventDelete, member_of x)]).
  { intros x Hx Hndx. destruct (no_news base (base ++ [x]) Hndx (Hsub x)) as [E1 E2].
    destruct (no_news base base Hb) as [E3 E4]; [done|]. unfold news.
    rewrite !getDelete_app, getChange_app, E1, E2, E3, E4. cbn [app getDelete getChange].
    by rewrite found_spec, changed_to_spec, (Hnot x Hx) by done. }
  assert (Hchg : news (base ++ [e]) (base ++ [e']) = [(EventStatusChange, member_of e')]).
  { destruct (no_news base (base ++ [e']) Hnd' (Hsub e')) as [E1 E2].
    destruct (no_news base (base ++ [e]) Hnd (Hsub e)) as [E3 E4]. unfold news.
    rewrite !getDelete_app, getChange_app, E1, E2, E3. cbn [app getDelete getChange].
    rewrite !found_spec, changed_to_spec by done.
    assert (Ef' : find_id (base ++ [e']) (ID e) = Some e') by (rewrite <- Hid; apply find_id_in; [done|apply elem_of_app; right; by left]).
    assert (Ef : find_id (base ++ [e]) (ID e') = Some e) by (rewrite Hid; apply find_id_in; [done|apply elem_of_app; right; by left]).
    rewrite Ef, Ef', decide_False by congruence. done. }
  destruct (Hnew e eq_refl Hnd) as [N1 _], (Hnew e' Hid Hnd') as [_ N3].
  destruct (first_shows base rs0 Hb H0 []) as [l0 E0]. destruct (phase_shows _ rs1 Hnd H1 base l0 []) as [l1 E1].
  destruct (phase_shows _ rs2 Hnd' H2 (base ++ [e]) l1 [(EventAdd, member_of e)]) as [l2 E2].
  destruct (phase_shows _ rs3 Hb H3 (base ++ [e']) l2 [(EventAdd, member_of e); (EventStatusChange, member_of e')]) as [l3 E3].
  rewrite N1 in E1. rewrite Hchg in E2. rewrite N3 in E3.
  exists l3. unfold watch_main in *. rewrite (range_app _ _ _ _ _ E0), (range_app _ _ _ _ _ E1), (range_app _ _ _ _ _ E2).
  exact E3.
Qed.

(** ** Two candidates ([src/consul/examples/leader/leader.go]) *)
Section Candidates.
Context {C : Type} {HC : Leader.LockStore C} {HL : Leader.LockStoreLaws C}.

(** The example starts the loops of [Select] and lets them run: nobody
    resigns. *)
Inductive contest : Leader.election_event -> Prop :=
  | co_first s ok : contest (Leader.First s ok)
  | co_turn s ok : contest (Leader.Turn s ok).

(** The two leaders, by the ids of their sessions. *)
Definition leader_main (session1 session2 : bytes) (c : C) : Leader.cluster :=
  Leader.mkCluster {[ session1 := Leader.NewLeader; session2 := Leader.NewLeader ]} c ∅.

Lemma contest_aware e (k : Leader.cluster (C:=C)) :
  contest e -> Leader.unaware k = ∅ -> Leader.unaware (Leader.election_step k e) = ∅.
Proof.
  clear HL. intros He Hu. destruct He; cbn [Leader.election_step]; unfold Leader.attempt;
    (destruct (Leader.agents k !! s); [|done]); cbn [Leader.unaware]; case_match; set_solver.
Qed.

Lemma contest_run evs : Forall contest evs -> forall k : Leader.cluster (C:=C),
  Leader.unaware k = ∅ -> Leader.unaware (foldl Leader.election_step k evs) = ∅.
Proof.
  induction 1 as [|e evs He _ IH]; intros k Hk; [done|]. apply IH. by apply contest_aware.
Qed.

(** While the sessions live the two candidates never both lead, and the one
    that does holds the lock. *)
Theorem one_of_two session1 session2 c evs s1 s2 l1 l2 :
  Forall contest evs ->
  let k := foldl Leader.election_step (leader_main session1 session2 c) evs in
  Leader.agents k !! s1 = Some l1 -> Leader.leader l1 = true ->
  Leader.agents k !! s2 = Some l2 -> Leader.leader l2 = true -> s1 = s2 /\ Leader.holder (Leader.store k) = Some s1.
Proof using HL.
  intros He k E1 H1 E2 H2.
  assert (Hk : Leader.election_ok k).
  { apply Leader.election_run_ok. intros s l Hl Hb. unfold leader_main in Hl. cbn [Leader.agents] in Hl.
    apply lookup_insert_Some in Hl as [[_ <-]|[_ Hl]]; [done|]. apply lookup_singleton_Some in Hl as [_ <-]. done. }
  assert (Hu : Leader.unaware k = ∅).
  { by apply contest_run. }
  destruct (Hk s1 l1 E1 H1) as [?|Hh1]; [set_solver|]. destruct (Hk s2 l2 E2 H2) as [?|Hh2]; [set_solver|].
  split; [congruence|done].
Qed.
End Candidates.

(** ** Concrete instances *)
Section ExampleInstances.
#[local] Existing Instance Leader.plain_lock.
#[local] Existing Instance Leader.plain_lock_laws.

#[local] Definition entry (i : String.string) (st : String.string) : ServiceEntry :=
  mkEntry (gostr i) (gostr "127.0.0.1") 7770 [gostr "isleader:false"] (gostr st).

Lemma watch_example_witness :
  exists li, watch_main ([None; Some (Some [entry "a" "passing"], 5)] ++ [Some (Some [entry "a" "passing"], 5);
      Some (Some [entry "a" "passing"; entry "b" "passing"], 6)] ++
      [None; Some (Some [entry "a" "passing"; entry "b" "critical"], 7)] ++ [Some (Some [entry "a" "passing"], 8)]) ((None, 0), []) =
    (((Some [entry "a" "passing"], li),
      [(EventAdd, member_of (entry "b" "passing")); (EventStatusChange, member_of (entry "b" "critical"));
       (EventDelete, member_of (entry "b" "critical"))]), Ret tt).
Proof.
  apply (watch_example [entry "a" "passing"] (entry "b" "passing") (entry "b" "critical")
    [None; Some (Some [entry "a" "passing"], 5); Some (Some [entry "a" "passing"], 5)]
    [Some (Some [entry "a" "passing"; entry "b" "passing"], 6)]
    [None; Some (Some [entry "a" "passing"; entry "b" "critical"], 7)] [Some (Some [entry "a" "passing"], 8)]).
  - apply (bool_decide_unpack _). vm_compute. exact I.
  - reflexivity.
  - apply (bool_decide_unpack _). vm_compute. exact I.
  - apply sees_error, sees_again, sees_last.
  - apply sees_last.
  - apply sees_error, sees_last.
  - apply sees_last.
Defined.

Lemma one_of_two_witness :
  let k := foldl Leader.election_step (leader_main (gostr "1") (gostr "2") (None : option bytes))
    [Leader.First (gostr "2") true; Leader.First (gostr "1") true; Leader.Turn (gostr "2") false] in
  exists l, Leader.agents k !! gostr "2" = Some l /\ Leader.leader l = true /\ Leader.holder (Leader.store k) = Some (gostr "2").
Proof.
  intros k. set (l := Leader.mkLeader true true 1 (Some true) [true]).
  assert (Hl : Leader.agents k !! gostr "2" = Some l) by (vm_compute; reflexivity).
  exists l. split; [exact Hl|]. split; [reflexivity|].
  apply (one_of_two (gostr "1") (gostr "2") (None : option bytes)
    [Leader.First (gostr "2") true; Leader.First (gostr "1") true; Leader.Turn (gostr "2") false] (gostr "2") (gostr "2") l l);
    [by repeat constructor|exact Hl|reflexivity|exact Hl|reflexivity].
Defined.

Example subscriber_main_default :
  (subscriber_main (E:=unit) (fun _ : bytes => ret tt) [gostr "client"] (SubStart.blank tt)).2 = Ret SubStart.Given /\
  (subscriber_main (E:=unit) (fun _ : bytes => ret tt) [gostr "client"; gostr "localhost"] (SubStart.blank tt)).2 = Panic.
Proof. vm_compute. split; reflexivity. Qed.
End ExampleInstances.
