(* ===== verification/Discovery.v ===== *)
(** * An agent in Consul

    [src/consul/service.go] and [src/consul/leader.go] on the interface
    [ConsulAPI], every call included, and their relation to [Leader.v]: the
    lock of [Consul.v] is a [LockStore], and an agent's steps are those of
    [Leader.v]. *)
From S2P Require Import Prelude.
From S2P Require Import GoSem.
From S2P Require Import Watch.
From S2P Require Import Consul.
From S2P Require Import Leader.

(** ** The service of an agent ([service.go]) *)
Record Service := mkService {
  ServiceName : bytes;
  ServiceIP : bytes;
  ServicePort : Z;
  svc_ID : bytes;
  svc_TTL : Z;
  status : Z;
  sv_leader : bool
}.

Definition service_id (name host : bytes) (port : Z) : bytes :=
  name ++ gostr "-" ++ host ++ gostr "-" ++ gostr (pretty.pretty port).
Definition NewService (name host : bytes) (port : Z) : Service :=
  mkService name host port (service_id name host port) 15 0 false.
Definition svc_SetLeader (b : bool) (v : Service) : Service :=
  mkService (ServiceName v) (ServiceIP v) (ServicePort v) (svc_ID v) (svc_TTL v) (status v) b.
Definition with_status (z : Z) (v : Service) : Service :=
  mkService (ServiceName v) (ServiceIP v) (ServicePort v) (svc_ID v) (svc_TTL v) z (sv_leader v).

(** [fmt.Sprintf("isleader:%v", leader)] *)
Definition leader_tag (b : bool) : bytes := gostr "isleader:" ++ (if b then gostr "true" else gostr "false").

Section Service.
Context {C : Type} {HA : ConsulAPI C}.

Definition upd {A} (f : A -> A) : M (A * C) unit := modify (fun s => (f s.1, s.2)).

Definition svc_Deregister : M (Service * C) (option goerr) :=
  let! s := gets id in
  let! err := on_consul (api (agent_ServiceDeregister (svc_ID s.1))) in
  match err with
  | Some _ => ret err
  | None => on_consul (api (agent_CheckDeregister (svc_ID s.1)))
  end.

Definition svc_Register : M (Service * C) (option goerr) :=
  let! s := gets id in
  (if Z.land (status s.1) Registered <=? 0
   then upd (with_status (Z.lor (status s.1) Registered)) else ret tt) ;;
  let! err := on_consul (api (agent_ServiceRegister
    (mkServiceRegistration (svc_ID s.1) (ServiceName s.1) (ServiceIP s.1) (ServicePort s.1)
       [leader_tag (sv_leader s.1)]))) in
  match err with
  | Some _ => ret err
  | None =>
      on_consul (api (agent_CheckRegister (mkCheckRegistration (svc_ID s.1) (ServiceName s.1) (svc_ID s.1)
        (gostr (pretty.pretty (svc_TTL s.1)) ++ gostr "s") (gostr "passing"))))
  end.

Definition svc_UpdateTTL : M (Service * C) (option goerr) :=
  let! s := gets id in
  if Z.land (status s.1) Registered <=? 0 then ret (Some ErrNotRegister)
  else on_consul (api (agent_UpdateTTL (svc_ID s.1) (leader_tag (sv_leader s.1)) (gostr "passing"))).
End Service.

(** ** The agent ([leader.go])

    [told] is what [onLeader] was told, in order. *)
Record Agent := mkAgent {
  lock : LockEntity;
  session : SessionEntity;
  service : Service;
  is_leader : bool;
  told : list bool
}.
Definition set_service (v : Service) (a : Agent) : Agent := mkAgent (lock a) (session a) v (is_leader a) (told a).
Definition set_is_leader (b : bool) (a : Agent) : Agent := mkAgent (lock a) (session a) (service a) b (told a).
Definition tell (b : bool) (a : Agent) : Agent :=
  mkAgent (lock a) (session a) (service a) (is_leader a) (told a ++ [b]).

Section Agent.
Context {C : Type} {HA : ConsulAPI C}.

(** [NewLeader]; the error of creating the session is dropped. *)
Definition NewLeader (lockKey name host : bytes) (port : Z) : M C Agent := fun c =>
  let r := SessionEntity_Create (NewSessionEntity 10, c) in
  match r.2 with
  | Ret (sessionID, _) =>
      (r.1.2, Ret (mkAgent (NewLockEntity sessionID lockKey 10) r.1.1 (NewService name host port) false []))
  | Panic => (r.1.2, Panic)
  | Block => (r.1.2, Block)
  | OutOfFuel => (r.1.2, OutOfFuel)
  end.

Definition in_service {A} (m : M (Service * C) A) : M (Agent * C) A := fun s =>
  let r := m (service s.1, s.2) in ((set_service r.1.1 s.1, r.1.2), r.2).
Definition in_session {A} (m : M (SessionEntity * C) A) : M (Agent * C) A := fun s =>
  let r := m (session s.1, s.2) in
  ((mkAgent (lock s.1) r.1.1 (service s.1) (is_leader s.1) (told s.1), r.1.2), r.2).

(** What [Select] does with an answer of the lock that is news. *)
Definition became (success : bool) : M (Agent * C) unit :=
  upd (set_is_leader success) ;;
  upd (fun a => set_service (svc_SetLeader success (service a)) a) ;;
  upd (tell success) ;;
  in_service svc_Register ;; ret tt.

(** The first attempt of [Select], and a turn of its loop. *)
Definition first_attempt : M (Agent * C) unit :=
  let! s := gets id in
  let! r := on_consul (LockEntity_Lock (lock s.1)) in
  match r.2 with
  | None => became r.1
  | Some _ => ret tt
  end.

Definition turn : M (Agent * C) unit :=
  let! s := gets id in
  let! r := on_consul (LockEntity_Lock (lock s.1)) in
  (match r.2 with
   | None => let! s := gets id in
             if bool_decide (r.1 = is_leader s.1) then ret tt else became r.1
   | Some _ => ret tt
   end) ;;
  in_session SessionEntity_Renew ;;
  in_service svc_UpdateTTL ;; ret tt.

Definition Free : M (Agent * C) unit :=
  in_service svc_Deregister ;;
  let! s := gets id in
  if is_leader s.1 then
    on_consul (LockEntity_Delete (lock s.1)) ;;
    upd (set_is_leader false)
  else ret tt.
End Agent.

(** ** An agent's steps are those of [Leader.v] *)
Section Refinement.
Context {C : Type} {HA : ConsulAPI C} {HV : ConsulView C} {HL : ConsulLaws C}.
Implicit Types (a : Agent) (v : Service) (c : C).

(** The tag Consul has registered for a service. *)
Definition tag_of (i : bytes) (c : C) : option bool :=
  (fun r => bool_decide (head (sr_Tags r) = Some (leader_tag true))) <$> catalogue c !! i.

Definition view a c : Leader :=
  mkLeader (is_leader a) (sv_leader (service a)) (status (service a)) (tag_of (svc_ID (service a)) c) (told a).

Lemma in_service_eq {A} (m : M (Service * C) A) a c v c' r :
  m (service a, c) = ((v, c'), r) -> in_service m (a, c) = ((set_service v a, c'), r).
Proof. intros E. unfold in_service. cbn [fst snd]. by rewrite E. Qed.

Definition registered v : Service :=
  if Z.land (status v) Registered <=? 0 then with_status (Z.lor (status v) Registered) v else v.
Definition registration_of v : AgentServiceRegistration :=
  mkServiceRegistration (svc_ID v) (ServiceName v) (ServiceIP v) (ServicePort v) [leader_tag (sv_leader v)].

Lemma registered_same v : svc_ID (registered v) = svc_ID v /\ sv_leader (registered v) = sv_leader v /\
  registration_of (registered v) = registration_of v.
Proof. unfold registered. by case_match. Qed.

Lemma svc_Register_spec v c :
  exists c' r (ok : bool), svc_Register (v, c) = ((registered v, c'), Ret r) /\ kvs c' = kvs c /\
    catalogue c' = (if ok then <[svc_ID v := registration_of v]> (catalogue c) else catalogue c) /\
    (r = None -> ok = true /\ check_status c' !! svc_ID v = Some (gostr "passing")).
Proof.
  unfold svc_Register. erewrite bind_ret by reflexivity. cbn [id fst].
  rewrite (bind_ret _ _ _ (registered v, c) tt) by (unfold registered; by case_match).
  destruct (agent_ServiceRegister (registration_of v) c) as [c1 r1] eqn:E1.
  erewrite bind_ret by (apply on_api; exact E1).
  pose proof (ServiceRegister_frame (registration_of v) c) as Hk1. rewrite E1 in Hk1. cbn [fst] in Hk1.
  destruct r1 as [e|].
  - exists c1, (Some e). destruct (ServiceRegister_error _ _ _ _ E1) as [Hc|Hc].
    + by exists false.
    + by exists true.
  - set (k := mkCheckRegistration _ _ _ _ _). destruct (agent_CheckRegister k c1) as [c2 r2] eqn:E2.
    destruct (CheckRegister_frame k c1) as [Hk2 Hc2]. rewrite E2 in Hk2, Hc2. cbn [fst] in Hk2, Hc2.
    destruct (ServiceRegister_ok _ _ _ E1) as (_ & Hc1 & _).
    exists c2, r2, true. split_and!; [by apply on_api|congruence|by rewrite Hc2, Hc1|].
    intros ->. split; [done|]. destruct (CheckRegister_ok _ _ _ E2) as (_ & _ & Hs & _).
    rewrite Hs. apply lookup_insert_eq.
Qed.

Lemma svc_Deregister_spec v c :
  exists c' r (ok : bool), svc_Deregister (v, c) = ((v, c'), Ret r) /\ kvs c' = kvs c /\
    catalogue c' = (if ok then delete (svc_ID v) (catalogue c) else catalogue c).
Proof.
  unfold svc_Deregister. erewrite bind_ret by reflexivity. cbn [id fst].
  destruct (agent_ServiceDeregister (svc_ID v) c) as [c1 r1] eqn:E1.
  erewrite bind_ret by (apply on_api; exact E1).
  pose proof (ServiceDeregister_frame (svc_ID v) c) as Hk1. rewrite E1 in Hk1. cbn [fst] in Hk1.
  destruct r1 as [e|].
  - exists c1, (Some e). destruct (ServiceDeregister_error _ _ _ _ E1) as [Hc|Hc]; [by exists false|by exists true].
  - destruct (agent_CheckDeregister (svc_ID v) c1) as [c2 r2] eqn:E2.
    destruct (CheckDeregister_frame (svc_ID v) c1) as [Hk2 Hc2]. rewrite E2 in Hk2, Hc2. cbn [fst] in Hk2, Hc2.
    destruct (ServiceDeregister_ok _ _ _ E1) as (_ & Hc1 & _).
    exists c2, r2, true. split_and!; [by apply on_api|congruence|by rewrite Hc2, Hc1].
Qed.

Lemma svc_UpdateTTL_spec v c :
  exists c' r, svc_UpdateTTL (v, c) = ((v, c'), Ret r) /\ kvs c' = kvs c /\ catalogue c' = catalogue c.
Proof.
  unfold svc_UpdateTTL. erewrite bind_ret by reflexivity. cbn [id fst]. case_match; [by exists c, (Some ErrNotRegister)|].
  destruct (agent_UpdateTTL (svc_ID v) (leader_tag (sv_leader v)) (gostr "passing") c) as [c' r] eqn:E.
  destruct (UpdateTTL_frame (svc_ID v) (leader_tag (sv_leader v)) (gostr "passing") c) as [Hk Hc].
  rewrite E in Hk, Hc. exists c', r. split_and!; [by apply on_api|done|done].
Qed.

Lemma tag_of_catalogue i c c' : catalogue c' = catalogue c -> tag_of i c' = tag_of i c.
Proof. intros E. unfold tag_of. by rewrite E. Qed.

Lemma leader_tag_true b : bool_decide (head [leader_tag b] = Some (leader_tag true)) = b.
Proof. by destruct b. Qed.

(** The news of an answer of the lock. *)
Lemma became_spec b a c :
  exists a' c' ok, became b (a, c) = ((a', c'), Ret tt) /\ lock a' = lock a /\ kvs c' = kvs c /\
    session a' = session a /\ svc_ID (service a') = svc_ID (service a) /\
    view a' c' = Register ok (onLeader b (SetLeader b (set_leader b (view a c)))).
Proof.
  unfold became, upd. erewrite bind_ret by reflexivity. erewrite bind_ret by reflexivity.
  erewrite bind_ret by reflexivity. cbn [fst snd].
  set (v := svc_SetLeader b (service a)).
  set (a1 := tell b (set_service v (set_is_leader b a))).
  destruct (svc_Register_spec v c) as (c' & r & ok & E & Hk & Hc & _).
  exists (set_service (registered v) a1), c', ok.
  rewrite (bind_ret _ _ _ (set_service (registered v) a1, c') r) by (by apply in_service_eq).
  destruct (registered_same v) as (Hi & Hl & _). split_and!; [done|done|done|done|exact Hi|].
  unfold view, Register, onLeader, SetLeader, set_leader. cbn [is_leader service set_service told a1 tell set_is_leader
    leader svc_leader svc_status tag calls]. rewrite Hi, Hl. f_equal.
  - unfold registered. change (status v) with (status (service a)). by destruct (Z.land (status (service a)) Registered <=? 0).
  - destruct ok; [|by apply tag_of_catalogue]. unfold tag_of. rewrite Hc, lookup_insert_eq.
    cbn [fmap option_fmap option_map registration_of sr_Tags]. by rewrite leader_tag_true.
Qed.

Lemma LockEntity_Lock_spec a c :
  exists c' r, on_consul (LockEntity_Lock (lock a)) (a, c) = ((a, c'), Ret r) /\
    lock_spec (le_sessionID (lock a)) OpLock (locker (le_key (lock a)) c) (answer r) (locker (le_key (lock a)) c') /\
    catalogue c' = catalogue c /\ (run_lock_op (lock a) OpLock c).2 = Ret (answer r).
Proof.
  destruct (LockEntity_spec (lock a) OpLock c) as (c' & r & E & Hs & _). rewrite E. cbn [run_lock_op snd] in *.
  unfold LockEntity_Lock, Lock_Lock in *. set (p := mkPair _ _ _) in *.
  destruct (kv_Acquire p c) as [c1 r1] eqn:E1. rewrite (bind_ret _ _ _ _ _ (api_eq _ _ _ _ E1)) in E.
  injection E as -> <-. exists c', r1. split_and!; [by apply on_api|exact Hs| |done].
  pose proof (Acquire_frame p c) as Hf. by rewrite E1 in Hf.
Qed.

(** What an operation of an agent with session [s], when [Acquire] answers [r],
    may do to the agent, as [Leader.v] has it, and to the holder of the
    lock. *)
Inductive agent_op := AFirst | ATurn | AFree.
Definition run_agent_op (op : agent_op) : M (Agent * C) unit :=
  match op with
  | AFirst => first_attempt
  | ATurn => turn
  | AFree => Free
  end.

Inductive agent_spec (s : bytes) (r : option bool) : agent_op ->
    Leader * option bytes -> Leader * option bytes -> Prop :=
  | spec_first l h ok h' : lock_spec s OpLock h r h' -> agent_spec s r AFirst (l, h) (Select_first r ok l, h')
  | spec_turn l h ok h' : lock_spec s OpLock h r h' -> agent_spec s r ATurn (l, h) (Select_turn r ok l, h')
  | spec_free l h r' ok h' : leader l = true -> lock_spec s OpDelete h r' h' ->
      agent_spec s r AFree (l, h) (Free_self ok l, h')
  | spec_free_follower l h ok : leader l = false -> agent_spec s r AFree (l, h) (Free_self ok l, h).

(** The answer [Acquire] gives the agent in this state. *)
Definition lock_answer a c : option bool :=
  match (run_lock_op (lock a) OpLock c).2 with Ret r => r | _ => None end.

Lemma first_spec a c :
  exists a' c', first_attempt (a, c) = ((a', c'), Ret tt) /\ lock a' = lock a /\
    svc_ID (service a') = svc_ID (service a) /\
    agent_spec (le_sessionID (lock a)) (lock_answer a c) AFirst (view a c, locker (le_key (lock a)) c)
      (view a' c', locker (le_key (lock a)) c').
Proof.
  unfold first_attempt. erewrite bind_ret by reflexivity. cbn [id fst].
  destruct (LockEntity_Lock_spec a c) as (c1 & [b e] & E & Hs & Hc & Ea). unfold lock_answer. rewrite Ea. rewrite (bind_ret _ _ _ _ _ E). cbn [fst snd].
  assert (Hv : view a c1 = view a c) by (unfold view; by rewrite (tag_of_catalogue _ _ _ Hc)).
  destruct e as [e|].
  - exists a, c1. split_and!; [done..|]. rewrite Hv. apply (spec_first _ None _ _ true). exact Hs.
  - destruct (became_spec b a c1) as (a' & c' & ok & Eb & Hl & Hk & _ & Hi & Hview).
    exists a', c'. split_and!; [done..|]. rewrite Hview, Hv, (locker_kvs _ _ _ Hk).
    apply (spec_first _ (Some b) _ _ ok). exact Hs.
Qed.

(** The calls that end a turn. *)
Lemma turn_ends a c :
  exists a' c', (in_session SessionEntity_Renew ;; in_service svc_UpdateTTL ;; ret tt) (a, c) = ((a', c'), Ret tt) /\
    lock a' = lock a /\ service a' = service a /\ kvs c' = kvs c /\ view a' c' = view a c.
Proof.
  destruct (session_Renew (se_ID (session a)) c) as [c1 r1] eqn:E1.
  destruct (Renew_frame (se_ID (session a)) c) as [Hk1 Hc1]. rewrite E1 in Hk1, Hc1. cbn [fst] in Hk1, Hc1.
  destruct (svc_UpdateTTL_spec (service a) c1) as (c2 & r2 & E2 & Hk2 & Hc2).
  exists (set_service (service a) a), c2. split_and!; [|done|done|congruence|].
  - rewrite (bind_ret _ _ _ (a, c1) r1); cycle 1.
    { unfold in_session, SessionEntity_Renew, Session_Renew. cbn [fst snd]. erewrite bind_ret by reflexivity.
      cbn [id fst]. rewrite (on_api _ _ _ _ _ E1). cbn [fst snd]. by destruct a. }
    by rewrite (bind_ret _ _ _ _ _ (in_service_eq _ _ _ _ _ _ E2)).
  - unfold view. cbn [is_leader service set_service told]. by rewrite (tag_of_catalogue _ c c2) by congruence.
Qed.

Lemma turn_spec a c :
  exists a' c', turn (a, c) = ((a', c'), Ret tt) /\ lock a' = lock a /\
    svc_ID (service a') = svc_ID (service a) /\
    agent_spec (le_sessionID (lock a)) (lock_answer a c) ATurn (view a c, locker (le_key (lock a)) c)
      (view a' c', locker (le_key (lock a)) c').
Proof.
  unfold turn. erewrite bind_ret by reflexivity. cbn [id fst].
  destruct (LockEntity_Lock_spec a c) as (c1 & [b e] & E & Hs & Hc & Ea). unfold lock_answer. rewrite Ea. rewrite (bind_ret _ _ _ _ _ E). cbn [fst snd].
  assert (Hv : view a c1 = view a c) by (unfold view; by rewrite (tag_of_catalogue _ _ _ Hc)).
  assert (Hmid : exists a1 c2 ok,
    (match e with
     | None => let! s := gets id in if bool_decide (b = is_leader s.1) then ret tt else became b
     | Some _ => ret tt
     end) (a, c1) = ((a1, c2), Ret tt) /\ lock a1 = lock a /\ svc_ID (service a1) = svc_ID (service a) /\
    kvs c2 = kvs c1 /\ view a1 c2 = Select_turn (answer (b, e)) ok (view a c)).
  { destruct e as [e|].
    { by exists a, c1, true. }
    unfold answer. cbn [fst snd Select_turn]. erewrite bind_ret by reflexivity. cbn [id fst].
    change (leader (view a c)) with (is_leader a). destruct (bool_decide (b = is_leader a)).
    { by exists a, c1, true. }
    destruct (became_spec b a c1) as (a1 & c2 & ok & Eb & Hl & Hk & _ & Hi & Hview).
    exists a1, c2, ok. split_and!; [done..|]. by rewrite Hview, Hv. }
  destruct Hmid as (a1 & c2 & ok & Em & Hl & Hi & Hk & Hview). rewrite (bind_ret _ _ _ _ _ Em).
  destruct (turn_ends a1 c2) as (a' & c' & E' & Hl' & Hs' & Hk' & Hv').
  exists a', c'. split_and!; [done|congruence|congruence|].
  rewrite Hv', Hview, (locker_kvs _ c1 c') by congruence. by apply (spec_turn _ (answer (b, e)) _ _ ok).
Qed.

Lemma free_spec a c :
  exists a' c', Free (a, c) = ((a', c'), Ret tt) /\ lock a' = lock a /\
    svc_ID (service a') = svc_ID (service a) /\
    agent_spec (le_sessionID (lock a)) (lock_answer a c) AFree (view a c, locker (le_key (lock a)) c)
      (view a' c', locker (le_key (lock a)) c').
Proof.
  unfold Free. destruct (svc_Deregister_spec (service a) c) as (c1 & r & ok & E & Hk & Hc).
  rewrite (bind_ret _ _ _ _ _ (in_service_eq _ _ _ _ _ _ E)).
  erewrite bind_ret by reflexivity. cbn [id fst].
  assert (Ea : set_service (service a) a = a) by (by destruct a). rewrite Ea.
  assert (Hv : forall c', catalogue c' = catalogue c1 -> view (set_is_leader false a) c' = Free_self ok (view a c)).
  { intros c' Hc'. unfold view, Free_self, Deregister, set_leader. cbn. f_equal. unfold tag_of. rewrite Hc', Hc.
    destruct ok; [by rewrite lookup_delete_eq|done]. }
  destruct (is_leader a) eqn:El.
  - destruct (LockEntity_spec (lock a) OpDelete c1) as (c2 & r2 & E2 & Hs & _). cbn [run_lock_op] in E2.
    unfold LockEntity_Delete, Lock_Delete in *. set (k := le_key (lock a)) in *.
    destruct (kv_Delete k c1) as [c2' r2'] eqn:Ed. rewrite (bind_ret _ _ _ _ _ (api_eq _ _ _ _ Ed)) in E2.
    injection E2 as -> <-. exists (set_is_leader false a), c2. split_and!; [|done|done|].
    + by rewrite (bind_ret _ _ _ _ _ (on_api _ _ _ _ _ Ed)).
    + rewrite Hv; [|pose proof (Delete_frame k c1) as Hf; by rewrite Ed in Hf].
      rewrite (locker_kvs _ c c1) in Hs by done. by eapply spec_free.
  - exists a, c1. split_and!; [done..|]. rewrite (locker_kvs _ c c1) by done.
    pose proof (Hv c1 eq_refl) as Hv1.
    assert (Ef : set_is_leader false a = a) by (destruct a; cbn in *; by subst).
    rewrite Ef in Hv1. rewrite Hv1. by apply spec_free_follower.
Qed.

(** C29: An agent as written - lock, session, service, every call to Consul and
    every way Consul may answer - does to its role, its service, the tag in
    the catalogue, the reports to the process and the lock what the agent of
    [Leader.v] does, which knows of Consul only whether the lock and the
    registration succeeded. *)
Theorem agent_refines op a c :
  exists a' c', run_agent_op op (a, c) = ((a', c'), Ret tt) /\ lock a' = lock a /\
    svc_ID (service a') = svc_ID (service a) /\
    agent_spec (le_sessionID (lock a)) (lock_answer a c) op (view a c, locker (le_key (lock a)) c)
      (view a' c', locker (le_key (lock a)) c').
Proof. destruct op; [apply first_spec|apply turn_spec|apply free_spec]. Qed.

(** ** A cluster of agents

    The agents by session, Consul, and the agents that believed to lead when
    the lock was last taken away and have not heard from Consul since (no code
    reads this set). *)
Record agents := mkAgents {
  members : gmap bytes Agent;
  consul : C;
  lost : gset bytes
}.
Definition believing (m : gmap bytes Agent) : gset bytes :=
  dom (filter (fun kv : bytes * Agent => is_leader kv.2 = true) m).

Inductive agents_event :=
  | Runs (s : bytes) (op : agent_op)     (* an agent's first attempt, turn or [Free] *)
  | SessionExpires (s : bytes).

Definition agents_step (key : bytes) (k : agents) (e : agents_event) : agents :=
  match e with
  | Runs s op =>
      match members k !! s with
      | None => k
      | Some a =>
          let w := (run_agent_op op (a, consul k)).1 in
          mkAgents (<[s := w.1]> (members k)) w.2
            (match op with
             | AFree => if is_leader a && bool_decide (locker key w.2 = None) then believing (members k) else lost k
             | _ => match lock_answer a (consul k) with Some _ => lost k ∖ {[ s ]} | None => lost k end
             end)
      end
  | SessionExpires s =>
      mkAgents (members k) (session_expire s (consul k))
        (if bool_decide (locker key (consul k) = Some s) then believing (members k) else lost k)
  end.

(** An agent that leads, as far as it knows, holds the lock or has lost it
    unheard. *)
Definition agents_ok (key : bytes) (k : agents) : Prop :=
  forall s a, members k !! s = Some a -> le_sessionID (lock a) = s /\ le_key (lock a) = key /\
    (is_leader a = true -> s ∈ lost k \/ locker key (consul k) = Some s).

Lemma elem_of_believing m s : s ∈ believing m <-> exists a, m !! s = Some a /\ is_leader a = true.
Proof.
  unfold believing. rewrite elem_of_dom. split.
  - intros [a Ha]. apply map_lookup_filter_Some in Ha as [? ?]. by exists a.
  - intros (a & Ha & Hb). exists a. by apply map_lookup_filter_Some.
Qed.

Lemma locker_expire key s c :
  locker key (session_expire s c) = if decide (locker key c = Some s) then None else locker key c.
Proof.
  destruct (expire_ok s c) as [E _]. unfold locker. rewrite E, map_lookup_filter.
  destruct (kvs c !! key) as [[x h]|]; cbn; [|by case_decide].
  case_guard as Hg; cbn; case_decide; congruence.
Qed.

(** The role after an attempt is the answer, if there was one. *)
Lemma attempt_role op s r l h l' h' : op <> AFree -> agent_spec s r op (l, h) (l', h') ->
  lock_spec s OpLock h r h' /\ leader l' = default (leader l) r.
Proof.
  intros Hop H. inversion H; subst; try done; (split; [done|]).
  - by destruct r.
  - destruct r as [b|]; [apply Select_turn_leader|done].
Qed.

(** Who holds the lock when an attempt of [s] left it to somebody else. *)
Lemma attempt_others s r h h' s' : lock_spec s OpLock h r h' -> s' <> s -> h = Some s' -> h' = Some s'.
Proof.
  intros H Hne ->. inversion H; subst; try done.
  all: match goal with Hh : _ \/ _ |- _ => destruct Hh; congruence end.
Qed.

Lemma attempt_step_ok key k s a a' c' op :
  op <> AFree -> agents_ok key k -> members k !! s = Some a -> lock a' = lock a ->
  agent_spec s (lock_answer a (consul k)) op (view a (consul k), locker key (consul k)) (view a' c', locker key c') ->
  agents_ok key (mkAgents (<[s := a']> (members k)) c'
    (match lock_answer a (consul k) with Some _ => lost k ∖ {[ s ]} | None => lost k end)).
Proof.
  intros Hop Hk Ea Hl Hs. destruct (attempt_role _ _ _ _ _ _ _ Hop Hs) as [Hlk Hr].
  change (leader (view a' c')) with (is_leader a') in Hr. change (leader (view a (consul k))) with (is_leader a) in Hr.
  intros s' b Eb. cbn [members consul lost] in *. destruct (decide (s = s')) as [<-|Hne].
  - rewrite lookup_insert_eq in Eb. injection Eb as <-. destruct (Hk s a Ea) as (Hid & Hkey & Hlead).
    rewrite Hl. split_and!; [done|done|]. rewrite Hr. destruct (lock_answer a (consul k)) as [[|]|]; cbn [default].
    + intros _. right. by inversion Hlk.
    + done.
    + intros Hb. destruct (Hlead Hb) as [?|Hh]; [by left|right]. rewrite Hh in Hlk.
      by inversion Hlk as [| | |? [?|?]| | | | | | |]; subst.
  - rewrite lookup_insert_ne in Eb by done. destruct (Hk s' b Eb) as (Hid & Hkey & Hlead).
    split_and!; [done|done|]. intros Hb. destruct (Hlead Hb) as [Hu|Hh].
    + left. case_match; [|done]. apply elem_of_difference. split; [done|]. by intros ?%elem_of_singleton.
    + right. by eapply attempt_others.
Qed.

Lemma free_step_ok key k s a a' c' :
  agents_ok key k -> members k !! s = Some a -> lock a' = lock a ->
  agent_spec s (lock_answer a (consul k)) AFree (view a (consul k), locker key (consul k)) (view a' c', locker key c') ->
  agents_ok key (mkAgents (<[s := a']> (members k)) c'
    (if is_leader a && bool_decide (locker key c' = None) then believing (members k) else lost k)).
Proof.
  intros Hk Ea Hl Hs.
  assert (Hf : is_leader a' = false).
  { change (leader (view a' c') = false). inversion Hs as [| |? ? ? ? ? ? ? E1 E2 E3|? ? ? ? E1 E2 E3]; done. }
  assert (Hh : locker key c' = locker key (consul k) \/ is_leader a = true /\ locker key c' = None).
  { inversion Hs as [| |l h r' ok h' Hld Hd E1 E2 E3|? ? ? ? E1 E2 E3]; subst; [|by left].
    inversion Hd; subst; [right|by left|right]; done. }
  intros s' b Eb. cbn [members consul lost] in *. destruct (decide (s = s')) as [<-|Hne].
  - rewrite lookup_insert_eq in Eb. injection Eb as <-. destruct (Hk s a Ea) as (Hid & Hkey & _).
    rewrite Hl. split_and!; [done|done|congruence].
  - rewrite lookup_insert_ne in Eb by done. destruct (Hk s' b Eb) as (Hid & Hkey & Hlead).
    split_and!; [done|done|]. intros Hb.
    destruct (is_leader a && bool_decide (locker key c' = None)) eqn:Ed.
    { left. apply elem_of_believing. by exists b. }
    destruct (Hlead Hb) as [?|Hs']; [by left|right]. destruct Hh as [->|[Hla Hnone]]; [done|].
    rewrite Hla, Hnone in Ed. by vm_compute in Ed.
Qed.

Lemma agents_step_ok key k e : agents_ok key k -> agents_ok key (agents_step key k e).
Proof.
  intros Hk. destruct e as [s op|s]; cbn [agents_step].
  - destruct (members k !! s) as [a|] eqn:Ea; [|done]. destruct (Hk s a Ea) as (Hid & Hkey & _).
    assert (H : exists a' c', run_agent_op op (a, consul k) = ((a', c'), Ret tt) /\ lock a' = lock a /\
      svc_ID (service a') = svc_ID (service a) /\
      agent_spec (le_sessionID (lock a)) (lock_answer a (consul k)) op
        (view a (consul k), locker (le_key (lock a)) (consul k)) (view a' c', locker (le_key (lock a)) c')).
    { destruct op; [apply first_spec|apply turn_spec|apply free_spec]. }
    destruct H as (a' & c' & E & Hl & _ & Hs). rewrite Hid, Hkey in Hs. rewrite E. cbn [fst snd].
    destruct op; [by apply attempt_step_ok with AFirst|by apply attempt_step_ok with ATurn|by apply free_step_ok].
  - intros s' a Ea. cbn [members consul lost] in *. destruct (Hk s' a Ea) as (Hid & Hkey & Hlead).
    split_and!; [done|done|]. intros Hb. case_bool_decide as Hh.
    + left. apply elem_of_believing. by exists a.
    + rewrite locker_expire, decide_False by done. by apply Hlead.
Qed.

(** C24: At most one leader: in a cluster of agents of any size that compete for
    one key, along every run - any order of attempts and turns, whatever
    Consul answers to any call, agents that resign, sessions that expire - two
    agents that both believe to lead are the same one, unless one of them has
    not heard from Consul since the lock was last taken away from its
    holder. *)
Theorem agents_exclusive key evs m c s1 s2 a1 a2 :
  (forall s a, m !! s = Some a -> le_sessionID (lock a) = s /\ le_key (lock a) = key /\ is_leader a = false) ->
  let k := foldl (agents_step key) (mkAgents m c ∅) evs in
  members k !! s1 = Some a1 -> is_leader a1 = true -> s1 ∉ lost k ->
  members k !! s2 = Some a2 -> is_leader a2 = true -> s2 ∉ lost k -> s1 = s2.
Proof.
  intros Hm k E1 H1 U1 E2 H2 U2.
  assert (Hk : agents_ok key k).
  { unfold k. assert (H0 : agents_ok key (mkAgents m c ∅)).
    { intros s a Ea. destruct (Hm s a Ea) as (? & ? & Hf). split_and!; [done|done|congruence]. }
    clear -H0 HL. revert H0. generalize (mkAgents m c ∅). induction evs as [|e evs IH]; intros k Hk; [done|].
    by apply IH, agents_step_ok. }
  destruct (Hk s1 a1 E1) as (_ & _ & L1), (Hk s2 a2 E2) as (_ & _ & L2).
  destruct (L1 H1) as [?|Hh1]; [done|]. destruct (L2 H2) as [?|Hh2]; [done|]. congruence.
Qed.
End Refinement.

(** ** The lock of [Leader.v] *)
Section ConsulLock.
Context {C : Type} {HA : ConsulAPI C} {HV : ConsulView C} {HL : ConsulLaws C}.
Variable key : bytes.

Definition ran {A} (m : M C A) (c : C) (d : A) : C * A :=
  let r := m c in (r.1, match r.2 with Ret a => a | _ => d end).

#[export] Instance consul_lock : LockStore C := {
  holder c := locker key c;
  acquire s c := ran (run_lock_op (NewLockEntity s key 10) OpLock) c None;
  delete_lock c :=
    let r := ran (run_lock_op (NewLockEntity [] key 10) OpDelete) c None in (r.1, bool_decide (r.2 = Some true));
  expire c := match locker key c with Some s => session_expire s c | None => c end
}.

#[export] Instance consul_lock_laws : LockStoreLaws C.
Proof.
  assert (Hl : forall s op c c' r, ran (run_lock_op (NewLockEntity s key 10) op) c None = (c', r) ->
    lock_spec s op (locker key c) r (locker key c')).
  { intros s op c c' r E. destruct (LockEntity_spec (NewLockEntity s key 10) op c) as (c1 & r1 & E1 & Hs & _).
    unfold ran in E. rewrite E1 in E. injection E as <- <-. exact Hs. }
  split; unfold acquire, delete_lock, holder, expire, consul_lock.
  - intros s c c' E%Hl. inversion E; subst; tauto.
  - intros s c c' E%Hl. inversion E; subst; done.
  - intros s c c' E%Hl. inversion E as [| | |h [Hh|Hh]| | | | | | |]; subst; [by left|by right|by left].
  - intros c c' E. destruct (ran _ c None) as [c1 r] eqn:Er. cbn [fst snd] in E. injection E as -> Eb.
    apply bool_decide_eq_true in Eb. subst r. apply Hl in Er. by inversion Er.
  - intros c c' E. destruct (ran _ c None) as [c1 r] eqn:Er. cbn [fst snd] in E. injection E as -> Eb.
    apply bool_decide_eq_false in Eb. apply Hl in Er. inversion Er; subst; [done|by left|by right].
  - intros c. destruct (locker key c) as [s|] eqn:E; [|done]. rewrite locker_expire. by rewrite decide_True.
Qed.
End ConsulLock.

(** ** Concrete instances: two agents *)
Section DiscoveryInstances.
Import OneConsul.
#[local] Definition agent_at (s host : String.string) : Agent :=
  mkAgent (NewLockEntity (gostr s) (gostr "lock") 10) (mkSessionEntity 10 (gostr s))
    (NewService (gostr "agent") (gostr host) 9989) false [].
#[local] Definition two : gmap bytes Agent :=
  {[ gostr "a" := agent_at "a" "10.0.0.1"; gostr "b" := agent_at "b" "10.0.0.2" ]}.
#[local] Definition some_run : list agents_event :=
  [Runs (gostr "a") AFirst; Runs (gostr "b") AFirst; SessionExpires (gostr "a"); Runs (gostr "b") ATurn;
   Runs (gostr "a") ATurn].

Lemma agents_exclusive_witness :
  let k := foldl (agents_step (gostr "lock")) (mkAgents two empty ∅) some_run in
  exists s1 s2 a1 a2, members k !! s1 = Some a1 /\ is_leader a1 = true /\ s1 ∉ lost k /\
    members k !! s2 = Some a2 /\ is_leader a2 = true /\ s2 ∉ lost k /\ s1 = s2.
Proof.
  intros k. destruct (members k !! gostr "b") as [a|] eqn:E; [|by vm_compute in E].
  assert (Hl : is_leader a = true).
  { apply (f_equal (fmap is_leader)) in E. vm_compute in E. by injection E. }
  assert (Hu : gostr "b" ∉ lost k) by (apply (bool_decide_unpack _); by vm_compute).
  exists (gostr "b"), (gostr "b"), a, a. split_and!; [exact E|exact Hl|exact Hu|exact E|exact Hl|exact Hu|].
  refine (agents_exclusive (gostr "lock") some_run two empty (gostr "b") (gostr "b") a a _ E Hl Hu E Hl Hu).
  intros s x Hx. unfold two in Hx. rewrite lookup_insert_Some, lookup_singleton_Some in Hx.
  destruct Hx as [[<- <-]|[_ [<- <-]]]; repeat split.
Defined.

Lemma agent_refines_witness :
  let a := agent_at "a" "10.0.0.1" in
  exists a' c', run_agent_op AFirst (a, empty) = ((a', c'), Ret tt) /\
    agent_spec (gostr "a") (lock_answer a empty) AFirst (view a empty, locker (gostr "lock") empty)
      (view a' c', locker (gostr "lock") c') /\
    is_leader a' = true.
Proof.
  intros a. destruct (agent_refines (HL:=consul_laws) AFirst a empty) as (a' & c' & E & _ & _ & Hs).
  exists a', c'. refine (conj E (conj Hs _)).
  assert (Hl : is_leader (run_agent_op AFirst (a, empty)).1.1 = true) by (by vm_compute). by rewrite E in Hl.
Defined.
End DiscoveryInstances.
