(* ===== verification/Members.v ===== *)
(** * The cluster as an agent sees it

    The agent's queries of the member list ([src/agent/agent.go] on
    [src/consul/leader.go]): how a follower finds the address it connects to,
    and the table [ShowMembers] prints. *)
From S2P Require Import Prelude.
From S2P Require Import GoSem.
From S2P Require Import Utf8.
From S2P Require Import Watch.
From S2P Require Import Consul.
From S2P Require Import Leader.
From S2P Require Import Discovery.
From S2P Require Import AgentRecv.
From S2P Require AgentServer.
From S2P Require Import AgentClient.
From S2P Require Import AgentService.
Set Default Proof Using "Type".

(** ** The methods of [ILeader] that pass a call on ([leader.go]) *)
Section Methods.
Context {C : Type} {HA : ConsulAPI C}.

Definition ld_Deregister : M (Agent * C) (option goerr) := in_service svc_Deregister.
Definition ld_Register : M (Agent * C) (ServiceMember * option goerr) :=
  let! err := in_service svc_Register in
  let! s := gets id in
  let v := service s.1 in
  ret (mkMember (is_leader s.1) (svc_ID v) statusOnline (ServiceIP v) (ServicePort v), err).
Definition ld_UpdateTTL : M (Agent * C) (option goerr) := in_service svc_UpdateTTL.

(** [GetServices] and [Get], on the cluster of the moment. *)
Definition ld_GetServices (name : bytes) (passingOnly : bool) (c : C) :
    outcome (option (list ServiceMember) * option goerr) :=
  match health_Service name passingOnly c with
  | None => Ret (None, Some ErrExternal)
  | Some members => obind (GetServices members) (fun data => Ret (Some data, None))
  end.
Definition ld_Get (name : bytes) (c : C) : outcome (option ServiceMember * option goerr) :=
  Get (health_Service name true c).
End Methods.

(** ** Connecting to the leader ([Start]) *)
Section Follow.
Context {C : Type} {HA : ConsulAPI C} {E : Type}.
Implicit Types s : AgentService E.

(** [fmt.Sprintf("%v:%v", m.ServiceIP, m.Port)] *)
Definition address_of (host : bytes) (port : Z) : bytes := host ++ gostr ":" ++ gostr (pretty.pretty port).
Definition leader_address (m : ServiceMember) : bytes := address_of (MemberIP m) (MemberPort m).

(** The loop of the callback: [polls] are the clusters its queries meet, a
    second apart. *)
Fixpoint wait_leader (name : bytes) (polls : list C) : M (Client E) bytes :=
  match polls with
  | [] => lift Block
  | c :: polls =>
      let! r := lift (ld_Get name c) in
      match r with
      | (Some m, None) => ret (leader_address m)
      | _ => wait_leader name polls
      end
  end.

Definition selected (name : bytes) s (isLeader : bool) (polls : list C) (dial : bytes -> option goerr) :
    M (Client E) unit :=
  range (onLeader s) (fun f => AgentClient.in_env (f isLeader)) ;;
  if isLeader then ret tt
  else let! addr := wait_leader name polls in
       Connect (dial addr) ;; ret tt.
End Follow.

(** ** Closing *)
Section Closing.
Context {C : Type} {HA : ConsulAPI C}.

Definition on_server {A} (m : M AgentServer.server A) : M (AgentServer.server * (Agent * C)) A := fun w =>
  let r := m w.1 in ((r.1, w.2), r.2).
Definition on_agent {A} (m : M (Agent * C) A) : M (AgentServer.server * (Agent * C)) A := fun w =>
  let r := m w.2 in ((w.1, r.1), r.2).
Definition Close (growcap : nat -> nat -> nat) (enabled : bool) : M (AgentServer.server * (Agent * C)) unit :=
  if negb enabled then ret tt else
  on_server (AgentServer.Close growcap) ;;
  on_agent Free.
End Closing.

(** ** The table of the members *)

(** [%-ws]: spaces on the right, up to [w] runes as [utf8.RuneCountInString]
    counts them. *)
Definition pad (w : Z) (s : bytes) : bytes := s ++ replicate (Z.to_nat (w - RuneCount s)) Byte.x20.

Definition crlf : bytes := [Byte.x0d; Byte.x0a].
Definition bar : bytes := gostr "| ".
Definition sp_bar : bytes := gostr " | ".
Definition rule : bytes :=
  gostr "------+---------------------------------------------+----------+---------------" ++ crlf.
Definition double_rule : bytes :=
  gostr "======+=============================================+==========+===============" ++ crlf.

(** One line of the table, [%-6s| %-43s | %-8s | %s]. *)
Definition table_line (a b c d : bytes) : bytes :=
  pad 6 a ++ bar ++ pad 43 b ++ sp_bar ++ pad 8 c ++ sp_bar ++ d ++ crlf.
Definition role_of (m : ServiceMember) : bytes := if IsLeader m then gostr "leader" else gostr "follower".
Definition member_line (i : nat) (m : ServiceMember) : bytes :=
  table_line (gostr (pretty.pretty (Z.of_nat i))) (gostr "(" ++ leader_address m ++ gostr ")") (role_of m) (Status m).

Section Show.
Context {C : Type} {HA : ConsulAPI C}.

(** [hostname]: what [os.Hostname] returned. *)
Definition ShowMembers (enabled : bool) (name address : bytes) (hostname : option bytes) (c : C) : outcome bytes :=
  if negb enabled then Ret (gostr "agent is not enable") else
  obind (ld_GetServices name false c) (fun r =>
  match r with
  | (Some data, None) =>
      let head := gostr "current node: " ++ default [] hostname ++ gostr "(" ++ address ++ gostr ")" ++ crlf in
      let size := gostr "cluster size: " ++ gostr (pretty.pretty (len data)) ++ gostr " node(s)" ++ crlf in
      let titles := table_line (gostr "index") (gostr "node") (gostr "role") (gostr "status") in
      Ret (head ++ size ++ double_rule ++ titles ++ rule ++ concat (imap member_line data) ++ rule)
  | _ => Ret []
  end).
End Show.

(** ** A cluster with a leader *)
Section Cluster.
Context {C : Type} {HA : ConsulAPI C} {HV : ConsulView C} {HL : ConsulLaws C}.
Implicit Types (v : Service) (c : C).

(** [v] leads: it is registered with its tag and passes its check, and no
    other agent of its name is tagged. *)
Record one_leader v c : Prop := {
  ol_role : sv_leader v = true;
  ol_entry : catalogue c !! svc_ID v = Some (registration_of v);
  ol_check : check_status c !! svc_ID v = Some (gostr "passing");
  ol_healthy : healthy c;
  ol_others i r : catalogue c !! i = Some r -> sr_Name r = ServiceName v ->
    exists b, sr_Tags r = [leader_tag b] /\ (b = true -> i = svc_ID v)
}.

Lemma Register_one_leader v c v' c' :
  sv_leader v = true -> svc_Register (v, c) = ((v', c'), Ret None) -> healthy c' ->
  (forall i r, catalogue c !! i = Some r -> i <> svc_ID v -> sr_Name r = ServiceName v ->
     sr_Tags r = [leader_tag false]) ->
  one_leader v c'.
Proof using HL.
  intros Hl E Hh Ho. destruct (svc_Register_spec v c) as (c1 & r1 & ok & E1 & _ & Hc & Hok). rewrite E1 in E.
  injection E as _ <- ->. destruct (Hok eq_refl) as [-> Hchk].
  split; [done|rewrite Hc; apply lookup_insert_eq|done|done|]. intros i r Hr Hn. rewrite Hc in Hr.
  apply lookup_insert_Some in Hr as [[<- <-]|[Hne Hr]].
  - exists true. split; [|done]. cbn [registration_of sr_Tags]. by rewrite Hl.
  - exists false. split; [|done]. by apply (Ho i).
Qed.

Lemma leader_tag_is b : leader_tag b = gostr "isleader:true" <-> b = true.
Proof. destruct b; [done|]. by split. Qed.

(** How a query shows an entry. *)
Definition shown (e : ServiceEntry) : ServiceMember :=
  if bool_decide (AggregatedStatus e = gostr "passing")
  then mkMember (bool_decide (head (Tags e) = Some (gostr "isleader:true"))) (ID e) statusOnline (Address e) (EntryPort e)
  else mkMember false (ID e) statusOffline (Address e) (EntryPort e).

Lemma GetServices_tagged l : Forall (fun e => Tags e <> []) l -> GetServices l = Ret (map shown l).
Proof.
  induction 1 as [|e l Ht _ IH]; [done|]. cbn [GetServices map]. unfold service_member, shown at 1.
  case_bool_decide; [|by rewrite IH]. destruct (Tags e) as [|t ts]; [done|]. cbn [obind]. rewrite IH. cbn [obind head].
  do 4 f_equal. apply bool_decide_ext. split; [by intros ->|by intros [= ->]].
Qed.

(** Every answer of Consul shows the leader, and nobody else as leader. *)
Lemma one_leader_shown v c p l : one_leader v c -> health_Service (ServiceName v) p c = Some l ->
  GetServices l = Ret (map shown l) /\
  (exists m, m ∈ map shown l /\ IsLeader m = true) /\
  (forall m, m ∈ map shown l -> IsLeader m = true ->
     m = mkMember true (svc_ID v) statusOnline (ServiceIP v) (ServicePort v)).
Proof using HL.
  intros [Hr He Hk Hh Ho] Hl.
  destruct (health_complete _ p c l _ _ _ Hl Hh He eq_refl Hk ltac:(done)) as (e & Hel & Hi & Hst).
  split; [|split].
  - apply GetServices_tagged, Forall_forall. intros x Hx.
    destruct (health_sound _ _ _ _ x Hl Hx) as (r & Hc & Hn & _ & _ & Ht & _).
    destruct (Ho _ _ Hc Hn) as (b & Hb & _). by rewrite Ht, Hb.
  - exists (shown e). split; [apply list_elem_of_fmap; by exists e|]. unfold shown. rewrite bool_decide_true by done.
    cbn [IsLeader]. apply bool_decide_eq_true. destruct (health_sound _ _ _ _ e Hl Hel) as (r & Hc & _ & _ & _ & Ht & _).
    rewrite Hi, He in Hc. injection Hc as <-. rewrite Ht. cbn [registration_of sr_Tags head]. by rewrite Hr.
  - intros m (x & -> & Hx)%list_elem_of_fmap Hm. unfold shown in *. case_bool_decide; [|done]. cbn [IsLeader] in Hm.
    destruct (health_sound _ _ _ _ x Hl Hx) as (r & Hc & Hn & Ha & Hp & Ht & _).
    destruct (Ho _ _ Hc Hn) as (b & Hb & Hid). apply bool_decide_eq_true in Hm as Hm'. rewrite Ht, Hb in Hm'. cbn [head] in Hm'.
    apply (inj Some), leader_tag_is in Hm'. specialize (Hid Hm'). rewrite Hid, He in Hc. injection Hc as <-.
    rewrite Hm. by rewrite Ha, Hp, Hid.
Qed.

Lemma ld_Get_leader v c : one_leader v c -> is_Some (health_Service (ServiceName v) true c) ->
  ld_Get (ServiceName v) c = Ret (Some (mkMember true (svc_ID v) statusOnline (ServiceIP v) (ServicePort v)), None).
Proof using HL.
  intros Ho [l Hl]. destruct (one_leader_shown v c true l Ho Hl) as (Hg & (m & Hm & Hml) & Hu).
  unfold ld_Get, Get. rewrite Hl, Hg. cbn [obind]. destruct (first_leader (map shown l)) as [x|] eqn:Ex.
  - destruct (first_leader_Some _ _ Ex) as [Hx Hxl]. by rewrite (Hu x Hx Hxl).
  - pose proof (first_leader_None _ _ Ex Hm). congruence.
Qed.

(** [on_selected] has the queries' answers for the queries. *)
Definition answer_of (r : outcome (option ServiceMember * option goerr)) : option bytes :=
  match r with Ret (Some m, None) => Some (leader_address m) | _ => None end.
Lemma selected_answers {E} name (s : AgentService E) b (polls : list C) dial :
  Forall (fun c => ld_Get name c <> Panic) polls ->
  selected name s b polls dial = on_selected s b (map (fun c => answer_of (ld_Get name c)) polls) dial.
Proof.
  intros Hp. unfold selected, on_selected.
  enough (E1 : wait_leader (E:=E) name polls = await_leader (map (fun c => answer_of (ld_Get name c)) polls)) by (by rewrite E1).
  induction Hp as [|c polls Hc _ IH]; [done|]. cbn [wait_leader map]. unfold ld_Get, Get in *.
  destruct (health_Service name true c) as [l|]; [|exact IH].
  assert (Hl : (exists ms, GetServices l = Ret ms) \/ GetServices l = Panic).
  { clear. induction l as [|e l IH]; [left; by exists []|]. cbn [GetServices].
    assert ((exists m, service_member e = Ret m) \/ service_member e = Panic) as [[m ->]| ->].
    { unfold service_member. case_match; [|by eauto]. destruct (Tags e); by eauto. }
    - destruct IH as [[ms ->]| ->]; cbn; by eauto.
    - by right. }
  destruct Hl as [[ms E2]|E2]; rewrite E2 in *; cbn [obind] in *; [|done].
  destruct (first_leader ms) as [m|]; [done|exact IH].
Qed.

(** The entries of an answer that count as leader. *)
Definition tagged (e : ServiceEntry) : Prop := head (Tags e) = Some (gostr "isleader:true").

Lemma shown_passing e : AggregatedStatus e = gostr "passing" -> (IsLeader (shown e) = true <-> tagged e).
Proof. intros He. unfold shown. rewrite bool_decide_true by done. cbn [IsLeader]. apply bool_decide_eq_true. Qed.

Lemma first_leader_shown l m : Forall (fun e => AggregatedStatus e = gostr "passing") l ->
  first_leader (map shown l) = Some m ->
  exists l1 e l2, l = l1 ++ e :: l2 /\ m = shown e /\ tagged e /\ Forall (fun x => ~ tagged x) l1.
Proof.
  induction 1 as [|x l Hx _ IH]; [done|]. cbn [map first_leader]. destruct (IsLeader (shown x)) eqn:El.
  - intros [= <-]. exists [], x, l. split_and!; [done..| |done]. by apply shown_passing.
  - intros H. destruct (IH H) as (l1 & e & l2 & -> & -> & He & H1). exists (x :: l1), e, l2.
    split_and!; [done..|]. constructor; [|done]. rewrite <- shown_passing by done. congruence.
Qed.

(** Some registered leader is listed: the first entry with the tag answers. *)
Lemma ld_Get_first v c l : sv_leader v = true ->
  catalogue c !! svc_ID v = Some (registration_of v) -> check_status c !! svc_ID v = Some (gostr "passing") ->
  healthy c -> (forall i r, catalogue c !! i = Some r -> sr_Name r = ServiceName v -> sr_Tags r <> []) ->
  health_Service (ServiceName v) true c = Some l ->
  exists l1 e l2 r, l = l1 ++ e :: l2 /\ tagged e /\ Forall (fun x => ~ tagged x) l1 /\
    ld_Get (ServiceName v) c = Ret (Some (shown e), None) /\
    leader_address (shown e) = address_of (Address e) (EntryPort e) /\
    catalogue c !! ID e = Some r /\ sr_Name r = ServiceName v /\ sr_Tags r = Tags e /\
    sr_Address r = Address e /\ sr_Port r = EntryPort e.
Proof using HL.
  intros Hr He Hk Hh Ht Hl.
  assert (Hpass : Forall (fun e => AggregatedStatus e = gostr "passing") l).
  { apply Forall_forall. intros x Hx. destruct (health_sound _ _ _ _ x Hl Hx) as (r & _ & _ & _ & _ & _ & Hp). by apply Hp. }
  assert (Hg : GetServices l = Ret (map shown l)).
  { apply GetServices_tagged, Forall_forall. intros x Hx.
    destruct (health_sound _ _ _ _ x Hl Hx) as (r & Hc & Hn & _ & _ & -> & _). by apply (Ht _ _ Hc). }
  destruct (health_complete _ true c l _ _ _ Hl Hh He eq_refl Hk ltac:(done)) as (e0 & Hel & Hi & Hst).
  destruct (first_leader (map shown l)) as [m|] eqn:Em; cycle 1.
  { assert (IsLeader (shown e0) = true).
    { apply shown_passing; [done|]. destruct (health_sound _ _ _ _ e0 Hl Hel) as (r & Hc & _ & _ & _ & Ht0 & _).
      rewrite Hi, He in Hc. injection Hc as <-. unfold tagged. rewrite Ht0. cbn [registration_of sr_Tags head]. by rewrite Hr. }
    pose proof (first_leader_None _ (shown e0) Em ltac:(apply list_elem_of_fmap; by exists e0)). congruence. }
  destruct (first_leader_shown l m Hpass Em) as (l1 & e & l2 & -> & -> & Hte & Hl1).
  destruct (health_sound _ _ _ _ e Hl ltac:(set_solver)) as (r & Hc & Hn & Ha & Hp & Htg & _).
  exists l1, e, l2, r. split_and!; [done..| | | | | | |]; try done.
  - unfold ld_Get, Get. rewrite Hl, Hg. cbn [obind]. by rewrite Em.
  - unfold shown. by case_bool_decide.
Qed.

(** C25: A follower reaches a leader: a leader has registered, the nodes are
    healthy and every registration of the name carries a tag.  However many
    of a follower's queries fail or find no leader first, a query that Consul
    answers from the catalogue as that registration left it makes it dial the address of the first listed
    registration that is tagged as leader - and nothing else is dialled.  That
    is the leader's own address when nobody else is tagged; the registration
    of a leader that crashed keeps its tag for as long as its check passes,
    and is dialled when Consul lists it first ([stale_leader_dialled]). *)
Theorem follower_dials_leader {E} v c0 v' c (s : AgentService E) (polls rest : list C) l dial :
  sv_leader v = true -> svc_Register (v, c0) = ((v', c), Ret None) -> healthy c ->
  (forall i r, catalogue c0 !! i = Some r -> sr_Name r = ServiceName v -> sr_Tags r <> []) ->
  health_Service (ServiceName v) true c = Some l ->
  Forall (fun c => exists e, ld_Get (ServiceName v) c = Ret (None, Some e)) polls ->
  exists l1 e l2, l = l1 ++ e :: l2 /\ tagged e /\ Forall (fun x => ~ tagged x) l1 /\
    selected (ServiceName v) s false (polls ++ c :: rest) dial =
      (range (onLeader s) (fun f => AgentClient.in_env (f false)) ;;
       Connect (dial (address_of (Address e) (EntryPort e))) ;; ret tt) /\
    ((forall i r, catalogue c0 !! i = Some r -> i <> svc_ID v -> sr_Name r = ServiceName v ->
        head (sr_Tags r) <> Some (gostr "isleader:true")) ->
     Address e = ServiceIP v /\ EntryPort e = ServicePort v).
Proof using HL.
  intros Hl E1 Hh Ht Hs Hp. destruct (svc_Register_spec v c0) as (c1 & r1 & ok & E2 & _ & Hc & Hok). rewrite E2 in E1.
  injection E1 as _ <- ->. destruct (Hok eq_refl) as [-> Hchk].
  assert (Ht1 : forall i r, catalogue c1 !! i = Some r -> sr_Name r = ServiceName v -> sr_Tags r <> []).
  { intros i r Hr Hn. rewrite Hc in Hr. apply lookup_insert_Some in Hr as [[<- <-]|[_ Hr]]; [done|by apply (Ht i)]. }
  destruct (ld_Get_first v c1 l Hl) as (l1 & e & l2 & r & El & He & H1 & Hg & Had & Hce & Hn & Htg & Hra & Hrp); try done.
  { rewrite Hc. apply lookup_insert_eq. }
  exists l1, e, l2. split_and!; [done..| |].
  - unfold selected.
    assert (Hw : wait_leader (E:=E) (ServiceName v) (polls ++ c1 :: rest) = ret (address_of (Address e) (EntryPort e))).
    { induction Hp as [|x polls [e' He'] _ IH]; cbn [app wait_leader]; [by rewrite Hg, <- Had|]. rewrite He'. exact IH. }
    by rewrite Hw.
  - intros Ho. rewrite Hc in Hce. apply lookup_insert_Some in Hce as [[_ <-]|[Hne Hr]]; [by rewrite <- Hra, <- Hrp|].
    destruct (Ho _ _ Hr (not_eq_sym Hne) Hn). by rewrite Htg.
Qed.

(** Closing an agent: whatever its connections and Consul are like, the close
    comes to its end, the agent no longer counts itself as leader, and towards
    its service, its published tag and the lock it has done what resigning
    does. *)
Theorem Close_resigns growcap (sv : AgentServer.server) (a : Agent) c :
  AgentServer.server_ok sv ->
  exists sv' a' c', Close growcap true (sv, (a, c)) = ((sv', (a', c')), Ret tt) /\
    AgentServer.server_ok sv' /\ is_leader a' = false /\
    agent_spec (le_sessionID (lock a)) (lock_answer a c) AFree
      (view a c, locker (le_key (lock a)) c) (view a' c', locker (le_key (lock a)) c').
Proof using HL.
  intros Hs. destruct (AgentServer.Close_spec growcap sv Hs) as (sv' & E & Hs' & _).
  destruct (free_spec a c) as (a' & c' & E' & _ & _ & Ha).
  exists sv', a', c'. split_and!; [|done| |done].
  - unfold Close. cbn [negb]. rewrite (bind_ret _ _ _ (sv', (a, c)) tt) by (unfold on_server; cbn [fst snd]; by rewrite E).
    unfold on_agent. cbn [fst snd]. by rewrite E'.
  - change (leader (view a' c') = false). by inversion Ha.
Qed.

(** What [/health] shows: one line per member Consul lists, in its order, and
    of the lines exactly those of the registered leader say "leader" - at least
    one does, with the address its followers dial. *)
Theorem ShowMembers_marks_leader v c l address hostname :
  one_leader v c -> health_Service (ServiceName v) false c = Some l ->
  let leader_at := address_of (ServiceIP v) (ServicePort v) in
  exists top rows, ShowMembers true (ServiceName v) address hostname c = Ret (top ++ concat rows ++ rule) /\
    length rows = length l /\
    (exists i, rows !! i = Some (table_line (gostr (pretty.pretty (Z.of_nat i)))
       (gostr "(" ++ leader_at ++ gostr ")") (gostr "leader") statusOnline)) /\
    forall i e row, l !! i = Some e -> rows !! i = Some row ->
      (exists st, row = table_line (gostr (pretty.pretty (Z.of_nat i)))
         (gostr "(" ++ address_of (Address e) (EntryPort e) ++ gostr ")") (gostr "follower") st) \/
      (ID e = svc_ID v /\ row = table_line (gostr (pretty.pretty (Z.of_nat i)))
         (gostr "(" ++ leader_at ++ gostr ")") (gostr "leader") statusOnline).
Proof using HL.
  intros Ho Hl leader_at. destruct (one_leader_shown v c false l Ho Hl) as (Hg & (m & Hm & Hml) & Hu).
  unfold ShowMembers, ld_GetServices. cbn [negb]. rewrite Hl, Hg. cbn [obind].
  eexists _, (imap member_line (map shown l)). split_and!.
  - rewrite !app_assoc. done.
  - by rewrite length_imap, length_map.
  - apply list_elem_of_lookup in Hm as [i Hi]. exists i. rewrite list_lookup_imap, Hi. cbn.
    by rewrite (Hu m (list_elem_of_lookup_2 _ _ _ Hi) Hml).
  - intros i e row He Hrow. rewrite list_lookup_imap in Hrow.
    assert (Hi : map shown l !! i = Some (shown e)) by (by rewrite list_lookup_fmap, He). rewrite Hi in Hrow.
    cbn in Hrow. injection Hrow as <-. destruct (IsLeader (shown e)) eqn:El.
    + right. pose proof (Hu _ (list_elem_of_lookup_2 _ _ _ Hi) El) as Hx. split.
      * assert (ServiceID (shown e) = ID e) as <- by (unfold shown; by case_bool_decide). by rewrite Hx.
      * by rewrite Hx.
    + left. exists (Status (shown e)). unfold member_line, role_of. rewrite El. unfold leader_address, shown.
      by case_bool_decide.
Qed.
End Cluster.

(** ** Concrete instances *)
Section MembersInstances.
Import OneConsul.
#[local] Definition chief : Service := svc_SetLeader true (NewService (gostr "binlog-go-agent") (gostr "10.0.0.1") 9989).
#[local] Definition other : AgentServiceRegistration :=
  mkServiceRegistration (gostr "o") (gostr "binlog-go-agent") (gostr "10.0.0.2") 9989 [leader_tag false].
#[local] Definition before : consul := (agent_ServiceRegister other empty).1.
#[local] Definition after : Service * consul := (svc_Register (chief, before)).1.

#[local] Lemma chief_registers : svc_Register (chief, before) = ((after.1, after.2), Ret None).
Proof. apply pair_snd3. by vm_compute. Qed.

#[local] Lemma before_tags i r : catalogue before !! i = Some r -> sr_Tags r = [leader_tag false].
Proof.
  intros Hr. change (catalogue before) with (<[gostr "o" := other]> (∅ : gmap bytes AgentServiceRegistration)) in Hr.
  by apply lookup_insert_Some in Hr as [[_ <-]|[_ ?%lookup_empty_Some]].
Qed.
#[local] Lemma before_others i r : catalogue before !! i = Some r -> i <> svc_ID chief ->
  sr_Name r = ServiceName chief -> sr_Tags r = [leader_tag false].
Proof. intros Hr _ _. by apply (before_tags i). Qed.

#[local] Definition only_chief (addr : bytes) : option goerr :=
  if bool_decide (addr = gostr "10.0.0.1:9989") then None else Some ErrExternal.

Lemma follower_dials_leader_witness : exists c : consul,
  selected (E:=unit) (ServiceName chief) (NewAgentServer true) false [empty; before; c] only_chief =
    (range [] (fun f : bool -> M unit unit => AgentClient.in_env (f false)) ;; Connect None ;; ret tt).
Proof.
  exists after.2. destruct (health_Service (ServiceName chief) true after.2) as [l|] eqn:El; [|by vm_compute in El].
  destruct (follower_dials_leader (HL:=consul_laws) (E:=unit) chief before after.1 after.2 (NewAgentServer true)
    [empty; before] [] l only_chief) as (l1 & e & l2 & _ & _ & _ & E & Ho).
  - reflexivity.
  - exact chief_registers.
  - exact I.
  - intros i r Hr _. by rewrite (before_tags i r Hr).
  - exact El.
  - repeat constructor; exists ErrLeaderNotFound; by vm_compute.
  - destruct Ho as [Ha Hp]; [intros i r Hr _ _; by rewrite (before_tags i r Hr)|].
    rewrite Ha, Hp in E. exact E.
Defined.

(** A leader that crashed is still registered, tagged and passing when its
    successor registers.  Consul lists it first: the follower dials it. *)
#[local] Definition crashed : Service := svc_SetLeader true (NewService (gostr "binlog-go-agent") (gostr "10.0.0.7") 9989).
#[local] Definition failover : consul := (svc_Register (chief, (svc_Register (crashed, empty)).1.2)).1.2.

Example stale_leader_dialled :
  option_map (map ID) (health_Service (ServiceName chief) true failover) = Some [svc_ID crashed; svc_ID chief] /\
  answer_of (ld_Get (ServiceName chief) failover) = Some (gostr "10.0.0.7:9989").
Proof. split; vm_compute; reflexivity. Qed.

#[local] Definition boss : Agent := mkAgent (NewLockEntity (gostr "s") (gostr "lock") 10) (mkSessionEntity 10 (gostr "s")) after.1 true [true].
Lemma Close_resigns_witness : exists sv' a' c',
  Close (fun c n => (2 * n)%nat) true (AgentServer.NewServer, (boss, after.2)) = ((sv', (a', c')), Ret tt) /\
  is_leader a' = false.
Proof.
  destruct (Close_resigns (HL:=consul_laws) (fun c n => (2 * n)%nat) AgentServer.NewServer boss after.2) as (sv' & a' & c' & E & _ & H & _).
  - apply AgentServer.server_ok_init.
  - by exists sv', a', c'.
Defined.

Lemma ShowMembers_marks_leader_witness : exists top rows,
  ShowMembers true (ServiceName chief) (gostr "10.0.0.2:9989") (Some (gostr "db2")) after.2 = Ret (top ++ concat rows ++ rule) /\
  length rows = 2%nat.
Proof.
  destruct (health_Service (ServiceName chief) false after.2) as [l|] eqn:El; [|by vm_compute in El].
  destruct (ShowMembers_marks_leader (HL:=consul_laws) chief after.2 l (gostr "10.0.0.2:9989") (Some (gostr "db2")))
    as (top & rows & H1 & H2 & _).
  - apply (Register_one_leader chief before after.1 after.2); [done|exact chief_registers|exact I|exact before_others].
  - exact El.
  - exists top, rows. split; [exact H1|]. rewrite H2. vm_compute in El. injection El as <-. reflexivity.
Defined.
End MembersInstances.
