(* ===== verification/OneReader.v ===== *)
(** * One reader of the log

    The election ([Discovery.v]) drives the readers ([Binlog.v]):
    [agent.OnLeader(blog.OnLeader)] of [src/main.go].  A node is an agent with
    its reader.  When the reader's loops keep up with the election, at most
    one node that is in touch with Consul reads the log, except for a node
    whose [RunFrom] failed after the stop had been handled: its goroutine
    toggles the running bit back on.  When a start and a stop are in the two
    channels at once, nothing keeps them in order. *)
From S2P Require Import Prelude.
From S2P Require Import GoSem.
From S2P Require Import PosCodec.
From S2P Require Import FieldDecode.
From S2P Require Import Binlog.
From S2P Require Import Watch.
From S2P Require Import Consul.
From S2P Require Import Leader.
From S2P Require Import Discovery.

Section OneReader.
Context {E : Type} (SendAll : list (bytes -> bytes -> M E bool)) (service_Close : list (M E unit)).
Context (onEvent : list (bytes -> bytes -> M E unit)) (onPosChanges : list (bytes -> M E unit)).
Context (Marshal : row_data -> option bytes).
Implicit Types (h : Binlog E) (a : Agent).
#[local] Abbreviation does := (run (on_binlog_event SendAll service_Close onEvent onPosChanges Marshal)).

(** ** A reader that is told its role *)

(** An election result and the turns of the loops that handle it. *)
Definition obey (b : bool) (wn : nat) : list binlog_event :=
  if b then [BLeader true; BStartTurn; BRunner] else [BLeader false; BStopTurn wn].

(** The end of the program as far as the reader goes. *)
Definition leave (wn : nat) : list binlog_event := [BClose; BStopTurn wn].

(** A reader goes astray when [RunFrom] ends with an error after the stop was
    handled, or when somebody else than its agent signals it. *)
Definition goes_astray (ev : binlog_event) h : bool :=
  match ev with
  | BRunnerExit err => err && negb (has binlogIsRunning h)
  | BLeader _ => true
  | _ => false
  end.

(** The reader publishes what it reads. *)
Definition reading h : bool := has binlogIsRunning h && negb (has binlogIsExit h).

(** No signal is on its way. *)
Record calm h : Prop := {
  cm_start : startServiceChan h = 0%nat;
  cm_stop : stopServiceChan h = []
}.










Lemma has_status b h st : has b (Binlog.with_status st h) = (0 <? Z.land st b).
Proof. done. Qed.





(** C28: When start and stop are both on their way, the loops that take them are not
    ordered: a node that gains and loses leadership before its reader has
    handled the first signal may handle the second one first, and then reads
    the log as a follower. *)
Theorem stop_overtakes_start wn h :
  calm h -> has binlogIsRunning h = false -> lastBinFile h <> [] -> starting h = 0%nat ->
  let h' := does [BLeader true; BLeader false; BStopTurn wn; BStartTurn; BRunner] h in
  has binlogIsRunning h' = true /\ runs h' = runs h ++ [mkPosition (lastBinFile h) (lastPos h)] /\ calm h'.
Proof.
  intros [H1 H2] Hr Hf Hst. set (h1 := with_start 1 h).
  assert (E1 : does [BLeader true] h = h1).
  { cbn. unfold StartService, bind, gets. cbn [id]. by rewrite H1. }
  assert (E2 : does [BLeader false; BStopTurn wn] h1 = h1) by (by apply deposed_idle).
  assert (E3 : does [BStartTurn] h1 = with_goroutines 1 (runs h) (Binlog.with_status (Z.lor (Binlog.status h) binlogIsRunning) h)).
  { unfold run. cbn [foldl on_binlog_event]. unfold lookStartService_turn. erewrite bind_ret by reflexivity. cbn [id].
    change (startServiceChan h1) with 1%nat. cbv iota. erewrite bind_ret by reflexivity.
    change (has binlogIsRunning h1) with (has binlogIsRunning h). rewrite Hr.
    cbn. rewrite Hst. unfold with_start. by rewrite <- H1. }
  cbv zeta. change [BLeader true; BLeader false; BStopTurn wn; BStartTurn; BRunner] with
    ([BLeader true] ++ [BLeader false; BStopTurn wn] ++ [BStartTurn] ++ [BRunner]).
  rewrite !run_app, E1, E2, E3. rewrite (runner_runs _ _ _ _ _ _ 0) by done.
  destruct (has_false _ _ Hr) as [Hz|[? _]]; [|done]. destruct (running_set _ Hz) as (R1 & _ & _).
  split_and!; [exact R1|done|by split].
Qed.

(** ** The cluster *)
Context {C : Type} {HA : ConsulAPI C} {HV : ConsulView C} {HL : ConsulLaws C}.

(** The agents on their Consul, and the reader of each; as a ghost, the nodes
    whose reader has gone astray. *)
Record nodes := mkNodes {
  competing : agents (C:=C);
  readers : gmap bytes (Binlog E);
  astray : gset bytes
}.

(** What [onLeader] was told in a step. *)
Definition news a a' : list bool := drop (length (told a)) (told a').

Inductive node_event :=
  | Competes (s : bytes) (op : agent_op) (wn : nat)   (* a step of the agent; the reader follows it *)
  | NodeExpires (s : bytes)
  | Reads (s : bytes) (ev : binlog_event).            (* whatever else a reader does *)

(** An agent resigns at the end of its program, after its reader was closed. *)
Definition follow_agent (op : agent_op) (wn : nat) a a' : list binlog_event :=
  match op with
  | AFree => leave wn
  | _ => concat (map (fun b => obey b wn) (news a a'))
  end.

Definition nodes_step (key : bytes) (k : nodes) (e : node_event) : nodes :=
  match e with
  | Competes s op wn =>
      let k' := agents_step key (competing k) (Runs s op) in
      mkNodes k' (match members (competing k) !! s, members k' !! s with
                  | Some a, Some a' => alter (does (follow_agent op wn a a')) s (readers k)
                  | _, _ => readers k
                  end) (astray k)
  | NodeExpires s => mkNodes (agents_step key (competing k) (SessionExpires s)) (readers k) (astray k)
  | Reads s ev => mkNodes (competing k) (alter (does [ev]) s (readers k))
      (match readers k !! s with
       | Some h => if goes_astray ev h then {[ s ]} ∪ astray k else astray k
       | None => astray k
       end)
  end.










End OneReader.

(** ** Concrete instances: two nodes, one of which loses its session *)
Section OneReaderInstances.
Import OneConsul.
#[local] Definition a_reader : Binlog unit :=
  with_last (gostr "mysql-bin.000059") 4 (Binlog.with_status cacheHandlerIsOpened (fresh [] tt)).
#[local] Definition both : gmap bytes (Binlog unit) :=
  {[ gostr "a" := a_reader; gostr "b" := a_reader ]}.
#[local] Definition nothing (d : row_data) : option bytes := None.
#[local] Definition node_run : list node_event :=
  [Competes (gostr "a") AFirst 0; Competes (gostr "b") AFirst 0;
   Reads (gostr "b") (BSavePosition (packPos (gostr "mysql-bin.000059") 99 3) 35);
   Reads (gostr "a") (BRunnerExit true); Reads (gostr "a") BStartTurn; Reads (gostr "b") (BStopTurn 0);
   NodeExpires (gostr "a"); Competes (gostr "b") ATurn 0; Competes (gostr "a") ATurn 0;
   Reads (gostr "a") (BRunnerExit false)].


(** The exception is real: [a] loses its session, its reader handles the stop,
    and then its [RunFrom] returns with an error.  Both nodes have heard from
    Consul, both read. *)
Example late_error_two_readers :
  let k := foldl (nodes_step [] [] [] [] nothing (gostr "lock"))
    (mkNodes (mkAgents Discovery.two empty ∅) both ∅)
    (take 9 node_run ++ [Reads (gostr "a") (BRunnerExit true)]) in
  fmap reading (readers k) = {[ gostr "a" := true; gostr "b" := true ]} /\
  lost (competing k) = ∅ /\ astray k = {[ gostr "a" ]}.
Proof. vm_compute. repeat split. Qed.

Lemma stop_overtakes_start_witness :
  let h' := run (on_binlog_event [] [] [] [] nothing)
    [BLeader true; BLeader false; BStopTurn 0; BStartTurn; BRunner] a_reader in
  has binlogIsRunning h' = true /\ runs h' = [mkPosition (gostr "mysql-bin.000059") 4] /\ calm h'.
Proof. apply (stop_overtakes_start [] [] [] [] nothing 0 a_reader); [by split|done..]. Defined.
End OneReaderInstances.
