(* ===== verification/Main.v ===== *)
(** * Starting the program

    [main] of [src/main.go] from the loaded configuration on: the parts are
    made and bound to each other in its order, each of them as its file models
    it.  The agent's switch decides between a node of a cluster, whose reader
    waits for the election, and a program on its own, whose reader starts at
    once.  [src/g/context.go]'s channel ends it. *)
From S2P Require Import Prelude.
From S2P Require Import GoSem.
From S2P Require Import Framing.
From S2P Require Import Frame.
From S2P Require Import SubNode.
From S2P Require Import SubGroups.
From S2P Require Import SubService.
From S2P Require Import Codec.
From S2P Require Import AgentRecv.
From S2P Require Import AgentServer.
From S2P Require Import AgentClient.
From S2P Require Import AgentService.
From S2P Require AgentOptions.
From S2P Require Import PosCodec.
From S2P Require Import FieldDecode.
From S2P Require Import Binlog.
From S2P Require Import Cluster.
From S2P Require Import Config.

(** A nil section of the configuration, dereferenced. *)
Definition deref {A} (o : option A) : outcome A := match o with Some a => Ret a | None => Panic end.

(** The address an enabled agent registers: [strings.Split(cfg.Listen, ":")]. *)
Definition agent_address (ag : AgentConfig) : outcome (bytes * Z) :=
  if negb (ag_Enabled ag) then Ret ([], 0) else
  let strs := split_colon (ag_Listen ag) in
  obind (index strs 0) (fun ip => obind (index strs 1) (fun port => Ret (ip, ParseInt32 port))).

Section Main.
Variable growcap : nat -> nat -> nat.
Variable MatchString : bytes -> bytes -> option bool.
Variable Marshal : row_data -> option bytes.
Variable disk : bytes -> nat.

(** ** The callbacks of the reader, as options of [NewBinlog] *)
Definition PosChange (enabled : bool) : bytes -> M outlets unit := fun data =>
  on_agent (Sync enabled (Pack CMD_POS data)).
Definition OnEvent (enabled : bool) : bytes -> bytes -> M outlets unit := fun table data =>
  on_agent (Sync enabled (Pack CMD_EVENT data)).

(** The agent's callback for positions is bound to the reader with its own. *)
Definition SavePosition (enabled : bool) (r : bytes) : M reader unit :=
  SaveBinlogPosition [PosChange enabled] r (disk r).

(** ** The program *)
Record program := mkProgram {
  pr_reader : reader;                    (* with the services it publishes to *)
  pr_agent : AgentService reader;
  pr_address : bytes * Z;                (* what the agent registers *)
  pr_service : option Service;           (* the subscription service in Consul *)
  pr_admin : bool
}.

(** [blog.Start()]: every registered service is started. *)
Definition blog_Start (listen_ok : bool) : M reader unit := Binlog.in_env (on_service (Start listen_ok)).

(** The agent with its options; the last two are bound late, when the reader
    is there. *)
Definition new_agent (enabled : bool) : AgentService reader :=
  OnRaw (fun d => Binlog.in_env (on_service (SendRaw d)))
    (AgentService.OnEvent agent_SendAll (NewAgentServer enabled)).
Definition bind_agent (enabled : bool) : M reader (AgentService reader) :=
  AgentService.OnLeader Binlog.OnLeader (OnPos (SavePosition enabled) (new_agent enabled)).

(** [listen_ok]: whether the port is free; [file]: the position cache;
    [masterPos]: what the master answers. *)
Definition setup (c : GlobalConfig) (listen_ok : bool) (file : bytes) (masterPos : option Position) :
    outcome program :=
  obind (deref (Consul c)) (fun co =>
  obind (NewTCPService growcap MatchString (Listen c) (co_Enabled co && negb (bool_decide (Addr co = [])))) (fun ts =>
  obind (deref (cfg_Agent c)) (fun ag =>
  obind (agent_address ag) (fun addr =>
  obind (deref (Database c)) (fun db =>
  let h : reader := Binlog.with_config (E:=outlets) (db_BinlogFile db) (db_BinlogPos db) (fresh (E:=outlets) file (ts.1, NewServer)) in
  let wire : M reader (AgentService reader) :=
    handlerInit masterPos ;;
    blog_Start listen_ok ;;
    bind_agent (ag_Enabled ag) in
  obind (wire h).2 (fun s =>
  obind (deref (Admin c)) (fun ad =>
  Ret (mkProgram (wire h).1 s addr ts.2 (ad_Enabled ad))))))))).

(** What happens to the reader of a program. *)
Definition reader_event (enabled : bool) : binlog_event -> M reader unit :=
  on_binlog_event blog_SendAll [on_service SubService.Close] [OnEvent enabled] [PosChange enabled] Marshal.

(** ** The two modes *)

(** A configuration with all its sections. *)
Record complete (c : GlobalConfig) (co : ConsulConfig) (ag : AgentConfig) (db : DatabaseConfig) (ad : AdminConfig) : Prop := {
  cp_consul : Consul c = Some co;
  cp_agent : cfg_Agent c = Some ag;
  cp_database : Database c = Some db;
  cp_admin : Admin c = Some ad
}.

(** The services made of a configuration without Consul. *)
Definition local_service : TCPService := newTCPService
  [SetSendAll (groups_sendAll growcap MatchString); SetSendRaw (groups_asyncSend growcap);
   SetOnConnect (groups_onConnect growcap); SetOnClose (groups_close growcap);
   SetKeepalive (groups_asyncSend growcap); SetReload (groups_reload growcap)] new_groups.

Lemma local_Start ok : Start ok local_service = ((if ok then with_listening true local_service else local_service), Ret tt).
Proof. by destruct ok. Qed.

(** The reader after the set-up over a written cache file, before the agent is
    bound to it; the configured position is not in it. *)
Definition started (db : DatabaseConfig) (listen_ok : bool) (f : bytes) (p i : Z) (wn : nat) (old : bytes)
    (m : Position) : reader :=
  Binlog.with_env ((if listen_ok then with_listening true local_service else local_service), NewServer)
    (resumed f p i m (Binlog.with_config (db_BinlogFile db) (db_BinlogPos db)
      (fresh (write_at (packPos f p i) wn old) (local_service, NewServer)))).

(** Setting up, without Consul for the services. *)
Lemma setup_eq c co ag db ad listen_ok f p i wn old m addr :
  complete c co ag db ad -> co_Enabled co = false -> agent_address ag = Ret addr ->
  pos_ok f p i -> (length (packPos f p i) <= wn)%nat -> f <> [] -> 0 < p ->
  let h := started db listen_ok f p i wn old m in
  setup c listen_ok (write_at (packPos f p i) wn old) (Some m) =
    obind (bind_agent (ag_Enabled ag) h).2 (fun s =>
    Ret (mkProgram (bind_agent (ag_Enabled ag) h).1 s addr None (ad_Enabled ad))).
Proof.
  intros [Ec Ea Ed Ead] Hco Haddr Hok Hwn Hf Hp h.
  unfold setup. rewrite Ec, Ea, Ed, Ead. cbn [deref obind]. rewrite Hco. cbn [andb].
  unfold NewTCPService. cbn [obind]. rewrite Haddr. cbn [obind fst snd]. fold local_service.
  set (h0 := Binlog.with_config _ _ _).
  rewrite (bind_ret _ _ _ _ _ (handlerInit_resumes f p i wn old m h0 Hok Hwn Hf Hp eq_refl eq_refl)).
  rewrite (bind_ret _ _ (resumed f p i m h0) h tt); [done|].
  unfold blog_Start, Binlog.in_env, on_service. change (env (resumed f p i m h0)) with (local_service, NewServer).
  cbn [fst snd]. by rewrite local_Start.
Qed.

(** ** What happens to a program *)
Variable unicode_lower : bytes -> bytes.

(** The callbacks of the agent's server. *)
Definition agent_server : list OnServerMessageFunc :=
  AgentOptions.server_callbacks AgentOptions.agent_settings.

Inductive program_event :=
  | PReader (ev : binlog_event)                    (* the reader, the election *)
  | PAccept (done : bool) (r : option (nat * Z))   (* a subscriber connects *)
  | PSubscriber (ev : world_event)                 (* a subscriber's connection *)
  | PFollower (ev : server_event).                 (* a follower's connection *)

Definition on_program_event (enabled : bool) (e : program_event) : M reader unit :=
  match e with
  | PReader ev => reader_event enabled ev
  | PAccept d r => Binlog.in_env (on_service (accept_turn d r)) ;; ret tt
  | PSubscriber ev => Binlog.in_env (on_service (in_groups (on_world_event growcap unicode_lower MatchString ev)))
  | PFollower ev => Binlog.in_env (on_agent (on_server_event growcap agent_server ev))
  end.

(** The reader after the set-up has been started by nobody. *)
Record idle_at (f : bytes) (q i : Z) (h : reader) : Prop := {
  id_running : has binlogIsRunning h = false;
  id_start : startServiceChan h = 0%nat;
  id_starting : starting h = 0%nat;
  id_runs : runs h = [];
  id_file : lastBinFile h = f;
  id_pos : lastPos h = q;
  id_index : EventIndex h = i;
  id_server : (env h).2 = NewServer
}.
Lemma started_idle db listen_ok f p i wn old m :
  idle_at f (resume_at f p m) i (started db listen_ok f p i wn old m).
Proof. split; reflexivity. Qed.

(** *** The services a program is made with *)
#[local] Abbreviation ok_service := (service_ok growcap MatchString).

Lemma in_groups_ok {A} (m : M world A) : preserves world_ok m -> preserves ok_service (in_groups m).
Proof.
  intros Hm t [H1 H2 H3 H4 H5 H6 H7]. split; try done. cbn [in_groups fst groups with_groups]. by apply Hm.
Qed.

Lemma event_in_groups ev : preserves ok_service (in_groups (on_world_event growcap unicode_lower MatchString ev)).
Proof. apply in_groups_ok, preserves_on_world_event. Qed.

Lemma get_service {B} (k : TCPService -> M TCPService B) :
  (forall t, ok_service t -> preserves ok_service (k t)) -> preserves ok_service (let! t := gets id in k t).
Proof. intros Hk t Ht. unfold bind, gets. cbn [id]. by apply Hk. Qed.

Lemma SendAll_ok table data : preserves ok_service (SendAll table data).
Proof.
  apply get_service. intros t Ht. apply preserves_if; [apply preserves_ret|].
  apply preserves_bind; [|intros _; apply preserves_ret]. rewrite (sv_sendAll _ _ t Ht). cbn [range].
  apply preserves_bind; [|intros _; apply preserves_ret].
  assert (H : preserves world_ok (groups_sendAll growcap MatchString table (Pack CMD_EVENT data))).
  { intros w Hw. pose proof (preserves_on_world_event growcap unicode_lower MatchString (WSendAll table (Pack CMD_EVENT data)) w Hw) as Hp.
    cbn [on_world_event] in Hp. unfold bind in Hp.
    by destruct (groups_sendAll growcap MatchString table (Pack CMD_EVENT data) w) as [w' [b| | |]]. }
  apply preserves_bind; [by apply in_groups_ok|intros _; apply preserves_ret].
Qed.

Lemma accept_ok d r : preserves ok_service (accept_turn d r).
Proof.
  apply get_service. intros t Ht. apply preserves_if; [apply preserves_ret|].
  apply preserves_if; [apply preserves_ret|]. destruct r as [[c now]|]; [|apply preserves_ret].
  apply preserves_bind; [|intros _; apply preserves_ret]. rewrite (sv_onConnect _ _ t Ht). cbn [range].
  intros t0 H0. pose proof (preserves_on_world_event growcap unicode_lower MatchString (WConnect c now) (groups t0)
    (sv_groups _ _ t0 H0)) as Hp. cbn [on_world_event] in Hp. unfold bind in *. unfold in_groups at 1. cbn [fst snd].
  destruct (groups_onConnect growcap c now (groups t0)) as [w1 [u| | |]]; cbn [fst snd] in *;
    destruct H0; by split.
Qed.

Lemma Close_ok : preserves ok_service SubService.Close.
Proof.
  apply get_service. intros t Ht. apply preserves_if; [apply preserves_ret|].
  apply preserves_bind; [apply preserves_if; [|apply preserves_ret]; apply preserves_modify; by intros t0 []|intros _].
  apply preserves_bind; [|intros _].
  - rewrite (sv_onClose _ _ t Ht). cbn [range]. apply preserves_bind; [|intros _].
    + apply in_groups_ok. intros w Hw. destruct (groups_close_ok growcap w Hw) as (w' & -> & Hw' & _). exact Hw'.
    + apply preserves_bind; [|intros _; apply preserves_ret]. apply in_groups_ok. by intros w.
  - apply preserves_modify. intros t0 [H1 H2 H3 H4 H5 H6 H7]. case_match; [|by split].
    split; try done. cbn [SubService.status SubService.with_status]. destruct H2 as [-> | ->]; by right.
Qed.

Lemma Sync_ok enabled d : preserves server_ok (Sync enabled d).
Proof.
  unfold Sync. apply preserves_if; [apply preserves_ret|]. apply (preserves_on_server_event growcap agent_server (EvBroadcast 1 d)), agent_callbacks_ok.
Qed.

Lemma program_event_keeps (I : outlets -> Prop) enabled e :
  (forall t d, preserves I (on_service (SendAll t d))) -> preserves I (on_service SubService.Close) ->
  (forall d, preserves I (on_agent (Sync enabled d))) -> (forall d r, preserves I (on_service (accept_turn d r))) ->
  (forall ev, preserves I (on_service (in_groups (on_world_event growcap unicode_lower MatchString ev)))) ->
  (forall ev, preserves I (on_agent (on_server_event growcap agent_server ev))) ->
  preserves (fun h : reader => I (env h)) (on_program_event enabled e).
Proof.
  intros H1 H2 H3 H4 H5 H6. destruct e as [ev|d r|ev|ev]; cbn [on_program_event].
  - apply (env_event blog_SendAll [on_service SubService.Close] [OnEvent enabled] [PosChange enabled] Marshal I).
    + intros f t d ->%list_elem_of_singleton. apply H1.
    + intros m ->%list_elem_of_singleton. apply H2.
    + intros f t d ->%list_elem_of_singleton. apply H3.
    + intros f r ->%list_elem_of_singleton. apply H3.
  - apply preserves_bind; [apply env_in_env, H4|intros _; apply preserves_ret].
  - apply env_in_env, H5.
  - apply env_in_env, H6.
Qed.

Lemma on_service_keeps {A} (I : TCPService -> Prop) (K : server -> Prop) (m : M TCPService A) :
  preserves I m -> preserves (fun x => I x.1 /\ K x.2) (on_service m).
Proof. intros Hm x [H1 H2]. split; [by apply Hm|done]. Qed.
Lemma on_agent_keeps {A} (I : TCPService -> Prop) (K : server -> Prop) (m : M server A) :
  preserves K m -> preserves (fun x => I x.1 /\ K x.2) (on_agent m).
Proof. intros Hm x [H1 H2]. split; [done|by apply Hm]. Qed.

Lemma Start_ok b : preserves ok_service (Start b).
Proof.
  apply get_service. intros t Ht. apply preserves_if; [apply preserves_ret|].
  apply preserves_bind; [|intros _; apply preserves_if; [apply preserves_modify; by intros t0 []|apply preserves_ret]].
  destruct (0 <? Z.land (SubService.status t) serviceClosed) eqn:Hc; [|apply preserves_ret].
  intros t0 H0. pose proof H0 as [H1 H2 H3 H4 H5 H6 H7]. split; try done. cbn [fst modify SubService.status SubService.with_status].
  destruct H2 as [-> | ->]; [by right|by left].
Qed.

#[local] Abbreviation ok_outlets := (fun x : outlets => ok_service x.1 /\ server_ok x.2).

Lemma setup_keeps masterPos listen_ok enabled :
  preserves (fun h : reader => ok_outlets (env h))
    (handlerInit masterPos ;; blog_Start listen_ok ;; bind_agent enabled).
Proof.
  apply preserves_bind; [|intros _; apply preserves_bind; [|intros _]].
  - apply preserves_bind; [apply preserves_ret|intros _].
    apply preserves_bind; [by apply (env_modify ok_outlets)|intros _]. apply (env_get ok_outlets). intros h.
    apply preserves_bind; [apply preserves_lift|intros [[f p] i]].
    apply preserves_bind; [by apply (env_modify ok_outlets)|intros _]. apply preserves_bind; [by apply (env_modify ok_outlets)|intros _].
    destruct masterPos; [|apply preserves_lift].
    apply preserves_bind; [|intros _; by apply (env_modify ok_outlets)]. apply preserves_if; by apply (env_modify ok_outlets).
  - apply (env_in_env ok_outlets), on_service_keeps, Start_ok.
  - unfold bind_agent, AgentService.OnLeader. apply preserves_if; [|apply preserves_ret].
    apply preserves_bind; [|intros _; apply preserves_ret]. unfold Binlog.OnLeader, StartService.
    apply (env_get ok_outlets). intros h. apply preserves_if; [by apply (env_modify ok_outlets)|apply preserves_lift].
Qed.

(** C9: The invariants of the parts hold together: in a program with service
    discovery, whatever its configuration, its cache file and the master's
    answer were, along every run of its reader, its election results, its
    subscribers and its followers, the subscription service and the agent's
    server keep their invariants - the published load is the number of online
    subscribers, the two client lists are exactly the online nodes, and every
    node is consistent. *)
Theorem program_invariant c co ag listen_ok file masterPos prog evs :
  setup c listen_ok file masterPos = Ret prog ->
  Consul c = Some co -> co_Enabled co = true -> Addr co <> [] -> cfg_Agent c = Some ag ->
  let h := run (on_program_event (ag_Enabled ag)) evs (pr_reader prog) in
  service_ok growcap MatchString (env h).1 /\ server_ok (env h).2.
Proof.
  intros Hs Ec Ee Ea Eag h.
  assert (H0 : ok_outlets (env (pr_reader prog))).
  { unfold setup in Hs. rewrite Ec, Eag in Hs. cbn [deref obind] in Hs. rewrite Ee in Hs.
    rewrite bool_decide_false in Hs by done. cbn [andb negb] in Hs.
    destruct (NewTCPService growcap MatchString (Listen c) true) as [[t svc]| | |] eqn:Et; try done. cbn [obind] in Hs.
    destruct (agent_address ag) as [addr| | |]; try done. cbn [obind] in Hs.
    destruct (Database c) as [db|]; [|done]. cbn [deref obind] in Hs.
    destruct ((handlerInit masterPos;; blog_Start listen_ok;; bind_agent (ag_Enabled ag)) _) as [h1 r] eqn:Ew.
    cbn [fst snd] in Hs. destruct r; try done. cbn [obind] in Hs. destruct (Admin c); [|done]. injection Hs as <-.
    cbn [pr_reader]. pose proof (setup_keeps masterPos listen_ok (ag_Enabled ag)) as Hk.
    match type of Ew with _ ?h0 = _ => specialize (Hk h0) end. rewrite Ew in Hk. apply Hk.
    split; [by apply (service_ok_new growcap MatchString (Listen c) t svc)|apply server_ok_init]. }
  apply (preserves_run (fun h : reader => ok_outlets (env h)) (on_program_event (ag_Enabled ag)) evs); [|exact H0].
  intros e. apply (program_event_keeps ok_outlets).
  - intros t d. apply on_service_keeps, SendAll_ok.
  - apply on_service_keeps, Close_ok.
  - intros d. apply on_agent_keeps, Sync_ok.
  - intros d r. apply on_service_keeps, accept_ok.
  - intros ev. apply on_service_keeps, event_in_groups.
  - intros ev. apply on_agent_keeps, preserves_on_server_event, agent_callbacks_ok.
Qed.

(** ** On its own, or in a cluster *)

Lemma standalone_reads c co ag db ad listen_ok f p i wn old m :
  complete c co ag db ad -> co_Enabled co = false -> ag_Enabled ag = false ->
  pos_ok f p i -> (length (packPos f p i) <= wn)%nat -> f <> [] -> 0 < p ->
  exists prog, setup c listen_ok (write_at (packPos f p i) wn old) (Some m) = Ret prog /\
    let h := run (reader_event false) [BStartTurn; BRunner] (pr_reader prog) in
    runs h = [mkPosition f (resume_at f p m)] /\ EventIndex h = i /\ has binlogIsRunning h = true /\
    forall evs, (env (run (reader_event false) evs h)).2 = NewServer.
Proof.
  intros Hc Hco Ha Hok Hwn Hf Hp.
  assert (Haddr : agent_address ag = Ret ([], 0)) by (unfold agent_address; by rewrite Ha).
  rewrite (setup_eq c co ag db ad listen_ok f p i wn old m _ Hc Hco Haddr Hok Hwn Hf Hp). rewrite Ha.
  destruct (started_idle db listen_ok f p i wn old m) as [Hr Hs Hst Hru Hlf Hlp Hi Hsv].
  revert Hr Hs Hst Hru Hlf Hlp Hi Hsv. generalize (started db listen_ok f p i wn old m).
  intros h0 Hr Hs Hst Hru Hlf Hlp Hi Hsv.
  assert (Eb : bind_agent false h0 = (with_start 1 h0, Ret (new_agent false))).
  { unfold bind_agent, AgentService.OnLeader. change (negb _) with true. cbv iota.
    by rewrite (bind_ret _ _ _ _ _ (OnLeader_idle h0 Hs)). }
  rewrite Eb. cbv beta iota delta [fst snd obind]. eexists. split; [reflexivity|]. intros h.
  assert (Eh : h = with_goroutines 0 [mkPosition f (resume_at f p m)]
    (Binlog.with_status (Z.lor (Binlog.status h0) binlogIsRunning) h0)).
  { transitivity (run (reader_event false) ([BLeader true; BStartTurn] ++ [BRunner]) h0).
    { assert (E0 : (reader_event false (BLeader true) h0).1 = with_start 1 h0).
      { change (reader_event false (BLeader true) h0) with (Binlog.OnLeader true h0). by rewrite (OnLeader_idle h0 Hs). }
      unfold h, pr_reader. cbn [app]. unfold run. cbn [foldl]. by rewrite E0. }
    rewrite run_app. set (h1 := with_goroutines 1 [] (Binlog.with_status (Z.lor (Binlog.status h0) binlogIsRunning) h0)).
    assert (E1 : run (reader_event false) [BLeader true; BStartTurn] h0 = h1).
    { pose proof (elected_idle blog_SendAll [on_service SubService.Close] [OnEvent false] [PosChange false] Marshal h0 Hr Hs)
        as E1. rewrite Hst, Hru in E1. exact E1. }
    rewrite E1.
    pose proof (runner_runs blog_SendAll [on_service SubService.Close] [OnEvent false] [PosChange false] Marshal h1 0 eq_refl)
      as E2. unfold h1 in E2. cbn [lastBinFile lastPos runs with_goroutines Binlog.with_status] in E2.
    rewrite Hlf, Hlp in E2. exact (E2 Hf). }
  destruct (has_false _ _ Hr) as [Hz|[? _]]; [|done]. destruct (running_set _ Hz) as (R1 & _ & _).
  split_and!; [by rewrite Eh|by rewrite Eh|by rewrite Eh|]. intros evs.
  apply (preserves_run (fun h : reader => (env h).2 = NewServer) (reader_event false) evs); [|by rewrite Eh].
  intros ev. apply (env_event _ _ _ _ _ (fun x : outlets => x.2 = NewServer)).
  - intros g t d ->%list_elem_of_singleton x Hx. exact Hx.
  - intros g ->%list_elem_of_singleton x Hx. exact Hx.
  - intros g t d ->%list_elem_of_singleton x Hx. exact Hx.
  - intros g r ->%list_elem_of_singleton x Hx. exact Hx.
Qed.

(** A program whose agent is switched off is a cluster of one: it starts to
    read at its saved position without an election, and never hands anything
    to followers. *)
Theorem standalone_starts c co ag db ad listen_ok f p i wn old m :
  complete c co ag db ad -> co_Enabled co = false -> ag_Enabled ag = false ->
  pos_ok f p i -> (length (packPos f p i) <= wn)%nat -> f <> [] -> 0 < p ->
  exists prog, setup c listen_ok (write_at (packPos f p i) wn old) (Some m) = Ret prog /\
    let h := run (reader_event false) [BStartTurn; BRunner] (pr_reader prog) in
    runs h = [mkPosition f (resume_at f p m)] /\ EventIndex h = i /\ has binlogIsRunning h = true /\
    forall evs, (env (run (reader_event false) evs h)).2 = NewServer.
Proof. apply standalone_reads. Qed.

(** A node of a cluster does not read before it is elected; when it is, it
    starts at its saved position. *)
Theorem clustered_waits c co ag db ad listen_ok f p i wn old m addr dial :
  complete c co ag db ad -> co_Enabled co = false -> ag_Enabled ag = true -> agent_address ag = Ret addr ->
  pos_ok f p i -> (length (packPos f p i) <= wn)%nat -> f <> [] -> 0 < p ->
  exists prog, setup c listen_ok (write_at (packPos f p i) wn old) (Some m) = Ret prog /\
    pr_agent prog = agent disk /\ pr_address prog = addr /\
    let h := pr_reader prog in
    run (reader_event true) [BStartTurn; BRunner] h = h /\ runs h = [] /\ EventIndex h = i /\
    runs (reader_turns Marshal (AgentClient.env (elected disk dial (NewClient h)))) = [mkPosition f (resume_at f p m)].
Proof.
  intros Hc Hco Ha Haddr Hok Hwn Hf Hp.
  rewrite (setup_eq c co ag db ad listen_ok f p i wn old m _ Hc Hco Haddr Hok Hwn Hf Hp). rewrite Ha.
  destruct (started_idle db listen_ok f p i wn old m) as [Hr Hs Hst Hru Hlf Hlp Hi Hsv].
  revert Hr Hs Hst Hru Hlf Hlp Hi Hsv. generalize (started db listen_ok f p i wn old m).
  intros h0 Hr Hs Hst Hru Hlf Hlp Hi Hsv.
  assert (Eb : bind_agent true h0 = (h0, Ret (agent disk))) by reflexivity.
  rewrite Eb. cbv beta iota delta [fst snd obind]. eexists. split; [reflexivity|].
  cbv beta iota zeta delta [pr_reader pr_agent pr_address].
  split; [reflexivity|]. split; [reflexivity|].
  split.
  { unfold run. cbn [foldl]. unfold reader_event, on_binlog_event, lookStartService_turn, runner_start, bind, gets.
    cbn [id]. rewrite Hs. cbn [lift fst]. by rewrite Hst. }
  split; [exact Hru|]. split; [exact Hi|].
  rewrite elected_runs; cbn [NewClient AgentClient.env]; rewrite ?Hlf, ?Hlp, ?Hru; done.
Qed.

(** ** The configured position *)

(** A configuration with another start position. *)
Definition with_position (f : bytes) (p : Z) (c : GlobalConfig) : GlobalConfig :=
  mkGlobalConfig (Log c) (Admin c) (TimeZone c)
    ((fun db => mkDatabaseConfig (Host db) (db_Port db) (User db) (Password db) (Charset db) (ServerID db)
       (Flavor db) (HeartbeatPeriod db) (db_ReadTimeout db) f p) <$> Database c)
    (Listen c) (Consul c) (cfg_Agent c).

(** [handlerInit] overwrites the configured position before it reads it. *)
Lemma handlerInit_config masterPos f p (h : reader) :
  let r1 := handlerInit masterPos h in
  let r2 := handlerInit masterPos (Binlog.with_config f p h) in
  r1.2 = r2.2 /\ (r1.2 = Ret tt -> r1.1 = r2.1).
Proof.
  cbv zeta. unfold handlerInit, handlerInit_from, set_bit, setHandler_from, bind, modify, gets, lift, ret. cbn [id].
  set (h1 := Binlog.with_status _ h). set (h2 := Binlog.with_status _ (Binlog.with_config f p h)).
  change (getBinlogPositionCache h2) with (getBinlogPositionCache h1).
  destruct (getBinlogPositionCache h1) as [[[f' p'] i']| | |]; try by split.
  destruct masterPos as [m|]; [|by split].
  by destruct (negb (bool_decide (f' = [])) && (0 <? p')).
Qed.

Lemma wire_config {A} (k : M reader A) masterPos f p (h : reader) :
  let r1 := (handlerInit masterPos ;; k) h in
  let r2 := (handlerInit masterPos ;; k) (Binlog.with_config f p h) in
  r1.2 = r2.2 /\ forall a, r1.2 = Ret a -> r1.1 = r2.1.
Proof.
  destruct (handlerInit_config masterPos f p h) as [H1 H2]. cbv zeta in *. revert H1 H2. unfold bind.
  generalize (handlerInit masterPos h) (handlerInit masterPos (Binlog.with_config f p h)).
  intros [g1 r1] [g2 r2]. cbn [fst snd]. intros <- H2. destruct r1 as [[]| | |]; [by rewrite H2|done..].
Qed.

(** The start position of the configuration has no effect: without a cached
    position the reader starts at the master's end, with one at the cached
    position, whatever the configuration says. *)
Theorem setup_ignores_position c f p listen_ok file masterPos :
  setup (with_position f p c) listen_ok file masterPos = setup c listen_ok file masterPos.
Proof.
  unfold setup. cbn [with_position Consul Listen cfg_Agent Database Admin].
  destruct (Consul c) as [co|]; [|done]. cbn [deref obind].
  destruct (NewTCPService _ _ _ _) as [ts| | |]; try done. cbn [obind].
  destruct (cfg_Agent c) as [ag|]; [|done]. cbn [deref obind].
  destruct (agent_address ag) as [addr| | |]; try done. cbn [obind].
  destruct (Database c) as [db|]; [|done]. cbn [fmap option_fmap option_map deref obind db_BinlogFile db_BinlogPos].
  set (h0 := fresh (E:=outlets) file (ts.1, NewServer)).
  set (h1 := Binlog.with_config (E:=outlets) (db_BinlogFile db) (db_BinlogPos db) h0).
  change (Binlog.with_config (E:=outlets) f p h0) with (Binlog.with_config (E:=outlets) f p h1).
  set (k := blog_Start listen_ok ;; bind_agent (ag_Enabled ag)).
  destruct (wire_config k masterPos f p h1) as [H1 H2]. cbv zeta in *. revert H1 H2.
  generalize ((handlerInit masterPos ;; k) h1) ((handlerInit masterPos ;; k) (Binlog.with_config f p h1)).
  intros [g1 r1] [g2 r2]. cbn [fst snd]. intros <- H2. destruct r1 as [s| | |]; [by rewrite (H2 s)|done..].
Qed.
End Main.

(** ** Instances *)
Section MainInstances.
#[local] Definition grow2 (c n : nat) : nat := (2 * n)%nat.
#[local] Definition any (p s : bytes) : option bool := Some true.
#[local] Definition marshal (d : row_data) : option bytes := Some (rd_event_type d).
#[local] Definition lower (s : bytes) : bytes := s.
#[local] Definition logfile : bytes := gostr "mysql-bin.000059".
#[local] Definition db0 : DatabaseConfig :=
  mkDatabaseConfig (gostr "127.0.0.1") 3306 [] [] [] 1 [] 0 0 (gostr "mysql-bin.000001") 4.
#[local] Definition co0 (on : bool) : ConsulConfig := mkConsulConfig on (gostr "127.0.0.1:8500").
#[local] Definition ag0 (on : bool) : AgentConfig :=
  mkAgentConfig on (gostr "agent_lock") (gostr "10.0.0.1:9999") (gostr "127.0.0.1:8500").
#[local] Definition config0 (consul agent : bool) : GlobalConfig :=
  mkGlobalConfig (Some (mkLogConfig [])) (Some (mkAdminConfig false [])) [] (Some db0) (gostr "10.0.0.1:9990")
    (Some (co0 consul)) (Some (ag0 agent)).
#[local] Definition cache0 : bytes := write_at (packPos logfile 500 7) 100 [].

#[local] Lemma cache0_ok : pos_ok logfile 500 7.
Proof. split; [small|lia|lia]. Qed.

Lemma standalone_starts_witness :
  exists prog, setup grow2 any length (config0 false false) true cache0 (Some (mkPosition logfile 900)) = Ret prog /\
    let h := run (reader_event marshal false) [BStartTurn; BRunner] (pr_reader prog) in
    runs h = [mkPosition logfile 500] /\ EventIndex h = 7 /\ has binlogIsRunning h = true /\
    forall evs, (env (run (reader_event marshal false) evs h)).2 = NewServer.
Proof.
  apply (standalone_starts grow2 any marshal length (config0 false false) (co0 false) (ag0 false) db0 (mkAdminConfig false [])
    true logfile 500 7 100 [] (mkPosition logfile 900));
    [by split|done|done|exact cache0_ok|small|done|lia].
Defined.

Lemma clustered_waits_witness :
  exists prog, setup grow2 any length (config0 false true) true cache0 (Some (mkPosition logfile 400)) = Ret prog /\
    pr_agent prog = agent length /\ pr_address prog = (gostr "10.0.0.1", 9999) /\
    let h := pr_reader prog in
    run (reader_event marshal true) [BStartTurn; BRunner] h = h /\ runs h = [] /\ EventIndex h = 7 /\
    runs (reader_turns marshal (AgentClient.env (elected length (fun _ => None) (NewClient h)))) =
      [mkPosition logfile 400].
Proof.
  apply (clustered_waits grow2 any marshal length (config0 false true) (co0 false) (ag0 true) db0 (mkAdminConfig false [])
    true logfile 500 7 100 [] (mkPosition logfile 400));
    [by split|done|done|reflexivity|exact cache0_ok|small|done|lia].
Defined.

Lemma program_invariant_witness :
  exists prog, setup grow2 any length (config0 true true) true cache0 (Some (mkPosition logfile 400)) = Ret prog /\
    let h := run (on_program_event grow2 any marshal lower true)
      [PAccept false (Some (1%nat, 2)); PFollower (EvAccept 3); PReader (BLeader true); PReader BStartTurn;
       PReader (BPosSynced (mkPosition logfile 450) 40); PReader BClose] (pr_reader prog) in
    service_ok grow2 any (env h).1 /\ server_ok (env h).2.
Proof.
  assert (Hr : match setup grow2 any length (config0 true true) true cache0 (Some (mkPosition logfile 400)) with
               | Ret _ => true | _ => false end = true) by (vm_compute; reflexivity).
  destruct (setup grow2 any length (config0 true true) true cache0 (Some (mkPosition logfile 400))) as [prog| | |] eqn:E;
    [|discriminate Hr..].
  exists prog. split; [done|].
  by apply (program_invariant grow2 any marshal length lower (config0 true true) (co0 true) (ag0 true) true cache0
    (Some (mkPosition logfile 400)) prog _ E).
Defined.
End MainInstances.
