(* ===== verification/Services.v ===== *)
(** * The services of the reader

    [services.IService] ([src/services/service_config.go]) is what the binlog
    reader knows of a service; it keeps the services in a map under their
    names ([RegisterService] of [src/binlog/binlog_handler.go]) next to the
    callbacks its options set ([src/binlog/binlog.go]).  The parameters of the
    reader's model - what it publishes to, starts and closes - are the values
    of this map and these lists. *)
From S2P Require Import Prelude.
From S2P Require Import GoSem.
From S2P Require Import SubService.
From S2P Require Import Binlog.
From S2P Require Import Cluster.
From S2P Require Main.
Set Default Proof Using "Type".

Section Services.
Context {S : Type}.

(** [listen_ok]: whether the port of the service is free. *)
Record IService := mkIService {
  svc_SendAll : bytes -> bytes -> M S bool;
  svc_Start : bool -> M S unit;
  svc_Close : M S unit;
  svc_Reload : M S unit;
  svc_Name : bytes
}.

Record registry := mkRegistry {
  services : gmap bytes IService;
  onPosChanges : list (bytes -> M S unit);
  onEvent : list (bytes -> bytes -> M S unit)
}.

Definition Option_ : Type := registry -> registry.
Definition PosChange (f : bytes -> M S unit) : Option_ := fun h =>
  mkRegistry (services h) (onPosChanges h ++ [f]) (onEvent h).
Definition OnEvent (f : bytes -> bytes -> M S unit) : Option_ := fun h =>
  mkRegistry (services h) (onPosChanges h) (onEvent h ++ [f]).
Definition NewBinlog (opts : list Option_) : registry :=
  foldl (fun h f => f h) (mkRegistry ∅ [] []) opts.

Definition RegisterService (s : IService) (h : registry) : registry :=
  mkRegistry (<[svc_Name s := s]> (services h)) (onPosChanges h) (onEvent h).

(** The loops over [h.services] visit the values in some order. *)
Definition registered (h : registry) : list IService := map snd (map_to_list (services h)).

(** A service under a new name is published to, started and closed along with
    the others. *)
Theorem RegisterService_new s h :
  services h !! svc_Name s = None -> registered (RegisterService s h) ≡ₚ s :: registered h.
Proof.
  intros Hn. unfold registered, RegisterService. cbn [services].
  by rewrite (fmap_Permutation _ _ _ (map_to_list_insert (services h) (svc_Name s) s Hn)).
Qed.

(** One under a name in use takes the other's place, whatever was registered
    in between. *)
Theorem RegisterService_replaces s s' l h :
  svc_Name s' = svc_Name s -> (forall x, x ∈ l -> svc_Name x <> svc_Name s) ->
  RegisterService s' (foldr RegisterService (RegisterService s h) l) = RegisterService s' (foldr RegisterService h l).
Proof.
  intros En. induction l as [|x l IH]; intros Hl; cbn [foldr].
  - unfold RegisterService. cbn [services onPosChanges onEvent]. by rewrite En, insert_insert_eq.
  - assert (Hc : forall k, RegisterService s' (RegisterService x k) = RegisterService x (RegisterService s' k)).
    { intros k. unfold RegisterService. cbn [services onPosChanges onEvent]. rewrite insert_insert_ne; [done|].
      rewrite En. intros Ex. apply (Hl x); [by left|done]. }
    rewrite !Hc, IH; [done|]. intros y Hy. apply Hl. by right.
Qed.
End Services.
Arguments IService : clear implicits.
Arguments registry : clear implicits.

(** ** The registry of [main] *)

(** [TCPService] as a service. *)
Definition subscribe : IService outlets := {|
  svc_SendAll table data := on_service (SendAll table data);
  svc_Start listen_ok := on_service (Start listen_ok);
  svc_Close := on_service SubService.Close;
  svc_Reload := on_service SubService.Reload;
  svc_Name := gostr "subscribe"
|}.

Definition main_registry (enabled : bool) : registry outlets :=
  RegisterService subscribe (NewBinlog [PosChange (Main.PosChange enabled); OnEvent (Main.OnEvent enabled)]).

(** The events of a reader with a registry, and its start. *)
Definition registry_event (h : registry outlets) (Marshal : row_data -> option bytes) : binlog_event -> M reader unit :=
  on_binlog_event (map svc_SendAll (registered h)) (map svc_Close (registered h)) (onEvent h) (onPosChanges h) Marshal.
Definition Start_all (h : registry outlets) (listen_ok : bool) : M reader unit :=
  range (registered h) (fun s => Binlog.in_env (svc_Start s listen_ok)).

Lemma main_registered enabled : registered (main_registry enabled) = [subscribe].
Proof.
  unfold registered, main_registry, RegisterService, NewBinlog. cbn [services foldl PosChange OnEvent].
  by rewrite insert_empty, map_to_list_singleton.
Qed.

(** With the options and the service [main] gives it the reader is the one of
    [Main]: it publishes to the subscription service and to the followers, and
    starts and closes that one service. *)
Theorem main_wiring enabled Marshal listen_ok :
  registry_event (main_registry enabled) Marshal = Main.reader_event Marshal enabled /\
  forall h, Start_all (main_registry enabled) listen_ok h = Main.blog_Start listen_ok h.
Proof.
  unfold registry_event, Start_all. rewrite main_registered. split; [reflexivity|]. intros h. cbn [range].
  unfold Main.blog_Start, subscribe. cbn [svc_Start]. unfold bind. by destruct (Binlog.in_env _ h) as [h' [[]| | |]].
Qed.

(** Two services, the first registered twice. *)
Section Instances.
#[local] Definition quiet (name : bytes) (answer : bool) : IService nat :=
  mkIService (fun _ _ => modify Datatypes.S ;; ret answer) (fun _ => ret tt) (ret tt) (ret tt) name.
#[local] Definition two : registry nat :=
  RegisterService (quiet (gostr "b") true) (RegisterService (quiet (gostr "a") true) (NewBinlog [])).

Lemma RegisterService_new_witness :
  registered (RegisterService (quiet (gostr "c") true) two) ≡ₚ quiet (gostr "c") true :: registered two.
Proof. apply (RegisterService_new (quiet (gostr "c") true) two). vm_compute. reflexivity. Defined.

Lemma RegisterService_replaces_witness :
  RegisterService (quiet (gostr "a") false) two =
  RegisterService (quiet (gostr "a") false) (RegisterService (quiet (gostr "b") true) (NewBinlog [])).
Proof.
  apply (RegisterService_replaces (quiet (gostr "a") true) (quiet (gostr "a") false) [quiet (gostr "b") true] (NewBinlog []));
    [reflexivity|]. intros x ->%list_elem_of_singleton. vm_compute. congruence.
Defined.
End Instances.
