(* ===== verification/Program.v ===== *)
(** * The whole program

    [main] of [src/main.go] from its command line to its end: the flags, the
    configuration ([Config.v] on the text of [Settings.v]), [Init] ([App.v]),
    the set-up of the parts ([Main.v]), the routes of the administration
    server, and what the deferred [recover] makes of a panic. *)
From S2P Require Import Prelude.
From S2P Require Import GoSem.
From S2P Require Import SubService.
From S2P Require Import Codec.
From S2P Require Import AgentServer.
From S2P Require Import AgentService.
From S2P Require Import PosCodec.
From S2P Require Import Binlog.
From S2P Require Import Cluster.
From S2P Require Import Config.
From S2P Require Import App.
From S2P Require Import Settings.
From S2P Require Import Context.
From S2P Require Import Consul.
From S2P Require Import Members.
From S2P Require Import Main.
Set Default Proof Using "Type".

(** ** The command line ([flag]) *)
Record flags := mkFlags {
  versionCmd : bool; vCmd : bool; helpCmd : bool; hCmd : bool; daemonCmd : bool; dCmd : bool
}.
Definition no_flags : flags := mkFlags false false false false false false.

(** [strconv.ParseBool]. *)
Definition ParseBool (s : bytes) : option bool :=
  if decide (s ∈ map gostr ["1"; "t"; "T"; "TRUE"; "true"; "True"]%string) then Some true
  else if decide (s ∈ map gostr ["0"; "f"; "F"; "FALSE"; "false"; "False"]%string) then Some false
  else None.

Definition set_flag (name : bytes) (b : bool) (fl : flags) : option flags :=
  let named s := bool_decide (name = gostr s) in
  if named "version"%string then Some (mkFlags b (vCmd fl) (helpCmd fl) (hCmd fl) (daemonCmd fl) (dCmd fl))
  else if named "v"%string then Some (mkFlags (versionCmd fl) b (helpCmd fl) (hCmd fl) (daemonCmd fl) (dCmd fl))
  else if named "help"%string then Some (mkFlags (versionCmd fl) (vCmd fl) b (hCmd fl) (daemonCmd fl) (dCmd fl))
  else if named "h"%string then Some (mkFlags (versionCmd fl) (vCmd fl) (helpCmd fl) b (daemonCmd fl) (dCmd fl))
  else if named "daemon"%string then Some (mkFlags (versionCmd fl) (vCmd fl) (helpCmd fl) (hCmd fl) b (dCmd fl))
  else if named "d"%string then Some (mkFlags (versionCmd fl) (vCmd fl) (helpCmd fl) (hCmd fl) (daemonCmd fl) b)
  else None.

(** A name and the value behind its first [=]. *)
Fixpoint cut (s : bytes) : bytes * option bytes :=
  match s with
  | [] => ([], None)
  | b :: s => if decide (b = Z_byte 61) then ([], Some s) else (b :: (cut s).1, (cut s).2)
  end.
Definition dash : byte := Z_byte 45.
(** [FlagSet.parseOne] on what stands behind the dashes. *)
Definition one_flag (s : bytes) (fl : flags) : option flags :=
  match s with
  | [] => None
  | b :: _ =>
      if decide (b = dash) then None
      else if decide (b = Z_byte 61) then None
      else match (cut s).2 with
           | None => set_flag (cut s).1 true fl
           | Some v => ParseBool v ≫= fun b => set_flag (cut s).1 b fl
           end
  end.
(** [flag.Parse]; [None]: the usage is printed and the process ends. *)
Fixpoint Parse (args : list bytes) (fl : flags) : option flags :=
  match args with
  | [] => Some fl
  | s :: args =>
      match s with
      | a :: b :: r =>
          if negb (bool_decide (a = dash)) then Some fl
          else if bool_decide (b = dash) then
            match r with [] => Some fl | _ => one_flag r fl ≫= Parse args end
          else one_flag (b :: r) fl ≫= Parse args
      | _ => Some fl
      end
  end.

(** ** The administration server *)

(** [net/http]'s [cleanPath]. *)
Definition cleanPath (p : bytes) : bytes :=
  match p with
  | [] => [slash]
  | b :: _ =>
      let q := if decide (b = slash) then p else slash :: p in
      let np := Clean q in
      if bool_decide (last q = Some slash) && negb (bool_decide (np = [slash])) then np ++ [slash] else np
  end.
Inductive reply := Text (s : bytes) | MovedTo (path : bytes) | NotFound.
Section Admin.
Context {C : Type} {HA : ConsulAPI C}.
(** The routes of [main]. *)
Definition serve (enabled : bool) (name address : bytes) (hostname : option bytes) (c : C) (path : bytes) : outcome reply :=
  if negb (bool_decide (cleanPath path = path)) then Ret (MovedTo (cleanPath path))
  else if bool_decide (path = gostr "/health") then
    obind (ShowMembers enabled name address hostname c) (fun s => Ret (Text s))
  else if bool_decide (path = gostr "/reload") then Ret (Text (gostr "reload"))
  else if bool_decide (path = gostr "/stop") then Ret (Text (gostr "stop"))
  else if bool_decide (path = gostr "/start") then Ret (Text (gostr "start"))
  else Ret NotFound.
End Admin.

(** ** [main] *)
Section Program.
Context {F : Type} {HF : Files F} (ParseLevel : bytes -> option Z).
Variable growcap : nat -> nat -> nat.
Variable MatchString : bytes -> bytes -> option bool.
Variable disk : bytes -> nat.

(** What becomes of the process: its exit status, or it runs - and how. *)
Inductive process :=
  | Exited (status : Z)
  | Stuck
  | Up (g : Globals) (x : Context) (p : program).

(** A panic of [main] is printed by its deferred function, and [main] returns. *)
Definition recover {A} (o : outcome A) (k : A -> process) : process :=
  match o with Ret a => k a | Panic => Exited 0 | Block | OutOfFuel => Stuck end.

(** What the program is started in: its file, its process id, the level of the
    log, whether its port is free, the position cache and what the master
    answers. *)
Record surroundings := mkSurroundings {
  executable : option bytes;
  pid : Z;
  log_level : Z;
  port_free : bool;
  cache_file : bytes;
  master_position : option Position
}.

Definition main (args : list bytes) (w : surroundings) (fs : F) : F * process :=
  match Parse args no_flags with
  | None => (fs, Exited 2)
  | Some fl =>
      if helpCmd fl || hCmd fl then (fs, Exited 0)
      else if versionCmd fl || vCmd fl then (fs, Exited 0)
      else match ParseConfig UnmarshalConfig fs (executable w) [] (mkGlobals [] None) with
           | (g, Ret (inr c)) =>
               let r := Init ParseLevel (pid w) g (log_level w) fs in
               (r.1, recover r.2 (fun _ =>
                 recover (setup growcap MatchString disk c (port_free w) (cache_file w) (master_position w))
                   (Up g (NewContext g))))
           | (_, Ret (inl _)) => (fs, Exited 1)
           | (_, Panic) => (fs, Exited 0)
           | (_, _) => (fs, Stuck)
           end
  end.
End Program.

(** ** Starting never hangs *)
Definition answers {A} (o : outcome A) : Prop := match o with Ret _ | Panic => True | Block | OutOfFuel => False end.

Lemma answers_bind {A B} (o : outcome A) (k : A -> outcome B) :
  answers o -> (forall a, answers (k a)) -> answers (obind o k).
Proof. intros Ho Hk. destruct o; [apply Hk|done..]. Qed.
Lemma answers_index {A} (l : list A) i : answers (index l i).
Proof. unfold index. by repeat case_match. Qed.
Lemma answers_deref {A} (o : option A) : answers (deref o).
Proof. by destruct o. Qed.
#[local] Hint Resolve answers_bind answers_index answers_deref : core.

Lemma answers_unpackPos data : answers (unpackPos data).
Proof.
  unfold unpackPos, read_word64.
  repeat first [apply answers_bind; [|intros ?] | apply answers_index | case_match | exact I].
  unfold sub. by repeat case_match.
Qed.

Section Answers.
Variable growcap : nat -> nat -> nat.
Variable MatchString : bytes -> bytes -> option bool.
Variable disk : bytes -> nat.
Implicit Types h : reader.

(** Two actions one after the other, when the first leaves the start channel
    alone. *)
Lemma answers_then {A B} (m : M reader A) (k : A -> M reader B) h :
  answers (m h).2 -> (forall a h', m h = (h', Ret a) -> answers (k a h').2) -> answers (bind m k h).2.
Proof. unfold bind. destruct (m h) as [h' [a| | |]]; cbn; intros H Hk; by try apply Hk. Qed.

Lemma answers_handlerInit m h : answers (handlerInit m h).2 /\
  startServiceChan (handlerInit m h).1 = startServiceChan h.
Proof.
  unfold handlerInit, handlerInit_from, set_bit, setHandler_from, bind, modify, gets, lift, ret. cbn [id].
  match goal with |- context [getBinlogPositionCache ?h] =>
    assert (Ha : answers (getBinlogPositionCache h));
      [unfold getBinlogPositionCache; repeat case_match; try exact I; apply answers_unpackPos
      |destruct (getBinlogPositionCache h) as [[[f p] i]| | |]] end; try done.
  destruct m as [m|]; [|done]. by destruct (negb (bool_decide (f = [])) && (0 <? p)).
Qed.
Lemma answers_bind_agent enabled h : startServiceChan h = 0%nat -> answers (bind_agent disk enabled h).2.
Proof.
  intros Hc. unfold bind_agent, AgentService.OnLeader. case_match; [|done].
  rewrite (bind_ret _ _ _ _ _ (OnLeader_idle h Hc)). exact I.
Qed.
Lemma Start_service ok (t : TCPService) : exists t', Start ok t = (t', Ret tt).
Proof.
  unfold Start, bind, gets, modify, ret. destruct (Z.land (SubService.status t) serviceEnable <=? 0) eqn:E1; cbn; rewrite E1; [by eexists|].
  destruct (0 <? Z.land (SubService.status t) serviceClosed) eqn:E2; destruct ok; by eexists.
Qed.
Lemma Start_reader ok h : exists h', blog_Start ok h = (h', Ret tt) /\ startServiceChan h' = startServiceChan h.
Proof.
  unfold blog_Start, Binlog.in_env, on_service. destruct (Start_service ok (env h).1) as [t' ->]. by eexists.
Qed.

(** Setting the parts up gives a program or panics. *)
Lemma answers_setup c ok file m : answers (setup growcap MatchString disk c ok file m).
Proof.
  unfold setup. apply answers_bind; [apply answers_deref|intros co].
  apply answers_bind; [|intros ts; apply answers_bind; [apply answers_deref|intros ag]].
  { unfold NewTCPService. case_match; [|exact I].
    repeat (apply answers_bind; [first [apply answers_index|unfold NewService; by repeat case_match]|intros ?]). exact I. }
  apply answers_bind; [|intros addr; apply answers_bind; [apply answers_deref|intros db]].
  { unfold agent_address. case_match; [exact I|]. repeat (apply answers_bind; [apply answers_index|intros ?]). exact I. }
  cbv zeta. apply answers_bind; [|intros s; apply answers_bind; [apply answers_deref|done]].
  set (h0 := Binlog.with_config _ _ _). destruct (answers_handlerInit m h0) as [H1 H2].
  apply answers_then; [done|]. intros [] h1 E1. apply answers_then.
  - destruct (Start_reader ok h1) as (h2 & -> & _). exact I.
  - intros [] h2 E2. apply answers_bind_agent. destruct (Start_reader ok h1) as (h2' & E & Hs). rewrite E in E2.
    injection E2 as <-. rewrite Hs. rewrite E1 in H2. exact H2.
Qed.
End Answers.

(** ** What becomes of the process *)
Section Outcome.
Context {F : Type} {HF : Files F} (ParseLevel : bytes -> option Z).
Variable growcap : nat -> nat -> nat.
Variable MatchString : bytes -> bytes -> option bool.
Variable disk : bytes -> nat.
Implicit Types (w : surroundings) (fs : F).
#[local] Abbreviation start := (main ParseLevel growcap MatchString disk).
#[local] Abbreviation set_up c w := (setup growcap MatchString disk c (port_free w) (cache_file w) (master_position w)).

(** The file with the process id. *)
Definition pid_written w fs : F := (WriteString PID_FILE (gostr (pretty.pretty (pid w))) fs).1.
Definition informs (fl : flags) : bool := helpCmd fl || hCmd fl || versionCmd fl || vCmd fl.

Lemma start_eq args fl w fs exe : Parse args no_flags = Some fl -> informs fl = false -> executable w = Some exe ->
  start args w fs =
    match first_existing fs (candidates exe []) with
    | None => (fs, Exited 1)
    | Some f =>
        match load_file UnmarshalConfig fs f with
        | inl _ => (fs, Exited 1)
        | inr c =>
            let g := mkGlobals f (Some c) in
            (pid_written w fs,
             match Log c, set_up c w with
             | Some _, Ret p => Up g (NewContext g) p
             | _, _ => Exited 0
             end)
        end
    end.
Proof.
  unfold informs, main. intros -> Hi Hx. apply orb_false_elim in Hi as [Hi Hv]. apply orb_false_elim in Hi as [Hh Hver].
  rewrite Hh, Hver, Hv, Hx. cbn [orb]. rewrite parse_first. destruct (first_existing fs _) as [f|]; [|done].
  destruct (load_file UnmarshalConfig fs f) as [e|c]; [done|]. cbn [loaded]. unfold Init, pid_written. cbn [Config config].
  destruct (Log c) as [l|]; [|done]. cbn [fst snd recover]. f_equal.
  pose proof (answers_setup growcap MatchString disk c (port_free w) (cache_file w) (master_position w)) as Ha.
  by destruct (set_up c w).
Qed.

(** C27: A start ends in one of three ways.  Without a file that can be read and
    parsed the process ends with status 1 and nothing was touched.  With one,
    the process id is written, and the program is up as [setup] made it - or
    something panicked, a section that is missing, an address without a port,
    a master that does not answer: then the deferred [recover] prints it and
    the process ends with status 0, the status of success.  It never hangs. *)
Theorem main_outcome args fl w fs exe :
  Parse args no_flags = Some fl -> informs fl = false -> executable w = Some exe ->
  start args w fs =
    match first_existing fs (candidates exe []) with
    | None => (fs, Exited 1)
    | Some f =>
        match load_file UnmarshalConfig fs f with
        | inl _ => (fs, Exited 1)
        | inr c =>
            let g := mkGlobals f (Some c) in
            (pid_written w fs,
             match Log c, set_up c w with
             | Some _, Ret p => Up g (NewContext g) p
             | _, _ => Exited 0
             end)
        end
    end.
Proof. apply start_eq. Qed.

(** A program that came up has all sections. *)
Lemma setup_sections c w p : set_up c w = Ret p ->
  is_Some (Admin c) /\ is_Some (Database c) /\ is_Some (Consul c) /\ is_Some (cfg_Agent c).
Proof.
  unfold setup. destruct (Consul c) as [co|]; [|done]. cbn [deref obind].
  destruct (NewTCPService growcap MatchString _ _) as [ts| | |]; try done. cbn [obind].
  destruct (cfg_Agent c) as [ag|]; [|done]. cbn [deref obind]. destruct (agent_address ag); try done. cbn [obind].
  destruct (Database c) as [db|]; [|done]. cbn [deref obind]. cbv zeta. destruct (snd _) as [s| | |]; try done. cbn [obind].
  destruct (Admin c); [|done]. intros _. split_and!; by eexists.
Qed.

(** A configuration that lacks a section never comes up, and the process
    reports success. *)
Theorem missing_section_succeeds args fl w fs exe f c :
  Parse args no_flags = Some fl -> informs fl = false -> executable w = Some exe ->
  first_existing fs (candidates exe []) = Some f -> load_file UnmarshalConfig fs f = inr c ->
  Log c = None \/ Admin c = None \/ Database c = None \/ Consul c = None \/ cfg_Agent c = None ->
  start args w fs = (pid_written w fs, Exited 0).
Proof.
  intros Hp Hi Hx Hf Hl Hc. rewrite (start_eq args fl w fs exe Hp Hi Hx), Hf, Hl. cbv zeta. f_equal.
  destruct (Log c) as [l|] eqn:El; [|done]. destruct (set_up c w) as [p| | |] eqn:Es; try done.
  apply setup_sections in Es as ([? ?] & [? ?] & [? ?] & [? ?]). by destruct Hc as [?|[?|[?|[?|?]]]]; simplify_eq.
Qed.

(** *** The flags nobody reads *)
Definition same_answers (a b : flags) : Prop :=
  versionCmd a = versionCmd b /\ vCmd a = vCmd b /\ helpCmd a = helpCmd b /\ hCmd a = hCmd b.
Lemma set_flag_same name v a b : same_answers a b ->
  option_Forall2 same_answers (set_flag name v a) (set_flag name v b).
Proof.
  intros (H1 & H2 & H3 & H4). unfold set_flag. repeat case_match; constructor; by split_and!.
Qed.
Lemma one_flag_same s a b : same_answers a b -> option_Forall2 same_answers (one_flag s a) (one_flag s b).
Proof.
  intros H. unfold one_flag. destruct s as [|x s]; [constructor|]. repeat (case_decide; [constructor|]).
  destruct (cut (x :: s)).2 as [v|]; [|by apply set_flag_same]. destruct (ParseBool v); [by apply set_flag_same|constructor].
Qed.
Lemma Parse_same args : forall a b, same_answers a b -> option_Forall2 same_answers (Parse args a) (Parse args b).
Proof.
  induction args as [|s args IH]; intros a b H; [by constructor|]. destruct s as [|x [|y r]]; [by constructor..|].
  cbn [Parse]. destruct (negb _); [by constructor|].
  assert (Hone : forall t, option_Forall2 same_answers (one_flag t a ≫= Parse args) (one_flag t b ≫= Parse args)).
  { intros t. destruct (one_flag_same t a b H); [by apply IH|constructor]. }
  case_match; [destruct r; [by constructor|]|]; apply Hone.
Qed.

(** Asking for a daemon has no effect, anywhere before the other arguments. *)
Theorem daemon_ignored s args w fs : s ∈ map gostr ["-d"; "-daemon"; "--d"; "--daemon"; "-daemon=true"; "-d=0"]%string ->
  start (s :: args) w fs = start args w fs.
Proof.
  intros Hs. assert (exists fl, Parse (s :: args) no_flags = Parse args fl /\ same_answers fl no_flags) as (fl & E & Hfl).
  { cbn in Hs. repeat (apply elem_of_cons in Hs as [->|Hs]; [by eexists; split; [reflexivity|]|]).
    by apply not_elem_of_nil in Hs. }
  unfold main. rewrite E. destruct (Parse_same args fl no_flags Hfl) as [a b (-> & -> & -> & ->)|]; done.
Qed.
End Outcome.

(** ** The program as it is shipped *)
Section ShippedProgram.
Context {F : Type} {HF : Files F} (ParseLevel : bytes -> option Z).
Variable growcap : nat -> nat -> nat.
Variable MatchString : bytes -> bytes -> option bool.
Variable Marshal : row_data -> option bytes.
Variable disk : bytes -> nat.
Definition etc_config : bytes := gostr "/etc/copycat/cfg.json".

(** C26: With the shipped file, whatever its agent's [enable] is set to, the program
    comes up on its own: it reads at the position of its cache, without an
    election, and nothing it reads is ever handed to another node. *)
Theorem shipped_runs_alone s w (fs : F) exe f p i wn old m :
  s = gostr "false" \/ s = gostr "true" -> executable w = Some exe ->
  Stat etc_config fs = true -> ToTrimString etc_config fs = Some (cfg_json s) ->
  cache_file w = write_at (packPos f p i) wn old -> master_position w = Some m ->
  pos_ok f p i -> (length (packPos f p i) <= wn)%nat -> f <> [] -> 0 < p ->
  exists x prog, main ParseLevel growcap MatchString disk [] w fs =
      (pid_written w fs, Up (mkGlobals etc_config (Some shipped)) x prog) /\
    let event := reader_event Marshal false in
    let h := run event [BStartTurn; BRunner] (pr_reader prog) in
    runs h = [mkPosition f (resume_at f p m)] /\ EventIndex h = i /\ has binlogIsRunning h = true /\
    forall evs, (env (run event evs h)).2 = NewServer.
Proof.
  intros Hs Hx Hst Ht Hcf Hm Hok Hwn Hf Hp. rewrite (start_eq _ _ _ _ [] no_flags w fs exe eq_refl eq_refl Hx).
  assert (Ef : first_existing fs (candidates exe []) = Some etc_config).
  { unfold first_existing, candidates. cbn [blank]. rewrite filter_cons_True by done. done. }
  assert (El : load_file UnmarshalConfig fs etc_config = inr shipped).
  { unfold load_file. rewrite Ht. destruct Hs as [-> | ->].
    - by rewrite (decode_shipped (gostr "false") ltac:(auto)).
    - by rewrite (decode_shipped (gostr "true") ltac:(auto)). }
  rewrite Ef, El, Hcf, Hm. cbv zeta.
  destruct (standalone_reads growcap MatchString Marshal disk shipped shipped_consul shipped_agent shipped_database shipped_admin
    (port_free w) f p i wn old m) as (prog & E & H); try done.
  cbn [Log shipped]. rewrite E. eexists _, prog. split; [reflexivity|]. exact H.
Qed.
End ShippedProgram.

(** ** Concrete instances *)
Section ProgramInstances.
Import OneDisk.
Import OneConsul.
#[local] Definition no_level (s : bytes) : option Z := None.
#[local] Definition twice (c n : nat) : nat := (2 * n)%nat.
#[local] Definition no_match (p s : bytes) : option bool := None.
#[local] Definition no_row (d : row_data) : option bytes := None.
#[local] Definition logfile : bytes := gostr "mysql-bin.000059".
#[local] Definition start_main := main no_level twice no_match length.
#[local] Definition machine : surroundings :=
  mkSurroundings (Some (gostr "/opt/copycat/copycat")) 4711 4 true (packPos logfile 200 17) (Some (mkPosition logfile 900)).
#[local] Definition disk_with (s : bytes) : disk := mkDisk {[ etc_config := s ]} 100.

Example asks_for_help : start_main [gostr "-d"; gostr "--help"] machine (disk_with []) = (disk_with [], Exited 0).
Proof. reflexivity. Qed.
Example unknown_flag : start_main [gostr "-reload"] machine (disk_with []) = (disk_with [], Exited 2).
Proof. reflexivity. Qed.
Example stop_route : serve (C:=OneConsul.consul) true [] [] None OneConsul.empty (gostr "/stop") = Ret (Text (gostr "stop")).
Proof. reflexivity. Qed.
Example slashes_route : serve (C:=OneConsul.consul) true [] [] None OneConsul.empty (gostr "//a/../stop/") = Ret (MovedTo (gostr "/stop/")).
Proof. reflexivity. Qed.

Lemma main_outcome_witness :
  start_main [gostr "-d"] machine (disk_with (gostr "{")) = (disk_with (gostr "{"), Exited 1).
Proof.
  exact (main_outcome no_level twice no_match length [gostr "-d"] (mkFlags false false false false false true) machine
    (disk_with (gostr "{")) (gostr "/opt/copycat/copycat") eq_refl eq_refl eq_refl).
Defined.

Lemma missing_section_succeeds_witness :
  start_main [] machine (disk_with (quoted (gostr "{'log': {'level': 'info'}}"))) =
    (pid_written machine (disk_with (quoted (gostr "{'log': {'level': 'info'}}"))), Exited 0).
Proof.
  apply (missing_section_succeeds no_level twice no_match length [] no_flags machine _ (gostr "/opt/copycat/copycat") etc_config
    (mkGlobalConfig (Some (mkLogConfig (gostr "info"))) None [] None [] None None)); try reflexivity.
  right. left. reflexivity.
Defined.

Lemma daemon_ignored_witness :
  start_main [gostr "-daemon"; gostr "-v"] machine (disk_with []) = start_main [gostr "-v"] machine (disk_with []).
Proof. apply (daemon_ignored no_level twice no_match length (gostr "-daemon")). cbn. set_solver. Defined.

Lemma shipped_runs_alone_witness :
  exists x prog, start_main [] machine (disk_with (cfg_json (gostr "true"))) =
      (pid_written machine (disk_with (cfg_json (gostr "true"))), Up (mkGlobals etc_config (Some shipped)) x prog) /\
    runs (run (reader_event no_row false) [BStartTurn; BRunner] (pr_reader prog)) = [mkPosition logfile 200].
Proof.
  destruct (shipped_runs_alone no_level twice no_match no_row length (gostr "true") machine
    (disk_with (cfg_json (gostr "true"))) (gostr "/opt/copycat/copycat") logfile 200 17
    (length (packPos logfile 200 17)) [] (mkPosition logfile 900)) as (x & prog & E & H & _).
  - by right.
  - reflexivity.
  - reflexivity.
  - reflexivity.
  - reflexivity.
  - reflexivity.
  - split; vm_compute; intuition congruence.
  - apply le_n.
  - done.
  - lia.
  - exists x, prog. split; [exact E|exact H].
Defined.
End ProgramInstances.
